(** * Content translator: clone engine, reference tracker and relationship store

    A shallow embedding of the clone-and-incremental-translate core of the
    content translator (server/services/cloneService.js,
    deepReferenceTracker.js, changeDetectionService.js,
    contentfulMetadataService.js and incrementalTranslationService.js),
    followed by the properties proved about it.

    Conventions of the embedding:
    - a JavaScript string is a [string]; its characters stand for the code
      units below 256;
    - a JSON value is a [Value]; an object keeps its properties in insertion
      order as an association list, read and written by its own properties:
      a key that is a name every object inherits ("constructor",
      "__proto__", "toString", ...) is outside the embedding, and a
      statement about code that reads or writes a plain object under a key
      from the content says so in a hypothesis ([ownName], below);
    - an [async] method that can throw returns an [Outcome]; a method that
      also mutates the service or the CMS is a state transformer [M];
    - recursion through the CMS reference graph is bounded by fuel, and
      [OutOfFuel] is an outcome of its own that no [catch] intercepts. *)

From Stdlib Require Import ZArith String Ascii List Bool Lia.
From stdpp Require Import base strings list gmap pretty.

#[local] Set Warnings "-register-all".
#[local] Open Scope string_scope.
#[local] Open Scope Z_scope.

(** ** JavaScript strings *)

Module Js.

(** [text.startsWith(pre)] *)
Definition startsWith (text pre : string) : bool := String.prefix pre text.

(** [text.substring(n)] with one argument: the suffix from index [n]. *)
Fixpoint substringFrom (n : nat) (s : string) : string :=
  match n, s with
  | O, _ => s
  | S n', String _ s' => substringFrom n' s'
  | S _, EmptyString => EmptyString
  end.

(** White space removed by [trim]: TAB, LF, VT, FF, CR, SP and NBSP (the
    white space and line terminator code units below 256). *)
Definition isWhiteSpace (c : ascii) : bool :=
  let n := nat_of_ascii c in
  ((9 <=? n)%nat && (n <=? 13)%nat) || (n =? 32)%nat || (n =? 160)%nat.

Fixpoint trimStart (s : string) : string :=
  match s with
  | String c s' => if isWhiteSpace c then trimStart s' else s
  | EmptyString => EmptyString
  end.

Fixpoint trimEnd (s : string) : string :=
  match s with
  | String c s' =>
      let t := trimEnd s' in
      if isWhiteSpace c && String.eqb t "" then "" else String c t
  | EmptyString => EmptyString
  end.

(** [s.trim()] *)
Definition trim (s : string) : string := trimEnd (trimStart s).

(** A string is truthy when it is not empty. *)
Definition truthyStr (s : string) : bool := negb (String.eqb s "").

(** [a || b] on strings *)
Definition orStr (a b : string) : string := if truthyStr a then a else b.

(** [s.toUpperCase()] and [s.toLowerCase()] on the letters below 256 whose
    counterpart is below 256 as well. *)
Definition upperChar (c : ascii) : ascii :=
  let n := nat_of_ascii c in
  if ((97 <=? n)%nat && (n <=? 122)%nat)
     || ((224 <=? n)%nat && (n <=? 254)%nat && negb (n =? 247)%nat)
  then ascii_of_nat (n - 32) else c.

Definition lowerChar (c : ascii) : ascii :=
  let n := nat_of_ascii c in
  if ((65 <=? n)%nat && (n <=? 90)%nat)
     || ((192 <=? n)%nat && (n <=? 222)%nat && negb (n =? 215)%nat)
  then ascii_of_nat (n + 32) else c.

Fixpoint mapChars (f : ascii -> ascii) (s : string) : string :=
  match s with
  | String c s' => String (f c) (mapChars f s')
  | EmptyString => EmptyString
  end.

Definition toUpperCase : string -> string := mapChars upperChar.
Definition toLowerCase : string -> string := mapChars lowerChar.

(** The first occurrence of [pat] in [s]: the text before it and the text
    after it ([s.indexOf(pat)] with the two slices around the match). *)
Fixpoint splitAtFirst (pat s : string) : option (string * string) :=
  if String.prefix pat s
  then Some ("", substringFrom (String.length pat) s)
  else match s with
       | String c s' =>
           match splitAtFirst pat s' with
           | Some (before, after) => Some (String c before, after)
           | None => None
           end
       | EmptyString => None
       end.

(** [s.includes(pat)] *)
Definition includes (s pat : string) : bool :=
  match splitAtFirst pat s with Some _ => true | None => false end.

(** [list.includes(x)] on a list of strings *)
Definition includesStr (l : list string) (x : string) : bool :=
  existsb (String.eqb x) l.

(** The replacement text of [String.prototype.replace] when the pattern is
    a string: in the replacement, [$$] stands for a dollar sign, [$&] for the
    matched text, [$`] for the text before the match and [$'] for the text
    after it; without capture groups every other [$] is literal. *)
Fixpoint getSubstitution (matched before after repl : string) : string :=
  match repl with
  | String "$" (String "$" r) =>
      String "$" (getSubstitution matched before after r)
  | String "$" (String "&" r) =>
      matched +:+ getSubstitution matched before after r
  | String "$" (String "`" r) =>
      before +:+ getSubstitution matched before after r
  | String "$" (String "'" r) =>
      after +:+ getSubstitution matched before after r
  | String c r => String c (getSubstitution matched before after r)
  | EmptyString => EmptyString
  end.

(** [s.replace(pat, repl)] with a string pattern and a string replacement:
    only the first occurrence is replaced. *)
Definition replace (s pat repl : string) : string :=
  match splitAtFirst pat s with
  | Some (before, after) =>
      before +:+ getSubstitution pat before after repl +:+ after
  | None => s
  end.

Fixpoint reverseOnto (s acc : string) : string :=
  match s with
  | String c s' => reverseOnto s' (String c acc)
  | EmptyString => acc
  end.

(** [s.endsWith(suffix)] *)
Definition endsWith (s suffix : string) : bool :=
  String.prefix (reverseOnto suffix "") (reverseOnto s "").

(** The longest prefix of [s] without the character [stop], and the rest. *)
Fixpoint spanUntil (stop : ascii) (s : string) : string * string :=
  match s with
  | String c s' =>
      if Ascii.eqb c stop then ("", s)
      else let (run, rest) := spanUntil stop s' in (String c run, rest)
  | EmptyString => ("", "")
  end.

End Js.

(** ** Outcomes of calls that can throw *)

Inductive Outcome (A : Type) : Type :=
| Ok (a : A)
| Throw (message : string)
| OutOfFuel.

Arguments Ok {A} a.
Arguments Throw {A} message.
Arguments OutOfFuel {A}.

(** [try { body } catch (error) { handler }] *)
Definition tryCatch {A} (body : Outcome A) (handler : string -> Outcome A)
  : Outcome A :=
  match body with
  | Throw e => handler e
  | other => other
  end.

Definition bindO {A B} (x : Outcome A) (k : A -> Outcome B) : Outcome B :=
  match x with
  | Ok a => k a
  | Throw e => Throw e
  | OutOfFuel => OutOfFuel
  end.

(** A loop whose body can throw: [for (const b of l) { a = f(a, b) }] *)
Fixpoint foldO {A B} (f : A -> B -> Outcome A) (l : list B) (a : A)
  : Outcome A :=
  match l with
  | b :: rest => bindO (f a b) (foldO f rest)
  | [] => Ok a
  end.

(** The first element of [l] on which [f] answers: a loop that returns
    from inside its body. *)
Fixpoint firstSome {A B} (f : A -> option B) (l : list A) : option B :=
  match l with
  | a :: rest =>
      match f a with
      | Some b => Some b
      | None => firstSome f rest
      end
  | [] => None
  end.

(** ** JSON values and CMS entries *)

(** [VLink linkType id] is the link object
    [{sys: {type: 'Link', linkType, id}}]; [VObj] is any other object. *)
Inductive Value : Type :=
| VUndefined
| VNull
| VBool (b : bool)
| VNum (n : Z)
| VStr (s : string)
| VArr (items : list Value)
| VObj (props : list (string * Value))
| VLink (linkType id : string).

(** Property lookup in an object literal; a missing key reads [undefined].
    In the code a missing key that is a name every object inherits reads
    the inherited member instead, which is truthy: the lookup stands for the
    code on the other keys only. *)
Fixpoint lookupProp {A} (k : string) (props : list (string * A)) : option A :=
  match props with
  | (k', v) :: rest => if String.eqb k k' then Some v else lookupProp k rest
  | [] => None
  end.

(** [obj[k] = v]: overwrite in place, or append a new property. In the code
    the key "__proto__" sets the prototype of a plain object and adds no
    property, and keys that read as array indices are enumerated before the
    others: the update stands for the code on the other keys, and the order
    of the list is the order of insertion. *)
Fixpoint setProp {A} (k : string) (v : A) (props : list (string * A))
  : list (string * A) :=
  match props with
  | (k', v') :: rest =>
      if String.eqb k k' then (k', v) :: rest else (k', v') :: setProp k v rest
  | [] => [(k, v)]
  end.

Definition truthy (v : Value) : bool :=
  match v with
  | VUndefined | VNull => false
  | VBool b => b
  | VNum n => negb (n =? 0)
  | VStr s => Js.truthyStr s
  | VArr _ | VObj _ | VLink _ _ => true
  end.

(** [v && v.sys && v.sys.type === 'Link'], also written
    [v?.sys?.type === 'Link'] *)
Definition isLink (v : Value) : bool :=
  match v with VLink _ _ => true | _ => false end.

(** Truthiness of [v.sys] *)
Definition hasSys (v : Value) : bool :=
  match v with
  | VLink _ _ => true
  | VObj props =>
      match lookupProp "sys" props with Some s => truthy s | None => false end
  | _ => false
  end.

(** Truthiness of [v?.sys?.linkType] *)
Definition hasLinkType (v : Value) : bool :=
  match v with
  | VLink lt _ => Js.truthyStr lt
  | VObj props =>
      match lookupProp "sys" props with
      | Some (VObj sys) =>
          match lookupProp "linkType" sys with
          | Some x => truthy x
          | None => false
          end
      | _ => false
      end
  | _ => false
  end.

(** A field of an entry is keyed by locale. *)
Definition LocaleMap : Type := list (string * Value).

Record Entry : Type := mkEntry {
  sys_id : string;
  sys_contentType : string;
  sys_version : Z;
  sys_publishedVersion : option Z;
  fields : list (string * LocaleMap)
}.

(** [entry.sys.publishedVersion || entry.sys.version] *)
Definition currentVersionOf (e : Entry) : Z :=
  match sys_publishedVersion e with
  | Some v => if v =? 0 then sys_version e else v
  | None => sys_version e
  end.

Record Validation : Type := mkValidation {
  v_in : option (list Value)
}.

Record FieldDef : Type := mkFieldDef {
  fd_id : string;
  fd_type : string;
  fd_required : bool;
  fd_validations : option (list Validation)
}.

Record ContentType : Type := mkContentType {
  ct_fields : list FieldDef
}.

(** Answers of the external collaborators (CMS, translation provider): a
    promise is fulfilled with a value or rejected with an error message. *)
Inductive Answer (A : Type) : Type :=
| Fulfilled (a : A)
| Rejected (message : string).

Arguments Fulfilled {A} a.
Arguments Rejected {A} message.

(** [await promise] *)
Definition await {A} (p : Answer A) : Outcome A :=
  match p with
  | Fulfilled a => Ok a
  | Rejected e => Throw e
  end.

(** Options of the provider's [translateText]; a call without options has
    [preserveFormatting = false] and no [tagHandling]. *)
Record TranslateOptions : Type := mkTranslateOptions {
  preserveFormatting : bool;
  tagHandling : option string
}.

Definition noOptions : TranslateOptions := mkTranslateOptions false None.

(** [translator.translateText(text, sourceLang, targetLang, options)],
    answering with [result.text]. *)
Definition Translator : Type :=
  string -> string -> string -> TranslateOptions -> Answer string.

(** ** The clone service (cloneService.js) *)

Module CloneService.

(** The configuration set up by the constructor, with the two settings that
    [cloneEntry] fixes before the recursion starts. *)
Record Service : Type := mkService {
  prefix : string;
  prefixTargetFields : list string;
  prefixFieldTypes : list string;
  enabled : bool;
  sourceLanguage : string;
  targetLanguage : string;
  translateableTypes : list string;
  preservePrefix : bool;
  cultureMapping : list (string * string);
  cultureFieldNames : list string;
  emptyFieldsEnabled : bool;
  emptyFieldIds : list string;
  copyAsIsEnabled : bool;
  copyAsIsFieldIds : list string;
  authorEnabled : bool;
  authorFieldIds : list string;
  authorContentType : string;
  authorMatchFields : list string;
  authorCultureField : string;
  markdownEnabled : bool;
  markdownFieldMappings : list (string * list string);
  translator : option Translator;
  mainCmsPageSourceLanguage : option string
}.

(** [new ServerContentfulCloneService(cmaClient, deeplApiKey)]; [deepl] is
    the provider reached with the key. *)
Definition newService (deeplApiKey : string) (deepl : Translator) : Service :=
  let isEnabled := Js.truthyStr deeplApiKey in
  {| prefix := "[Clone]";
     prefixTargetFields := ["title"];
     prefixFieldTypes := ["Symbol"; "Text"];
     enabled := isEnabled;
     sourceLanguage := "";
     targetLanguage := "IT";
     translateableTypes := ["Symbol"; "Text"];
     preservePrefix := true;
     cultureMapping :=
       [("EN", "en-GB"); ("DE", "de-DE"); ("FR", "fr-FR"); ("IT", "it-IT");
        ("ES", "es-ES"); ("NL", "nl-NL"); ("PT", "pt-PT"); ("RU", "ru-RU");
        ("BG", "bg-BG"); ("CS", "cs-CZ"); ("HR", "hr-HR"); ("HU", "hu-HU");
        ("PL", "pl-PL"); ("RO", "ro-RO"); ("SV", "sv-SE"); ("TR", "tr-TR");
        ("UK", "uk-UA"); ("CA", "en-CA"); ("FR-CA", "fr-CA");
        ("FR-BE", "fr-BE"); ("NL-BE", "nl-BE"); ("FR-LU", "fr-LU");
        ("DE-AT", "de-AT")];
     cultureFieldNames := ["culture"];
     emptyFieldsEnabled := true;
     emptyFieldIds := ["slug"; "parentPage"; "productionUrl"; "authors"];
     copyAsIsEnabled := true;
     copyAsIsFieldIds :=
       ["domain"; "pageType"; "productionUrl"; "makeModel"; "publicationDate";
        "lastModificationDate"; "makeIds"; "modelIds"; "trackingName"];
     authorEnabled := true;
     authorFieldIds := ["authors"];
     authorContentType := "author";
     authorMatchFields := ["name"];
     authorCultureField := "locale";
     markdownEnabled := true;
     markdownFieldMappings :=
       [("author", ["bio"]); ("cmsPage", ["teaserText"]);
        ("evmodelfinder", ["additional_information"]);
        ("questionAnswer", ["answerLong"]); ("infobox", ["text"]);
        ("scSuperhero", ["text"; "bulletList"]); ("scBenefit", ["text"]);
        ("scMediaSection", ["text"; "bulletList"]); ("scTeaser", ["text"]);
        ("scText", ["content"]);
        ("tierPricingTableCell", ["content"; "tooltipText"]);
        ("tierPricingPlanTableSection", ["tooltipText"]);
        ("tierPricingPlan", ["description"])];
     translator := if isEnabled then Some deepl else None;
     mainCmsPageSourceLanguage := None |}.

Definition withTargetLanguage (svc : Service) (lang : string) : Service :=
  {| prefix := prefix svc;
     prefixTargetFields := prefixTargetFields svc;
     prefixFieldTypes := prefixFieldTypes svc;
     enabled := enabled svc;
     sourceLanguage := sourceLanguage svc;
     targetLanguage := lang;
     translateableTypes := translateableTypes svc;
     preservePrefix := preservePrefix svc;
     cultureMapping := cultureMapping svc;
     cultureFieldNames := cultureFieldNames svc;
     emptyFieldsEnabled := emptyFieldsEnabled svc;
     emptyFieldIds := emptyFieldIds svc;
     copyAsIsEnabled := copyAsIsEnabled svc;
     copyAsIsFieldIds := copyAsIsFieldIds svc;
     authorEnabled := authorEnabled svc;
     authorFieldIds := authorFieldIds svc;
     authorContentType := authorContentType svc;
     authorMatchFields := authorMatchFields svc;
     authorCultureField := authorCultureField svc;
     markdownEnabled := markdownEnabled svc;
     markdownFieldMappings := markdownFieldMappings svc;
     translator := translator svc;
     mainCmsPageSourceLanguage := mainCmsPageSourceLanguage svc |}.

Definition withMainSourceLanguage (svc : Service) (lang : option string)
  : Service :=
  {| prefix := prefix svc;
     prefixTargetFields := prefixTargetFields svc;
     prefixFieldTypes := prefixFieldTypes svc;
     enabled := enabled svc;
     sourceLanguage := sourceLanguage svc;
     targetLanguage := targetLanguage svc;
     translateableTypes := translateableTypes svc;
     preservePrefix := preservePrefix svc;
     cultureMapping := cultureMapping svc;
     cultureFieldNames := cultureFieldNames svc;
     emptyFieldsEnabled := emptyFieldsEnabled svc;
     emptyFieldIds := emptyFieldIds svc;
     copyAsIsEnabled := copyAsIsEnabled svc;
     copyAsIsFieldIds := copyAsIsFieldIds svc;
     authorEnabled := authorEnabled svc;
     authorFieldIds := authorFieldIds svc;
     authorContentType := authorContentType svc;
     authorMatchFields := authorMatchFields svc;
     authorCultureField := authorCultureField svc;
     markdownEnabled := markdownEnabled svc;
     markdownFieldMappings := markdownFieldMappings svc;
     translator := translator svc;
     mainCmsPageSourceLanguage := lang |}.

(** *** Field policy *)

Definition shouldPrefixField (fieldId : string) (prefixFieldIds : list string)
  : bool :=
  Js.includesStr prefixFieldIds fieldId.

Definition isCultureField (svc : Service) (fieldId : string) : bool :=
  existsb
    (fun cultureName =>
       Js.includes (Js.toLowerCase fieldId) (Js.toLowerCase cultureName))
    (cultureFieldNames svc).

Definition shouldEmptyField (svc : Service) (fieldId : string) : bool :=
  emptyFieldsEnabled svc && Js.includesStr (emptyFieldIds svc) fieldId.

Definition shouldCopyAsIs (svc : Service) (fieldId : string) : bool :=
  copyAsIsEnabled svc && Js.includesStr (copyAsIsFieldIds svc) fieldId.

Definition isMarkdownField (svc : Service) (contentTypeId fieldId : string)
  : bool :=
  if negb (markdownEnabled svc) then false
  else match lookupProp contentTypeId (markdownFieldMappings svc) with
       | Some contentTypeFields => Js.includesStr contentTypeFields fieldId
       | None => false
       end.

Definition isAuthorField (svc : Service) (fieldId : string) : bool :=
  authorEnabled svc && Js.includesStr (authorFieldIds svc) fieldId.

(** [this.cultureMapping[upperTargetLang] || null] *)
Definition getCultureValue (svc : Service) : option string :=
  match lookupProp (Js.toUpperCase (targetLanguage svc)) (cultureMapping svc)
  with
  | Some result => if Js.truthyStr result then Some result else None
  | None => None
  end.

(** [contentTypeFields.find(field => field.id.toLowerCase() === target)] *)
Definition findFieldDef (contentTypeFields : list FieldDef) (target : string)
  : option FieldDef :=
  List.find
    (fun field =>
       String.eqb (Js.toLowerCase (fd_id field)) (Js.toLowerCase target))
    contentTypeFields.

Definition findPrefixFields (svc : Service) (contentTypeFields : list FieldDef)
    (entryFields : list (string * LocaleMap)) : list string :=
  flat_map
    (fun targetField =>
       match findFieldDef contentTypeFields targetField with
       | Some fieldDef =>
           if Js.includesStr (prefixFieldTypes svc) (fd_type fieldDef)
              && bool_decide (is_Some (lookupProp (fd_id fieldDef) entryFields))
           then [fd_id fieldDef] else []
       | None => []
       end)
    (prefixTargetFields svc).

(** [localeMapping[contentfulLocale] || null], for a locale that is no name
    every object inherits. *)
Definition mapContentfulLocaleToDeepLLanguage (contentfulLocale : string)
  : option string :=
  lookupProp contentfulLocale
    [("de-DE", "DE"); ("de-AT", "DE"); ("en-GB", "EN-GB"); ("en-US", "EN-US");
     ("en-CA", "EN-US"); ("fr-FR", "FR"); ("fr-BE", "FR"); ("fr-CA", "FR");
     ("fr-LU", "FR"); ("it-IT", "IT"); ("es-ES", "ES"); ("nl-NL", "NL");
     ("nl-BE", "NL"); ("pt-PT", "PT-PT"); ("pt-BR", "PT-BR"); ("ru-RU", "RU");
     ("ja-JP", "JA"); ("zh-CN", "ZH"); ("pl-PL", "PL"); ("sv-SE", "SV");
     ("da-DK", "DA"); ("fi-FI", "FI"); ("no-NO", "NB"); ("cs-CZ", "CS");
     ("et-EE", "ET"); ("lv-LV", "LV"); ("lt-LT", "LT"); ("sk-SK", "SK");
     ("sl-SI", "SL"); ("bg-BG", "BG"); ("hu-HU", "HU"); ("ro-RO", "RO");
     ("uk-UA", "UK"); ("tr-TR", "TR")].

(** The first culture field that is present decides: its first locale value,
    when a string, is mapped; otherwise the next culture field is tried. *)
Fixpoint detectSourceLocaleIn (entryFields : list (string * LocaleMap))
    (names : list string) : option string :=
  match names with
  | cultureFieldName :: rest =>
      match lookupProp cultureFieldName entryFields with
      | Some ((_, VStr contentfulLocale) :: _) =>
          mapContentfulLocaleToDeepLLanguage contentfulLocale
      | _ => detectSourceLocaleIn entryFields rest
      end
  | [] => None
  end.

Definition detectSourceLocaleFromEntry (svc : Service)
    (entryFields : list (string * LocaleMap)) : option string :=
  detectSourceLocaleIn entryFields (cultureFieldNames svc).

Definition getEmptyValueForField (fieldDefinition : FieldDef) (locale : string)
  : option LocaleMap :=
  let fieldType := fd_type fieldDefinition in
  if String.eqb fieldType "Symbol" || String.eqb fieldType "Text"
  then Some [(locale, VStr "")]
  else if String.eqb fieldType "Array" then Some [(locale, VArr [])]
  else if String.eqb fieldType "Object" then Some [(locale, VObj [])]
  else None.

(** The first validation whose [in] is a non-empty array gives the value
    of a dropdown field. *)
Fixpoint firstAllowedValue (validations : list Validation) : option Value :=
  match validations with
  | validation :: rest =>
      match v_in validation with
      | Some (first :: _) => Some first
      | _ => firstAllowedValue rest
      end
  | [] => None
  end.

(** [now] is the reading of the clock, [new Date().toISOString()]. *)
Definition getDefaultValueForField (now : string) (fieldDefinition : FieldDef)
    (locale : string) : LocaleMap :=
  let fieldType := fd_type fieldDefinition in
  let dropdown :=
    if String.eqb fieldType "Symbol"
    then match fd_validations fieldDefinition with
         | Some validations => firstAllowedValue validations
         | None => None
         end
    else None in
  match dropdown with
  | Some first => [(locale, first)]
  | None =>
      if String.eqb fieldType "Symbol" || String.eqb fieldType "Text"
      then [(locale, VStr ("Default " +:+ fd_id fieldDefinition))]
      else if String.eqb fieldType "Integer" || String.eqb fieldType "Number"
      then [(locale, VNum 0)]
      else if String.eqb fieldType "Boolean" then [(locale, VBool false)]
      else if String.eqb fieldType "Date" then [(locale, VStr now)]
      else if String.eqb fieldType "Array" then [(locale, VArr [])]
      else if String.eqb fieldType "Object" then [(locale, VObj [])]
      else [(locale, VNull)]
  end.

(** *** Translation of text and markdown *)

(** [translateText(text, fieldType, sourceLanguage)]; a [sourceLanguage] of
    [None] is [null]. *)
Definition translateText (svc : Service) (text fieldType : string)
    (sourceLang : option string) : Outcome string :=
  match translator svc with
  | Some deepl =>
      if negb (enabled svc) || negb (Js.truthyStr text) then Ok text
      else if negb (Js.includesStr (translateableTypes svc) fieldType)
      then Ok text
      else
        let effectiveSourceLanguage :=
          Js.orStr (default "" sourceLang) (sourceLanguage svc) in
        if negb (Js.truthyStr effectiveSourceLanguage) then Ok text
        else
          tryCatch
            (let strip :=
               preservePrefix svc && Js.startsWith text (prefix svc) in
             let extractedPrefix :=
               if strip then prefix svc +:+ " " else "" in
             let textToTranslate :=
               if strip
               then Js.substringFrom (String.length extractedPrefix) text
               else text in
             if negb (Js.truthyStr (Js.trim textToTranslate))
                || (String.length (Js.trim textToTranslate) <? 2)%nat
             then Ok text
             else
               bindO
                 (await (deepl textToTranslate effectiveSourceLanguage
                           (targetLanguage svc) noOptions))
                 (fun result => Ok (extractedPrefix +:+ result)))
            (fun _ => Ok text)
  | None => Ok text
  end.

Record ImageData : Type := mkImageData {
  caption : string;
  url : string;
  fullMatch : string
}.

(** One match of the image pattern at the start of [s]: an exclamation
    mark, a caption between square brackets (any characters but the closing
    square bracket, possibly none) and a url between parentheses (one or more
    characters other than the closing parenthesis). The result is the
    caption, the url and the text after the match. Both groups are runs of
    characters other than their closing bracket, so the greedy match is the
    only one. *)
Definition matchImageAt (s : string) : option (string * string * string) :=
  match s with
  | String "!" (String "[" s1) =>
      let (cap, r1) := Js.spanUntil "]" s1 in
      match r1 with
      | String "]" (String "(" s2) =>
          let (u, r2) := Js.spanUntil ")" s2 in
          match u, r2 with
          | String _ _, String ")" rest => Some (cap, u, rest)
          | _, _ => None
          end
      | _ => None
      end
  | _ => None
  end.

(** The global [content.replace(imagePattern, callback)]: every image
    block, from left to right, is replaced by its token and recorded in the
    image map. Each step consumes at least one character, so a fuel of the
    length of the text is enough. *)
Fixpoint protectImagesFrom (fuel : nat) (s : string) (imageCounter : nat)
  : string * list (string * ImageData) :=
  match fuel with
  | O => (s, [])
  | S fuel' =>
      match matchImageAt s with
      | Some (cap, u, rest) =>
          let token := "IMG_PLACEHOLDER_" +:+ pretty (S imageCounter) in
          let image :=
            mkImageData cap u ("![" +:+ cap +:+ "](" +:+ u +:+ ")") in
          let (out, images) := protectImagesFrom fuel' rest (S imageCounter) in
          (token +:+ out, (token, image) :: images)
      | None =>
          match s with
          | String c s' =>
              let (out, images) := protectImagesFrom fuel' s' imageCounter in
              (String c out, images)
          | EmptyString => ("", [])
          end
      end
  end.

Definition protectImages (content : string)
  : string * list (string * ImageData) :=
  protectImagesFrom (String.length content) content 0.

(** The loop that restores the images: the caption is translated on its
    own; on failure the original block is put back. *)
Definition restoreImage (deepl : Translator) (sourceLang targetLang : string)
    (finalResult : string) (entry : string * ImageData) : Outcome string :=
  let (token, imageData) := entry in
  tryCatch
    (bindO
       (await (deepl (caption imageData) sourceLang targetLang
                 (mkTranslateOptions true None)))
       (fun translatedCaption =>
          Ok (Js.replace finalResult token
                ("![" +:+ translatedCaption +:+ "](" +:+ url imageData
                 +:+ ")"))))
    (fun _ => Ok (Js.replace finalResult token (fullMatch imageData))).

Definition translateMarkdownContent (svc : Service) (content : string)
    (sourceLang : string) : Outcome string :=
  match translator svc with
  | Some deepl =>
      if negb (enabled svc) then Ok content
      else
        tryCatch
          (let (processedContent, imageMap) := protectImages content in
           bindO
             (await (deepl processedContent sourceLang (targetLanguage svc)
                       (mkTranslateOptions true (Some "xml"))))
             (fun result =>
                foldO (restoreImage deepl sourceLang (targetLanguage svc))
                  imageMap result))
          (fun _ => Ok content)
  | None => Ok content
  end.

(** A bullet that is not a string makes [content.substring] throw inside the
    [try] of [translateMarkdownContent], whose [catch] returns it as is. *)
Definition translateBullet (svc : Service) (sourceLang : string)
    (bullet : Value) : Outcome Value :=
  match bullet with
  | VStr content =>
      bindO (translateMarkdownContent svc content sourceLang)
        (fun translated => Ok (VStr translated))
  | other => Ok other
  end.

Fixpoint translateBulletList (svc : Service) (bulletList : list Value)
    (sourceLang : string) : Outcome (list Value) :=
  match bulletList with
  | bullet :: rest =>
      bindO
        (tryCatch (translateBullet svc sourceLang bullet)
           (fun _ => Ok bullet))
        (fun translatedBullet =>
           bindO (translateBulletList svc rest sourceLang)
             (fun translatedBullets => Ok (translatedBullet :: translatedBullets)))
  | [] => Ok []
  end.

(** *** The CMS as the clone sees it, and the state of one run *)

Record Query : Type := mkQuery {
  q_content_type : string;
  q_fields : list (string * string);
  q_limit : nat
}.

(** The environment of the Management API: the entries and content types
    that can be fetched, the answer to a search, and the answer to the
    creation of an entry (the id of the new draft), which may depend on the
    drafts created so far. A run only reads ids that existed before it
    started, so the drafts it creates are kept apart in its state. *)
Record Cms : Type := mkCms {
  cms_entries : gmap string Entry;
  cms_contentTypes : gmap string ContentType;
  cms_getEntries : Query -> Answer (list Entry);
  cms_createEntry :
    nat -> string -> list (string * LocaleMap) -> Answer string
}.

(** A draft created by the run, with the source entry it was cloned from. *)
Record Draft : Type := mkDraft {
  d_source : string;
  d_id : string;
  d_contentType : string;
  d_fields : list (string * LocaleMap)
}.

Record CloneState : Type := mkCloneState {
  cloneMap : gmap string string;
  processingSet : gset string;
  contentTypeCache : gmap string ContentType;
  currentEntryContentType : option string;
  drafts : list Draft
}.

Definition M (A : Type) : Type := CloneState -> Outcome A * CloneState.

Definition ret {A} (a : A) : M A := fun st => (Ok a, st).

Definition bind {A B} (m : M A) (k : A -> M B) : M B :=
  fun st =>
    match m st with
    | (Ok a, st') => k a st'
    | (Throw e, st') => (Throw e, st')
    | (OutOfFuel, st') => (OutOfFuel, st')
    end.

Definition throw {A} (e : string) : M A := fun st => (Throw e, st).

Definition lift {A} (o : Outcome A) : M A := fun st => (o, st).

Definition getState : M CloneState := fun st => (Ok st, st).

Definition modify (f : CloneState -> CloneState) : M unit :=
  fun st => (Ok tt, f st).

(** [try { body } catch (error) { handler(error) }]: what the body changed
    before it threw stays changed. *)
Definition tryCatchM {A} (body : M A) (handler : string -> M A) : M A :=
  fun st =>
    match body st with
    | (Throw e, st') => handler e st'
    | other => other
    end.

Notation "'let*' x ':=' c 'in' k" := (bind c (fun x => k))
  (at level 10, x name, c at level 100, k at level 200).

Notation "c ';;' k" := (bind c (fun _ => k))
  (at level 100, k at level 200, right associativity, only parsing).

Definition cloneMapSet (key target : string) : M unit :=
  modify (fun st =>
    mkCloneState (<[key := target]> (cloneMap st)) (processingSet st)
      (contentTypeCache st) (currentEntryContentType st) (drafts st)).

Definition processingSetAdd (key : string) : M unit :=
  modify (fun st =>
    mkCloneState (cloneMap st) ({[key]} ∪ processingSet st)
      (contentTypeCache st) (currentEntryContentType st) (drafts st)).

Definition processingSetDelete (key : string) : M unit :=
  modify (fun st =>
    mkCloneState (cloneMap st) (processingSet st ∖ {[key]})
      (contentTypeCache st) (currentEntryContentType st) (drafts st)).

Definition contentTypeCacheSet (id : string) (ct : ContentType) : M unit :=
  modify (fun st =>
    mkCloneState (cloneMap st) (processingSet st)
      (<[id := ct]> (contentTypeCache st)) (currentEntryContentType st)
      (drafts st)).

Definition setCurrentEntryContentType (ct : option string) : M unit :=
  modify (fun st =>
    mkCloneState (cloneMap st) (processingSet st) (contentTypeCache st) ct
      (drafts st)).

(** [environment.getEntry(id)] *)
Definition getEntry (cms : Cms) (id : string) : Outcome Entry :=
  match cms_entries cms !! id with
  | Some e => Ok e
  | None => Throw "The resource could not be found."
  end.

(** [environment.createEntry(contentTypeId, entryData)], called for the
    clone of [sourceId]; the answer is the id of the new draft. *)
Definition createEntry (cms : Cms) (sourceId contentTypeId : string)
    (entryFields : list (string * LocaleMap)) : M string :=
  fun st =>
    match cms_createEntry cms (length (drafts st)) contentTypeId entryFields
    with
    | Fulfilled newId =>
        (Ok newId,
         mkCloneState (cloneMap st) (processingSet st) (contentTypeCache st)
           (currentEntryContentType st)
           (drafts st ++ [mkDraft sourceId newId contentTypeId entryFields]))
    | Rejected e => (Throw e, st)
    end.

Definition getContentType (cms : Cms) (contentTypeId : string)
  : M ContentType :=
  let* st := getState in
  match contentTypeCache st !! contentTypeId with
  | Some contentType => ret contentType
  | None =>
      match cms_contentTypes cms !! contentTypeId with
      | Some contentType =>
          contentTypeCacheSet contentTypeId contentType;;
          ret contentType
      | None => throw "The resource could not be found."
      end
  end.

(** [Object.values(authorFields[matchField])[0]], when it is a non-empty
    string, is searched among the authors of the target culture. *)
Fixpoint findExistingAuthorIn (svc : Service) (cms : Cms)
    (authorFields : list (string * LocaleMap)) (targetCulture : string)
    (matchFields : list string) : Outcome (option string) :=
  match matchFields with
  | matchField :: rest =>
      match lookupProp matchField authorFields with
      | Some ((_, VStr fieldValue) :: _) =>
          if Js.truthyStr fieldValue then
            bindO
              (await
                 (cms_getEntries cms
                    (mkQuery (authorContentType svc)
                       [("fields." +:+ authorCultureField svc, targetCulture);
                        ("fields." +:+ matchField, fieldValue)]
                       1)))
              (fun items =>
                 match items with
                 | first :: _ => Ok (Some (sys_id first))
                 | [] =>
                     findExistingAuthorIn svc cms authorFields targetCulture
                       rest
                 end)
          else findExistingAuthorIn svc cms authorFields targetCulture rest
      | _ => findExistingAuthorIn svc cms authorFields targetCulture rest
      end
  | [] => Ok None
  end.

Definition findExistingAuthor (svc : Service) (cms : Cms) (authorEntry : Entry)
    (targetCulture : string) : Outcome (option string) :=
  tryCatch
    (findExistingAuthorIn svc cms (fields authorEntry) targetCulture
       (authorMatchFields svc))
    (fun _ => Ok None).

(** *** The recursive clone *)

Section Recursion.

Variable svc : Service.
Variable cms : Cms.
Variable now : string.

(** The recursive call [this.cloneEntryRecursive(sourceEntry, spaceId,
    environmentId, locale)] made for a linked entry. *)
Variable cloneRec : Entry -> string -> M string.

(** The author branch of [processLinkField]: [Some link] when an existing
    author of the target culture was found and the method returned early. *)
Definition relinkAuthor (key id fieldId : string) : M (option Value) :=
  if Js.truthyStr fieldId && isAuthorField svc fieldId then
    let* originalAuthor := lift (getEntry cms id) in
    if String.eqb (sys_contentType originalAuthor) (authorContentType svc)
    then
      match getCultureValue svc with
      | Some targetCulture =>
          let* existingAuthorId :=
            lift (findExistingAuthor svc cms originalAuthor targetCulture) in
          match existingAuthorId with
          | Some existing =>
              if Js.truthyStr existing then
                cloneMapSet key existing;;
                processingSetDelete key;;
                ret (Some (VLink "Entry" existing))
              else ret None
          | None => ret None
          end
      | None => ret None
      end
    else ret None
  else ret None.

Definition processLinkField (linkValue : Value) (locale fieldId : string)
  : M Value :=
  match linkValue with
  | VLink linkType id =>
      let key := linkType +:+ ":" +:+ id in
      let* st := getState in
      match cloneMap st !! key with
      | Some target => ret (VLink linkType target)
      | None =>
          if bool_decide (key ∈ processingSet st) then ret linkValue
          else
            processingSetAdd key;;
            tryCatchM
              (if String.eqb linkType "Entry" then
                 let* relinked := relinkAuthor key id fieldId in
                 match relinked with
                 | Some link => ret link
                 | None =>
                     let* sourceEntry := lift (getEntry cms id) in
                     let* clonedEntryId := cloneRec sourceEntry locale in
                     processingSetDelete key;;
                     ret (VLink "Entry" clonedEntryId)
                 end
               else if String.eqb linkType "Asset" then
                 cloneMapSet key id;;
                 processingSetDelete key;;
                 ret linkValue
               else
                 processingSetDelete key;;
                 ret linkValue)
              (fun _ =>
                 processingSetDelete key;;
                 ret linkValue)
      end
  | other => ret other
  end.

Fixpoint processFieldValue (value : Value) (locale fieldId : string)
  : M Value :=
  match value with
  | VArr items =>
      let* processedArray :=
        (fix each (items : list Value) : M (list Value) :=
           match items with
           | item :: rest =>
               let* processed :=
                 (if isLink item then processLinkField item locale fieldId
                  else processFieldValue item locale fieldId) in
               let* others := each rest in
               ret (processed :: others)
           | [] => ret []
           end) items in
      ret (VArr processedArray)
  | VLink _ _ => processLinkField value locale fieldId
  | other => ret other
  end.

(** [for (const [fieldLocale, value] of Object.entries(originalFieldValue))]
    with [processFieldValue] alone in the body (copy-as-is and author
    fields); [processedField] is the object built so far. *)
Fixpoint processLocales (fieldId : string) (entries : LocaleMap)
    (processedField : LocaleMap) : M LocaleMap :=
  match entries with
  | (fieldLocale, value) :: rest =>
      let* processed := processFieldValue value fieldLocale fieldId in
      processLocales fieldId rest (setProp fieldLocale processed processedField)
  | [] => ret processedField
  end.

(** What the normal branch does to a processed value: prefix, then culture,
    markdown or text translation. *)
Definition transformValue (contentTypeId : string) (fieldDef : FieldDef)
    (prefixFieldIds : list string) (detectedSourceLanguage : option string)
    (processedValue : Value) : Outcome Value :=
  let fieldId := fd_id fieldDef in
  let prefixed :=
    match processedValue with
    | VStr text =>
        if shouldPrefixField fieldId prefixFieldIds
        then VStr (prefix svc +:+ " " +:+ text)
        else processedValue
    | _ => processedValue
    end in
  if isCultureField svc fieldId then
    match getCultureValue svc with
    | Some cultureValue => Ok (VStr cultureValue)
    | None => Ok prefixed
    end
  else if isMarkdownField svc contentTypeId fieldId
          && Js.truthyStr (default "" detectedSourceLanguage) then
    match prefixed with
    | VArr bullets =>
        if String.eqb fieldId "bulletList" then
          bindO
            (translateBulletList svc bullets (default "" detectedSourceLanguage))
            (fun translated => Ok (VArr translated))
        else Ok prefixed
    | VStr text =>
        bindO
          (translateMarkdownContent svc text (default "" detectedSourceLanguage))
          (fun translated => Ok (VStr translated))
    | _ => Ok prefixed
    end
  else
    match prefixed with
    | VStr text =>
        if negb (isCultureField svc fieldId)
           && negb (isMarkdownField svc contentTypeId fieldId)
        then
          bindO (translateText svc text (fd_type fieldDef) detectedSourceLanguage)
            (fun translated => Ok (VStr translated))
        else Ok prefixed
    | _ => Ok prefixed
    end.

(** The normal branch of the field loop. *)
Fixpoint processNormalLocales (contentTypeId : string) (fieldDef : FieldDef)
    (prefixFieldIds : list string) (detectedSourceLanguage : option string)
    (entries : LocaleMap) (processedField : LocaleMap) : M LocaleMap :=
  match entries with
  | (fieldLocale, value) :: rest =>
      let* processed := processFieldValue value fieldLocale (fd_id fieldDef) in
      let* transformed :=
        lift (transformValue contentTypeId fieldDef prefixFieldIds
                detectedSourceLanguage processed) in
      processNormalLocales contentTypeId fieldDef prefixFieldIds
        detectedSourceLanguage rest
        (setProp fieldLocale transformed processedField)
  | [] => ret processedField
  end.

(** One turn of [for (const fieldDef of contentType.fields)]; [entryFields]
    is [entryData.fields]. The field of the source is
    [sourceEntry.fields[fieldId]], see [lookupProp]. *)
Definition processFieldDef (sourceEntry : Entry) (locale : string)
    (prefixFieldIds : list string) (detectedSourceLanguage : option string)
    (entryFields : list (string * LocaleMap)) (fieldDef : FieldDef)
  : M (list (string * LocaleMap)) :=
  let fieldId := fd_id fieldDef in
  match lookupProp fieldId (fields sourceEntry) with
  | Some originalFieldValue =>
      if shouldEmptyField svc fieldId then
        match getEmptyValueForField fieldDef locale with
        | Some emptyValue => ret (setProp fieldId emptyValue entryFields)
        | None => ret entryFields
        end
      else if shouldCopyAsIs svc fieldId then
        let* processedField := processLocales fieldId originalFieldValue [] in
        ret (setProp fieldId processedField entryFields)
      else if isAuthorField svc fieldId then
        let* processedField := processLocales fieldId originalFieldValue [] in
        ret (setProp fieldId processedField entryFields)
      else
        let* processedField :=
          processNormalLocales (sys_contentType sourceEntry) fieldDef
            prefixFieldIds detectedSourceLanguage originalFieldValue [] in
        ret (setProp fieldId processedField entryFields)
  | None =>
      if fd_required fieldDef then
        if shouldEmptyField svc fieldId then
          match getEmptyValueForField fieldDef locale with
          | Some emptyValue => ret (setProp fieldId emptyValue entryFields)
          | None => ret entryFields
          end
        else
          ret (setProp fieldId (getDefaultValueForField now fieldDef locale)
                 entryFields)
      else ret entryFields
  end.

Fixpoint processFieldDefs (sourceEntry : Entry) (locale : string)
    (prefixFieldIds : list string) (detectedSourceLanguage : option string)
    (fieldDefs : list FieldDef) (entryFields : list (string * LocaleMap))
  : M (list (string * LocaleMap)) :=
  match fieldDefs with
  | fieldDef :: rest =>
      let* entryFields' :=
        processFieldDef sourceEntry locale prefixFieldIds
          detectedSourceLanguage entryFields fieldDef in
      processFieldDefs sourceEntry locale prefixFieldIds
        detectedSourceLanguage rest entryFields'
  | [] => ret entryFields
  end.

(** The body of [cloneEntryRecursive]. *)
Definition cloneEntryBody (sourceEntry : Entry) (locale : string) : M string :=
  let sourceId := sys_id sourceEntry in
  let key := "Entry:" +:+ sourceId in
  let* st := getState in
  match cloneMap st !! key with
  | Some target => ret target
  | None =>
      let previousContentType := currentEntryContentType st in
      tryCatchM
        (let* contentType := getContentType cms (sys_contentType sourceEntry) in
         setCurrentEntryContentType (Some (sys_contentType sourceEntry));;
         let isCmsPage := String.eqb (sys_contentType sourceEntry) "cmsPage" in
         let detectedSourceLanguage :=
           if isCmsPage
           then detectSourceLocaleFromEntry svc (fields sourceEntry)
           else mainCmsPageSourceLanguage svc in
         let prefixFieldIds :=
           findPrefixFields svc (ct_fields contentType) (fields sourceEntry) in
         let* entryFields :=
           processFieldDefs sourceEntry locale prefixFieldIds
             detectedSourceLanguage (ct_fields contentType) [] in
         let* newId :=
           createEntry cms sourceId (sys_contentType sourceEntry) entryFields in
         cloneMapSet key newId;;
         setCurrentEntryContentType previousContentType;;
         ret newId)
        (fun error =>
           setCurrentEntryContentType previousContentType;;
           throw error)
  end.

End Recursion.

(** [cloneEntryRecursive]: each level of the recursion through linked
    entries takes one unit of fuel. *)
Fixpoint cloneEntryRecursive (fuel : nat) (svc : Service) (cms : Cms)
    (now : string) (sourceEntry : Entry) (locale : string) : M string :=
  match fuel with
  | O => lift OutOfFuel
  | S fuel' =>
      cloneEntryBody svc cms now (cloneEntryRecursive fuel' svc cms now)
        sourceEntry locale
  end.

Definition emptyState : CloneState := mkCloneState ∅ ∅ ∅ None [].

(** [this.cloneMap.clear()] and [this.processingSet.clear()] *)
Definition clearMaps (st : CloneState) : CloneState :=
  mkCloneState ∅ ∅ (contentTypeCache st) (currentEntryContentType st)
    (drafts st).

Record CloneResult : Type := mkCloneResult {
  originalEntryId : string;
  clonedEntryId : string;
  cloneMapping : gmap string string
}.

(** [cloneEntry(options)] once the space and the environment are at hand;
    [targetLang] is [options.targetLanguage]. *)
Definition cloneEntry (fuel : nat) (svc : Service) (cms : Cms) (now : string)
    (sourceEntryId targetLang : string) : M CloneResult :=
  let svc1 := withTargetLanguage svc (Js.toLowerCase targetLang) in
  modify clearMaps;;
  let* sourceEntry := lift (getEntry cms sourceEntryId) in
  if negb (String.eqb (sys_contentType sourceEntry) "cmsPage") then
    throw ("This tool only works with CmsPage content type. Found: "
           +:+ sys_contentType sourceEntry)
  else
    let detected := detectSourceLocaleFromEntry svc1 (fields sourceEntry) in
    if negb (Js.truthyStr (default "" detected)) then
      throw "Main CmsPage entry is missing required culture field for source language detection"
    else
      let svc2 := withMainSourceLanguage svc1 detected in
      let* clonedId :=
        cloneEntryRecursive fuel svc2 cms now sourceEntry "en-US-POSIX" in
      let* st := getState in
      ret (mkCloneResult sourceEntryId clonedId (cloneMap st)).

End CloneService.

(** ** Persisted data: reference trees and relationships *)

Inductive ReferenceNode : Type := mkNode {
  n_id : string;
  n_version : Z;
  n_depth : nat;
  n_parentId : option string;
  n_parentField : option string;
  n_contentHash : string;
  n_lastUpdated : string;
  n_children : list ReferenceNode
}.

Record DeepMap : Type := mkDeepMap {
  dm_sourceEntryId : string;
  dm_targetEntryId : string;
  dm_maxDepth : nat;
  dm_lastScanned : string;
  dm_referenceTree : ReferenceNode;
  dm_flattenedRefs : list (string * ReferenceNode)
}.

(** [metadata]; a property that is missing is [None]. *)
Record Metadata : Type := mkMetadata {
  lastTranslatedVersion : option Z;
  lastUpdated : string;
  createdAt : option string
}.

Record TranslationContext : Type := mkTranslationContext {
  tc_sourceLanguage : string;
  tc_targetLanguage : string
}.

(** The relationship object handed to and returned by the store. *)
Record Relationship : Type := mkRelationship {
  r_sourceEntryId : string;
  r_targetEntryId : string;
  r_metadata : option Metadata;
  r_translationContext : TranslationContext;
  r_fieldHashes : list (string * string);
  r_cloneMapping : list (string * string);
  r_deepReferenceMap : option DeepMap;
  r_backupData : option string
}.

(** [{...data, deepReferenceMap: deepMap}] *)
Definition withDeepReferenceMap (data : Relationship) (deepMap : DeepMap)
  : Relationship :=
  mkRelationship (r_sourceEntryId data) (r_targetEntryId data)
    (r_metadata data) (r_translationContext data) (r_fieldHashes data)
    (r_cloneMapping data) (Some deepMap) (r_backupData data).

(** An entry of the content type [translationMetadata]; every field is
    stored under the one storage locale. *)
Record MetadataEntry : Type := mkMetadataEntry {
  me_sysId : string;
  me_relationshipId : string;
  me_data : Relationship
}.

(** What a file of the tracking directory parses to: a relationship, a tree
    snapshot, or nothing ([JSON.parse] throws). A file under a
    [_deep_refs.json] name that does not hold a tree snapshot counts as
    unparsable. *)
Inductive FileContent : Type :=
| RelationshipFile (data : Relationship)
| DeepRefsFile (deepMap : DeepMap)
| Unparsable.

(** The two backends of the relationship store and the content of the CMS.
    [w_metadataTypeInstalled = false] is the primary backend failing: the
    content type [translationMetadata] is unknown, so every search for it and
    every creation of such an entry is rejected. [w_nextId] numbers the
    entries the CMS creates. *)
Record World : Type := mkWorld {
  w_entries : gmap string Entry;
  w_metadataTypeInstalled : bool;
  w_metadata : list MetadataEntry;
  w_nextId : nat;
  w_files : gmap string FileContent
}.

Definition withMetadata (w : World) (entries : list MetadataEntry) (next : nat)
  : World :=
  mkWorld (w_entries w) (w_metadataTypeInstalled w) entries next (w_files w).

Definition writeFile (w : World) (path : string) (content : FileContent)
  : World :=
  mkWorld (w_entries w) (w_metadataTypeInstalled w) (w_metadata w) (w_nextId w)
    (<[path := content]> (w_files w)).

(** ** The CMS-backed store (contentfulMetadataService.js)

    The two copies of the service in the repository differ in log output, in
    the spelling of the search key and in the defaults read for a missing
    [fieldHashes] or [cloneMapping]; on the typed data here they agree. *)

Module ContentfulMetadataService.

Definition generateRelationshipId (sourceEntryId targetEntryId : string)
  : string :=
  sourceEntryId +:+ "_" +:+ targetEntryId.

(** The search by [relationshipId] with [limit: 1]; any error is caught and
    answered with [null]. *)
Definition findRelationshipMetadata (w : World)
    (sourceEntryId targetEntryId : string) : option MetadataEntry :=
  if w_metadataTypeInstalled w then
    List.find
      (fun entry =>
         String.eqb (me_relationshipId entry)
           (generateRelationshipId sourceEntryId targetEntryId))
      (w_metadata w)
  else None.

(** [entryToUpdate.fields = {...}; entryToUpdate.update()] on the entry with
    the given id. *)
Fixpoint updateEntryFields (sysId relationshipId : string) (data : Relationship)
    (entries : list MetadataEntry) : list MetadataEntry :=
  match entries with
  | entry :: rest =>
      if String.eqb (me_sysId entry) sysId
      then mkMetadataEntry sysId relationshipId data :: rest
      else entry :: updateEntryFields sysId relationshipId data rest
  | [] => []
  end.

(** What is written into the fields: the ids are the arguments of the call,
    [deepReferenceMap] and [backupData] default to [null]. *)
Definition storedFields (sourceEntryId targetEntryId : string)
    (data : Relationship) : Relationship :=
  mkRelationship sourceEntryId targetEntryId (r_metadata data)
    (r_translationContext data) (r_fieldHashes data) (r_cloneMapping data)
    (r_deepReferenceMap data) (r_backupData data).

Definition storeRelationshipMetadata (w : World)
    (sourceEntryId targetEntryId : string) (data : Relationship)
  : Outcome unit * World :=
  let relationshipId := generateRelationshipId sourceEntryId targetEntryId in
  match findRelationshipMetadata w sourceEntryId targetEntryId with
  | Some existingEntry =>
      (Ok tt,
       withMetadata w
         (updateEntryFields (me_sysId existingEntry) relationshipId
            (storedFields sourceEntryId targetEntryId data) (w_metadata w))
         (w_nextId w))
  | None =>
      if w_metadataTypeInstalled w then
        (Ok tt,
         withMetadata w
           (w_metadata w ++
            [mkMetadataEntry ("metadata-" +:+ pretty (w_nextId w))
               relationshipId (storedFields sourceEntryId targetEntryId data)])
           (S (w_nextId w)))
      else (Throw "Unknown content type", w)
  end.

Definition getRelationshipMetadata (w : World)
    (sourceEntryId targetEntryId : string) : option Relationship :=
  match findRelationshipMetadata w sourceEntryId targetEntryId with
  | Some entry => Some (me_data entry)
  | None => None
  end.

(** [now] is the reading of the clock. *)
Definition storeDeepReferenceMap (now : string) (w : World)
    (sourceEntryId targetEntryId : string) (deepMap : DeepMap)
  : Outcome unit * World :=
  match getRelationshipMetadata w sourceEntryId targetEntryId with
  | Some existingData =>
      storeRelationshipMetadata w sourceEntryId targetEntryId
        (withDeepReferenceMap existingData deepMap)
  | None =>
      let minimalData :=
        mkRelationship sourceEntryId targetEntryId
          (Some (mkMetadata (Some 0) now (Some now)))
          (mkTranslationContext "unknown" "unknown") [] [] (Some deepMap) None
      in
      storeRelationshipMetadata w sourceEntryId targetEntryId minimalData
  end.

Definition getDeepReferenceMap (w : World)
    (sourceEntryId targetEntryId : string) : option DeepMap :=
  match getRelationshipMetadata w sourceEntryId targetEntryId with
  | Some data => r_deepReferenceMap data
  | None => None
  end.

(** [entryToDelete.delete()] on the entry with the given id. *)
Fixpoint deleteEntry (sysId : string) (entries : list MetadataEntry)
  : list MetadataEntry :=
  match entries with
  | entry :: rest =>
      if String.eqb (me_sysId entry) sysId then rest
      else entry :: deleteEntry sysId rest
  | [] => []
  end.

(** [deleteRelationshipMetadata]: the answer tells whether a record was
    found and deleted; any error is caught and answered with [false]. *)
Definition deleteRelationshipMetadata (w : World)
    (sourceEntryId targetEntryId : string) : bool * World :=
  match findRelationshipMetadata w sourceEntryId targetEntryId with
  | Some entry =>
      (true,
       withMetadata w (deleteEntry (me_sysId entry) (w_metadata w))
         (w_nextId w))
  | None => (false, w)
  end.

End ContentfulMetadataService.

(** [environment.getEntry(id)] on the content of the CMS *)
Definition fetchEntry (w : World) (id : string) : Outcome Entry :=
  match w_entries w !! id with
  | Some e => Ok e
  | None => Throw "The resource could not be found."
  end.

(** The field value as the object it is: a map from locale to value. *)
Definition fieldObject (fieldValue : LocaleMap) : Value := VObj fieldValue.

(** ** The reference tracker (deepReferenceTracker.js) *)

Module DeepReferenceTracker.

Record Tracker : Type := mkTracker {
  maxDepth : nat;
  autoTranslateNewRefs : bool
}.

(** [options.maxDepth || 3] *)
Definition maxDepthOption (requested : nat) : nat :=
  if (requested =? 0)%nat then 3%nat else requested.

Definition isLocalizedField (value : Value) : bool :=
  match value with
  | VObj _ => negb (hasSys value)
  | _ => false
  end.

Fixpoint isReferenceField (value : Value) : bool :=
  match value with
  | VArr items => existsb isLink items
  | VObj props =>
      if hasSys value then false
      else existsb (fun kv => isReferenceField (snd kv)) props
  | VLink _ _ => true
  | _ => false
  end.

Fixpoint extractReferencedEntries (value : Value) : list Value :=
  match value with
  | VArr items => List.filter isLink items
  | VObj props =>
      if hasSys value then []
      else flat_map (fun kv => extractReferencedEntries (snd kv)) props
  | VLink _ _ => [value]
  | _ => []
  end.

Definition isAssetReference (ref : Value) : bool :=
  match ref with
  | VLink linkType _ => String.eqb linkType "Asset"
  | _ => false
  end.

Definition shouldTrackReferenceField (fieldName : string) : bool :=
  negb
    (existsb (fun field => Js.startsWith fieldName field)
       ["parentPage"; "authors"; "sys"; "contentfulMetadata"; "makeModel";
        "makeIds"; "modelIds"; "trackingName"; "internalName"; "fieldStatus";
        "automationTags"; "culture"; "domain"; "pageType"]).

Definition isString (v : Value) : bool :=
  match v with VStr _ => true | _ => false end.

Definition isTranslatableField (fieldName : string) (fieldValue : Value)
  : bool :=
  if existsb (fun field => Js.startsWith fieldName field)
       ["slug"; "sys_"; "internalName"; "id"; "contentfulMetadata";
        "parentPage"; "authors"; "avatar"; "image"; "heroImages";
        "teaserImage"; "icon"; "plans"; "sections"; "elements"; "links";
        "faq"; "rows"; "recommendedCategory"; "product"; "metaIndexToggle";
        "enableFeaturedArticle"; "showInGoogleNews"; "hasHighlightedText";
        "isPrimary"; "spotlight"; "publishedCounter"; "fieldStatus";
        "automationTags"]
  then false
  else if hasLinkType fieldValue then false
  else
    match fieldValue with
    | VArr _ => false (* with or without links: not a string, not localized *)
    | VStr _ => true
    | VObj props =>
        if isLocalizedField fieldValue
        then existsb (fun kv => isString (snd kv)) props
        else match lookupProp "nodeType" props with
             | Some nodeType => truthy nodeType
             | None => false
             end
    | _ => false
    end.

Section WithHash.

(** [crypto.createHash('sha256').update(JSON.stringify(v)).digest('hex')] *)
Variable sha256Json : Value -> string.

Definition generateContentHash (entry : Entry) : string :=
  sha256Json
    (VObj
       (map (fun kv => (fst kv, fieldObject (snd kv)))
          (List.filter
             (fun kv => isTranslatableField (fst kv) (fieldObject (snd kv)))
             (fields entry)))).

(** One referenced link of a field in the scan of [buildReferenceTree];
    [build] is the recursive call for the child. *)
Definition scanReference (w : World) (entryId fieldId : string)
    (build : Entry -> Outcome ReferenceNode)
    (children : list ReferenceNode) (ref : Value)
  : Outcome (list ReferenceNode) :=
  match ref with
  | VLink _ id =>
      if Js.truthyStr id && negb (String.eqb id entryId) then
        if isAssetReference ref then Ok children
        else
          tryCatch
            (bindO (fetchEntry w id)
               (fun referencedEntry =>
                  bindO (build referencedEntry)
                    (fun childNode => Ok (children ++ [childNode])%list)))
            (fun _ => Ok children)
      else Ok children
  | _ => Ok children
  end.

Definition scanField (w : World) (entryId : string)
    (build : string -> Entry -> Outcome ReferenceNode)
    (children : list ReferenceNode) (field : string * LocaleMap)
  : Outcome (list ReferenceNode) :=
  let (fieldId, fieldValue) := field in
  if isReferenceField (fieldObject fieldValue) then
    if negb (shouldTrackReferenceField fieldId) then Ok children
    else
      foldO (scanReference w entryId fieldId (build fieldId))
        (extractReferencedEntries (fieldObject fieldValue)) children
  else Ok children.

(** [buildReferenceTree(entry, currentDepth, parentId, parentField)]; every
    level of the tree takes one unit of fuel. *)
Fixpoint buildReferenceTree (fuel : nat) (tracker : Tracker) (w : World)
    (now : string) (entry : Entry) (currentDepth : nat)
    (parentId parentField : option string) : Outcome ReferenceNode :=
  match fuel with
  | O => OutOfFuel
  | S fuel' =>
      let entryId := sys_id entry in
      let node :=
        mkNode entryId (currentVersionOf entry) currentDepth parentId
          parentField (generateContentHash entry) now in
      if (currentDepth <? maxDepth tracker)%nat then
        bindO
          (foldO
             (scanField w entryId
                (fun fieldId referencedEntry =>
                   buildReferenceTree fuel' tracker w now referencedEntry
                     (S currentDepth) (Some entryId) (Some fieldId)))
             (fields entry) [])
          (fun children => Ok (node children))
      else Ok (node [])
  end.

(** [addNode] of [flattenReferenceTree]: the node without its children is
    stored under its id, then its children are added in order. The ids
    become keys of a plain object, see [setProp]. *)
Fixpoint addNode (node : ReferenceNode)
    (flattened : list (string * ReferenceNode)) : list (string * ReferenceNode) :=
  match node with
  | mkNode id version depth parentId parentField contentHash updated children =>
      (fix addChildren (children : list ReferenceNode)
           (flattened : list (string * ReferenceNode)) :=
         match children with
         | child :: rest => addChildren rest (addNode child flattened)
         | [] => flattened
         end)
        children
        (setProp id
           (mkNode id version depth parentId parentField contentHash updated [])
           flattened)
  end.

Definition flattenReferenceTree (tree : ReferenceNode)
  : list (string * ReferenceNode) :=
  addNode tree [].

(** The root call of [buildReferenceTree(sourceEntry, 0)]: a fuel of
    [maxDepth + 1] covers every level down to the cap. *)
Definition buildCurrentReferenceMapForComparison (tracker : Tracker)
    (w : World) (now : string) (sourceEntryId targetEntryId : string)
  : Outcome DeepMap :=
  bindO (fetchEntry w sourceEntryId)
    (fun sourceEntry =>
       bindO
         (buildReferenceTree (S (maxDepth tracker)) tracker w now sourceEntry
            0 None None)
         (fun referenceTree =>
            Ok (mkDeepMap sourceEntryId targetEntryId (maxDepth tracker) now
                  referenceTree (flattenReferenceTree referenceTree)))).

(** *** Storing and reading the tree snapshot

    [contentful] tells whether [this.contentfulMetadataService] is set. *)

Definition deepRefsFile (sourceEntryId targetEntryId : string) : string :=
  sourceEntryId +:+ "_" +:+ targetEntryId +:+ "_deep_refs.json".

Definition storeDeepReferenceMap (now : string) (contentful : bool) (w : World)
    (sourceEntryId targetEntryId : string) (deepMap : DeepMap) : World :=
  let toFile (w : World) :=
    writeFile w (deepRefsFile sourceEntryId targetEntryId)
      (DeepRefsFile deepMap) in
  if contentful then
    match ContentfulMetadataService.storeDeepReferenceMap now w sourceEntryId
            targetEntryId deepMap with
    | (Ok _, w') => w'
    | (_, w') => toFile w'
    end
  else toFile w.

Definition getStoredDeepReferenceMap (contentful : bool) (w : World)
    (sourceEntryId targetEntryId : string) : option DeepMap :=
  let fromFile :=
    match w_files w !! deepRefsFile sourceEntryId targetEntryId with
    | Some (DeepRefsFile deepMap) => Some deepMap
    | _ => None
    end in
  if contentful then
    match ContentfulMetadataService.getDeepReferenceMap w sourceEntryId
            targetEntryId with
    | Some deepMap => Some deepMap
    | None => fromFile
    end
  else fromFile.

(** *** Field changes of a changed child *)

Record FieldChange : Type := mkFieldChange {
  fc_fieldName : string;
  fc_changeType : string;
  fc_newValue : option LocaleMap;
  fc_isTranslatable : bool;
  fc_needsTranslation : bool
}.

(** [generateFieldHashes(entry)] of the tracker: every field whose value is
    an object, which every locale-keyed field is. *)
Definition generateFieldHashes (entry : Entry) : list (string * string) :=
  fold_left
    (fun hashes kv => setProp (fst kv) (sha256Json (fieldObject (snd kv))) hashes)
    (fields entry) [].

Definition isFieldTranslatable (fieldName : string) (fieldValue : LocaleMap)
  : bool :=
  if Js.includesStr ["culture"; "domain"; "slug"; "sys"; "metadata"] fieldName
  then false
  else
    existsb
      (fun kv =>
         match snd kv with
         | VStr v => (0 <? String.length (Js.trim v))%nat
         | _ => false
         end)
      fieldValue.

(** The first relationship file of the tracking directory whose clone
    mapping mentions the entry. *)
Definition getRelationshipForChildEntry (w : World) (entryId : string)
  : option Relationship :=
  let mentions (data : Relationship) :=
    existsb
      (fun kv =>
         Js.includes (fst kv) entryId || String.eqb (snd kv) entryId)
      (r_cloneMapping data) in
  let candidate (file : string * FileContent) :=
    if Js.endsWith (fst file) ".json"
       && negb (Js.includes (fst file) "_deep_refs")
    then match snd file with
         | RelationshipFile data =>
             if mentions data then Some data else None
         | _ => None
         end
    else None in
  firstSome candidate (map_to_list (w_files w)).

Definition detectChildEntryFieldChanges (w : World) (entryId : string)
    (storedRef currentRef : ReferenceNode) : list FieldChange :=
  match fetchEntry w entryId with
  | Ok currentEntry =>
      let currentFieldHashes := generateFieldHashes currentEntry in
      let storedFieldHashes :=
        match getRelationshipForChildEntry w entryId with
        | Some relationship => r_fieldHashes relationship
        | None => []
        end in
      flat_map
        (fun kv =>
           let (fieldName, currentHash) := kv : string * string in
           let storedHash :=
             default "" (lookupProp fieldName storedFieldHashes) in
           if negb (Js.truthyStr storedHash)
              || negb (String.eqb currentHash storedHash)
           then
             let fieldValue := lookupProp fieldName (fields currentEntry) in
             let translatable :=
               match fieldValue with
               | Some v => isFieldTranslatable fieldName v
               | None => false
               end in
             [mkFieldChange fieldName
                (if Js.truthyStr storedHash then "modified" else "added")
                fieldValue translatable translatable]
           else [])
        currentFieldHashes
  | _ => []
  end.

(** *** The diff of the stored tree against the current tree *)

Record ChangedReference : Type := mkChangedReference {
  cr_id : string;
  cr_depth : nat;
  cr_oldVersion : Z;
  cr_newVersion : Z;
  cr_parentField : option string;
  cr_fieldChanges : list FieldChange
}.

Record NewReference : Type := mkNewReference {
  nr_id : string;
  nr_depth : nat;
  nr_parentId : string;
  nr_parentField : string;
  nr_needsTranslation : bool
}.

Record DeepChanges : Type := mkDeepChanges {
  changedReferences : list ChangedReference;
  newReferences : list NewReference;
  removedReferences : list string
}.

(** [value || fallback] on a property that may be missing *)
Definition orElse (value : option string) (fallback : string) : string :=
  Js.orStr (default "" value) fallback.

Definition newReference (tracker : Tracker) (sourceEntryId refId : string)
    (refNode : ReferenceNode) : NewReference :=
  mkNewReference refId (n_depth refNode)
    (orElse (n_parentId refNode) sourceEntryId)
    (orElse (n_parentField refNode) "unknown")
    (autoTranslateNewRefs tracker).

(** One turn of the loop over [Object.entries(currentRefs)]; the stored
    reference is [storedRefs[refId]], see [lookupProp]. *)
Definition compareReference (tracker : Tracker) (w : World)
    (sourceEntryId : string) (storedRefs : list (string * ReferenceNode))
    (changes : DeepChanges) (current : string * ReferenceNode) : DeepChanges :=
  let (refId, currentRef) := current in
  match lookupProp refId storedRefs with
  | Some storedRef =>
      let versionChanged := n_version storedRef <? n_version currentRef in
      let contentChanged :=
        negb (String.eqb (n_contentHash currentRef) (n_contentHash storedRef)) in
      if versionChanged || contentChanged then
        mkDeepChanges
          (changedReferences changes ++
           [mkChangedReference refId (n_depth currentRef) (n_version storedRef)
              (n_version currentRef) (n_parentField currentRef)
              (detectChildEntryFieldChanges w refId storedRef currentRef)])
          (newReferences changes) (removedReferences changes)
      else changes
  | None =>
      mkDeepChanges (changedReferences changes)
        (newReferences changes ++
         [newReference tracker sourceEntryId refId currentRef])
        (removedReferences changes)
  end.

(** The comparison of [storedMap.flattenedRefs] with
    [currentMap.flattenedRefs]: changed and new references in the order of
    the current tree, then the removed ones in the order of the stored
    tree; a stored id is removed when [currentRefs[refId]] is missing, see
    [lookupProp]. *)
Definition compareReferenceMaps (tracker : Tracker) (w : World)
    (sourceEntryId : string) (storedRefs currentRefs : list (string * ReferenceNode))
  : DeepChanges :=
  let compared :=
    fold_left (compareReference tracker w sourceEntryId storedRefs) currentRefs
      (mkDeepChanges [] [] []) in
  mkDeepChanges (changedReferences compared) (newReferences compared)
    (removedReferences compared ++
     List.filter
       (fun refId => negb (bool_decide (is_Some (lookupProp refId currentRefs))))
       (map fst storedRefs)).

Definition detectDeepReferenceChanges (tracker : Tracker) (contentful : bool)
    (w : World) (now : string) (sourceEntryId targetEntryId : string)
  : Outcome DeepChanges * World :=
  let storedMap :=
    getStoredDeepReferenceMap contentful w sourceEntryId targetEntryId in
  match buildCurrentReferenceMapForComparison tracker w now sourceEntryId
          targetEntryId with
  | Ok currentMap =>
      match storedMap with
      | None =>
          (Ok (mkDeepChanges []
                 (map
                    (fun kv => newReference tracker sourceEntryId (fst kv) (snd kv))
                    (List.filter
                       (fun kv => negb (String.eqb (fst kv) sourceEntryId))
                       (dm_flattenedRefs currentMap)))
                 []),
           storeDeepReferenceMap now contentful w sourceEntryId targetEntryId
             currentMap)
      | Some stored =>
          (Ok (compareReferenceMaps tracker w sourceEntryId
                 (dm_flattenedRefs stored) (dm_flattenedRefs currentMap)),
           w)
      end
  | Throw e => (Throw e, w)
  | OutOfFuel => (OutOfFuel, w)
  end.

Definition getStoredDeepReferences (contentful : bool) (w : World)
    (sourceEntryId targetEntryId : string)
  : option (list (string * ReferenceNode)) :=
  match getStoredDeepReferenceMap contentful w sourceEntryId targetEntryId with
  | Some deepMap => Some (dm_flattenedRefs deepMap)
  | None => None
  end.

(** [updateStoredReferencesAfterProcessing]: any error is logged and
    swallowed. *)
Definition updateStoredReferencesAfterProcessing (tracker : Tracker)
    (contentful : bool) (w : World) (now : string)
    (sourceEntryId targetEntryId : string) : World :=
  match buildCurrentReferenceMapForComparison tracker w now sourceEntryId
          targetEntryId with
  | Ok currentMap =>
      storeDeepReferenceMap now contentful w sourceEntryId targetEntryId
        currentMap
  | _ => w
  end.

(** [buildDeepReferenceMap]: build, store, return; errors are rethrown. *)
Definition buildDeepReferenceMap (tracker : Tracker) (contentful : bool)
    (w : World) (now : string) (sourceEntryId targetEntryId : string)
  : Outcome DeepMap * World :=
  match buildCurrentReferenceMapForComparison tracker w now sourceEntryId
          targetEntryId with
  | Ok deepMap =>
      (Ok deepMap,
       storeDeepReferenceMap now contentful w sourceEntryId targetEntryId
         deepMap)
  | other => (other, w)
  end.

End WithHash.

(** *** Statistics of the stored snapshot *)

Record Statistics : Type := mkStatistics {
  totalReferences : nat;
  referencesByDepth : gmap nat nat;
  stat_lastScanned : string;
  stat_maxDepth : nat
}.

(** [referencesByDepth[depth] = (referencesByDepth[depth] || 0) + 1] for
    every node of the flattened tree. *)
Definition countByDepth (flattenedRefs : list (string * ReferenceNode))
  : gmap nat nat :=
  fold_left
    (fun byDepth kv =>
       let depth := n_depth (snd kv) in
       <[depth := (default 0 (byDepth !! depth) + 1)%nat]> byDepth)
    flattenedRefs ∅.

Definition getReferenceStatistics (tracker : Tracker) (contentful : bool)
    (w : World) (sourceEntryId targetEntryId : string) : Statistics :=
  match getStoredDeepReferenceMap contentful w sourceEntryId targetEntryId with
  | Some deepMap =>
      mkStatistics (length (dm_flattenedRefs deepMap))
        (countByDepth (dm_flattenedRefs deepMap)) (dm_lastScanned deepMap)
        (dm_maxDepth deepMap)
  | None => mkStatistics 0 ∅ "never" (maxDepth tracker)
  end.

End DeepReferenceTracker.

(** ** Change detection (changeDetectionService.js) *)

Module ChangeDetectionService.

Import DeepReferenceTracker.

(** One element of [deepChanges] in a reported change. *)
Record DeepChangeItem : Type := mkDeepChangeItem {
  dc_id : string;
  dc_type : option string;
  dc_depth : nat;
  dc_fieldChanges : list FieldChange
}.

Record Change : Type := mkChange {
  ch_fieldName : string;
  ch_type : string;
  ch_changeType : string;
  ch_newValue : option LocaleMap;
  ch_isTranslatable : bool;
  ch_needsTranslation : bool;
  ch_deepChanges : list DeepChangeItem;
  ch_referencedEntries : list Entry
}.

Definition isLocalizedField (value : Value) : bool :=
  match value with
  | VObj _ => negb (hasSys value)
  | _ => false
  end.

Definition isTranslatableField (fieldName : string) (fieldValue : Value)
  : bool :=
  if existsb (fun field => Js.startsWith fieldName field)
       ["slug"; "sys_"; "internalName"; "id"; "contentfulMetadata";
        "parentPage"; "authors"; "productionUrl"; "makeModel";
        "publicationDate"; "lastModificationDate"; "makeIds"; "modelIds";
        "trackingName"; "domain"; "pageType"; "metaIndexToggle";
        "enableFeaturedArticle"; "showInGoogleNews"; "hasHighlightedText";
        "isPrimary"; "spotlight"; "publishedCounter"; "fieldStatus";
        "automationTags"; "culture"]
  then false
  else if hasLinkType fieldValue then false
  else
    match fieldValue with
    | VArr _ => false (* with or without links: not a string, not localized *)
    | VStr _ => true
    | VObj props =>
        if isLocalizedField fieldValue
        then existsb (fun kv => isString (snd kv)) props
        else match lookupProp "nodeType" props with
             | Some nodeType => truthy nodeType
             | None => false
             end
    | _ => false
    end.

(** [item?.sys?.id] *)
Definition sysIdOf (v : Value) : option string :=
  match v with
  | VLink _ id => Some id
  | _ => None
  end.

Definition hasSysId (refId : string) (v : Value) : bool :=
  match sysIdOf v with
  | Some id => String.eqb id refId
  | None => false
  end.

Fixpoint fieldContainsReference (fieldValue : Value) (refId : string) : bool :=
  match fieldValue with
  | VObj props =>
      if hasSys fieldValue then false
      else existsb (fun kv => fieldContainsReference (snd kv) refId) props
  | VArr items => existsb (hasSysId refId) items
  | VLink _ id => String.eqb id refId
  | _ => false
  end.

Fixpoint extractReferencesFromField (fieldValue : Value) : list Value :=
  match fieldValue with
  | VObj props =>
      if hasSys fieldValue then []
      else flat_map (fun kv => extractReferencesFromField (snd kv)) props
  | VArr items => List.filter isLink items
  | VLink _ _ => [fieldValue]
  | _ => []
  end.

(** [fieldContainsNestedReference(fieldValue, refId, environment,
    currentDepth, maxDepth)], with [levels = maxDepth - currentDepth]: the
    search stops when no level is left. *)
Fixpoint fieldContainsNestedReference (levels : nat) (w : World)
    (fieldValue : Value) (refId : string) : bool :=
  match levels with
  | O => false
  | S levels' =>
      existsb
        (fun ref =>
           match sysIdOf ref with
           | Some id =>
               if Js.truthyStr id then
                 match fetchEntry w id with
                 | Ok referencedEntry =>
                     existsb
                       (fun nested =>
                          fieldContainsReference (fieldObject (snd nested)) refId
                          || fieldContainsNestedReference levels' w
                               (fieldObject (snd nested)) refId)
                       (fields referencedEntry)
                 | _ => false
                 end
               else false
           | None => false
           end)
        (extractReferencesFromField fieldValue)
  end.

(** The first field that holds the reference directly, else the first field
    that reaches it through nested entries (from depth 1 to the cap of 3). *)
Definition findFieldContainingReference (w : World) (sourceEntry : Entry)
    (refId : string) : option string :=
  match List.find
          (fun kv => fieldContainsReference (fieldObject (snd kv)) refId)
          (fields sourceEntry) with
  | Some kv => Some (fst kv)
  | None =>
      match List.find
              (fun kv =>
                 fieldContainsNestedReference 2 w (fieldObject (snd kv)) refId)
              (fields sourceEntry) with
      | Some kv => Some (fst kv)
      | None => None
      end
  end.

(** [fieldChanges[key].push(item)], creating the group when it is new. *)
Definition pushTo {A} (key : string) (item : A) (groups : list (string * list A))
  : list (string * list A) :=
  setProp key (default [] (lookupProp key groups) ++ [item])%list groups.

(** Grouping by the containing field, for changed and for new references;
    a reference found in no field is dropped. *)
Definition groupByContainingField (w : World) (sourceEntry : Entry)
    (items : list DeepChangeItem) : list (string * list DeepChangeItem) :=
  fold_left
    (fun groups item =>
       match findFieldContainingReference w sourceEntry (dc_id item) with
       | Some containingField =>
           if Js.truthyStr containingField
           then pushTo containingField item groups
           else groups
       | None => groups
       end)
    items [].

Definition groupRemovedReferencesByField (removedReferences : list string)
    (storedDeepRefs : list (string * ReferenceNode))
  : list (string * list string) :=
  fold_left
    (fun groups refId =>
       match lookupProp refId storedDeepRefs with
       | Some storedRef =>
           match n_parentField storedRef with
           | Some fieldName =>
               if Js.truthyStr fieldName then pushTo fieldName refId groups
               else groups
           | None => groups
           end
       | None => groups
       end)
    removedReferences [].

Definition getReferencedEntriesForField (w : World) (sourceEntry : Entry)
    (fieldName : string) : list Entry :=
  match lookupProp fieldName (fields sourceEntry) with
  | Some fieldValue =>
      flat_map
        (fun ref =>
           match ref with
           | VLink linkType id =>
               if Js.truthyStr id && String.eqb linkType "Entry" then
                 match fetchEntry w id with
                 | Ok entry => [entry]
                 | _ => []
                 end
               else []
           | _ => []
           end)
        (extractReferencesFromField (fieldObject fieldValue))
  | None => []
  end.

Section WithHash.

Variable sha256Json : Value -> string.

Definition generateFieldHash (fieldValue : Value) : string :=
  sha256Json fieldValue.

Definition generateFieldHashes (entry : Entry) : list (string * string) :=
  fold_left
    (fun fieldHashes kv =>
       if isTranslatableField (fst kv) (fieldObject (snd kv))
       then setProp (fst kv) (generateFieldHash (fieldObject (snd kv)))
              fieldHashes
       else fieldHashes)
    (fields entry) [].

(** [detectBasicFieldChanges]; [relationship] is what
    [metadataService.getRelationship] answered. *)
Definition detectBasicFieldChanges (relationship : option Relationship)
    (sourceEntry : Entry) : list Change :=
  let storedFieldHashes :=
    match relationship with
    | Some r => r_fieldHashes r
    | None => []
    end in
  let currentFieldHashes := generateFieldHashes sourceEntry in
  (flat_map
     (fun kv =>
        let (fieldName, currentHash) := kv : string * string in
        let storedHash := lookupProp fieldName storedFieldHashes in
        if negb (bool_decide (storedHash = Some currentHash)) then
          match lookupProp fieldName (fields sourceEntry) with
          | Some fieldValue =>
              if isTranslatableField fieldName (fieldObject fieldValue) then
                [mkChange fieldName "field"
                   (if Js.truthyStr (default "" storedHash)
                    then "modified" else "added")
                   (Some fieldValue) true true [] []]
              else []
          | None => []
          end
        else [])
     currentFieldHashes
   ++
   flat_map
     (fun kv =>
        if negb (Js.truthyStr
                   (default "" (lookupProp (fst kv) currentFieldHashes)))
        then [mkChange (fst kv) "field" "deleted" None false false [] []]
        else [])
     storedFieldHashes)%list.

Definition changedItem (ref : ChangedReference) (type : option string)
  : DeepChangeItem :=
  mkDeepChangeItem (cr_id ref) type (cr_depth ref) (cr_fieldChanges ref).

Definition newItem (ref : NewReference) (type : option string)
  : DeepChangeItem :=
  mkDeepChangeItem (nr_id ref) type (nr_depth ref) [].

(** The changes derived from the diff of the trees (step 2 of
    [detectParentFieldChanges], inside its [try]). *)
Definition deepReferenceChanges (contentful : bool) (w : World)
    (sourceEntry : Entry) (sourceEntryId targetEntryId : string)
    (deepChanges : DeepChanges) : list Change :=
  let changed :=
    map
      (fun group =>
         mkChange (fst group) "enhanced-reference-field" "modified" None true
           true (snd group)
           (getReferencedEntriesForField w sourceEntry (fst group)))
      (groupByContainingField w sourceEntry
         (map (fun ref => changedItem ref (Some "changed"))
            (changedReferences deepChanges))) in
  let added :=
    map
      (fun group =>
         mkChange (fst group) "enhanced-reference-field" "added" None true
           true (snd group)
           (getReferencedEntriesForField w sourceEntry (fst group)))
      (groupByContainingField w sourceEntry
         (map (fun ref => newItem ref (Some "new"))
            (newReferences deepChanges))) in
  let removed :=
    match removedReferences deepChanges with
    | [] => []
    | _ :: _ =>
        match getStoredDeepReferences contentful w sourceEntryId
                targetEntryId with
        | Some storedDeepRefs =>
            map
              (fun group =>
                 mkChange (fst group) "enhanced-reference-field" "deleted"
                   None false false
                   (map
                      (fun ref =>
                         mkDeepChangeItem ref (Some "removed")
                           (match lookupProp ref storedDeepRefs with
                            | Some stored =>
                                if (n_depth stored =? 0)%nat then 1%nat
                                else n_depth stored
                            | None => 1%nat
                            end)
                           [])
                      (snd group))
                   [])
              (groupRemovedReferencesByField (removedReferences deepChanges)
                 storedDeepRefs)
        | None => []
        end
    end in
  let directRefChanges :=
    List.filter (fun item => (1 <? dc_depth item)%nat)
      (map (fun ref => changedItem ref None) (changedReferences deepChanges)
       ++ map (fun ref => newItem ref None) (newReferences deepChanges))%list in
  let direct :=
    match directRefChanges with
    | [] => []
    | _ :: _ =>
        [mkChange "direct-deep-references" "direct-reference-translation"
           "modified" None true true directRefChanges []]
    end in
  (changed ++ added ++ removed ++ direct)%list.

(** [detectParentFieldChanges]; [deepReferenceTracker] is the tracker of
    this service, [relationship] the answer of
    [metadataService.getRelationship]. A failure of the deep detection is
    logged and the basic changes are returned. *)
Definition detectParentFieldChanges
    (deepReferenceTracker : option Tracker) (contentful : bool) (w : World)
    (now : string) (relationship : option Relationship) (sourceEntry : Entry)
    (sourceEntryId targetEntryId : string) : Outcome (list Change) * World :=
  let basicChanges := detectBasicFieldChanges relationship sourceEntry in
  match deepReferenceTracker with
  | Some tracker =>
      match detectDeepReferenceChanges sha256Json tracker contentful w now
              sourceEntryId targetEntryId with
      | (Ok deepChanges, w') =>
          (Ok (basicChanges ++
               deepReferenceChanges contentful w' sourceEntry sourceEntryId
                 targetEntryId deepChanges)%list,
           w')
      | (Throw _, w') => (Ok basicChanges, w')
      | (OutOfFuel, w') => (OutOfFuel, w')
      end
  | None => (Ok basicChanges, w)
  end.

End WithHash.

End ChangeDetectionService.

(** ** The incremental translation service
    (incrementalTranslationService.js) *)

Module IncrementalService.

Import DeepReferenceTracker ChangeDetectionService.

(** The service object: [contentfulMetadataService] is [null] until
    [initialize] runs; [deepReferenceTracker] is the property
    [this.deepReferenceTracker] of the service itself, and
    [cds_deepReferenceTracker] the property of the same name of
    [this.changeDetectionService]. *)
Record Service : Type := mkService {
  deeplApiKey : string;
  contentfulMetadataService : bool;
  deepReferenceTracker : option Tracker;
  cds_deepReferenceTracker : option Tracker
}.

(** The constructor assigns no [deepReferenceTracker] to the service (the
    property reads [undefined]); the change detection service starts with
    [this.deepReferenceTracker = null]. *)
Definition newService (apiKey : string) : Service :=
  mkService apiKey false None None.

Definition initialize (svc : Service) : Service :=
  mkService (deeplApiKey svc) true (deepReferenceTracker svc)
    (cds_deepReferenceTracker svc).

(** [initializeDeepTrackingAsync(environment, options)]: the new tracker is
    assigned to [this.changeDetectionService.deepReferenceTracker]. *)
Definition initializeDeepTrackingAsync (svc : Service)
    (optMaxDepth : nat) (optAutoTranslateNewRefs : bool) : Service :=
  mkService (deeplApiKey svc) (contentfulMetadataService svc)
    (deepReferenceTracker svc)
    (Some (mkTracker (maxDepthOption (maxDepthOption optMaxDepth))
             optAutoTranslateNewRefs)).

Definition relationshipFile (sourceEntryId targetEntryId : string) : string :=
  sourceEntryId +:+ "_" +:+ targetEntryId +:+ ".json".

(** The validation of a parsed relationship file: a tree snapshot is
    refused, and so is a record without [metadata] or with a falsy
    [metadata.lastTranslatedVersion]. *)
Definition validRelationshipFile (content : FileContent)
  : option Relationship :=
  match content with
  | RelationshipFile data =>
      match r_metadata data with
      | Some metadata =>
          match lastTranslatedVersion metadata with
          | Some version => if version =? 0 then None else Some data
          | None => None
          end
      | None => None
      end
  | DeepRefsFile _ => None
  | Unparsable => None
  end.

Definition getRelationship (svc : Service) (w : World)
    (sourceEntryId targetEntryId : string) : option Relationship :=
  let fromFile :=
    match w_files w !! relationshipFile sourceEntryId targetEntryId with
    | Some content => validRelationshipFile content
    | None => None
    end in
  if contentfulMetadataService svc then
    match ContentfulMetadataService.getRelationshipMetadata w sourceEntryId
            targetEntryId with
    | Some data => Some data
    | None => fromFile
    end
  else fromFile.

(** [existingData.metadata.createdAt] of the file that is already there;
    when the file cannot be read that far the new [createdAt] stays. *)
Definition preservedCreatedAt (existing : option FileContent)
    (fresh : option string) : option string :=
  match existing with
  | Some (RelationshipFile existingData) =>
      match r_metadata existingData with
      | Some metadata => createdAt metadata
      | None => fresh
      end
  | _ => fresh
  end.

(** [createOrUpdateRelationship]; [now] is the reading of the clock. *)
Definition createOrUpdateRelationship (svc : Service) (w : World)
    (now : string) (sourceEntryId targetEntryId : string)
    (lastVersion : Z) (translationContext : TranslationContext)
    (fieldHashes cloneMapping : list (string * string)) : World :=
  let relationshipData (created : option string) :=
    mkRelationship sourceEntryId targetEntryId
      (Some (mkMetadata (Some lastVersion) now created))
      translationContext fieldHashes cloneMapping None None in
  let toFile (w : World) :=
    let filename := relationshipFile sourceEntryId targetEntryId in
    writeFile w filename
      (RelationshipFile
         (relationshipData
            (preservedCreatedAt (w_files w !! filename) (Some now)))) in
  if contentfulMetadataService svc then
    match ContentfulMetadataService.storeRelationshipMetadata w sourceEntryId
            targetEntryId (relationshipData (Some now)) with
    | (Ok _, w') => w'
    | (_, w') => toFile w'
    end
  else toFile w.

(** [translateText(text, translationContext)]; [deepl] is the provider
    reached with the key. *)
Definition translateText (svc : Service) (deepl : Translator) (text : string)
    (translationContext : TranslationContext) : Outcome string :=
  if negb (Js.truthyStr (deeplApiKey svc)) || negb (Js.truthyStr (Js.trim text))
  then Ok text
  else
    tryCatch
      (let sourceLang := Js.orStr (tc_sourceLanguage translationContext) "DE" in
       let targetLang := Js.orStr (tc_targetLanguage translationContext) "IT" in
       bindO (await (deepl text sourceLang targetLang noOptions))
         (fun result => Ok result))
      (fun _ => Ok text).

Record Status : Type := mkStatus {
  hasRelationship : bool;
  error : option string;
  hasChanges : bool;
  upToDate : bool;
  changes : list Change;
  st_lastTranslatedVersion : option Z;
  st_currentVersion : option Z
}.

Definition failedStatus (message : string) : Status :=
  mkStatus false (Some message) false false [] None None.

Section WithHash.

Variable sha256Json : Value -> string.

(** [checkUpdateStatus(sourceEntryId, targetEntryId)]: the status, the
    service as the call leaves it, and the world as the call leaves it. *)
Definition checkUpdateStatus (svc : Service) (w : World) (now : string)
    (sourceEntryId targetEntryId : string) : Status * Service * World :=
  match getRelationship svc w sourceEntryId targetEntryId with
  | None =>
      (failedStatus "No translation relationship found between these entries.",
       svc, w)
  | Some relationship =>
      match fetchEntry w sourceEntryId, r_metadata relationship with
      | Ok sourceEntry, Some metadata =>
          let currentVersion := currentVersionOf sourceEntry in
          let svc1 := initializeDeepTrackingAsync svc 3 true in
          match detectParentFieldChanges sha256Json
                  (cds_deepReferenceTracker svc1)
                  (contentfulMetadataService svc1) w now
                  (getRelationship svc1 w sourceEntryId targetEntryId)
                  sourceEntry sourceEntryId targetEntryId with
          | (Ok detected, w1) =>
              let changed := negb (bool_decide (detected = [])) in
              let w2 :=
                match deepReferenceTracker svc1 with
                | Some tracker =>
                    updateStoredReferencesAfterProcessing sha256Json tracker
                      (contentfulMetadataService svc1) w1 now sourceEntryId
                      targetEntryId
                | None => w1
                end in
              (mkStatus true None changed (negb changed) detected
                 (lastTranslatedVersion metadata) (Some currentVersion),
               svc1, w2)
          | (Throw e, w1) => (failedStatus e, svc1, w1)
          | (OutOfFuel, w1) => (failedStatus "out of fuel", svc1, w1)
          end
      | Throw e, _ => (failedStatus e, svc, w)
      | _, _ =>
          (failedStatus "Cannot read properties of undefined", svc, w)
      end
  end.

(** [initializeDeepReferenceTracking] of a new translation pair: the
    initial snapshot is built and stored through
    [this.changeDetectionService.deepReferenceTracker]; errors are logged. *)
Definition initializeDeepReferenceTracking (svc : Service) (w : World)
    (now : string) (sourceEntryId targetEntryId : string) : Service * World :=
  let svc1 := initializeDeepTrackingAsync svc 3 true in
  match cds_deepReferenceTracker svc1 with
  | Some tracker =>
      (svc1,
       snd (buildDeepReferenceMap sha256Json tracker
              (contentfulMetadataService svc1) w now sourceEntryId
              targetEntryId))
  | None => (svc1, w)
  end.

(** *** Translation of changed and of new content *)

(** Some value is a string that is not blank. *)
Definition hasText (values : list Value) : bool :=
  existsb
    (fun value =>
       match value with
       | VStr v => (0 <? String.length (Js.trim v))%nat
       | _ => false
       end)
    values.

(** [isTranslatableField] of this service: a field outside the skip list
    whose value is an object with a string that is not blank among its
    values. *)
Definition isTranslatableField (fieldName : string) (fieldValue : Value)
  : bool :=
  if existsb (fun field => Js.startsWith fieldName field)
       ["slug"; "sys_"; "internalName"; "id"; "contentfulMetadata";
        "parentPage"; "authors"; "productionUrl"; "makeModel";
        "publicationDate"; "lastModificationDate"; "makeIds"; "modelIds";
        "trackingName"; "domain"; "pageType"; "metaIndexToggle";
        "enableFeaturedArticle"; "showInGoogleNews"; "hasHighlightedText";
        "isPrimary"; "spotlight"; "publishedCounter"; "fieldStatus";
        "automationTags"; "culture"]
  then false
  else
    match fieldValue with
    | VObj props => hasText (map snd props)
    | VArr items => hasText items
    | _ => false
    end.

(** [generateFieldHashes] of this service, the hashes stored with a
    relationship. *)
Definition generateFieldHashes (entry : Entry) : list (string * string) :=
  fold_left
    (fun hashes kv =>
       if isTranslatableField (fst kv) (fieldObject (snd kv))
       then setProp (fst kv) (sha256Json (fieldObject (snd kv))) hashes
       else hashes)
    (fields entry) [].

(** [cultureMapping[targetLanguage] || targetLanguage] *)
Definition getCultureValueFromTargetLanguage (targetLanguage : string)
  : string :=
  Js.orStr
    (default ""
       (lookupProp targetLanguage
          [("EN", "en-GB"); ("DE", "de-DE"); ("BE", "nl-BE"); ("FR", "fr-FR");
           ("IT", "it-IT"); ("ES", "es-ES"); ("NL", "nl-NL"); ("PT", "pt-PT");
           ("RU", "ru-RU"); ("BG", "bg-BG"); ("CS", "cs-CZ"); ("HR", "hr-HR");
           ("HU", "hu-HU"); ("PL", "pl-PL"); ("RO", "ro-RO"); ("SV", "sv-SE");
           ("TR", "tr-TR"); ("UK", "uk-UA"); ("CA", "en-CA");
           ("FR-CA", "fr-CA"); ("FR-BE", "fr-BE"); ("NL-BE", "nl-BE");
           ("FR-LU", "fr-LU")]))
    targetLanguage.

(** [Object.keys(fieldValue)[0] || 'en-US-POSIX'] *)
Definition firstLocale (fieldValue : LocaleMap) : string :=
  match fieldValue with
  | (locale, _) :: _ => Js.orStr locale "en-US-POSIX"
  | [] => "en-US-POSIX"
  end.

(** [translateFieldValue(fieldValue, translationContext)]: the strings that
    are not blank are translated, everything else is copied. *)
Definition translateFieldValue (svc : Service) (deepl : Translator)
    (fieldValue : LocaleMap) (translationContext : TranslationContext)
  : Outcome LocaleMap :=
  foldO
    (fun translatedValue kv =>
       let (locale, content) := kv : string * Value in
       match content with
       | VStr text =>
           if (0 <? String.length (Js.trim text))%nat then
             bindO (translateText svc deepl text translationContext)
               (fun translated =>
                  Ok (setProp locale (VStr translated) translatedValue))
           else Ok (setProp locale content translatedValue)
       | _ => Ok (setProp locale content translatedValue)
       end)
    fieldValue [].

(** [translateEntryFields(sourceFields, translationContext)], the fields of
    the copy that [cloneNewReference] creates. *)
Definition translateEntryFields (svc : Service) (deepl : Translator)
    (sourceFields : list (string * LocaleMap))
    (translationContext : TranslationContext)
  : Outcome (list (string * LocaleMap)) :=
  foldO
    (fun translatedFields kv =>
       let (fieldName, fieldValue) := kv : string * LocaleMap in
       if String.eqb fieldName "culture" then
         Ok (setProp fieldName
               [(firstLocale fieldValue,
                 VStr (getCultureValueFromTargetLanguage
                         (tc_targetLanguage translationContext)))]
               translatedFields)
       else if isTranslatableField fieldName (fieldObject fieldValue) then
         bindO (translateFieldValue svc deepl fieldValue translationContext)
           (fun translated => Ok (setProp fieldName translated translatedFields))
       else Ok (setProp fieldName fieldValue translatedFields))
    sourceFields [].

(** [newValue[sourceLocaleKey] || newValue[Object.keys(newValue)[0]]] *)
Definition textToTranslateOf (newValue : LocaleMap) : Value :=
  let primary := default VUndefined (lookupProp "en-US-POSIX" newValue) in
  if truthy primary then primary
  else match newValue with
       | (_, first) :: _ => first
       | [] => VUndefined
       end.

(** [handleBasicFieldChange(targetEntry, change, translationContext)] on
    the fields of the target entry; [newValue] is [change.newValue], [None]
    when it is [null] or missing. *)
Definition handleBasicFieldChange (svc : Service) (deepl : Translator)
    (targetFields : list (string * LocaleMap)) (fieldName : string)
    (newValue : option LocaleMap) (translationContext : TranslationContext)
  : Outcome (list (string * LocaleMap)) :=
  match newValue with
  | Some localized =>
      match textToTranslateOf localized with
      | VStr text =>
          if negb (Js.truthyStr text)
             || (String.length (Js.trim text) =? 0)%nat
          then Ok targetFields
          else
            bindO (translateText svc deepl text translationContext)
              (fun translatedText =>
                 Ok (setProp fieldName
                       (setProp "en-US-POSIX" (VStr translatedText)
                          (default [] (lookupProp fieldName targetFields)))
                       targetFields))
      | _ => Ok targetFields
      end
  | None => Ok targetFields
  end.

(** [extractReferencedEntries(fieldValue)] of this service: the entry links
    of every locale, single or in an array. *)
Definition isEntryLink (ref : Value) : bool :=
  match ref with
  | VLink linkType _ => String.eqb linkType "Entry"
  | _ => false
  end.

Definition extractReferencedEntries (fieldValue : LocaleMap) : list Value :=
  flat_map
    (fun kv =>
       match snd kv with
       | VArr items => List.filter isEntryLink items
       | VLink linkType id =>
           if String.eqb linkType "Entry" then [VLink linkType id] else []
       | _ => []
       end)
    fieldValue.

(** The loop of [updateTargetReferenceField] that maps the references of
    the source to their clones. *)
Definition mapReferences (cloneMapping : list (string * string))
    (sourceReferences : list Value) : list Value :=
  flat_map
    (fun sourceRef =>
       match sourceRef with
       | VLink _ id =>
           if Js.truthyStr id then
             match lookupProp ("Entry:" +:+ id) cloneMapping with
             | Some targetRefId =>
                 if Js.truthyStr targetRefId
                 then [VLink "Entry" targetRefId] else []
             | None => []
             end
           else []
       | _ => []
       end)
    sourceReferences.

(** [updateTargetReferenceField(targetEntry, fieldName, change)] on the
    fields of the target entry, for the pair
    ([currentSourceEntryId], [currentTargetEntryId]); any error is logged
    and the fields stay as they are. *)
Definition updateTargetReferenceField (svc : Service) (w : World)
    (currentSourceEntryId currentTargetEntryId : string)
    (targetFields : list (string * LocaleMap)) (fieldName : string)
  : list (string * LocaleMap) :=
  match getRelationship svc w currentSourceEntryId currentTargetEntryId with
  | Some relationship =>
      match fetchEntry w currentSourceEntryId with
      | Ok sourceEntry =>
          match lookupProp fieldName (fields sourceEntry) with
          | Some sourceFieldValue =>
              let targetReferences :=
                mapReferences (r_cloneMapping relationship)
                  (extractReferencedEntries sourceFieldValue) in
              setProp fieldName
                (setProp (firstLocale sourceFieldValue) (VArr targetReferences)
                   (default [] (lookupProp fieldName targetFields)))
                targetFields
          | None => targetFields
          end
      | _ => targetFields
      end
  | None => targetFields
  end.

(** [relationship.cloneMapping = updatedCloneMapping] *)
Definition withCloneMapping (data : Relationship)
    (cloneMapping : list (string * string)) : Relationship :=
  mkRelationship (r_sourceEntryId data) (r_targetEntryId data)
    (r_metadata data) (r_translationContext data) (r_fieldHashes data)
    cloneMapping (r_deepReferenceMap data) (r_backupData data).

(** [updateCloneMapping]: the relationship is stored on the CMS backend
    when there is one and written to its file in any case; without a
    relationship the error is logged and nothing is written. *)
Definition updateCloneMapping (svc : Service) (w : World)
    (sourceEntryId targetEntryId : string)
    (updatedCloneMapping : list (string * string)) : World :=
  match getRelationship svc w sourceEntryId targetEntryId with
  | Some relationship =>
      let updated := withCloneMapping relationship updatedCloneMapping in
      let w1 :=
        if contentfulMetadataService svc then
          snd (ContentfulMetadataService.storeRelationshipMetadata w
                 sourceEntryId targetEntryId updated)
        else w in
      writeFile w1 (relationshipFile sourceEntryId targetEntryId)
        (RelationshipFile updated)
  | None => w
  end.

(** [createTranslationMetadata(options)] after a first clone, the space and
    the environment being reachable: the answer, the service and the world
    as the call leaves them; a source or target entry that cannot be fetched
    makes it throw. *)
Definition createTranslationMetadata (svc : Service) (w : World)
    (now : string) (sourceEntryId targetEntryId : string)
    (sourceLanguage targetLanguage : string)
    (cloneMapping : list (string * string))
  : Outcome Relationship * Service * World :=
  let svc1 := initialize svc in
  match fetchEntry w sourceEntryId, fetchEntry w targetEntryId with
  | Ok sourceEntry, Ok _ =>
      let relationshipData :=
        mkRelationship sourceEntryId targetEntryId
          (Some (mkMetadata (Some (sys_version sourceEntry)) now (Some now)))
          (mkTranslationContext sourceLanguage targetLanguage)
          (generateFieldHashes sourceEntry) cloneMapping None None in
      let w1 :=
        if contentfulMetadataService svc1 then
          snd (ContentfulMetadataService.storeRelationshipMetadata w
                 sourceEntryId targetEntryId relationshipData)
        else w in
      let w2 :=
        writeFile w1 (relationshipFile sourceEntryId targetEntryId)
          (RelationshipFile relationshipData) in
      let (svc2, w3) :=
        initializeDeepReferenceTracking svc1 w2 now sourceEntryId
          targetEntryId in
      (Ok relationshipData, svc2, w3)
  | Ok _, Throw e => (Throw e, svc1, w)
  | Ok _, OutOfFuel => (OutOfFuel, svc1, w)
  | Throw e, _ => (Throw e, svc1, w)
  | OutOfFuel, _ => (OutOfFuel, svc1, w)
  end.

End WithHash.

End IncrementalService.

(** * Vocabulary of the properties

    The notions the statements below are phrased with, and the sample
    content they are evaluated on. *)

(** The prefix as the clone writes it: [prefixConfig.prefix] and a space. *)
Definition clonePrefix (svc : CloneService.Service) : string :=
  CloneService.prefix svc +:+ " ".

(** The text that [translateText] of the clone hands to the provider: the
    text itself or, when the prefix is detached, what follows the prefix and
    one more character. *)
Definition sentText (svc : CloneService.Service) (text : string) : string :=
  if CloneService.preservePrefix svc
     && Js.startsWith text (CloneService.prefix svc)
  then Js.substringFrom (String.length (CloneService.prefix svc +:+ " ")) text
  else text.

(** Sample content: a provider that marks what it translated, the page and
    text content types, and a CMS that numbers the drafts it creates. *)
Definition echoTranslator : Translator :=
  fun text _ _ _ => Fulfilled ("<" +:+ text +:+ ">").

Definition identityTranslator : Translator :=
  fun text _ _ _ => Fulfilled text.

Definition pageType : ContentType :=
  mkContentType
    [mkFieldDef "title" "Symbol" true None;
     mkFieldDef "culture" "Symbol" true None;
     mkFieldDef "teaserText" "Text" true None;
     mkFieldDef "elements" "Array" false None].

Definition textType : ContentType :=
  mkContentType
    [mkFieldDef "content" "Text" true None;
     mkFieldDef "ref" "Link" false None].

Definition numberedDrafts : nat -> string -> list (string * LocaleMap) -> Answer string :=
  fun n _ _ => Fulfilled ("draft-" +:+ pretty n).

(** A page without [teaserText], a required text field. *)
Definition pageWithoutTeaser : Entry :=
  mkEntry "X" "cmsPage" 3 None
    [("title", [("en-US-POSIX", VStr "Willkommen")]);
     ("culture", [("en-US-POSIX", VStr "de-DE")])].

Definition onePageCms : CloneService.Cms :=
  CloneService.mkCms {["X" := pageWithoutTeaser]} {["cmsPage" := pageType]}
    (fun _ => Fulfilled []) numberedDrafts.


(** A provider that translates everything but the caption "Bild". *)
Definition captionFailingTranslator : Translator :=
  fun text _ _ _ =>
    if String.eqb text "Bild" then Rejected "quota exceeded"
    else Fulfilled text.

(** A provider that translates everything but the caption
    "Preisklasse $$$". *)
Definition priceCaptionFailingTranslator : Translator :=
  fun text _ _ _ =>
    if String.eqb text "Preisklasse $$$" then Rejected "quota exceeded"
    else Fulfilled text.

(** A relationship of the pair (S, T) first stored on 1 January 2024. *)
Definition firstStored : Relationship :=
  mkRelationship "S" "T"
    (Some (mkMetadata (Some 3) "2024-01-01T00:00:00.000Z"
             (Some "2024-01-01T00:00:00.000Z")))
    (mkTranslationContext "DE" "IT") [] [("Entry:S", "T")] None None.

(** The store with that relationship on the CMS backend, and the store with
    it on the filesystem backend while the CMS backend is down. *)
Definition cmsBackedWorld : World :=
  mkWorld ∅ true [mkMetadataEntry "m1" "S_T" firstStored] 0 ∅.

Definition fileBackedWorld : World :=
  mkWorld ∅ false [] 0 {["S_T.json" := RelationshipFile firstStored]}.

Definition readyService : IncrementalService.Service :=
  IncrementalService.initialize (IncrementalService.newService "key").

(** A tree snapshot of S with nothing below the root. *)
Definition rootOnlySnapshot : DeepMap :=
  let root := mkNode "S" 3 0 None None "h" "2024-01-01T00:00:00.000Z" [] in
  mkDeepMap "S" "T" 3 "2024-01-01T00:00:00.000Z" root [("S", root)].

Definition emptyWorld : World := mkWorld ∅ true [] 0 ∅.

(** A relationship record is refused by the file validation when it has no
    metadata, no [lastTranslatedVersion], or a [lastTranslatedVersion] of
    0. *)
Definition versionMissingOrZero (data : Relationship) : Prop :=
  match r_metadata data with
  | Some metadata =>
      lastTranslatedVersion metadata = None
      \/ lastTranslatedVersion metadata = Some 0
  | None => True
  end.

(** The minimal record that saving a tree snapshot creates when the pair
    has no relationship yet. *)
Definition minimalRecord (now : string) (deepMap : DeepMap) : Relationship :=
  mkRelationship "S" "T" (Some (mkMetadata (Some 0) now (Some now)))
    (mkTranslationContext "unknown" "unknown") [] [] (Some deepMap) None.

(** The CMS answers a fetch by id with the entry of that id. *)
Definition storeKeyedById (w : World) : Prop :=
  map_Forall (fun id (e : Entry) => sys_id e = id) (w_entries w).

(** The layering of a tree under a depth cap: a node at the cap has no
    children, and every child is one level below its parent, not below the
    cap, carries another id than its parent, and is layered itself. *)
Inductive WellLayered (cap : nat) : ReferenceNode -> Prop :=
| WellLayered_node id version depth parentId parentField hash updated children :
    (depth = cap -> children = []) ->
    Forall
      (fun child =>
         n_depth child = S depth /\ (n_depth child <= cap)%nat
         /\ n_id child <> id /\ WellLayered cap child)
      children ->
    WellLayered cap
      (mkNode id version depth parentId parentField hash updated children).

(** Some id occurs twice on a path from the root: at a node and again at
    one of its descendants. *)
Fixpoint repeatsOnPath (ancestors : list string) (node : ReferenceNode) : bool :=
  match node with
  | mkNode id _ _ _ _ _ _ children =>
      Js.includesStr ancestors id
      || (fix any (children : list ReferenceNode) : bool :=
            match children with
            | child :: rest => repeatsOnPath (id :: ancestors) child || any rest
            | [] => false
            end) children
  end.

(** Two entries that reference each other, A through [elements] and B
    through [ref]. *)
Definition cycleA : Entry :=
  mkEntry "A" "cmsPage" 3 None
    [("title", [("en-US-POSIX", VStr "Willkommen")]);
     ("culture", [("en-US-POSIX", VStr "de-DE")]);
     ("elements", [("en-US-POSIX", VArr [VLink "Entry" "B"])])].

Definition cycleB : Entry :=
  mkEntry "B" "scText" 1 None
    [("content", [("en-US-POSIX", VStr "Mehr lesen")]);
     ("ref", [("en-US-POSIX", VLink "Entry" "A")])].

Definition cycleWorld : World :=
  mkWorld {["A" := cycleA; "B" := cycleB]} true [] 0 ∅.

Definition defaultTracker : DeepReferenceTracker.Tracker :=
  DeepReferenceTracker.mkTracker 3 true.

(** The quotation mark. *)
Definition quote : string := String (ascii_of_nat 34) "".

(** A stand-in for the SHA-256 of the JSON text on the sample content: the
    JSON text itself (without escapes), which no two values share. *)
Fixpoint renderJson (v : Value) : string :=
  match v with
  | VUndefined => "undefined"
  | VNull => "null"
  | VBool b => if b then "true" else "false"
  | VNum n => pretty n
  | VStr s => quote +:+ s +:+ quote
  | VArr items =>
      "[" +:+
      fold_right (fun item out => renderJson item +:+ "," +:+ out) "]" items
  | VObj props =>
      "{" +:+
      fold_right
        (fun kv out =>
           quote +:+ fst kv +:+ quote +:+ ":" +:+ renderJson (snd kv)
           +:+ "," +:+ out)
        "}" props
  | VLink linkType id =>
      "{sys:{type:Link,linkType:" +:+ linkType +:+ ",id:" +:+ id +:+ "}}"
  end.

(** The ids met from the root down the first child of every node. *)
Fixpoint firstPath (node : ReferenceNode) : list string :=
  match node with
  | mkNode id _ _ _ _ _ _ children =>
      id :: match children with
            | child :: _ => firstPath child
            | [] => []
            end
  end.

(** The page S with its elements E1 and E3 when the snapshot is taken, and
    the same page later: E1 was edited, E3 was taken out and E2 was put
    in. *)
Definition textEntry (id : string) (version : Z) (content : string) : Entry :=
  mkEntry id "scText" version None
    [("content", [("en-US-POSIX", VStr content)])].

Definition pageEntry (version : Z) (elements : list string) : Entry :=
  mkEntry "S" "cmsPage" version None
    [("title", [("en-US-POSIX", VStr "Willkommen")]);
     ("culture", [("en-US-POSIX", VStr "de-DE")]);
     ("elements", [("en-US-POSIX", VArr (map (VLink "Entry") elements))])].

Definition relationshipOf (page : Entry) : Relationship :=
  mkRelationship "S" "T"
    (Some (mkMetadata (Some (sys_version page)) "2024-01-01T00:00:00.000Z"
             (Some "2024-01-01T00:00:00.000Z")))
    (mkTranslationContext "DE" "IT")
    (ChangeDetectionService.generateFieldHashes renderJson page)
    [("Entry:S", "T")] None None.

(** The world in which the first clone has just stored the relationship of
    (S, T), and the world after the snapshot of the tree was stored too. *)
Definition worldAtClone : World :=
  mkWorld
    {["S" := pageEntry 3 ["E1"; "E3"];
      "E1" := textEntry "E1" 1 "Mehr lesen";
      "E3" := textEntry "E3" 1 "Kontakt"]}
    true [mkMetadataEntry "m1" "S_T" (relationshipOf (pageEntry 3 ["E1"; "E3"]))]
    0 ∅.

Definition worldWithSnapshot : World :=
  snd (DeepReferenceTracker.buildDeepReferenceMap renderJson defaultTracker
         true worldAtClone "2024-01-01T00:00:00.000Z" "S" "T").

(** The editors then change the content; the store is left as it is. *)
Definition withContent (w : World) (entries : gmap string Entry) : World :=
  mkWorld entries (w_metadataTypeInstalled w) (w_metadata w) (w_nextId w)
    (w_files w).


(** The page is saved again without any change to its fields: its version
    goes from 3 to 4 and nothing else moves. *)
Definition worldAfterRepublish : World :=
  withContent worldWithSnapshot
    {["S" := pageEntry 4 ["E1"; "E3"];
      "E1" := textEntry "E1" 1 "Mehr lesen";
      "E3" := textEntry "E3" 1 "Kontakt"]}.

(** The version recorded at the root of a tree snapshot. *)
Definition rootVersion (deepMap : DeepMap) : Z :=
  n_version (dm_referenceTree deepMap).

(** *** Vocabulary of the clone run *)

(** The key of a source entry in the clone map and the processing set. *)
Definition keyOf (sourceId : string) : string := "Entry:" +:+ sourceId.

(** The number of drafts the run created for a source entry. *)
Definition clonesOf (sourceId : string) (st : CloneService.CloneState) : nat :=
  length
    (List.filter (fun d => String.eqb (CloneService.d_source d) sourceId)
       (CloneService.drafts st)).

(** Every source entry that has a draft has a target in the clone map. *)
Definition Recorded (st : CloneService.CloneState) : Prop :=
  forall s, (0 < clonesOf s st)%nat ->
            is_Some (CloneService.cloneMap st !! keyOf s).

(** What a part of the run guarantees between the state it starts in and
    the state it ends in; [own] is the source entry that the part itself is
    the clone of, when it is a call of [cloneEntryRecursive]. *)
Record Step (own : option string) (st st' : CloneService.CloneState) : Prop :=
  mkStep {
    step_processing :
      CloneService.processingSet st ⊆ CloneService.processingSet st';
    step_mapped :
      forall k, is_Some (CloneService.cloneMap st !! k) ->
                is_Some (CloneService.cloneMap st' !! k);
    step_recorded : Recorded st -> Recorded st';
    step_memo :
      forall s, is_Some (CloneService.cloneMap st !! keyOf s) ->
                clonesOf s st' = clonesOf s st;
    step_in_progress :
      forall s, own <> Some s ->
                keyOf s ∈ CloneService.processingSet st ->
                CloneService.cloneMap st !! keyOf s = None ->
                clonesOf s st' = clonesOf s st
                /\ CloneService.cloneMap st' !! keyOf s = None;
    step_once :
      forall s, own <> Some s -> Recorded st ->
                CloneService.cloneMap st !! keyOf s = None ->
                (clonesOf s st' <= 1)%nat;
    step_own :
      forall s, own = Some s -> Recorded st ->
                CloneService.cloneMap st !! keyOf s = None ->
                (clonesOf s st' <= 2)%nat
                /\ (keyOf s ∈ CloneService.processingSet st ->
                    (clonesOf s st' <= 1)%nat)
  }.

(** A part of the run that keeps the guarantee from every state. *)
Definition Spec {A} (own : option string) (m : CloneService.M A) : Prop :=
  forall st r st', m st = (r, st') -> Step own st st'.

(** A part of the run that, started with the processing set [P], comes to
    an end (it does not run out of fuel) and leaves the processing set as it
    found it. *)
Definition Completes {A} (m : CloneService.M A) (P : gset string) : Prop :=
  forall st r st',
    CloneService.processingSet st = P -> m st = (r, st') ->
    r <> OutOfFuel /\ CloneService.processingSet st' = P.

(** The number of entries of the CMS that are not being processed. *)
Definition waiting (cms : CloneService.Cms) (P : gset string) : nat :=
  size (filter (fun id => keyOf id ∉ P) (dom (CloneService.cms_entries cms))).

(** The CMS hands out every entry under its own id. *)
Definition cmsKeyedById (cms : CloneService.Cms) : Prop :=
  map_Forall (fun id (e : Entry) => sys_id e = id) (CloneService.cms_entries cms).

(** A page whose own element references it back: A and B above. *)
Definition cycleCms : CloneService.Cms :=
  CloneService.mkCms {["A" := cycleA; "B" := cycleB]}
    {["cmsPage" := pageType; "scText" := textType]}
    (fun _ => Fulfilled []) numberedDrafts.

(** A page R whose element A and the text B reference each other. *)
Definition loopRoot : Entry :=
  mkEntry "R" "cmsPage" 3 None
    [("title", [("en-US-POSIX", VStr "Willkommen")]);
     ("culture", [("en-US-POSIX", VStr "de-DE")]);
     ("elements", [("en-US-POSIX", VArr [VLink "Entry" "A"])])].

Definition loopA : Entry :=
  mkEntry "A" "scText" 1 None
    [("content", [("en-US-POSIX", VStr "Weiter")]);
     ("ref", [("en-US-POSIX", VLink "Entry" "B")])].

Definition loopCms : CloneService.Cms :=
  CloneService.mkCms {["R" := loopRoot; "A" := loopA; "B" := cycleB]}
    {["cmsPage" := pageType; "scText" := textType]}
    (fun _ => Fulfilled []) numberedDrafts.

(** The run of a first clone on the sample content, and what it leaves: the
    source and the id of every draft in the order of creation, and the value
    a draft holds in a field. *)
Definition sampleRun (cms : CloneService.Cms) (rootId : string)
  : Outcome CloneService.CloneResult * CloneService.CloneState :=
  CloneService.cloneEntry 4 (CloneService.newService "key" identityTranslator)
    cms "2025-01-01T00:00:00.000Z" rootId "IT" CloneService.emptyState.

Definition createdDrafts (st : CloneService.CloneState)
  : list (string * string) :=
  map (fun d => (CloneService.d_source d, CloneService.d_id d))
    (CloneService.drafts st).

Definition draftField (st : CloneService.CloneState) (draftId fieldId : string)
  : option Value :=
  match List.find (fun d => String.eqb (CloneService.d_id d) draftId)
          (CloneService.drafts st) with
  | Some d =>
      match lookupProp fieldId (CloneService.d_fields d) with
      | Some locales => lookupProp "en-US-POSIX" locales
      | None => None
      end
  | None => None
  end.

(** *** Vocabulary of the tree snapshot *)

(** The tree with another time stamp on every node. *)
Fixpoint stamp (now : string) (node : ReferenceNode) : ReferenceNode :=
  match node with
  | mkNode id version depth parentId parentField contentHash _ children =>
      mkNode id version depth parentId parentField contentHash now
        (map (stamp now) children)
  end.

(** The flattened tree with another time stamp on every node. *)
Definition stampAll (now : string) (flattened : list (string * ReferenceNode))
  : list (string * ReferenceNode) :=
  map (fun kv => (fst kv, stamp now (snd kv))) flattened.

(** The result of a build with the time stamp changed. *)
Definition stamped (now : string) (built : Outcome ReferenceNode)
  : Outcome ReferenceNode :=
  bindO built (fun tree => Ok (stamp now tree)).

(** The number of nodes of a flattened tree at a depth. *)
Definition nodesAtDepth (depth : nat) (flattened : list (string * ReferenceNode))
  : nat :=
  length (List.filter (fun kv => (n_depth (snd kv) =? depth)%nat) flattened).

(** The nodes of a tree, a parent before its children, and a node without
    its children. *)
Fixpoint treeNodes (node : ReferenceNode) : list ReferenceNode :=
  match node with
  | mkNode _ _ _ _ _ _ _ children => node :: flat_map treeNodes children
  end.

Definition childless (node : ReferenceNode) : ReferenceNode :=
  mkNode (n_id node) (n_version node) (n_depth node) (n_parentId node)
    (n_parentField node) (n_contentHash node) (n_lastUpdated node) [].

(** The sum of the counts of a statistics by depth. *)
Definition sumOfCounts (byDepth : gmap nat nat) : nat :=
  map_fold (fun _ count total => (count + total)%nat) 0%nat byDepth.

(** A source page S with one element and a target entry T, before any
    metadata of the pair is stored. *)
Definition freshPairWorld : World :=
  mkWorld
    {["S" := pageEntry 3 ["E1"];
      "E1" := textEntry "E1" 1 "Mehr lesen";
      "T" := textEntry "T" 1 "Benvenuti"]}
    true [] 0 ∅.

(** *** Vocabulary of the incremental update *)

(** The value of a field of an entry in a locale. *)
Definition localeValue (entryFields : list (string * LocaleMap))
    (fieldName locale : string) : option Value :=
  match lookupProp fieldName entryFields with
  | Some locales => lookupProp locale locales
  | None => None
  end.

(** The result of a call that returned, and a fallback for one that did
    not. *)
Definition resultOr {A} (fallback : A) (outcome : Outcome A) : A :=
  match outcome with
  | Ok result => result
  | _ => fallback
  end.

(** A localized value without a locale named [sys] and without a blank
    string. *)
Definition plainField (value : LocaleMap) : bool :=
  match lookupProp "sys" value with
  | Some _ => false
  | None =>
      forallb
        (fun kv =>
           match snd kv with
           | VStr text => (0 <? String.length (Js.trim text))%nat
           | _ => true
           end)
        value
  end.

(** The hash that the change detection takes of a field of an entry:
    none for a field that is missing or not translatable. *)
Definition hashOfField (sha256Json : Value -> string) (entry : Entry)
    (fieldName : string) : option string :=
  match lookupProp fieldName (fields entry) with
  | Some value =>
      if ChangeDetectionService.isTranslatableField fieldName (fieldObject value)
      then Some (sha256Json (fieldObject value))
      else None
  | None => None
  end.

(** *** Vocabulary of failures and of drafts *)

(** A part of the run that does not throw, whatever state it starts in. *)
Definition NoThrow {A} (m : CloneService.M A) : Prop :=
  forall st r st', m st = (r, st') -> forall e, r <> Throw e.

(** The draft is the clone of an entry of the CMS and has the content type
    of that entry; it has no field outside the content type; and it has
    every required field of the content type, but for a field that is
    emptied on clone and whose type has no empty value. *)
Definition fitsContentType (svc : CloneService.Service)
    (cms : CloneService.Cms) (d : CloneService.Draft) : Prop :=
  exists id sourceEntry contentType,
    CloneService.cms_entries cms !! id = Some sourceEntry
    /\ CloneService.d_source d = sys_id sourceEntry
    /\ CloneService.d_contentType d = sys_contentType sourceEntry
    /\ CloneService.cms_contentTypes cms !! sys_contentType sourceEntry
       = Some contentType
    /\ (forall fieldId,
          is_Some (lookupProp fieldId (CloneService.d_fields d)) ->
          In fieldId (map fd_id (ct_fields contentType)))
    /\ (forall fieldDef,
          In fieldDef (ct_fields contentType) ->
          fd_required fieldDef = true ->
          CloneService.shouldEmptyField svc (fd_id fieldDef) = false
          \/ is_Some (CloneService.getEmptyValueForField fieldDef "en-US-POSIX") ->
          is_Some (lookupProp (fd_id fieldDef) (CloneService.d_fields d))).

(** The state of a run whose cache holds content types of the CMS and
    whose drafts fit their content types. *)
Definition Sound (svc : CloneService.Service) (cms : CloneService.Cms)
    (st : CloneService.CloneState) : Prop :=
  CloneService.contentTypeCache st ⊆ CloneService.cms_contentTypes cms
  /\ Forall (fitsContentType svc cms) (CloneService.drafts st).

(** A part of the run that keeps the state sound and whose result, when it
    returns one, satisfies [R]. *)
Definition Keeps {A} (svc : CloneService.Service) (cms : CloneService.Cms)
    (m : CloneService.M A) (R : A -> Prop) : Prop :=
  forall st r st',
    Sound svc cms st -> m st = (r, st') ->
    Sound svc cms st' /\ forall a, r = Ok a -> R a.

(** What one turn of the field loop does to the fields of the draft: it
    adds at most the field of the turn, removes none, and leaves a required
    field of the turn in place. *)
Definition turnOf (svc : CloneService.Service) (fieldDef : FieldDef)
    (before after : list (string * LocaleMap)) : Prop :=
  (forall k, is_Some (lookupProp k after) ->
             is_Some (lookupProp k before) \/ k = fd_id fieldDef)
  /\ (forall k, is_Some (lookupProp k before) -> is_Some (lookupProp k after))
  /\ (fd_required fieldDef = true ->
      CloneService.shouldEmptyField svc (fd_id fieldDef) = false
      \/ is_Some (CloneService.getEmptyValueForField fieldDef "en-US-POSIX") ->
      is_Some (lookupProp (fd_id fieldDef) after)).

(** What the field loop does to the fields of the draft. *)
Definition loopOf (svc : CloneService.Service)
    (fieldDefs : list FieldDef)
    (before after : list (string * LocaleMap)) : Prop :=
  (forall k, is_Some (lookupProp k after) ->
             is_Some (lookupProp k before) \/ In k (map fd_id fieldDefs))
  /\ (forall k, is_Some (lookupProp k before) -> is_Some (lookupProp k after))
  /\ (forall fieldDef,
        In fieldDef fieldDefs -> fd_required fieldDef = true ->
        CloneService.shouldEmptyField svc (fd_id fieldDef) = false
        \/ is_Some (CloneService.getEmptyValueForField fieldDef "en-US-POSIX") ->
        is_Some (lookupProp (fd_id fieldDef) after)).

(** *** Vocabulary of the content of a tree *)

(** The ids that the tree build follows from one link of an entry: the id
    of a link to another entry of the CMS; an asset link, a link of the
    entry to itself and a link to a missing entry are left out. *)
Definition followedId (w : World) (entry : Entry) (ref : Value) : list string :=
  match ref with
  | VLink linkType id =>
      if Js.truthyStr id && negb (String.eqb id (sys_id entry))
         && negb (String.eqb linkType "Asset")
         && bool_decide (is_Some (w_entries w !! id))
      then [id] else []
  | _ => []
  end.

(** The ids that the tree build follows from an entry: those of the links
    of its tracked reference fields, in the order of the fields. *)
Definition followedIds (w : World) (entry : Entry) : list string :=
  flat_map
    (fun kv =>
       if DeepReferenceTracker.isReferenceField (fieldObject (snd kv))
          && DeepReferenceTracker.shouldTrackReferenceField (fst kv)
       then
         flat_map (followedId w entry)
           (DeepReferenceTracker.extractReferencedEntries
              (fieldObject (snd kv)))
       else [])
    (fields entry).

(** The node mirrors the entry [entry] and the content of the CMS below
    it at the time [now], under a depth cap: the node carries the id, the
    version and the content hash of [entry]; above the cap its children are
    the entries followed from [entry], in order, and at the cap it has none;
    every child names its parent and a tracked field of the parent, lies one
    level below, and mirrors the entry that the CMS holds under the id of
    the child. *)
Inductive Mirrors (sha256Json : Value -> string) (w : World) (cap : nat)
    (now : string) : Entry -> ReferenceNode -> Prop :=
| Mirrors_node entry depth parentId parentField children :
    map n_id children
    = (if (depth <? cap)%nat then followedIds w entry else []) ->
    Forall
      (fun child =>
         n_parentId child = Some (sys_id entry)
         /\ n_depth child = S depth
         /\ (exists fieldId,
               n_parentField child = Some fieldId
               /\ is_Some (lookupProp fieldId (fields entry))
               /\ DeepReferenceTracker.shouldTrackReferenceField fieldId = true)
         /\ exists referenced,
              w_entries w !! n_id child = Some referenced
              /\ Mirrors sha256Json w cap now referenced child)
      children ->
    Mirrors sha256Json w cap now entry
      (mkNode (sys_id entry) (currentVersionOf entry) depth parentId
         parentField
         (DeepReferenceTracker.generateContentHash sha256Json entry) now
         children).

(** *** Names that every object inherits

    A lookup of a key that an object does not have reads [undefined] unless
    the key is a name that every object inherits; the statements about
    lookups by field name leave these names out. *)
Definition inheritedNames : list string :=
  ["constructor"; "__proto__"; "hasOwnProperty"; "isPrototypeOf";
   "propertyIsEnumerable"; "toLocaleString"; "toString"; "valueOf";
   "__defineGetter__"; "__defineSetter__"; "__lookupGetter__";
   "__lookupSetter__"].

Definition ownName (key : string) : bool :=
  negb (Js.includesStr inheritedNames key).

(** *** Vocabulary of asset links *)

(** A value without links other than asset links: plain content, asset
    links, and arrays of such values. *)
Fixpoint assetsOnly (v : Value) : bool :=
  match v with
  | VLink linkType _ => String.eqb linkType "Asset"
  | VArr items => forallb assetsOnly items
  | _ => true
  end.

(** Every asset key of the clone map leads to the asset itself. *)
Definition assetsShared (st : CloneService.CloneState) : Prop :=
  forall id target,
    CloneService.cloneMap st !! ("Asset:" +:+ id) = Some target -> target = id.

(** *** Vocabulary of a provider that is down *)

(** The service with another provider, or with none. *)
Definition withProvider (svc : CloneService.Service)
    (provider : option Translator) : CloneService.Service :=
  {| CloneService.prefix := CloneService.prefix svc;
     CloneService.prefixTargetFields := CloneService.prefixTargetFields svc;
     CloneService.prefixFieldTypes := CloneService.prefixFieldTypes svc;
     CloneService.enabled := CloneService.enabled svc;
     CloneService.sourceLanguage := CloneService.sourceLanguage svc;
     CloneService.targetLanguage := CloneService.targetLanguage svc;
     CloneService.translateableTypes := CloneService.translateableTypes svc;
     CloneService.preservePrefix := CloneService.preservePrefix svc;
     CloneService.cultureMapping := CloneService.cultureMapping svc;
     CloneService.cultureFieldNames := CloneService.cultureFieldNames svc;
     CloneService.emptyFieldsEnabled := CloneService.emptyFieldsEnabled svc;
     CloneService.emptyFieldIds := CloneService.emptyFieldIds svc;
     CloneService.copyAsIsEnabled := CloneService.copyAsIsEnabled svc;
     CloneService.copyAsIsFieldIds := CloneService.copyAsIsFieldIds svc;
     CloneService.authorEnabled := CloneService.authorEnabled svc;
     CloneService.authorFieldIds := CloneService.authorFieldIds svc;
     CloneService.authorContentType := CloneService.authorContentType svc;
     CloneService.authorMatchFields := CloneService.authorMatchFields svc;
     CloneService.authorCultureField := CloneService.authorCultureField svc;
     CloneService.markdownEnabled := CloneService.markdownEnabled svc;
     CloneService.markdownFieldMappings := CloneService.markdownFieldMappings svc;
     CloneService.translator := provider;
     CloneService.mainCmsPageSourceLanguage :=
       CloneService.mainCmsPageSourceLanguage svc |}.

(** The provider rejects every request. *)
Definition alwaysFails (deepl : Translator) : Prop :=
  forall text src tgt opts, exists e, deepl text src tgt opts = Rejected e.

(** * Properties *)

(** ** Strings *)

#[local] Arguments String.append !s1 s2 : simpl nomatch.

Lemma prefix_append (p r : string) : String.prefix p (p +:+ r) = true.
Proof.
  induction p as [|c p IH]; simpl.
  - destruct r; reflexivity.
  - destruct (ascii_dec c c) as [_|Hne]; [exact IH | congruence].
Qed.

Lemma append_assoc (a b c : string) : (a +:+ b) +:+ c = a +:+ (b +:+ c).
Proof. induction a as [|x a IH]; simpl; congruence. Qed.

Lemma substringFrom_append (p r : string) :
  Js.substringFrom (String.length p) (p +:+ r) = r.
Proof. induction p as [|c p IH]; simpl; [reflexivity | exact IH]. Qed.

Lemma startsWith_append (p r : string) : Js.startsWith (p +:+ r) p = true.
Proof. apply prefix_append. Qed.

(** ** Text translation (cloneService.js, incrementalTranslationService.js) *)

(** The text translation of the clone never throws. *)
Lemma clone_translateText_returns (svc : CloneService.Service)
    (text fieldType : string) (sourceLang : option string) :
  exists r, CloneService.translateText svc text fieldType sourceLang = Ok r.
Proof.
  unfold CloneService.translateText.
  destruct (CloneService.translator svc) as [deepl|]; [|eauto].
  repeat (match goal with |- context [if ?b then _ else _] => destruct b end;
          simpl; eauto).
  all: match goal with |- context [await ?x] => destruct x end; simpl; eauto.
Qed.

(** The text translation of the incremental service never throws. *)
Lemma incremental_translateText_returns (svc : IncrementalService.Service)
    (deepl : Translator) (text : string) (ctx : TranslationContext) :
  exists r, IncrementalService.translateText svc deepl text ctx = Ok r.
Proof.
  unfold IncrementalService.translateText.
  destruct (_ || _); [eauto|].
  match goal with |- context [await ?x] => destruct x end; simpl; eauto.
Qed.

(** C6 at a failing input. The caption of the image holds three dollar
    signs. The provider answers for the text around the image and rejects
    the request for the caption. The fallback means to put the original
    block back, but does so with [String.replace] and a replacement string,
    in which two dollar signs stand for one: the caption that comes back is
    not the caption of the source. *)
Theorem failed_caption_call_alters_the_caption :
  priceCaptionFailingTranslator "Preisklasse $$$" "DE" "IT"
    (mkTranslateOptions true None)
  = Rejected "quota exceeded"
  /\ CloneService.translateMarkdownContent
       (CloneService.newService "key" priceCaptionFailingTranslator)
       "Karte ![Preisklasse $$$](https://cdn/karte.jpg)" "DE"
     = Ok "Karte ![Preisklasse $$](https://cdn/karte.jpg)".
Proof. split; reflexivity. Qed.

(** ** The clone prefix *)

Lemma clonePrefix_startsWith (svc : CloneService.Service) (rest : string) :
  Js.startsWith (clonePrefix svc +:+ rest) (CloneService.prefix svc) = true.
Proof.
  unfold clonePrefix. rewrite append_assoc. apply startsWith_append.
Qed.

(** C7 at a failing input. The text begins with the configured prefix,
    and no space follows the prefix. The prefix is recognised by
    [startsWith], but what is cut off is the prefix and one character more:
    the provider is asked for the remainder without its first letter, and
    the result carries a space that the text did not have. *)
Theorem prefix_without_space_loses_a_character :
  let svc := CloneService.newService "key" echoTranslator in
  Js.startsWith "[Clone]Hallo Welt" (CloneService.prefix svc) = true
  /\ sentText svc "[Clone]Hallo Welt" = "allo Welt"
  /\ CloneService.translateText svc "[Clone]Hallo Welt" "Symbol" (Some "DE")
     = Ok "[Clone] <allo Welt>".
Proof. intros svc. split; [|split]; reflexivity. Qed.

(** ** Defaults of required fields (cloneService.js) *)






(** ** Markdown images (cloneService.js) *)

(** C5 at a failing input. The url of the image holds the two characters
    dollar and ampersand. The image is put back with [String.replace] and a
    replacement string, in which these two characters stand for the matched
    token: the url of the output is not the url of the input, whether the
    caption was translated or, on a failed caption, the original block was
    put back. *)
Theorem markdown_url_with_dollar_is_rewritten :
  CloneService.translateMarkdownContent
    (CloneService.newService "key" identityTranslator)
    "![Bild](https://cdn/a.jpg?p=$&q=1)" "DE"
  = Ok "![Bild](https://cdn/a.jpg?p=IMG_PLACEHOLDER_1q=1)"
  /\ CloneService.translateMarkdownContent
       (CloneService.newService "key" captionFailingTranslator)
       "![Bild](https://cdn/a.jpg?p=$&q=1)" "DE"
     = Ok "![Bild](https://cdn/a.jpg?p=IMG_PLACEHOLDER_1q=1)".
Proof. split; reflexivity. Qed.

(** Without a dollar sign in the block the same input comes back with its
    url untouched. *)
Example markdown_plain_url_is_kept :
  CloneService.translateMarkdownContent
    (CloneService.newService "key" echoTranslator)
    "## Hallo ![Bild](https://cdn/a.jpg)" "DE"
  = Ok "<## Hallo ![<Bild>](https://cdn/a.jpg)>".
Proof. reflexivity. Qed.

(** ** The relationship store (incrementalTranslationService.js,
    contentfulMetadataService.js) *)

(** C9 at a failing input. The pair (S, T) has a relationship on the CMS
    backend, created on 1 January 2024. Storing the relationship again on
    1 June 2025 updates the same entry (an upsert) and overwrites
    [createdAt] with the new date. *)
Theorem cms_store_overwrites_createdAt :
  let w :=
    IncrementalService.createOrUpdateRelationship readyService cmsBackedWorld
      "2025-06-01T00:00:00.000Z" "S" "T" 4 (mkTranslationContext "DE" "IT")
      [] [("Entry:S", "T")] in
  length (w_metadata w) = 1%nat
  /\ (r_metadata <$> IncrementalService.getRelationship readyService w "S" "T")
     = Some (Some (mkMetadata (Some 4) "2025-06-01T00:00:00.000Z"
                     (Some "2025-06-01T00:00:00.000Z"))).
Proof. split; reflexivity. Qed.

(** On the filesystem fallback the same call keeps the [createdAt] of the
    file that is already there. *)
Lemma file_store_preserves_createdAt (svc : IncrementalService.Service)
    (w : World) (now s t : string) (version : Z) (ctx : TranslationContext)
    (hashes mapping : list (string * string)) (existing : Relationship)
    (metadata : Metadata) :
  IncrementalService.contentfulMetadataService svc = false
  \/ w_metadataTypeInstalled w = false ->
  w_files w !! IncrementalService.relationshipFile s t
  = Some (RelationshipFile existing) ->
  r_metadata existing = Some metadata ->
  w_files
    (IncrementalService.createOrUpdateRelationship svc w now s t version ctx
       hashes mapping)
  !! IncrementalService.relationshipFile s t
  = Some
      (RelationshipFile
         (mkRelationship s t
            (Some (mkMetadata (Some version) now (createdAt metadata)))
            ctx hashes mapping None None)).
Proof.
  intros Hprimary Hfile Hmeta.
  unfold IncrementalService.createOrUpdateRelationship.
  assert (Hwrite :
    w_files
      (writeFile w (IncrementalService.relationshipFile s t)
         (RelationshipFile
            (mkRelationship s t
               (Some (mkMetadata (Some version) now
                        (IncrementalService.preservedCreatedAt
                           (w_files w !! IncrementalService.relationshipFile s t)
                           (Some now))))
               ctx hashes mapping None None)))
    !! IncrementalService.relationshipFile s t
    = Some
        (RelationshipFile
           (mkRelationship s t
              (Some (mkMetadata (Some version) now (createdAt metadata)))
              ctx hashes mapping None None))).
  { simpl. rewrite lookup_insert_eq, Hfile. simpl. rewrite Hmeta. reflexivity. }
  destruct (IncrementalService.contentfulMetadataService svc); [|exact Hwrite].
  destruct Hprimary as [Hoff|Hdown]; [discriminate|].
  unfold ContentfulMetadataService.storeRelationshipMetadata,
    ContentfulMetadataService.findRelationshipMetadata.
  rewrite Hdown. exact Hwrite.
Qed.

Example file_store_preserves_createdAt_sample :
  w_files
    (IncrementalService.createOrUpdateRelationship readyService fileBackedWorld
       "2025-06-01T00:00:00.000Z" "S" "T" 4 (mkTranslationContext "DE" "IT")
       [] [("Entry:S", "T")])
  !! "S_T.json"
  = Some
      (RelationshipFile
         (mkRelationship "S" "T"
            (Some (mkMetadata (Some 4) "2025-06-01T00:00:00.000Z"
                     (Some "2024-01-01T00:00:00.000Z")))
            (mkTranslationContext "DE" "IT") [] [("Entry:S", "T")] None None)).
Proof.
  apply (file_store_preserves_createdAt readyService fileBackedWorld
           "2025-06-01T00:00:00.000Z" "S" "T" 4 (mkTranslationContext "DE" "IT")
           [] [("Entry:S", "T")] firstStored
           (mkMetadata (Some 3) "2024-01-01T00:00:00.000Z"
              (Some "2024-01-01T00:00:00.000Z")));
    [right; reflexivity | reflexivity | reflexivity].
Qed.

(** C10, as the claim states it, fails. Saving a tree snapshot for a pair
    without relationship creates the minimal record, with a
    [lastTranslatedVersion] of 0, on the CMS backend; [getRelationship]
    answers with that record, and it still does when the same record also
    lies in the relationship file of the pair. *)
Lemma minimal_record_is_returned :
  let now := "2025-06-01T00:00:00.000Z" in
  let w :=
    DeepReferenceTracker.storeDeepReferenceMap now true emptyWorld "S" "T"
      rootOnlySnapshot in
  let w' :=
    writeFile w "S_T.json" (RelationshipFile (minimalRecord now rootOnlySnapshot))
  in
  IncrementalService.getRelationship readyService w "S" "T"
  = Some (minimalRecord now rootOnlySnapshot)
  /\ IncrementalService.getRelationship readyService w' "S" "T"
     = Some (minimalRecord now rootOnlySnapshot)
  /\ IncrementalService.getRelationship readyService w' "S" "T" <> None.
Proof. split; [reflexivity | split; [reflexivity | discriminate]]. Qed.

(** C10, amended. When the primary backend gives no relationship for the
    pair (the service has no CMS store yet, or the CMS store finds nothing),
    a relationship file whose record has no metadata, no
    [lastTranslatedVersion] or a [lastTranslatedVersion] of 0 makes
    [getRelationship] answer none, as does a missing file. A record that the
    CMS store finds is returned as it is, whatever its
    [lastTranslatedVersion]. *)
Theorem file_record_without_version_is_no_relationship
    (svc : IncrementalService.Service) (w : World) (s t : string) :
  (forall data,
      IncrementalService.contentfulMetadataService svc = false
      \/ ContentfulMetadataService.getRelationshipMetadata w s t = None ->
      w_files w !! IncrementalService.relationshipFile s t
      = Some (RelationshipFile data) ->
      versionMissingOrZero data ->
      IncrementalService.getRelationship svc w s t = None)
  /\ (IncrementalService.contentfulMetadataService svc = false
      \/ ContentfulMetadataService.getRelationshipMetadata w s t = None ->
      w_files w !! IncrementalService.relationshipFile s t = None ->
      IncrementalService.getRelationship svc w s t = None)
  /\ (forall data,
        IncrementalService.contentfulMetadataService svc = true ->
        ContentfulMetadataService.getRelationshipMetadata w s t = Some data ->
        IncrementalService.getRelationship svc w s t = Some data).
Proof.
  unfold IncrementalService.getRelationship.
  split; [|split].
  - intros data Hprimary Hfile Hversion. rewrite Hfile.
    assert (Hrefused :
      IncrementalService.validRelationshipFile (RelationshipFile data) = None).
    { unfold versionMissingOrZero in Hversion. simpl.
      destruct (r_metadata data) as [metadata|]; [|reflexivity].
      destruct Hversion as [->| ->]; reflexivity. }
    rewrite Hrefused.
    destruct Hprimary as [-> | ->];
      [reflexivity
      | destruct (IncrementalService.contentfulMetadataService svc);
        reflexivity].
  - intros Hprimary Hfile. rewrite Hfile.
    destruct Hprimary as [-> | ->];
      [reflexivity
      | destruct (IncrementalService.contentfulMetadataService svc);
        reflexivity].
  - intros data -> ->. reflexivity.
Qed.

Lemma file_record_without_version_is_no_relationship_witness :
  let now := "2025-06-01T00:00:00.000Z" in
  let w :=
    mkWorld ∅ false [] 0
      {["S_T.json" := RelationshipFile (minimalRecord now rootOnlySnapshot)]}
  in
  IncrementalService.getRelationship readyService w "S" "T" = None.
Proof.
  intros now w.
  apply (proj1 (file_record_without_version_is_no_relationship readyService w
                  "S" "T") (minimalRecord now rootOnlySnapshot)).
  - right. reflexivity.
  - reflexivity.
  - simpl. right. reflexivity.
Defined.

(** ** The reference tree (deepReferenceTracker.js) *)

Section ReferenceTree.

Variable sha256Json : Value -> string.
Variable tracker : DeepReferenceTracker.Tracker.
Variable w : World.
Variable now : string.

Hypothesis keyed : storeKeyedById w.

Let cap : nat := DeepReferenceTracker.maxDepth tracker.

(** What the scan of a node at depth [depth] keeps true of the children
    gathered so far. *)
Let GoodChildren (entryId : string) (depth : nat)
    (children : list ReferenceNode) : Prop :=
  Forall
    (fun child =>
       n_depth child = S depth /\ (n_depth child <= cap)%nat
       /\ n_id child <> entryId /\ WellLayered cap child)
    children.

(** What a recursive call for a child at depth [S depth] delivers. *)
Let GoodBuild (depth : nat) (build : string -> Entry -> Outcome ReferenceNode)
  : Prop :=
  forall fieldId entry, exists child,
    build fieldId entry = Ok child
    /\ n_depth child = S depth /\ n_id child = sys_id entry
    /\ WellLayered cap child.

Lemma scanReference_good (entryId fieldId : string) (depth : nat)
    (build : string -> Entry -> Outcome ReferenceNode)
    (children : list ReferenceNode) (ref : Value) :
  (depth < cap)%nat ->
  GoodBuild depth build ->
  GoodChildren entryId depth children ->
  exists children',
    DeepReferenceTracker.scanReference w entryId fieldId (build fieldId)
      children ref = Ok children'
    /\ GoodChildren entryId depth children'.
Proof.
  intros Hdepth Hbuild Hgood.
  unfold DeepReferenceTracker.scanReference.
  destruct ref; try (now eexists; split; [reflexivity|]).
  destruct (Js.truthyStr id && negb (String.eqb id entryId)) eqn:Hid;
    [|now eexists; split; [reflexivity|]].
  destruct (DeepReferenceTracker.isAssetReference (VLink linkType id));
    [now eexists; split; [reflexivity|]|].
  unfold fetchEntry.
  destruct (w_entries w !! id) as [referenced|] eqn:Hfetch; simpl;
    [|now eexists; split; [reflexivity|]].
  destruct (Hbuild fieldId referenced) as (child & -> & Hd & Hi & Hwl). simpl.
  eexists. split; [reflexivity|].
  apply Forall_app. split; [exact Hgood|].
  constructor; [|constructor].
  repeat split; [exact Hd | lia | | exact Hwl].
  rewrite Hi, (keyed id referenced Hfetch).
  apply andb_true_iff in Hid as [_ Hne].
  apply negb_true_iff in Hne. now apply String.eqb_neq in Hne.
Qed.

Lemma scanReferences_good (entryId fieldId : string) (depth : nat)
    (build : string -> Entry -> Outcome ReferenceNode) (refs : list Value) :
  (depth < cap)%nat ->
  GoodBuild depth build ->
  forall children,
    GoodChildren entryId depth children ->
    exists children',
      foldO (DeepReferenceTracker.scanReference w entryId fieldId (build fieldId))
        refs children = Ok children'
      /\ GoodChildren entryId depth children'.
Proof.
  intros Hdepth Hbuild.
  induction refs as [|ref refs IH]; intros children Hgood; simpl.
  - now exists children.
  - destruct (scanReference_good entryId fieldId depth build children ref
                Hdepth Hbuild Hgood) as (children1 & -> & Hgood1).
    simpl. now apply IH.
Qed.

Lemma scanFields_good (entryId : string) (depth : nat)
    (build : string -> Entry -> Outcome ReferenceNode)
    (entryFields : list (string * LocaleMap)) :
  (depth < cap)%nat ->
  GoodBuild depth build ->
  forall children,
    GoodChildren entryId depth children ->
    exists children',
      foldO (DeepReferenceTracker.scanField w entryId build) entryFields
        children = Ok children'
      /\ GoodChildren entryId depth children'.
Proof.
  intros Hdepth Hbuild.
  induction entryFields as [|[fieldId fieldValue] rest IH];
    intros children Hgood; cbn [foldO].
  - now exists children.
  - assert (Hfield : exists children1,
              DeepReferenceTracker.scanField w entryId build children
                (fieldId, fieldValue) = Ok children1
              /\ GoodChildren entryId depth children1).
    { unfold DeepReferenceTracker.scanField.
      destruct (DeepReferenceTracker.isReferenceField _);
        [|now exists children].
      destruct (negb _); [now exists children|].
      now apply scanReferences_good. }
    destruct Hfield as (children1 & -> & Hgood1). cbn [bindO]. now apply IH.
Qed.

(** With fuel for every level down to the cap, the tree is built, rooted at
    the given depth and entry, and layered. *)
Lemma buildReferenceTree_layered (fuel : nat) :
  forall (entry : Entry) (depth : nat) (parentId parentField : option string),
    (cap < fuel + depth)%nat -> (depth <= cap)%nat ->
    exists tree,
      DeepReferenceTracker.buildReferenceTree sha256Json fuel tracker w now
        entry depth parentId parentField = Ok tree
      /\ n_depth tree = depth /\ n_id tree = sys_id entry
      /\ WellLayered cap tree.
Proof.
  induction fuel as [|fuel IH]; intros entry depth parentId parentField Hfuel Hcap.
  - simpl in Hfuel. lia.
  - simpl. fold cap.
    destruct (depth <? cap)%nat eqn:Hlt.
    + apply Nat.ltb_lt in Hlt.
      assert (Hbuild :
        GoodBuild depth
          (fun fieldId referencedEntry =>
             DeepReferenceTracker.buildReferenceTree sha256Json fuel tracker w
               now referencedEntry (S depth) (Some (sys_id entry))
               (Some fieldId))).
      { intros fieldId referenced.
        destruct (IH referenced (S depth) (Some (sys_id entry)) (Some fieldId))
          as (child & Hchild & Hd & Hi & Hwl); [lia | lia |].
        exists child. auto. }
      destruct (scanFields_good (sys_id entry) depth _ (fields entry) Hlt
                  Hbuild [] ltac:(constructor)) as (children & Hscan & Hgood).
      rewrite Hscan. cbn [bindO]. eexists. split; [reflexivity|].
      split; [reflexivity | split; [reflexivity|]].
      constructor; [intros Heq; exfalso; lia | exact Hgood].
    + apply Nat.ltb_ge in Hlt.
      eexists. split; [reflexivity|].
      split; [reflexivity | split; [reflexivity|]].
      constructor; [reflexivity | constructor].
Qed.

End ReferenceTree.

(** C3 at a failing input. A references B and B references A; the tree of
    A under the cap of 3 is A, B, A, B: the id A stands at depth 0 and again
    at depth 2 of the same path, and B at depths 1 and 3. The build means to
    avoid circular references, but the only link it skips is the link of a
    node to itself. *)
Theorem cycle_repeats_on_path :
  bindO
    (DeepReferenceTracker.buildCurrentReferenceMapForComparison renderJson
       defaultTracker cycleWorld "2025-06-01T00:00:00.000Z" "A" "T")
    (fun deepMap =>
       Ok (repeatsOnPath [] (dm_referenceTree deepMap),
           firstPath (dm_referenceTree deepMap)))
  = Ok (true, ["A"; "B"; "A"; "B"]).
Proof. vm_compute. reflexivity. Qed.

(** X26. On a CMS that hands out every entry under its own id, the root
    call of the tree build always returns a tree; its root is the entry at
    depth 0; every child is one level below its parent and not below the
    cap; a node at the cap has no children; and no child carries the id of
    its parent. *)
Theorem reference_tree_is_layered (sha256Json : Value -> string)
    (tracker : DeepReferenceTracker.Tracker) (w : World) (now : string)
    (entry : Entry) :
  storeKeyedById w ->
  exists tree,
    DeepReferenceTracker.buildReferenceTree sha256Json
      (S (DeepReferenceTracker.maxDepth tracker)) tracker w now entry 0 None
      None = Ok tree
    /\ n_depth tree = 0%nat
    /\ n_id tree = sys_id entry
    /\ WellLayered (DeepReferenceTracker.maxDepth tracker) tree.
Proof.
  intros keyed.
  apply (buildReferenceTree_layered sha256Json tracker w now keyed); lia.
Qed.

Lemma reference_tree_is_layered_witness :
  exists tree,
    DeepReferenceTracker.buildReferenceTree renderJson 4 defaultTracker
      cycleWorld "2025-06-01T00:00:00.000Z" cycleA 0 None None = Ok tree
    /\ n_depth tree = 0%nat
    /\ n_id tree = "A"
    /\ WellLayered 3 tree.
Proof.
  apply (reference_tree_is_layered renderJson defaultTracker cycleWorld
           "2025-06-01T00:00:00.000Z" cycleA).
  unfold storeKeyedById. apply (bool_decide_unpack _). vm_compute. reflexivity.
Defined.

(** ** The diff of two trees (deepReferenceTracker.js) *)

Section Diff.

Variable sha256Json : Value -> string.
Variable tracker : DeepReferenceTracker.Tracker.
Variable w : World.
Variable sourceEntryId : string.
Variable storedRefs : list (string * ReferenceNode).

Let step := DeepReferenceTracker.compareReference sha256Json tracker w
              sourceEntryId storedRefs.








End Diff.



(** ** The status check (incrementalTranslationService.js) *)

(** The diff never writes the store when a snapshot is stored. *)
Lemma detectDeepReferenceChanges_keeps_store (sha256Json : Value -> string)
    (tracker : DeepReferenceTracker.Tracker) (contentful : bool) (w : World)
    (now s t : string) (stored : DeepMap) :
  DeepReferenceTracker.getStoredDeepReferenceMap contentful w s t = Some stored ->
  snd (DeepReferenceTracker.detectDeepReferenceChanges sha256Json tracker
         contentful w now s t) = w.
Proof.
  intros Hstored. unfold DeepReferenceTracker.detectDeepReferenceChanges.
  rewrite Hstored.
  destruct (DeepReferenceTracker.buildCurrentReferenceMapForComparison _ _ _ _ _ _);
    reflexivity.
Qed.

(** The service starts without [deepReferenceTracker], and neither
    [initialize] nor [initializeDeepTrackingAsync] gives it one: the new
    tracker goes to the change detection service. *)
Lemma service_has_no_tracker_of_its_own (apiKey : string) (depth : nat)
    (auto : bool) :
  let svc :=
    IncrementalService.initializeDeepTrackingAsync
      (IncrementalService.initialize (IncrementalService.newService apiKey))
      depth auto in
  IncrementalService.deepReferenceTracker svc = None
  /\ IncrementalService.cds_deepReferenceTracker svc <> None.
Proof. split; [reflexivity | discriminate]. Qed.

(** Whatever the status check finds, it leaves the store as it was when a
    snapshot is stored for the pair: the refresh at its end is guarded by
    the tracker of the service itself, which is never set. *)
Lemma status_check_keeps_store (sha256Json : Value -> string)
    (svc : IncrementalService.Service) (w : World) (now s t : string)
    (stored : DeepMap) :
  IncrementalService.deepReferenceTracker svc = None ->
  DeepReferenceTracker.getStoredDeepReferenceMap
    (IncrementalService.contentfulMetadataService svc) w s t = Some stored ->
  snd (IncrementalService.checkUpdateStatus sha256Json svc w now s t) = w.
Proof.
  intros Hnone Hstored. unfold IncrementalService.checkUpdateStatus.
  destruct (IncrementalService.getRelationship svc w s t) as [relationship|];
    [|reflexivity].
  destruct (fetchEntry w s) as [sourceEntry|e|]; try reflexivity.
  destruct (r_metadata relationship) as [metadata|]; [|reflexivity].
  unfold ChangeDetectionService.detectParentFieldChanges. simpl.
  pose proof (detectDeepReferenceChanges_keeps_store sha256Json
                (DeepReferenceTracker.mkTracker
                   (DeepReferenceTracker.maxDepthOption
                      (DeepReferenceTracker.maxDepthOption 3)) true)
                (IncrementalService.contentfulMetadataService svc) w now s t
                stored Hstored) as Hkeep.
  destruct (DeepReferenceTracker.detectDeepReferenceChanges _ _ _ _ _ _ _)
    as [[deepChanges|e|] w1]; simpl in Hkeep; subst w1; simpl;
    rewrite ?Hnone; reflexivity.
Qed.

(** C2 at a failing input. The pair (S, T) has a relationship and a stored
    snapshot taken at version 3 of S. S is saved again unchanged (version
    4). The status check reports the pair up to date, without changes: the
    clean path. The tree built now has version 4 at its root, but the stored
    snapshot still has version 3 and the old scan date: it was not
    refreshed. *)
Theorem clean_status_check_keeps_stale_snapshot :
  let now := "2025-06-01T00:00:00.000Z" in
  let result :=
    IncrementalService.checkUpdateStatus renderJson readyService
      worldAfterRepublish now "S" "T" in
  let status := fst (fst result) in
  let stored :=
    DeepReferenceTracker.getStoredDeepReferenceMap true (snd result) "S" "T" in
  IncrementalService.hasRelationship status = true
  /\ IncrementalService.hasChanges status = false
  /\ IncrementalService.upToDate status = true
  /\ snd result = worldAfterRepublish
  /\ (rootVersion <$> stored) = Some 3
  /\ (dm_lastScanned <$> stored) = Some "2024-01-01T00:00:00.000Z"
  /\ bindO
       (DeepReferenceTracker.buildCurrentReferenceMapForComparison renderJson
          defaultTracker (snd result) now "S" "T")
       (fun fresh => Ok (rootVersion fresh, dm_lastScanned fresh))
     = Ok (4, now).
Proof.
  intros now result status stored.
  assert (Hworld : snd result = worldAfterRepublish).
  { unfold result.
    apply (status_check_keeps_store renderJson readyService worldAfterRepublish
             now "S" "T" (default rootOnlySnapshot
                            (DeepReferenceTracker.getStoredDeepReferenceMap
                               true worldAfterRepublish "S" "T")));
      [reflexivity | vm_compute; reflexivity]. }
  split; [vm_compute; reflexivity|].
  split; [vm_compute; reflexivity|].
  split; [vm_compute; reflexivity|].
  split; [exact Hworld|].
  unfold stored. rewrite Hworld.
  split; [vm_compute; reflexivity|].
  split; vm_compute; reflexivity.
Qed.

(** ** The recursive clone (cloneService.js) *)

Section CloneSteps.

Import CloneService.

Lemma Recorded_same (st st' : CloneState) :
  cloneMap st' = cloneMap st -> drafts st' = drafts st ->
  Recorded st -> Recorded st'.
Proof.
  intros Hmap Hdrafts H s. unfold clonesOf. rewrite Hmap, Hdrafts. apply H.
Qed.

Lemma clonesOf_same (st st' : CloneState) (s : string) :
  drafts st' = drafts st -> clonesOf s st' = clonesOf s st.
Proof. intros H. unfold clonesOf. now rewrite H. Qed.

Lemma Recorded_unmapped (st : CloneState) (s : string) :
  Recorded st -> cloneMap st !! keyOf s = None -> clonesOf s st = 0%nat.
Proof.
  intros Hrec Hnone. destruct (clonesOf s st) eqn:Hcount; [reflexivity|].
  destruct (Hrec s) as [x Hx]; [lia | congruence].
Qed.

(** A part that touches neither the clone map nor the drafts, and at most
    adds to the processing set. *)
Lemma Step_frame (own : option string) (st st' : CloneState) :
  cloneMap st' = cloneMap st -> drafts st' = drafts st ->
  processingSet st ⊆ processingSet st' ->
  Step own st st'.
Proof.
  intros Hmap Hdrafts Hproc.
  assert (Hcount : forall s, clonesOf s st' = clonesOf s st)
    by (intros s; now apply clonesOf_same).
  split.
  - exact Hproc.
  - intros k. now rewrite Hmap.
  - now apply Recorded_same.
  - intros s _. apply Hcount.
  - intros s _ _ Hnone. split; [apply Hcount | now rewrite Hmap].
  - intros s _ Hrec Hnone.
    rewrite Hcount, (Recorded_unmapped st s) by assumption. lia.
  - intros s _ Hrec Hnone.
    rewrite Hcount, (Recorded_unmapped st s) by assumption.
    split; intros; lia.
Qed.

Lemma Step_refl (own : option string) (st : CloneState) : Step own st st.
Proof. now apply Step_frame. Qed.

Lemma Step_trans (st st1 st' : CloneState) :
  Step None st st1 -> Step None st1 st' -> Step None st st'.
Proof.
  intros [Hp1 Hm1 Hr1 Hk1 Hf1 Ho1 _] [Hp2 Hm2 Hr2 Hk2 Hf2 Ho2 _].
  split.
  - etransitivity; eassumption.
  - auto.
  - auto.
  - intros s Hs. rewrite Hk2, Hk1; auto.
  - intros s Hown Hin Hnone.
    destruct (Hf1 s Hown Hin Hnone) as [Hc1 Hn1].
    destruct (Hf2 s Hown (Hp1 _ Hin) Hn1) as [Hc2 Hn2].
    split; [congruence | exact Hn2].
  - intros s Hown Hrec Hnone.
    destruct (cloneMap st1 !! keyOf s) as [target|] eqn:Hmid.
    + rewrite Hk2 by (rewrite Hmid; eauto). now apply Ho1.
    + apply Ho2; auto.
  - discriminate.
Qed.

(** A guarantee without an entry of its own holds for any. *)
Lemma Step_any (own : option string) (st st' : CloneState) :
  Step None st st' -> Step own st st'.
Proof.
  intros [Hp Hm Hr Hk Hf Ho _]. split.
  - exact Hp.
  - exact Hm.
  - exact Hr.
  - exact Hk.
  - intros s _. apply Hf. discriminate.
  - intros s _. apply Ho. discriminate.
  - intros s _ Hrec Hnone.
    assert (clonesOf s st' <= 1)%nat by (apply Ho; [discriminate| |]; assumption).
    split; [lia | auto].
Qed.

Lemma Spec_ret {A} (a : A) : Spec None (ret a).
Proof. intros st r st' [= <- <-]. apply Step_refl. Qed.

Lemma Spec_throw {A} (e : string) : Spec None (@throw A e).
Proof. intros st r st' [= <- <-]. apply Step_refl. Qed.

Lemma Spec_lift {A} (o : Outcome A) : Spec None (lift o).
Proof. intros st r st' [= <- <-]. apply Step_refl. Qed.

Lemma Spec_bind {A B} (m : M A) (k : A -> M B) :
  Spec None m -> (forall a, Spec None (k a)) -> Spec None (bind m k).
Proof.
  intros Hm Hk st r st' Hrun. unfold bind in Hrun.
  destruct (m st) as [[a|e|] st1] eqn:Hfirst.
  - eapply Step_trans; [eapply Hm | eapply Hk]; eauto.
  - injection Hrun as <- <-. eapply Hm; eauto.
  - injection Hrun as <- <-. eapply Hm; eauto.
Qed.

Lemma Spec_tryCatchM {A} (body : M A) (handler : string -> M A) :
  Spec None body -> (forall e, Spec None (handler e)) ->
  Spec None (tryCatchM body handler).
Proof.
  intros Hbody Hhandler st r st' Hrun. unfold tryCatchM in Hrun.
  destruct (body st) as [[a|e|] st1] eqn:Hfirst.
  - injection Hrun as <- <-. eapply Hbody; eauto.
  - eapply Step_trans; [eapply Hbody | eapply Hhandler]; eauto.
  - injection Hrun as <- <-. eapply Hbody; eauto.
Qed.

Lemma Spec_getState_bind {B} (k : CloneState -> M B) :
  (forall st, Spec None (k st)) -> Spec None (bind getState k).
Proof. intros Hk. apply Spec_bind; [|exact Hk]. intros st r st' [= <- <-]. apply Step_refl. Qed.

End CloneSteps.

Section CloneShapes.

Import CloneService.

Lemma keyOf_inj (s s' : string) : keyOf s = keyOf s' -> s = s'.
Proof. unfold keyOf. intros H. now apply (inj (String.append "Entry:")) in H. Qed.

Lemma clonesOf_created (st st' : CloneState) (d : Draft) (s : string) :
  drafts st' = (drafts st ++ [d])%list ->
  clonesOf s st'
  = (clonesOf s st + if String.eqb (d_source d) s then 1 else 0)%nat.
Proof.
  intros H. unfold clonesOf. rewrite H, List.filter_app, length_app. simpl.
  destruct (String.eqb (d_source d) s); reflexivity.
Qed.

(** A target is recorded for a key that is not being processed (an asset,
    or an author found in the target culture); no draft is created. *)
Lemma Step_mapSet (st st' : CloneState) (key target : string) :
  key ∉ processingSet st ->
  cloneMap st' = <[key := target]> (cloneMap st) ->
  drafts st' = drafts st ->
  processingSet st ⊆ processingSet st' ->
  Step None st st'.
Proof.
  intros Hfree Hmap Hdrafts Hproc.
  assert (Hcount : forall s, clonesOf s st' = clonesOf s st)
    by (intros s; now apply clonesOf_same).
  assert (Hkeep : forall k, is_Some (cloneMap st !! k) ->
                            is_Some (cloneMap st' !! k)).
  { intros k Hk. rewrite Hmap.
    destruct (decide (key = k)) as [->|Hne];
      [rewrite lookup_insert_eq; eauto | now rewrite lookup_insert_ne]. }
  split.
  - exact Hproc.
  - exact Hkeep.
  - intros Hrec s Hs. apply Hkeep, Hrec. now rewrite <- Hcount.
  - intros s _. apply Hcount.
  - intros s _ Hin Hnone. split; [apply Hcount|].
    rewrite Hmap, lookup_insert_ne; [exact Hnone|].
    intros ->. contradiction.
  - intros s _ Hrec Hnone.
    rewrite Hcount, (Recorded_unmapped st s) by assumption. lia.
  - discriminate.
Qed.

(** The clone of a linked entry, between the moment its key enters the
    processing set and the moment it leaves it. *)
Lemma Step_nested (id : string) (st sta stb st' : CloneState) :
  cloneMap sta = cloneMap st -> drafts sta = drafts st ->
  processingSet sta = {[keyOf id]} ∪ processingSet st ->
  keyOf id ∉ processingSet st ->
  Step (Some id) sta stb ->
  cloneMap st' = cloneMap stb -> drafts st' = drafts stb ->
  processingSet stb ∖ {[keyOf id]} ⊆ processingSet st' ->
  Step None st st'.
Proof.
  intros Hmapa Hdraftsa Hproca Hfree [Hp Hm Hr Hk Hf Ho Hown] Hmapb Hdraftsb
    Hprocb.
  assert (Hcounta : forall s, clonesOf s sta = clonesOf s st)
    by (intros s; now apply clonesOf_same).
  assert (Hcountb : forall s, clonesOf s st' = clonesOf s stb)
    by (intros s; now apply clonesOf_same).
  assert (Hreca : Recorded st -> Recorded sta)
    by (now apply Recorded_same).
  split.
  - intros k Hin. apply Hprocb. apply elem_of_difference. split.
    + apply Hp. rewrite Hproca. now apply elem_of_union_r.
    + intros Heq%elem_of_singleton. subst k. contradiction.
  - intros k Hk'. rewrite Hmapb. apply Hm. now rewrite Hmapa.
  - intros Hrec. apply (Recorded_same stb); auto.
  - intros s Hs. rewrite Hcountb, <- Hcounta. apply Hk. now rewrite Hmapa.
  - intros s _ Hin Hnone.
    assert (Hne : Some id <> Some s) by (intros [= ->]; contradiction).
    destruct (Hf s Hne) as [Hc Hn].
    + rewrite Hproca. now apply elem_of_union_r.
    + now rewrite Hmapa.
    + split; [now rewrite Hcountb, Hc | now rewrite Hmapb].
  - intros s _ Hrec Hnone. rewrite Hcountb.
    destruct (decide (id = s)) as [->|Hne].
    + apply Hown; auto; [now rewrite Hmapa|].
      rewrite Hproca. now apply elem_of_union_l, elem_of_singleton.
    + apply Ho; auto; [congruence | now rewrite Hmapa].
  - discriminate.
Qed.

(** The end of [cloneEntryRecursive]: after the fields were processed, the
    draft of the entry is created and recorded in the clone map. *)
Lemma Step_create (s0 : string) (st st2 st' : CloneState) (d : Draft)
    (target : string) :
  Step None st st2 ->
  cloneMap st !! keyOf s0 = None ->
  d_source d = s0 ->
  cloneMap st' = <[keyOf s0 := target]> (cloneMap st2) ->
  drafts st' = (drafts st2 ++ [d])%list ->
  processingSet st' = processingSet st2 ->
  Step (Some s0) st st'.
Proof.
  intros [Hp Hm Hr Hk Hf Ho _] Hnew Hsource Hmap Hdrafts Hproc.
  assert (Hcount : forall s,
            clonesOf s st'
            = (clonesOf s st2 + if String.eqb s0 s then 1 else 0)%nat).
  { intros s. rewrite (clonesOf_created st2 st' d) by assumption.
    now rewrite Hsource. }
  assert (Hother : forall s, s0 <> s -> clonesOf s st' = clonesOf s st2).
  { intros s Hne. rewrite Hcount.
    destruct (String.eqb_spec s0 s); [contradiction | lia]. }
  assert (Hkeep : forall k, is_Some (cloneMap st2 !! k) ->
                            is_Some (cloneMap st' !! k)).
  { intros k Hk'. rewrite Hmap.
    destruct (decide (keyOf s0 = k)) as [->|Hne];
      [rewrite lookup_insert_eq; eauto | now rewrite lookup_insert_ne]. }
  split.
  - now rewrite Hproc.
  - auto.
  - intros Hrec s Hs.
    destruct (decide (s0 = s)) as [->|Hne].
    + rewrite Hmap, lookup_insert_eq. eauto.
    + apply Hkeep, (Hr Hrec). now rewrite <- Hother.
  - intros s Hs.
    assert (s0 <> s) by (intros ->; rewrite Hnew in Hs; now destruct Hs).
    rewrite Hother by assumption. now apply Hk.
  - intros s Hown Hin Hnone.
    assert (s0 <> s) by congruence.
    destruct (Hf s) as [Hc Hn]; [discriminate | assumption | assumption |].
    split; [now rewrite Hother|].
    rewrite Hmap, lookup_insert_ne; [exact Hn|].
    intros Heq%keyOf_inj. contradiction.
  - intros s Hown Hrec Hnone.
    assert (s0 <> s) by congruence.
    rewrite Hother by assumption. apply Ho; [discriminate | |]; assumption.
  - intros s [= ->] Hrec Hnone. rewrite Hcount, String.eqb_refl. split.
    + assert (clonesOf s st2 <= 1)%nat
        by (apply Ho; [discriminate | |]; assumption).
      lia.
    + intros Hin.
      destruct (Hf s) as [Hc _]; [discriminate | assumption | assumption |].
      rewrite Hc, (Recorded_unmapped st s) by assumption. lia.
Qed.

End CloneShapes.

(** ** Translation and author search never fail the clone *)

Section Pure.

Import CloneService.

Lemma restoreImage_returns deepl src tgt final entry :
  exists r, restoreImage deepl src tgt final entry = Ok r.
Proof.
  unfold restoreImage. destruct entry as [token image].
  destruct (deepl _ _ _ _); simpl; eauto.
Qed.

Lemma foldO_returns {A B} (f : A -> B -> Outcome A) (l : list B) :
  (forall a b, exists r, f a b = Ok r) -> forall a, exists r, foldO f l a = Ok r.
Proof.
  intros Hf. induction l as [|b l IH]; intros a; simpl; [eauto|].
  destruct (Hf a b) as [r ->]. simpl. apply IH.
Qed.

Lemma translateMarkdownContent_returns svc content lang :
  exists r, translateMarkdownContent svc content lang = Ok r.
Proof.
  unfold translateMarkdownContent.
  destruct (translator svc) as [deepl|]; [|eauto].
  destruct (negb _); [eauto|].
  destruct (protectImages content) as [processed images].
  destruct (deepl processed _ _ _) as [result|e]; simpl; [|eauto].
  destruct (foldO_returns (restoreImage deepl lang (targetLanguage svc)) images
              (restoreImage_returns deepl lang (targetLanguage svc)) result)
    as [r ->].
  simpl. eauto.
Qed.

Lemma translateBulletList_returns svc bullets lang :
  exists r, translateBulletList svc bullets lang = Ok r.
Proof.
  induction bullets as [|bullet rest [r IH]]; simpl; [eauto|].
  assert (exists b, tryCatch (translateBullet svc lang bullet)
                      (fun _ => Ok bullet) = Ok b) as [b ->].
  { destruct bullet; simpl; eauto.
    destruct (translateMarkdownContent_returns svc s lang) as [t ->].
    simpl. eauto. }
  simpl. rewrite IH. simpl. eauto.
Qed.

Lemma transformValue_returns svc ct fieldDef prefixFieldIds detected value :
  exists r, transformValue svc ct fieldDef prefixFieldIds detected value = Ok r.
Proof.
  unfold transformValue.
  destruct (isCultureField svc _) eqn:Hculture.
  - destruct (getCultureValue svc); eauto.
  - destruct (_ && _).
    + destruct value; try (destruct (shouldPrefixField _ _)); eauto.
      * destruct (translateMarkdownContent_returns svc
                    (prefix svc +:+ " " +:+ s) (default "" detected)) as [t ->].
        simpl. eauto.
      * destruct (translateMarkdownContent_returns svc s (default "" detected))
          as [t ->].
        simpl. eauto.
      * destruct (String.eqb _ _); eauto.
        destruct (translateBulletList_returns svc items (default "" detected))
          as [t ->].
        simpl. eauto.
    + destruct value; try (destruct (shouldPrefixField _ _)); eauto.
      * destruct (negb _ && negb _); eauto.
        destruct (clone_translateText_returns svc (prefix svc +:+ " " +:+ s)
                    (fd_type fieldDef) detected) as [t Ht].
        rewrite Ht. simpl. eauto.
      * destruct (negb _ && negb _); eauto.
        destruct (clone_translateText_returns svc s (fd_type fieldDef) detected)
          as [t Ht].
        rewrite Ht. simpl. eauto.
Qed.

Lemma findExistingAuthor_returns svc cms author culture :
  exists r, findExistingAuthor svc cms author culture = Ok r.
Proof.
  unfold findExistingAuthor.
  assert (H : forall matchFields,
             findExistingAuthorIn svc cms (fields author) culture matchFields
             <> OutOfFuel).
  { induction matchFields as [|matchField rest IH]; simpl; [discriminate|].
    destruct (lookupProp _ _) as [[|[? []] ?]|]; try exact IH.
    destruct (Js.truthyStr _); [|exact IH].
    destruct (cms_getEntries cms _) as [[|first ?]|e]; simpl;
      [exact IH | discriminate | discriminate]. }
  specialize (H (authorMatchFields svc)).
  destruct (findExistingAuthorIn _ _ _ _ _); simpl; eauto. congruence.
Qed.

End Pure.

Section CloneSafety.

Import CloneService.
Variable svc : Service.
Variable cms : Cms.
Variable now : string.
Variable cloneRec : Entry -> string -> M string.
(** The CMS answers a fetch by id with the entry of that id. *)
Hypothesis keyed :
  map_Forall (fun id (e : Entry) => sys_id e = id) (cms_entries cms).
(** The recursive call keeps the guarantee, as the clone of its entry. *)
Hypothesis Hrec :
  forall e locale, Spec (Some (sys_id e)) (cloneRec e locale).

Lemma relinkAuthor_cases (key id fieldId : string) (st st1 : CloneState)
    (r : Outcome (option Value)) :
  relinkAuthor svc cms key id fieldId st = (r, st1) ->
  ((r = Ok None \/ exists e, r = Throw e) /\ st1 = st)
  \/ (exists existing,
        r = Ok (Some (VLink "Entry" existing))
        /\ cloneMap st1 = <[key := existing]> (cloneMap st)
        /\ drafts st1 = drafts st
        /\ processingSet st1 = processingSet st ∖ {[key]}).
Proof.
  unfold relinkAuthor. intros Hrun.
  destruct (_ && _); [|injection Hrun as <- <-; auto].
  unfold bind, lift in Hrun.
  unfold getEntry in Hrun.
  destruct (cms_entries cms !! id) as [author|];
    [|injection Hrun as <- <-; eauto 6].
  destruct (String.eqb _ _); [|injection Hrun as <- <-; auto].
  destruct (getCultureValue svc) as [culture|]; [|injection Hrun as <- <-; auto].
  destruct (findExistingAuthor_returns svc cms author culture) as [found Hfound].
  rewrite Hfound in Hrun.
  destruct found as [existing|]; [|injection Hrun as <- <-; auto].
  destruct (Js.truthyStr existing); [|injection Hrun as <- <-; auto].
  cbn in Hrun. injection Hrun as <- <-. right. exists existing. auto.
Qed.

Lemma processLinkField_Spec (linkValue : Value) (locale fieldId : string) :
  Spec None (processLinkField svc cms cloneRec linkValue locale fieldId).
Proof.
  intros st r st' Hrun.
  destruct linkValue as [ | | | | | | |linkType id];
    try (injection Hrun as <- <-; apply Step_refl).
  unfold processLinkField in Hrun. unfold bind at 1, getState in Hrun.
  destruct (cloneMap st !! (linkType +:+ ":" +:+ id)) as [target|] eqn:Hmap;
    [injection Hrun as <- <-; apply Step_refl|].
  destruct (bool_decide _) eqn:Hbusy;
    [injection Hrun as <- <-; apply Step_refl|].
  apply bool_decide_eq_false in Hbusy.
  unfold bind at 1, processingSetAdd, modify in Hrun.
  unfold tryCatchM in Hrun.
  set (key := linkType +:+ ":" +:+ id) in *.
  set (sta := mkCloneState _ _ _ _ _) in Hrun.
  assert (Hback : processingSet st ⊆ processingSet sta ∖ {[key]}).
  { intros k Hk. apply elem_of_difference. split.
    - now apply elem_of_union_r.
    - intros Heq%elem_of_singleton. subst k. contradiction. }
  assert (Hframe : Step None st
                     (mkCloneState (cloneMap sta) (processingSet sta ∖ {[key]})
                        (contentTypeCache sta) (currentEntryContentType sta)
                        (drafts sta)))
    by (now apply Step_frame).
  destruct (String.eqb_spec linkType "Entry") as [->|HnotEntry].
  - unfold bind at 1 in Hrun.
    destruct (relinkAuthor svc cms key id fieldId sta) as [relinked st1]
      eqn:Hrelink.
    apply relinkAuthor_cases in Hrelink.
    destruct Hrelink as [[Hcase ->]|(existing & -> & Hm & Hd & Hp)].
    + destruct Hcase as [->|(e & ->)].
      * unfold bind at 1, lift, getEntry in Hrun.
        destruct (cms_entries cms !! id) as [sourceEntry|] eqn:Hfetch.
        -- unfold bind at 1 in Hrun.
           destruct (cloneRec sourceEntry locale sta) as [[cloned|e|] stb]
             eqn:Hclone;
             apply Hrec in Hclone; rewrite (keyed id sourceEntry Hfetch) in Hclone;
             cbn in Hrun; injection Hrun as <- <-;
             (eapply (Step_nested id st sta stb);
              [reflexivity | reflexivity | reflexivity | exact Hbusy
              | exact Hclone | reflexivity | reflexivity | ]).
           ++ reflexivity.
           ++ reflexivity.
           ++ apply subseteq_difference_l. reflexivity.
        -- cbn in Hrun. injection Hrun as <- <-. exact Hframe.
      * cbn in Hrun. injection Hrun as <- <-. exact Hframe.
    + cbn in Hrun. injection Hrun as <- <-.
      apply (Step_mapSet st st1 key existing); auto.
      rewrite Hp. exact Hback.
  - destruct (String.eqb linkType "Asset").
    + cbn in Hrun. injection Hrun as <- <-.
      apply (Step_mapSet st _ key id); auto.
    + cbn in Hrun. injection Hrun as <- <-. exact Hframe.
Qed.

Lemma processFieldValue_Spec :
  forall (value : Value) (locale fieldId : string),
    Spec None (processFieldValue svc cms cloneRec value locale fieldId).
Proof.
  fix IH 1. intros value locale fieldId.
  destruct value as [ | | | | |items| |linkType id];
    try apply Spec_ret.
  - cbn [processFieldValue]. apply Spec_bind; [|intros; apply Spec_ret].
    revert items. fix IHitems 1. intros [|item rest].
    + apply Spec_ret.
    + apply Spec_bind.
      * destruct (isLink item); [apply processLinkField_Spec | apply IH].
      * intros processed. apply Spec_bind; [apply IHitems|].
        intros others. apply Spec_ret.
  - apply processLinkField_Spec.
Qed.

Lemma processLocales_Spec (fieldId : string) (entries : LocaleMap) :
  forall processedField,
    Spec None (processLocales svc cms cloneRec fieldId entries processedField).
Proof.
  induction entries as [|[fieldLocale value] rest IH]; intros processedField;
    cbn [processLocales].
  - apply Spec_ret.
  - apply Spec_bind; [apply processFieldValue_Spec|]. intros processed. apply IH.
Qed.

Lemma processNormalLocales_Spec (contentTypeId : string) (fieldDef : FieldDef)
    (prefixFieldIds : list string) (detected : option string)
    (entries : LocaleMap) :
  forall processedField,
    Spec None
      (processNormalLocales svc cms cloneRec contentTypeId fieldDef
         prefixFieldIds detected entries processedField).
Proof.
  induction entries as [|[fieldLocale value] rest IH]; intros processedField;
    cbn [processNormalLocales].
  - apply Spec_ret.
  - apply Spec_bind; [apply processFieldValue_Spec|]. intros processed.
    apply Spec_bind; [apply Spec_lift|]. intros transformed. apply IH.
Qed.

Lemma processFieldDef_Spec (sourceEntry : Entry) (locale : string)
    (prefixFieldIds : list string) (detected : option string)
    (entryFields : list (string * LocaleMap)) (fieldDef : FieldDef) :
  Spec None
    (processFieldDef svc cms now cloneRec sourceEntry locale prefixFieldIds
       detected entryFields fieldDef).
Proof.
  unfold processFieldDef.
  destruct (lookupProp _ _) as [original|].
  - destruct (shouldEmptyField svc _).
    + destruct (getEmptyValueForField _ _); apply Spec_ret.
    + destruct (shouldCopyAsIs svc _);
        [|destruct (isAuthorField svc _)];
        (apply Spec_bind; [|intros; apply Spec_ret]);
        first [apply processLocales_Spec | apply processNormalLocales_Spec].
  - destruct (fd_required fieldDef); [|apply Spec_ret].
    destruct (shouldEmptyField svc _); [|apply Spec_ret].
    destruct (getEmptyValueForField _ _); apply Spec_ret.
Qed.

Lemma processFieldDefs_Spec (sourceEntry : Entry) (locale : string)
    (prefixFieldIds : list string) (detected : option string)
    (fieldDefs : list FieldDef) :
  forall entryFields,
    Spec None
      (processFieldDefs svc cms now cloneRec sourceEntry locale prefixFieldIds
         detected fieldDefs entryFields).
Proof.
  induction fieldDefs as [|fieldDef rest IH]; intros entryFields;
    cbn [processFieldDefs].
  - apply Spec_ret.
  - apply Spec_bind; [apply processFieldDef_Spec | intros; apply IH].
Qed.

Lemma getContentType_frame (contentTypeId : string) (st st1 : CloneState)
    (r : Outcome ContentType) :
  getContentType cms contentTypeId st = (r, st1) ->
  cloneMap st1 = cloneMap st /\ drafts st1 = drafts st
  /\ processingSet st1 = processingSet st.
Proof.
  unfold getContentType, bind, getState. intros Hrun.
  destruct (contentTypeCache st !! contentTypeId);
    [injection Hrun as <- <-; auto|].
  destruct (cms_contentTypes cms !! contentTypeId);
    cbn in Hrun; injection Hrun as <- <-; auto.
Qed.

Lemma cloneEntryBody_Spec (sourceEntry : Entry) (locale : string) :
  Spec (Some (sys_id sourceEntry))
    (cloneEntryBody svc cms now cloneRec sourceEntry locale).
Proof.
  intros st r st' Hrun.
  unfold cloneEntryBody in Hrun. unfold bind at 1, getState in Hrun.
  fold (keyOf (sys_id sourceEntry)) in Hrun.
  destruct (cloneMap st !! keyOf (sys_id sourceEntry)) as [target|] eqn:Hmap;
    [injection Hrun as <- <-; apply Step_refl|].
  unfold tryCatchM in Hrun. unfold bind at 1 in Hrun.
  destruct (getContentType cms (sys_contentType sourceEntry) st)
    as [[contentType|e|] st1] eqn:Hct;
    apply getContentType_frame in Hct; destruct Hct as (Hm1 & Hd1 & Hp1).
  2:{ cbn in Hrun. injection Hrun as <- <-. apply Step_frame; auto.
      cbn. now rewrite Hp1. }
  2:{ injection Hrun as <- <-. apply Step_frame; auto. now rewrite Hp1. }
  unfold bind at 1, setCurrentEntryContentType, modify in Hrun.
  unfold bind at 1 in Hrun.
  match type of Hrun with
  | context [processFieldDefs ?a ?b ?c ?d ?e ?f ?g ?h ?i ?j ?st] =>
      destruct (processFieldDefs a b c d e f g h i j st) as [looped st2] eqn:Hloop
  end.
  apply processFieldDefs_Spec in Hloop.
  assert (Hstart : Step None st st2).
  { eapply Step_trans; [|exact Hloop].
    apply Step_frame; cbn; auto. now rewrite Hp1. }
  destruct looped as [entryFields|e|].
  - unfold bind at 1, createEntry in Hrun.
    destruct (cms_createEntry cms _ _ _) as [newId|e].
    + cbn in Hrun. injection Hrun as <- <-.
      eapply (Step_create (sys_id sourceEntry) st st2); eauto; reflexivity.
    + cbn in Hrun. injection Hrun as <- <-. apply Step_any.
      eapply Step_trans; [exact Hstart|]. now apply Step_frame.
  - cbn in Hrun. injection Hrun as <- <-. apply Step_any.
    eapply Step_trans; [exact Hstart|]. now apply Step_frame.
  - injection Hrun as <- <-. apply Step_any. exact Hstart.
Qed.

End CloneSafety.

(** ** The recursive clone comes to an end *)

Section CloneTermination.

Import CloneService.

Variable svc : Service.
Variable cms : Cms.
Variable now : string.

Lemma Completes_ret {A} (a : A) P : Completes (ret a) P.
Proof. intros st r st' H [= <- <-]. split; [discriminate | exact H]. Qed.

Lemma Completes_throw {A} (e : string) P : Completes (@throw A e) P.
Proof. intros st r st' H [= <- <-]. split; [discriminate | exact H]. Qed.

Lemma Completes_lift {A} (o : Outcome A) P :
  o <> OutOfFuel -> Completes (lift o) P.
Proof. intros Ho st r st' H [= <- <-]. split; [exact Ho | exact H]. Qed.

Lemma Completes_bind {A B} (m : M A) (k : A -> M B) P :
  Completes m P -> (forall a, Completes (k a) P) -> Completes (bind m k) P.
Proof.
  intros Hm Hk st r st' H Hrun. unfold bind in Hrun.
  destruct (m st) as [[a|e|] st1] eqn:Hfirst;
    destruct (Hm _ _ _ H Hfirst) as [Hfuel Hproc].
  - eapply Hk; eauto.
  - injection Hrun as <- <-. split; [discriminate | exact Hproc].
  - contradiction.
Qed.

Lemma Completes_getState_bind {B} (k : CloneState -> M B) P :
  (forall st, Completes (k st) P) -> Completes (bind getState k) P.
Proof.
  intros Hk st r st' H Hrun. unfold bind, getState in Hrun. eapply Hk; eauto.
Qed.

(** A state change that leaves the processing set alone. *)
Lemma Completes_modify (f : CloneState -> CloneState) P :
  (forall st, processingSet (f st) = processingSet st) ->
  Completes (modify f) P.
Proof.
  intros Hf st r st' H [= <- <-]. split; [discriminate | now rewrite Hf].
Qed.

Lemma Completes_getContentType (id : string) P :
  Completes (getContentType cms id) P.
Proof.
  unfold getContentType. apply Completes_getState_bind. intros st.
  destruct (contentTypeCache st !! id); [apply Completes_ret|].
  destruct (cms_contentTypes cms !! id); [|apply Completes_throw].
  apply Completes_bind; [now apply Completes_modify | intros; apply Completes_ret].
Qed.

Lemma Completes_createEntry (sourceId ct : string) entryFields P :
  Completes (createEntry cms sourceId ct entryFields) P.
Proof.
  intros st r st' H Hrun. unfold createEntry in Hrun.
  destruct (cms_createEntry cms _ _ _); injection Hrun as <- <-;
    (split; [discriminate | exact H]).
Qed.

Lemma restored (k : string) (P : gset string) :
  k ∉ P -> ({[k]} ∪ P) ∖ {[k]} = P.
Proof.
  intros Hk. apply set_eq. intros x.
  rewrite elem_of_difference, elem_of_union, !elem_of_singleton.
  split; [intros [[->|Hx] Hne]; [contradiction | exact Hx]|].
  intros Hx. split; [now right | intros ->; contradiction].
Qed.

Variable cloneRec : Entry -> string -> M string.
Variable P : gset string.

(** The recursive call for a linked entry that can be fetched and is not
    being processed completes while the key of that entry is in the
    processing set. *)
Hypothesis Hrec :
  forall id e locale,
    cms_entries cms !! id = Some e -> keyOf id ∉ P ->
    Completes (cloneRec e locale) ({[keyOf id]} ∪ P).

Lemma Completes_processLinkField (linkValue : Value) (locale fieldId : string) :
  Completes (processLinkField svc cms cloneRec linkValue locale fieldId) P.
Proof.
  destruct linkValue as [ | | | | | | |linkType id]; try apply Completes_ret.
  intros st r st' Hst Hrun.
  unfold processLinkField in Hrun. unfold bind at 1, getState in Hrun.
  set (key := linkType +:+ ":" +:+ id) in *.
  destruct (cloneMap st !! key) as [target|];
    [injection Hrun as <- <-; split; [discriminate | exact Hst]|].
  destruct (bool_decide (key ∈ processingSet st)) eqn:Hbusy;
    [injection Hrun as <- <-; split; [discriminate | exact Hst]|].
  apply bool_decide_eq_false in Hbusy. rewrite Hst in Hbusy.
  unfold bind at 1, processingSetAdd, modify in Hrun.
  unfold tryCatchM in Hrun.
  set (sta := mkCloneState _ _ _ _ _) in Hrun.
  assert (Hsta : processingSet sta = {[key]} ∪ P) by (cbn; now rewrite Hst).
  assert (Hback : ({[key]} ∪ P) ∖ {[key]} = P) by now apply restored.
  destruct (String.eqb_spec linkType "Entry") as [->|HnotEntry].
  - unfold bind at 1 in Hrun.
    destruct (relinkAuthor svc cms key id fieldId sta) as [relinked st1]
      eqn:Hrelink.
    apply relinkAuthor_cases in Hrelink.
    destruct Hrelink as [[Hcase ->]|(existing & -> & _ & _ & Hp)].
    + destruct Hcase as [->|(e & ->)].
      * unfold bind at 1, lift, getEntry in Hrun.
        destruct (cms_entries cms !! id) as [sourceEntry|] eqn:Hfetch.
        -- unfold bind at 1 in Hrun.
           destruct (cloneRec sourceEntry locale sta) as [[cloned|e|] stb]
             eqn:Hclone;
             destruct (Hrec id sourceEntry locale Hfetch Hbusy _ _ _ Hsta Hclone)
               as [Hfuel Hproc];
             [| |contradiction];
             cbn in Hrun; injection Hrun as <- <-;
             (split; [discriminate | cbn; now rewrite Hproc]).
        -- cbn in Hrun. injection Hrun as <- <-.
           split; [discriminate | cbn; now rewrite Hst].
      * cbn in Hrun. injection Hrun as <- <-.
        split; [discriminate | cbn; now rewrite Hst].
    + cbn in Hrun. injection Hrun as <- <-.
      split; [discriminate | now rewrite Hp, Hsta].
  - destruct (String.eqb linkType "Asset"); cbn in Hrun;
      injection Hrun as <- <-; (split; [discriminate | cbn; now rewrite Hst]).
Qed.

Lemma Completes_processFieldValue :
  forall (value : Value) (locale fieldId : string),
    Completes (processFieldValue svc cms cloneRec value locale fieldId) P.
Proof.
  fix IH 1. intros value locale fieldId.
  destruct value as [ | | | | |items| |linkType id];
    try apply Completes_ret.
  - cbn [processFieldValue].
    apply Completes_bind; [|intros; apply Completes_ret].
    revert items. fix IHitems 1. intros [|item rest].
    + apply Completes_ret.
    + apply Completes_bind.
      * destruct (isLink item); [apply Completes_processLinkField | apply IH].
      * intros processed. apply Completes_bind; [apply IHitems|].
        intros others. apply Completes_ret.
  - apply Completes_processLinkField.
Qed.

Lemma Completes_processLocales (fieldId : string) (entries : LocaleMap) :
  forall processedField,
    Completes (processLocales svc cms cloneRec fieldId entries processedField) P.
Proof.
  induction entries as [|[fieldLocale value] rest IH]; intros processedField;
    cbn [processLocales].
  - apply Completes_ret.
  - apply Completes_bind; [apply Completes_processFieldValue|].
    intros processed. apply IH.
Qed.

Lemma Completes_processNormalLocales (contentTypeId : string)
    (fieldDef : FieldDef) (prefixFieldIds : list string)
    (detected : option string) (entries : LocaleMap) :
  forall processedField,
    Completes
      (processNormalLocales svc cms cloneRec contentTypeId fieldDef
         prefixFieldIds detected entries processedField) P.
Proof.
  induction entries as [|[fieldLocale value] rest IH]; intros processedField;
    cbn [processNormalLocales].
  - apply Completes_ret.
  - apply Completes_bind; [apply Completes_processFieldValue|].
    intros processed. apply Completes_bind; [|intros transformed; apply IH].
    apply Completes_lift.
    destruct (transformValue_returns svc contentTypeId fieldDef prefixFieldIds
                detected processed) as [v ->].
    discriminate.
Qed.

Lemma Completes_processFieldDef (sourceEntry : Entry) (locale : string)
    (prefixFieldIds : list string) (detected : option string)
    (entryFields : list (string * LocaleMap)) (fieldDef : FieldDef) :
  Completes
    (processFieldDef svc cms now cloneRec sourceEntry locale prefixFieldIds
       detected entryFields fieldDef) P.
Proof.
  unfold processFieldDef.
  destruct (lookupProp _ _) as [original|].
  - destruct (shouldEmptyField svc _).
    + destruct (getEmptyValueForField _ _); apply Completes_ret.
    + destruct (shouldCopyAsIs svc _);
        [|destruct (isAuthorField svc _)];
        (apply Completes_bind; [|intros; apply Completes_ret]);
        first [apply Completes_processLocales
              | apply Completes_processNormalLocales].
  - destruct (fd_required fieldDef); [|apply Completes_ret].
    destruct (shouldEmptyField svc _); [|apply Completes_ret].
    destruct (getEmptyValueForField _ _); apply Completes_ret.
Qed.

Lemma Completes_processFieldDefs (sourceEntry : Entry) (locale : string)
    (prefixFieldIds : list string) (detected : option string)
    (fieldDefs : list FieldDef) :
  forall entryFields,
    Completes
      (processFieldDefs svc cms now cloneRec sourceEntry locale prefixFieldIds
         detected fieldDefs entryFields) P.
Proof.
  induction fieldDefs as [|fieldDef rest IH]; intros entryFields;
    cbn [processFieldDefs].
  - apply Completes_ret.
  - apply Completes_bind; [apply Completes_processFieldDef | intros; apply IH].
Qed.

Lemma Completes_cloneEntryBody (sourceEntry : Entry) (locale : string) :
  Completes (cloneEntryBody svc cms now cloneRec sourceEntry locale) P.
Proof.
  unfold cloneEntryBody. apply Completes_getState_bind. intros st.
  destruct (cloneMap st !! _); [apply Completes_ret|].
  intros st0 r st' Hst Hrun. unfold tryCatchM in Hrun.
  match type of Hrun with
  | context [bind ?m ?k st0] =>
      assert (Hbody : Completes (bind m k) P)
  end.
  { apply Completes_bind; [apply Completes_getContentType|]. intros contentType.
    apply Completes_bind; [now apply Completes_modify|]. intros _.
    apply Completes_bind; [apply Completes_processFieldDefs|]. intros entryFields.
    apply Completes_bind; [apply Completes_createEntry|]. intros newId.
    apply Completes_bind; [now apply Completes_modify|]. intros _.
    apply Completes_bind; [now apply Completes_modify|]. intros _.
    apply Completes_ret. }
  match type of Hrun with
  | context [bind ?m ?k st0] =>
      destruct (bind m k st0) as [[a|e|] st1] eqn:Hfirst
  end;
    destruct (Hbody _ _ _ Hst Hfirst) as [Hfuel Hproc].
  - injection Hrun as <- <-. split; [discriminate | exact Hproc].
  - cbn in Hrun. injection Hrun as <- <-. split; [discriminate | exact Hproc].
  - contradiction.
Qed.

End CloneTermination.

(** ** A first-clone run (cloneService.js) *)

Section CloneRun.

Import CloneService.

Variable svc : Service.
Variable cms : Cms.
Variable now : string.

(** Taking an entry that can be fetched into the processing set leaves fewer
    entries waiting. *)
Lemma waiting_decreases (P : gset string) (id : string) (e : Entry) :
  cms_entries cms !! id = Some e -> keyOf id ∉ P ->
  (waiting cms ({[keyOf id]} ∪ P) < waiting cms P)%nat.
Proof.
  intros Hfetch Hfree. unfold waiting. apply subset_size. split.
  - intros x. rewrite !elem_of_filter, not_elem_of_union.
    intros [[_ Hx] Hdom]. now split.
  - intros Hsub.
    assert (Hin : id ∈ filter (fun id => keyOf id ∉ P) (dom (cms_entries cms))).
    { apply elem_of_filter. split; [exact Hfree|].
      apply elem_of_dom. now exists e. }
    apply Hsub in Hin. apply elem_of_filter in Hin as [Hout _].
    apply Hout, elem_of_union_l, elem_of_singleton. reflexivity.
Qed.

(** With more fuel than entries waiting, the recursive clone comes to an
    end. *)
Lemma cloneEntryRecursive_completes (fuel : nat) :
  forall (P : gset string) (sourceEntry : Entry) (locale : string),
    (waiting cms P < fuel)%nat ->
    Completes (cloneEntryRecursive fuel svc cms now sourceEntry locale) P.
Proof.
  induction fuel as [|fuel IH]; intros P sourceEntry locale Hfuel; [lia|].
  cbn [cloneEntryRecursive]. apply Completes_cloneEntryBody.
  intros id e linkLocale Hfetch Hfree. apply IH.
  pose proof (waiting_decreases P id e Hfetch Hfree). lia.
Qed.

Hypothesis keyed : cmsKeyedById cms.

Lemma cloneEntryRecursive_Spec (fuel : nat) :
  forall (sourceEntry : Entry) (locale : string),
    Spec (Some (sys_id sourceEntry))
      (cloneEntryRecursive fuel svc cms now sourceEntry locale).
Proof.
  induction fuel as [|fuel IH]; intros sourceEntry locale;
    cbn [cloneEntryRecursive].
  - intros st r st' [= <- <-]. apply Step_refl.
  - now apply cloneEntryBody_Spec.
Qed.

End CloneRun.

Section CloneEntry.

Import CloneService.

Variable svc : Service.
Variable cms : Cms.
Variable now : string.
Variable fuel : nat.
Variables rootId targetLang : string.
Variables st st' : CloneState.
Variable r : Outcome CloneResult.

Hypothesis Hrun : cloneEntry fuel svc cms now rootId targetLang st = (r, st').

(** The run either stops before the first draft or is the recursive clone
    of the root, started with an empty clone map and an empty processing
    set. *)
Lemma cloneEntry_cases :
  (drafts st' = drafts st /\ r <> OutOfFuel)
  \/ exists svc2 rootEntry cloned,
       cms_entries cms !! rootId = Some rootEntry
       /\ cloneEntryRecursive fuel svc2 cms now rootEntry "en-US-POSIX"
            (clearMaps st) = (cloned, st')
       /\ (r = OutOfFuel -> cloned = OutOfFuel).
Proof.
  unfold cloneEntry in Hrun. unfold bind at 1, modify in Hrun.
  unfold bind at 1, lift, getEntry in Hrun.
  destruct (cms_entries cms !! rootId) as [rootEntry|] eqn:Hfetch;
    [|injection Hrun as <- <-; left; split; [reflexivity | discriminate]].
  destruct (negb (String.eqb (sys_contentType rootEntry) "cmsPage"));
    [injection Hrun as <- <-; left; split; [reflexivity | discriminate]|].
  destruct (negb (Js.truthyStr _));
    [injection Hrun as <- <-; left; split; [reflexivity | discriminate]|].
  right. unfold bind at 1 in Hrun.
  match type of Hrun with
  | context [cloneEntryRecursive fuel ?svc2 cms now rootEntry ?locale ?st0] =>
      exists svc2, rootEntry;
      destruct (cloneEntryRecursive fuel svc2 cms now rootEntry locale st0)
        as [cloned st1] eqn:Hclone
  end.
  exists cloned.
  destruct cloned as [clonedId|e|]; cbn in Hrun; injection Hrun as <- <-;
    (split; [reflexivity | split; [reflexivity | try discriminate; auto]]).
Qed.

End CloneEntry.

Section LinkShortcuts.

Import CloneService.

Variable svc : Service.
Variable cms : Cms.
Variable cloneRec : Entry -> string -> M string.

(** A link whose key is in the clone map is rewritten to the mapped target;
    nothing is fetched, created or recorded. *)
Lemma processLinkField_mapped (linkType id target locale fieldId : string)
    (st : CloneState) :
  cloneMap st !! (linkType +:+ ":" +:+ id) = Some target ->
  processLinkField svc cms cloneRec (VLink linkType id) locale fieldId st
  = (Ok (VLink linkType target), st).
Proof.
  intros Hmap. unfold processLinkField, bind, getState. now rewrite Hmap.
Qed.

(** A link to an entry that is being processed is given back as it is. *)
Lemma processLinkField_in_progress (linkType id locale fieldId : string)
    (st : CloneState) :
  cloneMap st !! (linkType +:+ ":" +:+ id) = None ->
  linkType +:+ ":" +:+ id ∈ processingSet st ->
  processLinkField svc cms cloneRec (VLink linkType id) locale fieldId st
  = (Ok (VLink linkType id), st).
Proof.
  intros Hmap Hbusy. unfold processLinkField, bind, getState.
  rewrite Hmap. now rewrite bool_decide_eq_true_2.
Qed.

End LinkShortcuts.

Section CloneRunResult.

Import CloneService.

Variable svc : Service.
Variable cms : Cms.
Variable now : string.
Variable fuel : nat.
Variables rootId targetLang : string.
Variables st st' : CloneState.
Variable r : Outcome CloneResult.

Hypothesis keyed : cmsKeyedById cms.
Hypothesis fresh : drafts st = [].
Hypothesis Hrun : cloneEntry fuel svc cms now rootId targetLang st = (r, st').

Lemma fresh_clonesOf (s : string) (st0 : CloneState) :
  drafts st0 = [] -> clonesOf s st0 = 0%nat.
Proof. intros H. unfold clonesOf. now rewrite H. Qed.

Lemma fresh_Recorded (st0 : CloneState) : drafts st0 = [] -> Recorded st0.
Proof. intros H s Hs. rewrite (fresh_clonesOf s st0 H) in Hs. lia. Qed.

(** What the run of the root guarantees. *)
Lemma cloneEntry_Step :
  drafts st' = [] \/ Step (Some rootId) (clearMaps st) st'.
Proof.
  destruct (cloneEntry_cases svc cms now fuel rootId targetLang st st' r Hrun)
    as [[Hsame _]|(svc2 & rootEntry & cloned & Hfetch & Hclone & _)].
  - left. now rewrite Hsame.
  - right. rewrite <- (keyed _ _ Hfetch).
    eapply cloneEntryRecursive_Spec; eauto.
Qed.

Lemma cloneEntry_once (s : string) :
  s <> rootId -> (clonesOf s st' <= 1)%nat.
Proof.
  intros Hs. destruct cloneEntry_Step as [Hnone|Hstep].
  - rewrite (fresh_clonesOf s st' Hnone). lia.
  - apply (step_once _ _ _ Hstep).
    + congruence.
    + now apply fresh_Recorded.
    + apply lookup_empty.
Qed.

(** The root itself is not in the processing set while its fields are
    processed: an entry that links back to it starts a second clone of it,
    which the in-progress check then ends. *)
Lemma cloneEntry_root_at_most_twice : (clonesOf rootId st' <= 2)%nat.
Proof.
  destruct cloneEntry_Step as [Hnone|Hstep].
  - rewrite (fresh_clonesOf rootId st' Hnone). lia.
  - apply (step_own _ _ _ Hstep rootId eq_refl).
    + now apply fresh_Recorded.
    + apply lookup_empty.
Qed.

Lemma cloneEntry_Recorded : Recorded st'.
Proof.
  destruct cloneEntry_Step as [Hnone|Hstep].
  - now apply fresh_Recorded.
  - apply (step_recorded _ _ _ Hstep). now apply fresh_Recorded.
Qed.

Lemma cloneEntry_completes :
  (size (cms_entries cms) < fuel)%nat -> r <> OutOfFuel.
Proof.
  intros Hfuel.
  destruct (cloneEntry_cases svc cms now fuel rootId targetLang st st' r Hrun)
    as [[_ Hr]|(svc2 & rootEntry & cloned & Hfetch & Hclone & Hout)];
    [exact Hr|].
  intros ->.
  assert (Hwait : (waiting cms ∅ < fuel)%nat).
  { unfold waiting. rewrite <- size_dom in Hfuel.
    eapply Nat.le_lt_trans; [|exact Hfuel].
    apply subseteq_size. intros x Hx. now apply elem_of_filter in Hx as [_ Hx]. }
  destruct (cloneEntryRecursive_completes svc2 cms now fuel ∅ rootEntry
              "en-US-POSIX" Hwait (clearMaps st) cloned st' eq_refl Hclone)
    as [Hne _].
  apply Hne, Hout. reflexivity.
Qed.

End CloneRunResult.

(** C1, amended. In a first-clone run that starts with no draft, on a CMS
    that hands out every entry under its own id, at most one draft is
    created for every source entry other than the root of the run, however
    many links and cycles lead to it; every source entry that got a draft
    has a target in the clone map; and with more fuel than the CMS has
    entries the run comes to an end. On the way, a link whose key is in the
    clone map is rewritten to the mapped target, and a link to an entry
    that is being processed is emitted as it is, pointing at the source
    entry; neither creates anything. *)
Theorem clone_run_drafts_linked_entries_once
    (svc : CloneService.Service) (cms : CloneService.Cms) (now : string)
    (fuel : nat) (rootId targetLang : string)
    (st st' : CloneService.CloneState)
    (r : Outcome CloneService.CloneResult) :
  cmsKeyedById cms ->
  CloneService.drafts st = [] ->
  CloneService.cloneEntry fuel svc cms now rootId targetLang st = (r, st') ->
  (forall s, s <> rootId -> (clonesOf s st' <= 1)%nat)
  /\ Recorded st'
  /\ ((size (CloneService.cms_entries cms) < fuel)%nat -> r <> OutOfFuel)
  /\ (forall svc' cloneRec linkType id target locale fieldId s,
        CloneService.cloneMap s !! (linkType +:+ ":" +:+ id) = Some target ->
        CloneService.processLinkField svc' cms cloneRec (VLink linkType id)
          locale fieldId s
        = (Ok (VLink linkType target), s))
  /\ (forall svc' cloneRec linkType id locale fieldId s,
        CloneService.cloneMap s !! (linkType +:+ ":" +:+ id) = None ->
        linkType +:+ ":" +:+ id ∈ CloneService.processingSet s ->
        CloneService.processLinkField svc' cms cloneRec (VLink linkType id)
          locale fieldId s
        = (Ok (VLink linkType id), s)).
Proof.
  intros keyed fresh Hrun.
  split; [intros s; eapply cloneEntry_once; eauto|].
  split; [eapply cloneEntry_Recorded; eauto|].
  split; [eapply cloneEntry_completes; eauto|].
  split.
  - intros; now apply processLinkField_mapped.
  - intros; now apply processLinkField_in_progress.
Qed.

Lemma clone_run_drafts_linked_entries_once_witness :
  (forall s, s <> "R" -> (clonesOf s (snd (sampleRun loopCms "R")) <= 1)%nat)
  /\ fst (sampleRun loopCms "R") <> OutOfFuel.
Proof.
  destruct (clone_run_drafts_linked_entries_once
              (CloneService.newService "key" identityTranslator) loopCms
              "2025-01-01T00:00:00.000Z" 4 "R" "IT" CloneService.emptyState
              (snd (sampleRun loopCms "R")) (fst (sampleRun loopCms "R")))
    as (Honce & _ & Hends & _).
  - unfold cmsKeyedById. apply (bool_decide_unpack _). vm_compute. reflexivity.
  - reflexivity.
  - unfold sampleRun. apply surjective_pairing.
  - split; [exact Honce|]. apply Hends. vm_compute. lia.
Defined.

(** C1 as stated, on a page R whose element A and the text B reference each
    other. A and B get one draft each and the draft of A links to the draft
    of B; but B was processed while A was in progress, so the draft of B
    links to the source entry A, not to the draft of A. *)
Lemma clone_in_cycle_links_to_source :
  createdDrafts (snd (sampleRun loopCms "R"))
  = [("B", "draft-0"); ("A", "draft-1"); ("R", "draft-2")]
  /\ draftField (snd (sampleRun loopCms "R")) "draft-1" "ref"
     = Some (VLink "Entry" "draft-0")
  /\ draftField (snd (sampleRun loopCms "R")) "draft-0" "ref"
     = Some (VLink "Entry" "A")
  /\ CloneService.cloneMap (snd (sampleRun loopCms "R")) !! "Entry:A"
     = Some "draft-1".
Proof. vm_compute. repeat split; reflexivity. Qed.

(** A root that is on a cycle itself is drafted twice: the first draft,
    which the draft of B links to, is left behind and the run answers with
    the second. *)
Example root_on_cycle_is_drafted_twice :
  createdDrafts (snd (sampleRun cycleCms "A"))
  = [("A", "draft-0"); ("B", "draft-1"); ("A", "draft-2")]
  /\ draftField (snd (sampleRun cycleCms "A")) "draft-1" "ref"
     = Some (VLink "Entry" "draft-0")
  /\ draftField (snd (sampleRun cycleCms "A")) "draft-0" "elements"
     = Some (VArr [VLink "Entry" "B"])
  /\ fmap CloneService.clonedEntryId
       (match fst (sampleRun cycleCms "A") with
        | Ok result => Some result
        | _ => None
        end)
     = Some "draft-2".
Proof. vm_compute. repeat split; reflexivity. Qed.

(** ** Association lists *)

Lemma lookupProp_setProp_eq {A} (k : string) (v : A)
    (props : list (string * A)) :
  lookupProp k (setProp k v props) = Some v.
Proof.
  induction props as [|[k' v'] rest IH]; simpl.
  - now rewrite String.eqb_refl.
  - destruct (String.eqb k k') eqn:Hk; simpl; rewrite Hk; [reflexivity | exact IH].
Qed.

Lemma lookupProp_setProp_ne {A} (k k0 : string) (v : A)
    (props : list (string * A)) :
  k0 <> k -> lookupProp k0 (setProp k v props) = lookupProp k0 props.
Proof.
  intros Hne. induction props as [|[k' v'] rest IH]; simpl.
  - apply String.eqb_neq in Hne. now rewrite Hne.
  - destruct (String.eqb_spec k k') as [->|Hk]; simpl.
    + apply String.eqb_neq in Hne. now rewrite Hne.
    + destruct (String.eqb k0 k'); [reflexivity | exact IH].
Qed.

(** ** The CMS-backed store (contentfulMetadataService.js) *)

Section CmsStore.

Import ContentfulMetadataService.

(** The record of a relationship id: the first entry that carries it. *)
Local Abbreviation recordOf relationshipId entries :=
  (List.find
     (fun entry => String.eqb (me_relationshipId entry) relationshipId)
     entries).

Lemma updateEntryFields_length (sysId relationshipId : string)
    (data : Relationship) (entries : list MetadataEntry) :
  length (updateEntryFields sysId relationshipId data entries) = length entries.
Proof.
  induction entries as [|entry rest IH]; simpl; [reflexivity|].
  destruct (String.eqb (me_sysId entry) sysId); simpl; congruence.
Qed.

(** After the update of the entry found for a relationship id, the record
    of that id holds the new data. *)
Lemma recordOf_updated (relationshipId : string) (data : Relationship)
    (entries : list MetadataEntry) (existing : MetadataEntry) :
  recordOf relationshipId entries = Some existing ->
  recordOf relationshipId
    (updateEntryFields (me_sysId existing) relationshipId data entries)
  = Some (mkMetadataEntry (me_sysId existing) relationshipId data).
Proof.
  induction entries as [|entry rest IH]; simpl; [discriminate|].
  destruct (String.eqb (me_relationshipId entry) relationshipId) eqn:Hrid.
  - intros [= <-]. rewrite String.eqb_refl. simpl.
    now rewrite String.eqb_refl.
  - intros Hfound.
    destruct (String.eqb (me_sysId entry) (me_sysId existing)); simpl.
    + now rewrite String.eqb_refl.
    + rewrite Hrid. now apply IH.
Qed.

Lemma recordOf_app_new (relationshipId : string) (entries : list MetadataEntry)
    (new : MetadataEntry) :
  recordOf relationshipId entries = None ->
  me_relationshipId new = relationshipId ->
  recordOf relationshipId (entries ++ [new]) = Some new.
Proof.
  intros Hnone Hnew.
  induction entries as [|entry rest IH]; simpl in *.
  - now rewrite Hnew, String.eqb_refl.
  - destruct (String.eqb (me_relationshipId entry) relationshipId);
      [discriminate | now apply IH].
Qed.

Lemma recordOf_app_other (relationshipId : string)
    (entries : list MetadataEntry) (new : MetadataEntry) :
  me_relationshipId new <> relationshipId ->
  recordOf relationshipId (entries ++ [new]) = recordOf relationshipId entries.
Proof.
  intros Hnew.
  induction entries as [|entry rest IH]; simpl.
  - apply String.eqb_neq in Hnew. now rewrite Hnew.
  - destruct (String.eqb (me_relationshipId entry) relationshipId);
      [reflexivity | exact IH].
Qed.

Lemma recordOf_In (relationshipId : string) (entries : list MetadataEntry)
    (existing : MetadataEntry) :
  recordOf relationshipId entries = Some existing ->
  In existing entries /\ me_relationshipId existing = relationshipId.
Proof.
  intros Hfound. apply find_some in Hfound as [Hin Hrid].
  split; [exact Hin | now apply String.eqb_eq].
Qed.

(** With entry ids that are unique, the update of one entry changes the
    record of no other relationship id. *)
Lemma recordOf_update_other (relationshipId other : string)
    (data : Relationship) (entries : list MetadataEntry)
    (existing : MetadataEntry) :
  NoDup (map me_sysId entries) ->
  In existing entries ->
  me_relationshipId existing = relationshipId ->
  other <> relationshipId ->
  recordOf other
    (updateEntryFields (me_sysId existing) relationshipId data entries)
  = recordOf other entries.
Proof.
  intros Hnodup Hin Hrid Hother.
  induction entries as [|entry rest IH]; simpl; [reflexivity|].
  simpl in Hnodup. apply NoDup_cons in Hnodup as [Hfresh Hnodup].
  destruct (String.eqb_spec (me_sysId entry) (me_sysId existing)) as [Hsame|Hdiff].
  - assert (Hentry : entry = existing).
    { destruct Hin as [Heq|Hin]; [exact Heq|]. exfalso. apply Hfresh.
      rewrite Hsame. apply list_elem_of_In. now apply in_map. }
    subst entry. simpl. rewrite Hrid.
    apply String.eqb_neq in Hother. rewrite String.eqb_sym in Hother.
    now rewrite Hother.
  - simpl. destruct (String.eqb (me_relationshipId entry) other);
      [reflexivity|].
    apply IH; [exact Hnodup|].
    destruct Hin as [Heq|Hin]; [now subst entry | exact Hin].
Qed.

Lemma storeRelationshipMetadata_get (w : World) (s t : string)
    (data : Relationship) :
  w_metadataTypeInstalled w = true ->
  exists w',
    storeRelationshipMetadata w s t data = (Ok tt, w')
    /\ getRelationshipMetadata w' s t = Some (storedFields s t data)
    /\ w_metadataTypeInstalled w' = true
    /\ w_entries w' = w_entries w /\ w_files w' = w_files w
    /\ length (w_metadata w')
       = match getRelationshipMetadata w s t with
         | Some _ => length (w_metadata w)
         | None => S (length (w_metadata w))
         end.
Proof.
  intros Hinstalled.
  unfold storeRelationshipMetadata, getRelationshipMetadata,
    findRelationshipMetadata.
  rewrite Hinstalled.
  destruct (recordOf (generateRelationshipId s t) (w_metadata w))
    as [existing|] eqn:Hfound.
  - eexists. split; [reflexivity|]. simpl. rewrite Hinstalled.
    rewrite (recordOf_updated _ _ _ _ Hfound). simpl.
    rewrite updateEntryFields_length. auto.
  - eexists. split; [reflexivity|]. simpl. rewrite Hinstalled.
    erewrite recordOf_app_new; [|exact Hfound | reflexivity]. simpl.
    rewrite length_app. simpl. repeat split; try reflexivity. lia.
Qed.

Lemma storeRelationshipMetadata_down (w : World) (s t : string)
    (data : Relationship) :
  w_metadataTypeInstalled w = false ->
  storeRelationshipMetadata w s t data = (Throw "Unknown content type", w).
Proof.
  intros Hdown.
  unfold storeRelationshipMetadata, findRelationshipMetadata.
  now rewrite Hdown.
Qed.

Lemma storeRelationshipMetadata_other (w : World) (s t s' t' : string)
    (data : Relationship) :
  NoDup (map me_sysId (w_metadata w)) ->
  generateRelationshipId s' t' <> generateRelationshipId s t ->
  getRelationshipMetadata
    (snd (storeRelationshipMetadata w s t data)) s' t'
  = getRelationshipMetadata w s' t'.
Proof.
  intros Hnodup Hother.
  unfold storeRelationshipMetadata, getRelationshipMetadata,
    findRelationshipMetadata.
  destruct (w_metadataTypeInstalled w) eqn:Hinstalled;
    [|simpl; now rewrite Hinstalled].
  destruct (recordOf (generateRelationshipId s t) (w_metadata w))
    as [existing|] eqn:Hfound; simpl; rewrite Hinstalled.
  - apply recordOf_In in Hfound as [Hin Hrid].
    now rewrite (recordOf_update_other _ _ _ _ _ Hnodup Hin Hrid Hother).
  - rewrite recordOf_app_other; [reflexivity|].
    simpl. congruence.
Qed.

Lemma recordOf_absent (relationshipId : string)
    (entries : list MetadataEntry) :
  relationshipId ∉ map me_relationshipId entries ->
  recordOf relationshipId entries = None.
Proof.
  induction entries as [|entry rest IH]; simpl; [reflexivity|].
  intros Hout. apply not_elem_of_cons in Hout as [Hne Hout].
  destruct (String.eqb_spec (me_relationshipId entry) relationshipId);
    [congruence | now apply IH].
Qed.

Lemma recordOf_deleted (entries : list MetadataEntry)
    (existing : MetadataEntry) :
  NoDup (map me_sysId entries) ->
  NoDup (map me_relationshipId entries) ->
  In existing entries ->
  recordOf (me_relationshipId existing)
    (deleteEntry (me_sysId existing) entries) = None.
Proof.
  induction entries as [|entry rest IH]; simpl; [reflexivity|].
  intros Hids Hrids Hin.
  apply NoDup_cons in Hids as [Hid Hids].
  apply NoDup_cons in Hrids as [Hrid Hrids].
  destruct (String.eqb_spec (me_sysId entry) (me_sysId existing)) as [Hsame|Hdiff].
  - assert (Hentry : entry = existing).
    { destruct Hin as [Heq|Hin]; [exact Heq|]. exfalso. apply Hid.
      rewrite Hsame. apply list_elem_of_In. now apply in_map. }
    subst entry. now apply recordOf_absent.
  - destruct Hin as [Heq|Hin]; [now subst entry|]. simpl.
    destruct (String.eqb_spec (me_relationshipId entry)
                (me_relationshipId existing)) as [Hclash|_].
    + exfalso. apply Hrid. rewrite Hclash.
      apply list_elem_of_In. now apply in_map.
    + now apply IH.
Qed.

Lemma recordOf_delete_other (other : string) (entries : list MetadataEntry)
    (existing : MetadataEntry) :
  NoDup (map me_sysId entries) ->
  In existing entries ->
  other <> me_relationshipId existing ->
  recordOf other (deleteEntry (me_sysId existing) entries)
  = recordOf other entries.
Proof.
  induction entries as [|entry rest IH]; simpl; [reflexivity|].
  intros Hids Hin Hother.
  apply NoDup_cons in Hids as [Hid Hids].
  destruct (String.eqb_spec (me_sysId entry) (me_sysId existing)) as [Hsame|Hdiff].
  - assert (Hentry : entry = existing).
    { destruct Hin as [Heq|Hin]; [exact Heq|]. exfalso. apply Hid.
      rewrite Hsame. apply list_elem_of_In. now apply in_map. }
    subst entry.
    destruct (String.eqb_spec (me_relationshipId existing) other);
      [congruence | reflexivity].
  - simpl. destruct (String.eqb (me_relationshipId entry) other);
      [reflexivity|].
    apply IH; [exact Hids | | exact Hother].
    destruct Hin as [Heq|Hin]; [now subst entry | exact Hin].
Qed.

Lemma deleteEntry_length (entries : list MetadataEntry)
    (existing : MetadataEntry) :
  In existing entries ->
  S (length (deleteEntry (me_sysId existing) entries)) = length entries.
Proof.
  induction entries as [|entry rest IH]; simpl; [contradiction|].
  intros Hin.
  destruct (String.eqb_spec (me_sysId entry) (me_sysId existing)) as [_|Hdiff];
    [reflexivity|].
  simpl. f_equal. apply IH.
  destruct Hin as [Heq|Hin]; [now subst entry | exact Hin].
Qed.

End CmsStore.

(** X1. A relationship stored on the CMS backend is the one read back for its
    pair: the ids are those of the call and the rest is the data handed in.
    The store is an upsert: a pair that had a record keeps the number of
    records, a pair that had none adds one. *)
Theorem cms_stored_relationship_is_read_back (w : World) (s t : string)
    (data : Relationship) :
  w_metadataTypeInstalled w = true ->
  exists w',
    ContentfulMetadataService.storeRelationshipMetadata w s t data = (Ok tt, w')
    /\ ContentfulMetadataService.getRelationshipMetadata w' s t
       = Some (ContentfulMetadataService.storedFields s t data)
    /\ length (w_metadata w')
       = match ContentfulMetadataService.getRelationshipMetadata w s t with
         | Some _ => length (w_metadata w)
         | None => S (length (w_metadata w))
         end.
Proof.
  intros Hinstalled.
  destruct (storeRelationshipMetadata_get w s t data Hinstalled)
    as (w' & Hstore & Hget & _ & _ & _ & Hlength).
  exists w'. auto.
Qed.

Lemma cms_stored_relationship_is_read_back_witness :
  exists w',
    ContentfulMetadataService.storeRelationshipMetadata cmsBackedWorld "S" "U"
      firstStored = (Ok tt, w')
    /\ ContentfulMetadataService.getRelationshipMetadata w' "S" "U"
       = Some (ContentfulMetadataService.storedFields "S" "U" firstStored)
    /\ length (w_metadata w') = 2%nat.
Proof.
  apply (cms_stored_relationship_is_read_back cmsBackedWorld "S" "U"
           firstStored).
  reflexivity.
Defined.

(** X2. When the entries of the CMS have ids of their own, storing the
    relationship of one pair changes what is read for no pair with another
    relationship id. *)
Theorem cms_store_leaves_other_pairs (w : World) (s t s' t' : string)
    (data : Relationship) :
  NoDup (map me_sysId (w_metadata w)) ->
  ContentfulMetadataService.generateRelationshipId s' t'
  <> ContentfulMetadataService.generateRelationshipId s t ->
  ContentfulMetadataService.getRelationshipMetadata
    (snd (ContentfulMetadataService.storeRelationshipMetadata w s t data)) s' t'
  = ContentfulMetadataService.getRelationshipMetadata w s' t'.
Proof. apply storeRelationshipMetadata_other. Qed.

Lemma cms_store_leaves_other_pairs_witness :
  ContentfulMetadataService.getRelationshipMetadata
    (snd (ContentfulMetadataService.storeRelationshipMetadata cmsBackedWorld
            "S" "U" firstStored)) "S" "T"
  = Some firstStored.
Proof.
  apply (cms_store_leaves_other_pairs cmsBackedWorld "S" "U" "S" "T"
           firstStored).
  - apply (bool_decide_unpack _). vm_compute. reflexivity.
  - discriminate.
Defined.

(** X3. Saving a tree snapshot on the CMS backend keeps the relationship of the
    pair as it was but for the snapshot: the metadata, the translation
    context, the field hashes, the clone mapping and the backup data are
    those read before; and the snapshot read back is the one saved. *)
Theorem cms_snapshot_store_keeps_relationship (now : string) (w : World)
    (s t : string) (deepMap : DeepMap) (existing : Relationship) :
  w_metadataTypeInstalled w = true ->
  ContentfulMetadataService.getRelationshipMetadata w s t = Some existing ->
  exists w',
    ContentfulMetadataService.storeDeepReferenceMap now w s t deepMap
    = (Ok tt, w')
    /\ ContentfulMetadataService.getDeepReferenceMap w' s t = Some deepMap
    /\ ContentfulMetadataService.getRelationshipMetadata w' s t
       = Some (mkRelationship s t (r_metadata existing)
                 (r_translationContext existing) (r_fieldHashes existing)
                 (r_cloneMapping existing) (Some deepMap)
                 (r_backupData existing))
    /\ length (w_metadata w') = length (w_metadata w).
Proof.
  intros Hinstalled Hexisting.
  unfold ContentfulMetadataService.storeDeepReferenceMap,
    ContentfulMetadataService.getDeepReferenceMap.
  rewrite Hexisting.
  destruct (storeRelationshipMetadata_get w s t
              (withDeepReferenceMap existing deepMap) Hinstalled)
    as (w' & Hstore & Hget & _ & _ & _ & Hlength).
  exists w'. rewrite Hstore, Hget. rewrite Hexisting in Hlength. auto.
Qed.

Lemma cms_snapshot_store_keeps_relationship_witness :
  exists w',
    ContentfulMetadataService.storeDeepReferenceMap "2025-06-01T00:00:00.000Z"
      cmsBackedWorld "S" "T" rootOnlySnapshot = (Ok tt, w')
    /\ ContentfulMetadataService.getDeepReferenceMap w' "S" "T"
       = Some rootOnlySnapshot
    /\ (r_cloneMapping
          <$> ContentfulMetadataService.getRelationshipMetadata w' "S" "T")
       = Some [("Entry:S", "T")].
Proof.
  destruct (cms_snapshot_store_keeps_relationship "2025-06-01T00:00:00.000Z"
              cmsBackedWorld "S" "T" rootOnlySnapshot firstStored
              eq_refl eq_refl)
    as (w' & Hstore & Hmap & Hget & _).
  exists w'. rewrite Hget. auto.
Defined.

(** X4. Deleting the relationship of a pair: without a record (or with the
    backend failing) the answer is [false] and nothing changes; with one,
    the answer is [true] and one record is gone. When the entry ids and the
    relationship ids of the store are unique, nothing is read for the pair
    afterwards, and what is read for a pair with another relationship id is
    what was read before. *)
Theorem cms_delete_removes_the_pair (w : World) (s t : string) :
  NoDup (map me_sysId (w_metadata w)) ->
  NoDup (map me_relationshipId (w_metadata w)) ->
  let (found, w') :=
    ContentfulMetadataService.deleteRelationshipMetadata w s t in
  ContentfulMetadataService.getRelationshipMetadata w' s t = None
  /\ (forall s' t',
        ContentfulMetadataService.generateRelationshipId s' t'
        <> ContentfulMetadataService.generateRelationshipId s t ->
        ContentfulMetadataService.getRelationshipMetadata w' s' t'
        = ContentfulMetadataService.getRelationshipMetadata w s' t')
  /\ match ContentfulMetadataService.getRelationshipMetadata w s t with
     | Some _ =>
         found = true /\ S (length (w_metadata w')) = length (w_metadata w)
     | None => found = false /\ w' = w
     end.
Proof.
  intros Hids Hrids.
  unfold ContentfulMetadataService.deleteRelationshipMetadata,
    ContentfulMetadataService.getRelationshipMetadata,
    ContentfulMetadataService.findRelationshipMetadata.
  destruct (w_metadataTypeInstalled w) eqn:Hinstalled;
    [|rewrite Hinstalled; auto].
  destruct (List.find _ (w_metadata w)) as [existing|] eqn:Hfound;
    simpl; rewrite Hinstalled.
  - apply recordOf_In in Hfound as [Hin Hrid].
    split; [|split].
    + rewrite <- Hrid. now rewrite recordOf_deleted.
    + intros s' t' Hother.
      rewrite recordOf_delete_other; [reflexivity | exact Hids | exact Hin|].
      now rewrite Hrid.
    + split; [reflexivity | now apply deleteEntry_length].
  - rewrite Hfound. auto.
Qed.

Lemma cms_delete_removes_the_pair_witness :
  let w' :=
    snd (ContentfulMetadataService.deleteRelationshipMetadata cmsBackedWorld
           "S" "T") in
  ContentfulMetadataService.getRelationshipMetadata w' "S" "T" = None
  /\ w_metadata w' = [].
Proof.
  pose proof (cms_delete_removes_the_pair cmsBackedWorld "S" "T") as Hdelete.
  cbv zeta. split; [|reflexivity].
  apply Hdelete.
  - apply (bool_decide_unpack _). vm_compute. reflexivity.
  - apply (bool_decide_unpack _). vm_compute. reflexivity.
Defined.

(** ** The stored snapshot of the reference tree (deepReferenceTracker.js) *)

Lemma append_inv_head (p a b : string) : p +:+ a = p +:+ b -> a = b.
Proof. induction p as [|c p IH]; simpl; [auto | intros [= H]; auto]. Qed.

(** The relationship file and the snapshot file of a pair are two files. *)
Lemma relationshipFile_not_deepRefsFile (s t : string) :
  IncrementalService.relationshipFile s t
  <> DeepReferenceTracker.deepRefsFile s t.
Proof.
  unfold IncrementalService.relationshipFile, DeepReferenceTracker.deepRefsFile.
  intros Heq. do 3 apply append_inv_head in Heq. discriminate.
Qed.

Lemma storeDeepReferenceMap_get (now : string) (contentful : bool)
    (w : World) (s t : string) (deepMap : DeepMap) :
  DeepReferenceTracker.getStoredDeepReferenceMap contentful
    (DeepReferenceTracker.storeDeepReferenceMap now contentful w s t deepMap)
    s t
  = Some deepMap.
Proof.
  unfold DeepReferenceTracker.getStoredDeepReferenceMap,
    DeepReferenceTracker.storeDeepReferenceMap.
  destruct contentful; [|simpl; now rewrite lookup_insert_eq].
  unfold ContentfulMetadataService.storeDeepReferenceMap,
    ContentfulMetadataService.getDeepReferenceMap.
  destruct (w_metadataTypeInstalled w) eqn:Hinstalled.
  - destruct (ContentfulMetadataService.getRelationshipMetadata w s t)
      as [existing|];
      match goal with
      | |- context [ContentfulMetadataService.storeRelationshipMetadata w s t
                      ?data] =>
          destruct (storeRelationshipMetadata_get w s t data Hinstalled)
            as (w' & -> & -> & _)
      end; reflexivity.
  - assert (Hnone : forall w', w_metadataTypeInstalled w' = false ->
              ContentfulMetadataService.getRelationshipMetadata w' s t = None).
    { intros w' Hdown.
      unfold ContentfulMetadataService.getRelationshipMetadata,
        ContentfulMetadataService.findRelationshipMetadata.
      now rewrite Hdown. }
    rewrite (Hnone w Hinstalled).
    rewrite storeRelationshipMetadata_down by exact Hinstalled.
    rewrite Hnone by exact Hinstalled. simpl. now rewrite lookup_insert_eq.
Qed.

Lemma storeDeepReferenceMap_entries (now : string) (contentful : bool)
    (w : World) (s t : string) (deepMap : DeepMap) :
  w_entries (DeepReferenceTracker.storeDeepReferenceMap now contentful w s t
               deepMap)
  = w_entries w.
Proof.
  unfold DeepReferenceTracker.storeDeepReferenceMap,
    ContentfulMetadataService.storeDeepReferenceMap,
    ContentfulMetadataService.storeRelationshipMetadata.
  destruct contentful; [|reflexivity].
  destruct (ContentfulMetadataService.getRelationshipMetadata w s t);
    destruct (ContentfulMetadataService.findRelationshipMetadata w s t);
    try reflexivity;
    destruct (w_metadataTypeInstalled w); reflexivity.
Qed.

(** X5. A snapshot that was stored is the snapshot read back, on the CMS
    backend, on the filesystem when the service has no CMS backend, and on
    the filesystem when the CMS backend fails; storing it touches no content
    entry. *)
Theorem stored_snapshot_is_read_back (now : string) (contentful : bool)
    (w : World) (s t : string) (deepMap : DeepMap) :
  let w' :=
    DeepReferenceTracker.storeDeepReferenceMap now contentful w s t deepMap in
  DeepReferenceTracker.getStoredDeepReferenceMap contentful w' s t
  = Some deepMap
  /\ w_entries w' = w_entries w.
Proof.
  split; [apply storeDeepReferenceMap_get | apply storeDeepReferenceMap_entries].
Qed.

Section TreeBuild.

Import DeepReferenceTracker.

Variable sha256Json : Value -> string.
Variable tracker : Tracker.
Variables w1 w2 : World.
Variables now1 now2 : string.

Hypothesis sameEntries : w_entries w2 = w_entries w1.

Lemma fetchEntry_same (id : string) : fetchEntry w2 id = fetchEntry w1 id.
Proof. unfold fetchEntry. now rewrite sameEntries. Qed.

(** The build reads the world through its entries alone, and the clock for
    the time stamp of the nodes alone. *)
Lemma scanReference_stamp (entryId fieldId : string)
    (build1 build2 : Entry -> Outcome ReferenceNode)
    (children : list ReferenceNode) (ref : Value) :
  (forall entry, build2 entry = stamped now2 (build1 entry)) ->
  scanReference w2 entryId fieldId build2 (map (stamp now2) children) ref
  = bindO (scanReference w1 entryId fieldId build1 children ref)
      (fun children' => Ok (map (stamp now2) children')).
Proof.
  intros Hbuild. unfold scanReference.
  destruct ref; try reflexivity.
  destruct (Js.truthyStr id && negb (String.eqb id entryId)); [|reflexivity].
  destruct (isAssetReference (VLink linkType id)); [reflexivity|].
  rewrite fetchEntry_same.
  destruct (fetchEntry w1 id) as [referenced|e|]; simpl; try reflexivity.
  rewrite Hbuild. unfold stamped.
  destruct (build1 referenced) as [child|e|]; simpl; try reflexivity.
  now rewrite map_app.
Qed.

Lemma scanReferences_stamp (entryId fieldId : string)
    (build1 build2 : Entry -> Outcome ReferenceNode) (refs : list Value) :
  (forall entry, build2 entry = stamped now2 (build1 entry)) ->
  forall children,
    foldO (scanReference w2 entryId fieldId build2) refs
      (map (stamp now2) children)
    = bindO (foldO (scanReference w1 entryId fieldId build1) refs children)
        (fun children' => Ok (map (stamp now2) children')).
Proof.
  intros Hbuild. induction refs as [|ref refs IH]; intros children;
    cbn [foldO]; [reflexivity|].
  rewrite (scanReference_stamp _ _ build1 build2 _ _ Hbuild).
  destruct (scanReference w1 entryId fieldId build1 children ref)
    as [children1|e|]; cbn [bindO]; [apply IH | reflexivity | reflexivity].
Qed.

Lemma scanFields_stamp (entryId : string)
    (build1 build2 : string -> Entry -> Outcome ReferenceNode)
    (entryFields : list (string * LocaleMap)) :
  (forall fieldId entry,
      build2 fieldId entry = stamped now2 (build1 fieldId entry)) ->
  forall children,
    foldO (scanField w2 entryId build2) entryFields (map (stamp now2) children)
    = bindO (foldO (scanField w1 entryId build1) entryFields children)
        (fun children' => Ok (map (stamp now2) children')).
Proof.
  intros Hbuild.
  induction entryFields as [|[fieldId fieldValue] rest IH]; intros children;
    cbn [foldO]; [reflexivity|].
  assert (Hfield :
    scanField w2 entryId build2 (map (stamp now2) children)
      (fieldId, fieldValue)
    = bindO (scanField w1 entryId build1 children (fieldId, fieldValue))
        (fun children' => Ok (map (stamp now2) children'))).
  { unfold scanField.
    destruct (isReferenceField _); [|reflexivity].
    destruct (negb _); [reflexivity|].
    apply scanReferences_stamp. intros entry. apply Hbuild. }
  rewrite Hfield.
  destruct (scanField w1 entryId build1 children (fieldId, fieldValue))
    as [children1|e|]; cbn [bindO]; [apply IH | reflexivity | reflexivity].
Qed.

Lemma buildReferenceTree_stamp (fuel : nat) :
  forall (entry : Entry) (depth : nat) (parentId parentField : option string),
    buildReferenceTree sha256Json fuel tracker w2 now2 entry depth parentId
      parentField
    = stamped now2
        (buildReferenceTree sha256Json fuel tracker w1 now1 entry depth
           parentId parentField).
Proof.
  induction fuel as [|fuel IH]; intros entry depth parentId parentField;
    [reflexivity|].
  cbn [buildReferenceTree].
  destruct (depth <? maxDepth tracker)%nat; [|reflexivity].
  pose proof (scanFields_stamp (sys_id entry)
                (fun fieldId referencedEntry =>
                   buildReferenceTree sha256Json fuel tracker w1 now1
                     referencedEntry (S depth) (Some (sys_id entry))
                     (Some fieldId))
                _ (fields entry) (fun fieldId e => IH e _ _ _) []) as Hscan.
  cbn [map] in Hscan. rewrite Hscan.
  unfold stamped.
  destruct (foldO (scanField w1 _ _) (fields entry) []) as [children|e|];
    reflexivity.
Qed.

End TreeBuild.

Section TreeReturns.

Import DeepReferenceTracker.

Variable sha256Json : Value -> string.
Variable tracker : Tracker.
Variable w : World.
Variable now : string.

Lemma scanFields_returns (entryId : string)
    (build : string -> Entry -> Outcome ReferenceNode)
    (entryFields : list (string * LocaleMap)) :
  (forall fieldId entry, exists child, build fieldId entry = Ok child) ->
  forall children,
    exists children',
      foldO (scanField w entryId build) entryFields children = Ok children'.
Proof.
  intros Hbuild.
  induction entryFields as [|[fieldId fieldValue] rest IH]; intros children;
    cbn [foldO]; [now exists children|].
  assert (Hfield : exists children1,
            scanField w entryId build children (fieldId, fieldValue)
            = Ok children1).
  { unfold scanField.
    destruct (isReferenceField _); [|now exists children].
    destruct (negb _); [now exists children|].
    generalize children.
    induction (extractReferencedEntries (fieldObject fieldValue))
      as [|ref refs IHrefs]; intros gathered; cbn [foldO];
      [now exists gathered|].
    assert (Href : exists gathered1,
              scanReference w entryId fieldId (build fieldId) gathered ref
              = Ok gathered1).
    { unfold scanReference. destruct ref; try now eexists.
      destruct (_ && _); [|now eexists].
      destruct (isAssetReference _); [now eexists|].
      unfold fetchEntry.
      destruct (w_entries w !! id) as [referenced|]; simpl; [|now eexists].
      destruct (Hbuild fieldId referenced) as [child ->]. now eexists. }
    destruct Href as [gathered1 ->]. cbn [bindO]. apply IHrefs. }
  destruct Hfield as [children1 ->]. cbn [bindO]. apply IH.
Qed.

(** With fuel for every level down to the cap the build returns a tree,
    whatever the entries link to. *)
Lemma buildReferenceTree_returns (fuel : nat) :
  forall (entry : Entry) (depth : nat) (parentId parentField : option string),
    (maxDepth tracker < fuel + depth)%nat -> (depth <= maxDepth tracker)%nat ->
    exists tree,
      buildReferenceTree sha256Json fuel tracker w now entry depth parentId
        parentField = Ok tree.
Proof.
  induction fuel as [|fuel IH];
    intros entry depth parentId parentField Hfuel Hcap.
  - simpl in Hfuel. lia.
  - cbn [buildReferenceTree].
    destruct (depth <? maxDepth tracker)%nat eqn:Hlt; [|now eexists].
    apply Nat.ltb_lt in Hlt.
    destruct (scanFields_returns (sys_id entry)
                (fun fieldId referencedEntry =>
                   buildReferenceTree sha256Json fuel tracker w now
                     referencedEntry (S depth) (Some (sys_id entry))
                     (Some fieldId))
                (fields entry)
                (fun fieldId e =>
                   IH e (S depth) (Some (sys_id entry)) (Some fieldId)
                     ltac:(lia) ltac:(lia)) [])
      as [children ->].
    now eexists.
Qed.

Lemma buildCurrentReferenceMapForComparison_returns (s t : string)
    (sourceEntry : Entry) :
  w_entries w !! s = Some sourceEntry ->
  exists tree,
    buildCurrentReferenceMapForComparison sha256Json tracker w now s t
    = Ok (mkDeepMap s t (maxDepth tracker) now tree (flattenReferenceTree tree)).
Proof.
  intros Hfetch. unfold buildCurrentReferenceMapForComparison, fetchEntry.
  rewrite Hfetch. cbn [bindO].
  destruct (buildReferenceTree_returns (S (maxDepth tracker)) sourceEntry 0
              None None ltac:(lia) ltac:(lia)) as [tree ->].
  now exists tree.
Qed.

Lemma buildCurrentReferenceMapForComparison_missing (s t : string) :
  w_entries w !! s = None ->
  buildCurrentReferenceMapForComparison sha256Json tracker w now s t
  = Throw "The resource could not be found.".
Proof.
  intros Hfetch. unfold buildCurrentReferenceMapForComparison, fetchEntry.
  now rewrite Hfetch.
Qed.

End TreeReturns.

(** X6. The refresh of the stored snapshot: when the source entry can be
    fetched, the tree of the current content is built and stored, and it is
    what is read back afterwards, stamped with the time of the refresh; when
    it cannot, the error is swallowed and the store stays as it was. *)
Theorem snapshot_refresh_stores_current_tree (sha256Json : Value -> string)
    (tracker : DeepReferenceTracker.Tracker) (contentful : bool) (w : World)
    (now s t : string) :
  let w' :=
    DeepReferenceTracker.updateStoredReferencesAfterProcessing sha256Json
      tracker contentful w now s t in
  match w_entries w !! s with
  | Some _ =>
      exists currentMap,
        DeepReferenceTracker.buildCurrentReferenceMapForComparison sha256Json
          tracker w now s t = Ok currentMap
        /\ dm_lastScanned currentMap = now
        /\ DeepReferenceTracker.getStoredDeepReferenceMap contentful w' s t
           = Some currentMap
  | None => w' = w
  end.
Proof.
  intros w'. subst w'.
  unfold DeepReferenceTracker.updateStoredReferencesAfterProcessing.
  destruct (w_entries w !! s) as [sourceEntry|] eqn:Hfetch.
  - destruct (buildCurrentReferenceMapForComparison_returns sha256Json tracker
                w now s t sourceEntry Hfetch) as [tree ->].
    eexists. split; [reflexivity|]. split; [reflexivity|].
    apply storeDeepReferenceMap_get.
  - now rewrite buildCurrentReferenceMapForComparison_missing.
Qed.

(** ** The flattened tree (deepReferenceTracker.js) *)

Lemma ReferenceNode_children_ind (P : ReferenceNode -> Prop) :
  (forall id version depth parentId parentField contentHash updated children,
      Forall P children ->
      P (mkNode id version depth parentId parentField contentHash updated
           children)) ->
  forall node, P node.
Proof.
  intros Hnode. fix IH 1.
  intros [id version depth parentId parentField contentHash updated children].
  apply Hnode.
  induction children as [|child rest IHrest]; constructor;
    [apply IH | exact IHrest].
Qed.

Lemma addNode_unfold (id : string) (version : Z) (depth : nat)
    (parentId parentField : option string) (contentHash updated : string)
    (children : list ReferenceNode) (flattened : list (string * ReferenceNode)) :
  DeepReferenceTracker.addNode
    (mkNode id version depth parentId parentField contentHash updated children)
    flattened
  = fold_left (fun acc child => DeepReferenceTracker.addNode child acc)
      children
      (setProp id
         (mkNode id version depth parentId parentField contentHash updated [])
         flattened).
Proof.
  cbn [DeepReferenceTracker.addNode].
  generalize (setProp id
                (mkNode id version depth parentId parentField contentHash
                   updated []) flattened).
  induction children as [|child rest IH]; intros acc; [reflexivity|].
  cbn [fold_left]. apply IH.
Qed.

Lemma lookupProp_is_Some {A} (k : string) (props : list (string * A)) :
  is_Some (lookupProp k props) <-> In k (map fst props).
Proof.
  induction props as [|[k' v'] rest IH]; simpl.
  - split; [intros [x [=]] | contradiction].
  - destruct (String.eqb_spec k k') as [->|Hne].
    + split; [now left | now eexists].
    + rewrite IH. split; [now right | intros [Heq|Hin]; [congruence | exact Hin]].
Qed.

Lemma setProp_keys_NoDup {A} (k : string) (v : A) (props : list (string * A)) :
  NoDup (map fst props) -> NoDup (map fst (setProp k v props)).
Proof.
  induction props as [|[k' v'] rest IH]; simpl; intros Hnodup.
  - apply NoDup_singleton.
  - apply NoDup_cons in Hnodup as [Hfresh Hnodup].
    destruct (String.eqb_spec k k') as [->|Hne]; simpl.
    + now apply NoDup_cons.
    + apply NoDup_cons. split; [|now apply IH].
      intros Hin. apply Hfresh.
      apply list_elem_of_In, lookupProp_is_Some.
      apply list_elem_of_In, lookupProp_is_Some in Hin.
      rewrite lookupProp_setProp_ne in Hin by congruence. exact Hin.
Qed.

Lemma lookupProp_NoDup {A} (k : string) (v : A) (props : list (string * A)) :
  NoDup (map fst props) -> In (k, v) props -> lookupProp k props = Some v.
Proof.
  induction props as [|[k' v'] rest IH]; simpl; intros Hnodup Hin;
    [contradiction|].
  apply NoDup_cons in Hnodup as [Hfresh Hnodup].
  destruct Hin as [[= -> ->]|Hin]; [now rewrite String.eqb_refl|].
  destruct (String.eqb_spec k k') as [->|_]; [|now apply IH].
  exfalso. apply Hfresh. apply list_elem_of_In, in_map_iff.
  now exists (k', v).
Qed.

Section Flatten.

Import DeepReferenceTracker.

Lemma addNode_keys_NoDup (node : ReferenceNode) :
  forall flattened,
    NoDup (map fst flattened) -> NoDup (map fst (addNode node flattened)).
Proof.
  induction node
    as [id version depth parentId parentField contentHash updated children IH]
    using ReferenceNode_children_ind.
  intros flattened Hnodup. rewrite addNode_unfold.
  assert (Hstart :
    NoDup (map fst
             (setProp id
                (mkNode id version depth parentId parentField contentHash
                   updated []) flattened)))
    by now apply setProp_keys_NoDup.
  revert Hstart.
  generalize (setProp id
                (mkNode id version depth parentId parentField contentHash
                   updated []) flattened).
  induction IH as [|child rest Hchild _ IHrest]; intros acc Hacc;
    cbn [fold_left]; [exact Hacc|].
  apply IHrest. now apply Hchild.
Qed.

Lemma flattenReferenceTree_keys_NoDup (tree : ReferenceNode) :
  NoDup (map fst (flattenReferenceTree tree)).
Proof. apply addNode_keys_NoDup. constructor. Qed.

Variable now : string.

Lemma setProp_stampAll (k : string) (node : ReferenceNode)
    (flattened : list (string * ReferenceNode)) :
  setProp k (stamp now node) (stampAll now flattened)
  = stampAll now (setProp k node flattened).
Proof.
  unfold stampAll. induction flattened as [|[k' v'] rest IH]; simpl;
    [reflexivity|].
  destruct (String.eqb k k'); simpl; [reflexivity | now rewrite IH].
Qed.

Lemma addNode_stamp (node : ReferenceNode) :
  forall flattened,
    addNode (stamp now node) (stampAll now flattened)
    = stampAll now (addNode node flattened).
Proof.
  induction node
    as [id version depth parentId parentField contentHash updated children IH]
    using ReferenceNode_children_ind.
  intros flattened. cbn [stamp]. rewrite !addNode_unfold.
  change (mkNode id version depth parentId parentField contentHash now [])
    with (stamp now
            (mkNode id version depth parentId parentField contentHash updated
               [])).
  rewrite setProp_stampAll.
  generalize (setProp id
                (mkNode id version depth parentId parentField contentHash
                   updated []) flattened).
  induction IH as [|child rest Hchild _ IHrest]; intros acc;
    cbn [fold_left map]; [reflexivity|].
  rewrite Hchild. apply IHrest.
Qed.

Lemma flattenReferenceTree_stamp (tree : ReferenceNode) :
  flattenReferenceTree (stamp now tree)
  = stampAll now (flattenReferenceTree tree).
Proof. apply (addNode_stamp tree []). Qed.

Lemma lookupProp_stampAll (k : string)
    (flattened : list (string * ReferenceNode)) :
  lookupProp k (stampAll now flattened)
  = stamp now <$> lookupProp k flattened.
Proof.
  unfold stampAll. induction flattened as [|[k' v'] rest IH]; simpl;
    [reflexivity|].
  destruct (String.eqb k k'); [reflexivity | exact IH].
Qed.

Lemma stamp_version (node : ReferenceNode) :
  n_version (stamp now node) = n_version node.
Proof. now destruct node. Qed.

Lemma stamp_contentHash (node : ReferenceNode) :
  n_contentHash (stamp now node) = n_contentHash node.
Proof. now destruct node. Qed.

End Flatten.

(** ** Detection on unchanged content (deepReferenceTracker.js) *)

Lemma filter_none {A} (f : A -> bool) (l : list A) :
  (forall x, In x l -> f x = false) -> List.filter f l = [].
Proof.
  induction l as [|x l IH]; intros Hnone; simpl; [reflexivity|].
  rewrite (Hnone x) by now left. apply IH. intros y Hy. apply Hnone. now right.
Qed.

(** Storing a snapshot changes no entry of the CMS content. *)

Section Quiet.

Import DeepReferenceTracker.

Variable sha256Json : Value -> string.
Variable tracker : Tracker.
Variable w : World.
Variable now : string.
Variable sourceEntryId : string.
Variable storedRefs : list (string * ReferenceNode).

Hypothesis distinct : NoDup (map fst storedRefs).

(** A reference that is stored, met again with another time stamp only, is
    neither changed nor new. *)
Lemma compare_unchanged (currentRefs : list (string * ReferenceNode)) :
  (forall kv, In kv currentRefs -> In kv storedRefs) ->
  forall changes,
    fold_left (compareReference sha256Json tracker w sourceEntryId storedRefs)
      (stampAll now currentRefs) changes
    = changes.
Proof.
  induction currentRefs as [|[refId currentRef] rest IH]; intros Hsub changes;
    cbn [stampAll map fold_left]; [reflexivity|].
  assert (Hstep :
    compareReference sha256Json tracker w sourceEntryId storedRefs changes
      (refId, stamp now currentRef) = changes).
  { unfold compareReference. cbn [fst snd].
    rewrite (lookupProp_NoDup refId currentRef storedRefs distinct)
      by (apply Hsub; now left).
    rewrite stamp_version, stamp_contentHash, Z.ltb_irrefl, String.eqb_refl.
    reflexivity. }
  cbn [fst snd]. rewrite Hstep. apply IH. intros kv Hin. apply Hsub. now right.
Qed.

Lemma compareReferenceMaps_unchanged :
  compareReferenceMaps sha256Json tracker w sourceEntryId storedRefs
    (stampAll now storedRefs)
  = mkDeepChanges [] [] [].
Proof.
  unfold compareReferenceMaps. rewrite compare_unchanged by auto. simpl.
  f_equal. apply filter_none. intros refId Hin.
  apply negb_false_iff, bool_decide_eq_true.
  rewrite lookupProp_stampAll. apply fmap_is_Some.
  now apply lookupProp_is_Some.
Qed.

End Quiet.

Lemma detectDeepReferenceChanges_unchanged (sha256Json : Value -> string)
    (tracker : DeepReferenceTracker.Tracker) (contentful : bool)
    (before w : World) (taken now s t : string) (stored : DeepMap) :
  w_entries w = w_entries before ->
  DeepReferenceTracker.buildCurrentReferenceMapForComparison sha256Json tracker
    before taken s t = Ok stored ->
  DeepReferenceTracker.getStoredDeepReferenceMap contentful w s t
  = Some stored ->
  DeepReferenceTracker.detectDeepReferenceChanges sha256Json tracker contentful
    w now s t
  = (Ok (DeepReferenceTracker.mkDeepChanges [] [] []), w).
Proof.
  intros Hsame Htaken Hstored.
  unfold DeepReferenceTracker.detectDeepReferenceChanges. rewrite Hstored.
  unfold DeepReferenceTracker.buildCurrentReferenceMapForComparison in *.
  rewrite (fetchEntry_same before w Hsame).
  destruct (fetchEntry before s) as [sourceEntry|e|]; try discriminate.
  cbn [bindO] in *.
  rewrite (buildReferenceTree_stamp sha256Json tracker before w taken now
             Hsame).
  destruct (DeepReferenceTracker.buildReferenceTree sha256Json _ tracker before
              taken sourceEntry 0 None None) as [tree|e|]; try discriminate.
  cbn [bindO stamped] in *. injection Htaken as <-. cbn [dm_flattenedRefs].
  rewrite flattenReferenceTree_stamp.
  rewrite compareReferenceMaps_unchanged; [reflexivity|].
  apply flattenReferenceTree_keys_NoDup.
Qed.

(** X7. When the stored snapshot is the tree of the current content, whenever it
    was taken, the detection reports no changed, no new and no removed
    reference, and leaves the store as it is. *)
Theorem unchanged_content_has_no_deep_change (sha256Json : Value -> string)
    (tracker : DeepReferenceTracker.Tracker) (contentful : bool)
    (before w : World) (taken now s t : string) (stored : DeepMap) :
  w_entries w = w_entries before ->
  DeepReferenceTracker.buildCurrentReferenceMapForComparison sha256Json tracker
    before taken s t = Ok stored ->
  DeepReferenceTracker.getStoredDeepReferenceMap contentful w s t
  = Some stored ->
  DeepReferenceTracker.detectDeepReferenceChanges sha256Json tracker contentful
    w now s t
  = (Ok (DeepReferenceTracker.mkDeepChanges [] [] []), w).
Proof. apply detectDeepReferenceChanges_unchanged. Qed.

Lemma unchanged_content_has_no_deep_change_witness :
  DeepReferenceTracker.detectDeepReferenceChanges renderJson defaultTracker
    true worldWithSnapshot "2025-06-01T00:00:00.000Z" "S" "T"
  = (Ok (DeepReferenceTracker.mkDeepChanges [] [] []), worldWithSnapshot).
Proof.
  apply (unchanged_content_has_no_deep_change renderJson defaultTracker true
           worldAtClone worldWithSnapshot "2024-01-01T00:00:00.000Z"
           "2025-06-01T00:00:00.000Z" "S" "T"
           (default rootOnlySnapshot
              (DeepReferenceTracker.getStoredDeepReferenceMap true
                 worldWithSnapshot "S" "T")));
    vm_compute; reflexivity.
Defined.

(** X8. The first detection for a pair without stored snapshot, on a source
    entry that can be fetched: every reference of the current tree but the
    source entry itself is reported as new, nothing as changed or removed,
    and the current tree is stored; the next detection on the same content,
    at whatever time, reports nothing and leaves the store as it is. The
    ids of the entries become keys of a plain object: no entry of the CMS
    has an id that is a name every object inherits. *)
Theorem first_detection_settles (sha256Json : Value -> string)
    (tracker : DeepReferenceTracker.Tracker) (contentful : bool) (w : World)
    (now later s t : string) (sourceEntry : Entry) :
  w_entries w !! s = Some sourceEntry ->
  DeepReferenceTracker.getStoredDeepReferenceMap contentful w s t = None ->
  map_Forall (fun _ (entry : Entry) => ownName (sys_id entry) = true)
    (w_entries w) ->
  exists currentMap changes w',
    DeepReferenceTracker.buildCurrentReferenceMapForComparison sha256Json
      tracker w now s t = Ok currentMap
    /\ DeepReferenceTracker.detectDeepReferenceChanges sha256Json tracker
         contentful w now s t
       = (Ok changes, w')
    /\ DeepReferenceTracker.changedReferences changes = []
    /\ DeepReferenceTracker.removedReferences changes = []
    /\ (forall ref,
          In ref (DeepReferenceTracker.newReferences changes)
          <-> exists id node,
                In (id, node) (dm_flattenedRefs currentMap)
                /\ id <> s
                /\ ref = DeepReferenceTracker.newReference tracker s id node)
    /\ DeepReferenceTracker.getStoredDeepReferenceMap contentful w' s t
       = Some currentMap
    /\ DeepReferenceTracker.detectDeepReferenceChanges sha256Json tracker
         contentful w' later s t
       = (Ok (DeepReferenceTracker.mkDeepChanges [] [] []), w').
Proof.
  intros Hfetch Hnone _.
  destruct (buildCurrentReferenceMapForComparison_returns sha256Json tracker w
              now s t sourceEntry Hfetch) as [tree Hbuild].
  eexists. eexists. eexists. split; [exact Hbuild|].
  unfold DeepReferenceTracker.detectDeepReferenceChanges at 1.
  rewrite Hnone, Hbuild. split; [reflexivity|].
  cbn [DeepReferenceTracker.changedReferences
         DeepReferenceTracker.removedReferences
         DeepReferenceTracker.newReferences].
  split; [reflexivity|]. split; [reflexivity|]. split.
  - intros ref. rewrite in_map_iff. split.
    + intros ([id node] & <- & Hin). apply filter_In in Hin as [Hin Hne].
      cbn [fst snd] in *. exists id, node.
      split; [exact Hin|]. split; [|reflexivity].
      apply negb_true_iff in Hne. now apply String.eqb_neq.
    + intros (id & node & Hin & Hne & ->). exists (id, node).
      split; [reflexivity|]. apply filter_In. split; [exact Hin|].
      cbn [fst]. apply negb_true_iff. now apply String.eqb_neq.
  - split; [apply storeDeepReferenceMap_get|].
    apply (detectDeepReferenceChanges_unchanged sha256Json tracker contentful w
             _ now later s t _ (storeDeepReferenceMap_entries _ _ _ _ _ _)
             Hbuild).
    apply storeDeepReferenceMap_get.
Qed.

Lemma first_detection_settles_witness :
  exists changes w',
    DeepReferenceTracker.detectDeepReferenceChanges renderJson defaultTracker
      true worldAtClone "2024-01-01T00:00:00.000Z" "S" "T"
    = (Ok changes, w')
    /\ map DeepReferenceTracker.nr_id
         (DeepReferenceTracker.newReferences changes)
       = ["E1"; "E3"]
    /\ DeepReferenceTracker.detectDeepReferenceChanges renderJson defaultTracker
         true w' "2025-06-01T00:00:00.000Z" "S" "T"
       = (Ok (DeepReferenceTracker.mkDeepChanges [] [] []), w').
Proof.
  destruct (first_detection_settles renderJson defaultTracker true worldAtClone
              "2024-01-01T00:00:00.000Z" "2025-06-01T00:00:00.000Z" "S" "T"
              (pageEntry 3 ["E1"; "E3"]) eq_refl eq_refl
              ltac:(apply (bool_decide_unpack _); vm_compute; reflexivity))
    as (currentMap & changes & w' & _ & Hfirst & _ & _ & _ & _ & Hnext).
  exists changes, w'. split; [exact Hfirst|]. split; [|exact Hnext].
  vm_compute in Hfirst. injection Hfirst as <- _. reflexivity.
Defined.

(** ** What the flattened tree holds (deepReferenceTracker.js) *)

Section FlattenContent.

Import DeepReferenceTracker.

(** What adding a node to the flattened tree leaves under a key: what was
    there, or a node of the added tree without its children. *)
Let Added (nodes : list ReferenceNode) (k : string) (n : ReferenceNode)
  : Prop :=
  exists original, In original nodes /\ n_id original = k /\ n = childless original.

Lemma addNode_content (node : ReferenceNode) :
  forall flattened,
    (forall k n,
        lookupProp k (addNode node flattened) = Some n ->
        lookupProp k flattened = Some n \/ Added (treeNodes node) k n)
    /\ (forall k,
          In k (map fst (addNode node flattened))
          <-> In k (map fst flattened) \/ In k (map n_id (treeNodes node))).
Proof.
  induction node
    as [id version depth parentId parentField contentHash updated children IH]
    using ReferenceNode_children_ind.
  intros flattened. rewrite addNode_unfold. cbn [treeNodes].
  set (root := mkNode id version depth parentId parentField contentHash updated
                 children).
  set (start := setProp id
                  (mkNode id version depth parentId parentField contentHash
                     updated []) flattened).
  assert (Hstart :
    (forall k n,
        lookupProp k start = Some n ->
        lookupProp k flattened = Some n \/ Added [root] k n)
    /\ (forall k,
          In k (map fst start) <-> In k (map fst flattened) \/ In k [id])).
  { split.
    - intros k n Hk. unfold start in Hk.
      destruct (String.eqb_spec k id) as [->|Hne].
      + rewrite lookupProp_setProp_eq in Hk. injection Hk as <-.
        right. exists root. split; [now left | split; reflexivity].
      + rewrite lookupProp_setProp_ne in Hk by exact Hne. now left.
    - intros k. unfold start. rewrite <- !lookupProp_is_Some.
      destruct (String.eqb_spec k id) as [->|Hne].
      + rewrite lookupProp_setProp_eq. split; [right; now left | now eexists].
      + rewrite lookupProp_setProp_ne by exact Hne.
        split; [now left | intros [H|[Heq|[]]]; [exact H | congruence]]. }
  clearbody start.
  assert (Hfold : forall acc,
    (forall k n,
        lookupProp k
          (fold_left (fun acc child => addNode child acc) children acc)
        = Some n ->
        lookupProp k acc = Some n \/ Added (flat_map treeNodes children) k n)
    /\ (forall k,
          In k (map fst
                  (fold_left (fun acc child => addNode child acc) children acc))
          <-> In k (map fst acc)
              \/ In k (map n_id (flat_map treeNodes children)))).
  { clear Hstart. induction IH as [|child rest Hchild _ IHrest]; intros acc;
      cbn [fold_left flat_map].
    - split; [now left | intros k; split; [now left | now intros [H|[]]]].
    - destruct (IHrest (addNode child acc)) as [Hlook Hkeys].
      destruct (Hchild acc) as [Hlook1 Hkeys1]. split.
      + intros k n Hk. destruct (Hlook k n Hk) as [Hacc|(o & Hin & Ho)].
        * destruct (Hlook1 k n Hacc) as [H|(o & Hin & Ho)]; [now left|].
          right. exists o. split; [apply in_or_app; now left | exact Ho].
        * right. exists o. split; [apply in_or_app; now right | exact Ho].
      + intros k. rewrite Hkeys, Hkeys1, map_app, in_app_iff. tauto. }
  destruct (Hfold start) as [Hlook Hkeys].
  destruct Hstart as [Hlook0 Hkeys0]. split.
  - intros k n Hk. destruct (Hlook k n Hk) as [Hacc|(o & Hin & Ho)].
    + destruct (Hlook0 k n Hacc) as [H|(o & [<-|[]] & Ho)]; [now left|].
      right. exists root. split; [now left | exact Ho].
    + right. exists o. split; [now right | exact Ho].
  - intros k. rewrite Hkeys, Hkeys0. cbn [map In n_id root]. tauto.
Qed.

End FlattenContent.

(** X9. The flattened tree holds every entry of the tree under its id, once,
    and nothing else: its keys are the ids of the nodes of the tree without
    repetition, and the node under a key is a node of the tree with that id,
    stored without its children. No id of the tree is a name that every
    object inherits. *)
Theorem flattened_tree_holds_every_node_once (tree : ReferenceNode) :
  forallb ownName (map n_id (treeNodes tree)) = true ->
  NoDup (map fst (DeepReferenceTracker.flattenReferenceTree tree))
  /\ (forall id,
        In id (map fst (DeepReferenceTracker.flattenReferenceTree tree))
        <-> In id (map n_id (treeNodes tree)))
  /\ (forall id node,
        lookupProp id (DeepReferenceTracker.flattenReferenceTree tree)
        = Some node ->
        exists original,
          In original (treeNodes tree) /\ n_id original = id
          /\ node = childless original).
Proof.
  intros _.
  destruct (addNode_content tree []) as [Hlook Hkeys].
  split; [apply flattenReferenceTree_keys_NoDup|]. split.
  - intros id. unfold DeepReferenceTracker.flattenReferenceTree.
    rewrite Hkeys. simpl. tauto.
  - intros id node Hnode. destruct (Hlook id node Hnode) as [[=]|H]. exact H.
Qed.

Lemma flattened_tree_holds_every_node_once_witness :
  let leaf id depth parentId :=
    mkNode id 2 depth (Some parentId) (Some "elements") "h"
      "2024-01-01T00:00:00.000Z" [] in
  let tree :=
    mkNode "S" 3 0 None None "h" "2024-01-01T00:00:00.000Z"
      [mkNode "E1" 5 1 (Some "S") (Some "elements") "h"
         "2024-01-01T00:00:00.000Z" [leaf "E3" 2%nat "E1"];
       leaf "E3" 1%nat "S"] in
  map n_id (treeNodes tree) = ["S"; "E1"; "E3"; "E3"]
  /\ NoDup (map fst (DeepReferenceTracker.flattenReferenceTree tree))
  /\ (forall id,
        In id (map fst (DeepReferenceTracker.flattenReferenceTree tree))
        <-> In id (map n_id (treeNodes tree)))
  /\ (forall id node,
        lookupProp id (DeepReferenceTracker.flattenReferenceTree tree)
        = Some node ->
        exists original,
          In original (treeNodes tree) /\ n_id original = id
          /\ node = childless original).
Proof.
  intros leaf tree. split; [reflexivity|].
  apply (flattened_tree_holds_every_node_once tree). reflexivity.
Defined.

(** ** Statistics of the stored snapshot (deepReferenceTracker.js) *)

Section Statistics.

Import DeepReferenceTracker.

Let step (byDepth : gmap nat nat) (kv : string * ReferenceNode)
  : gmap nat nat :=
  <[n_depth (snd kv) := (default 0 (byDepth !! n_depth (snd kv)) + 1)%nat]>
    byDepth.

Lemma count_lookup (flattened : list (string * ReferenceNode)) (depth : nat) :
  forall byDepth,
    fold_left step flattened byDepth !! depth
    = if (nodesAtDepth depth flattened =? 0)%nat then byDepth !! depth
      else Some (default 0 (byDepth !! depth) + nodesAtDepth depth flattened)%nat.
Proof.
  unfold nodesAtDepth.
  induction flattened as [|[k node] rest IH]; intros byDepth;
    cbn [fold_left List.filter snd]; [reflexivity|].
  rewrite IH. unfold step. cbn [snd].
  destruct (Nat.eqb_spec (n_depth node) depth) as [Heq|Hne]; cbn [length].
  - rewrite Heq, lookup_insert_eq. cbn [default].
    generalize (length
                  (List.filter
                     (fun kv : string * ReferenceNode =>
                        (n_depth (snd kv) =? depth)%nat) rest)) as count.
    intros count. destruct count; cbn [Nat.eqb]; unfold id; f_equal; lia.
  - now rewrite lookup_insert_ne.
Qed.

Lemma sumOfCounts_step (byDepth : gmap nat nat) (kv : string * ReferenceNode) :
  sumOfCounts (step byDepth kv) = S (sumOfCounts byDepth).
Proof.
  unfold sumOfCounts, step.
  destruct (byDepth !! n_depth (snd kv)) as [count|] eqn:Hcount; cbn [default].
  - rewrite <- (insert_delete_eq byDepth).
    rewrite map_fold_insert_L; [|intros; lia | apply lookup_delete_eq].
    rewrite (map_fold_delete_L _ _ (n_depth (snd kv)) count byDepth);
      [unfold id; lia | intros; lia | exact Hcount].
  - rewrite map_fold_insert_L; [unfold id; lia | intros; lia | exact Hcount].
Qed.

Lemma sumOfCounts_fold (flattened : list (string * ReferenceNode)) :
  forall byDepth,
    sumOfCounts (fold_left step flattened byDepth)
    = (sumOfCounts byDepth + length flattened)%nat.
Proof.
  induction flattened as [|kv rest IH]; intros byDepth; cbn [fold_left length];
    [lia|].
  rewrite IH, sumOfCounts_step. lia.
Qed.

End Statistics.

(** X10. The statistics of a pair count the stored snapshot: the total is the
    number of entries of the flattened tree, the count under a depth is the
    number of entries at that depth (a depth without entries has no count),
    and the counts add up to the total. Without a stored snapshot the
    statistics are empty and name the scan [never]. *)
Theorem statistics_count_the_snapshot (tracker : DeepReferenceTracker.Tracker)
    (contentful : bool) (w : World) (s t : string) :
  let stats :=
    DeepReferenceTracker.getReferenceStatistics tracker contentful w s t in
  match DeepReferenceTracker.getStoredDeepReferenceMap contentful w s t with
  | Some deepMap =>
      DeepReferenceTracker.totalReferences stats
      = length (dm_flattenedRefs deepMap)
      /\ (forall depth,
            DeepReferenceTracker.referencesByDepth stats !! depth
            = if (nodesAtDepth depth (dm_flattenedRefs deepMap) =? 0)%nat
              then None
              else Some (nodesAtDepth depth (dm_flattenedRefs deepMap)))
      /\ sumOfCounts (DeepReferenceTracker.referencesByDepth stats)
         = DeepReferenceTracker.totalReferences stats
  | None =>
      stats
      = DeepReferenceTracker.mkStatistics 0 ∅ "never"
          (DeepReferenceTracker.maxDepth tracker)
  end.
Proof.
  intros stats. subst stats.
  unfold DeepReferenceTracker.getReferenceStatistics.
  destruct (DeepReferenceTracker.getStoredDeepReferenceMap contentful w s t)
    as [deepMap|]; [|reflexivity].
  cbn [DeepReferenceTracker.totalReferences
         DeepReferenceTracker.referencesByDepth].
  unfold DeepReferenceTracker.countByDepth.
  split; [reflexivity|]. split.
  - intros depth. rewrite count_lookup. rewrite lookup_empty. reflexivity.
  - rewrite sumOfCounts_fold. reflexivity.
Qed.

(** ** Storing and finding a relationship (incrementalTranslationService.js) *)

Section RelationshipRoundTrip.

Import IncrementalService.

Lemma getRelationshipMetadata_down (w : World) (s t : string) :
  w_metadataTypeInstalled w = false ->
  ContentfulMetadataService.getRelationshipMetadata w s t = None.
Proof.
  intros Hdown.
  unfold ContentfulMetadataService.getRelationshipMetadata,
    ContentfulMetadataService.findRelationshipMetadata.
  now rewrite Hdown.
Qed.

(** What [getRelationship] answers once the file of the pair holds a valid
    record and the CMS backend has none or is not in use. *)
Lemma getRelationship_from_file (svc : Service) (w : World) (s t : string)
    (data : Relationship) :
  contentfulMetadataService svc = false
  \/ ContentfulMetadataService.getRelationshipMetadata w s t = None ->
  w_files w !! relationshipFile s t = Some (RelationshipFile data) ->
  validRelationshipFile (RelationshipFile data) = Some data ->
  getRelationship svc w s t = Some data.
Proof.
  intros Hprimary Hfile Hvalid. unfold getRelationship.
  rewrite Hfile, Hvalid.
  destruct Hprimary as [-> | ->];
    [reflexivity | destruct (contentfulMetadataService svc); reflexivity].
Qed.

Lemma getRelationship_from_cms (svc : Service) (w : World) (s t : string)
    (data : Relationship) :
  contentfulMetadataService svc = true ->
  ContentfulMetadataService.getRelationshipMetadata w s t = Some data ->
  getRelationship svc w s t = Some data.
Proof. intros Hcms Hget. unfold getRelationship. now rewrite Hcms, Hget. Qed.

End RelationshipRoundTrip.

(** X11. A relationship that was stored for a pair is found for the pair, on
    whichever backend it ended: the record found carries the ids of the
    pair, the version, the translation context, the field hashes and the
    clone mapping that were stored, and the time of the call as
    [lastUpdated]. The version must not be 0: the file validation refuses
    such a record. *)
Theorem stored_relationship_is_found (svc : IncrementalService.Service)
    (w : World) (now s t : string) (version : Z) (ctx : TranslationContext)
    (hashes mapping : list (string * string)) :
  version <> 0%Z ->
  exists found metadata,
    IncrementalService.getRelationship svc
      (IncrementalService.createOrUpdateRelationship svc w now s t version ctx
         hashes mapping) s t
    = Some found
    /\ r_sourceEntryId found = s /\ r_targetEntryId found = t
    /\ r_metadata found = Some metadata
    /\ lastTranslatedVersion metadata = Some version
    /\ lastUpdated metadata = now
    /\ r_translationContext found = ctx
    /\ r_fieldHashes found = hashes
    /\ r_cloneMapping found = mapping.
Proof.
  intros Hversion.
  assert (Hvalid : forall created,
    IncrementalService.validRelationshipFile
      (RelationshipFile
         (mkRelationship s t (Some (mkMetadata (Some version) now created))
            ctx hashes mapping None None))
    = Some (mkRelationship s t (Some (mkMetadata (Some version) now created))
              ctx hashes mapping None None)).
  { intros created. simpl. apply Z.eqb_neq in Hversion. now rewrite Hversion. }
  assert (Hfile : forall w0,
    IncrementalService.contentfulMetadataService svc = false
    \/ w_metadataTypeInstalled w0 = false ->
    exists found metadata,
      IncrementalService.getRelationship svc
        (writeFile w0 (IncrementalService.relationshipFile s t)
           (RelationshipFile
              (mkRelationship s t
                 (Some (mkMetadata (Some version) now
                          (IncrementalService.preservedCreatedAt
                             (w_files w0 !! IncrementalService.relationshipFile s t)
                             (Some now))))
                 ctx hashes mapping None None))) s t
      = Some found
      /\ r_sourceEntryId found = s /\ r_targetEntryId found = t
      /\ r_metadata found = Some metadata
      /\ lastTranslatedVersion metadata = Some version
      /\ lastUpdated metadata = now
      /\ r_translationContext found = ctx
      /\ r_fieldHashes found = hashes
      /\ r_cloneMapping found = mapping).
  { intros w0 Hprimary. eexists. eexists. split.
    - apply getRelationship_from_file; [| |apply Hvalid].
      + destruct Hprimary as [Hoff|Hdown]; [now left | right].
        now apply getRelationshipMetadata_down.
      + simpl. apply lookup_insert_eq.
    - repeat split. }
  unfold IncrementalService.createOrUpdateRelationship.
  destruct (IncrementalService.contentfulMetadataService svc) eqn:Hcms;
    [|apply Hfile; now left].
  destruct (w_metadataTypeInstalled w) eqn:Hinstalled.
  - destruct (storeRelationshipMetadata_get w s t
                (mkRelationship s t
                   (Some (mkMetadata (Some version) now (Some now)))
                   ctx hashes mapping None None) Hinstalled)
      as (w' & -> & Hget & _).
    eexists. eexists. split.
    + apply getRelationship_from_cms; [exact Hcms | exact Hget].
    + repeat split.
  - rewrite storeRelationshipMetadata_down by exact Hinstalled.
    apply Hfile. now right.
Qed.

Lemma stored_relationship_is_found_witness :
  exists found,
    IncrementalService.getRelationship readyService
      (IncrementalService.createOrUpdateRelationship readyService
         fileBackedWorld "2025-06-01T00:00:00.000Z" "S" "T" 4
         (mkTranslationContext "DE" "IT") [("title", "h1")]
         [("Entry:S", "T")]) "S" "T"
    = Some found
    /\ r_fieldHashes found = [("title", "h1")].
Proof.
  destruct (stored_relationship_is_found readyService fileBackedWorld
              "2025-06-01T00:00:00.000Z" "S" "T" 4
              (mkTranslationContext "DE" "IT") [("title", "h1")]
              [("Entry:S", "T")] ltac:(discriminate))
    as (found & metadata & Hfound & _ & _ & _ & _ & _ & _ & Hhashes & _).
  exists found. split; [exact Hfound | exact Hhashes].
Defined.

(** X12. Replacing the clone mapping of a pair that has a relationship: the
    relationship found afterwards carries the new mapping and, for the
    rest, what the relationship found before carried. Without a
    relationship nothing is written. *)
Theorem clone_mapping_update_is_found (svc : IncrementalService.Service)
    (w : World) (s t : string) (updated : list (string * string)) :
  match IncrementalService.getRelationship svc w s t with
  | Some before =>
      exists found,
        IncrementalService.getRelationship svc
          (IncrementalService.updateCloneMapping svc w s t updated) s t
        = Some found
        /\ r_cloneMapping found = updated
        /\ r_metadata found = r_metadata before
        /\ r_translationContext found = r_translationContext before
        /\ r_fieldHashes found = r_fieldHashes before
        /\ r_deepReferenceMap found = r_deepReferenceMap before
        /\ r_backupData found = r_backupData before
  | None => IncrementalService.updateCloneMapping svc w s t updated = w
  end.
Proof.
  unfold IncrementalService.updateCloneMapping.
  destruct (IncrementalService.getRelationship svc w s t) as [before|] eqn:Hbefore;
    [|reflexivity].
  destruct (IncrementalService.contentfulMetadataService svc) eqn:Hcms.
  - destruct (w_metadataTypeInstalled w) eqn:Hinstalled.
    + destruct (storeRelationshipMetadata_get w s t
                  (IncrementalService.withCloneMapping before updated)
                  Hinstalled)
        as (w' & Hstore & Hget & _).
      rewrite Hstore. cbn [snd]. eexists. split.
      * apply getRelationship_from_cms; [exact Hcms|]. exact Hget.
      * repeat split.
    + rewrite storeRelationshipMetadata_down by exact Hinstalled. cbn [snd].
      (* the relationship found before came from the file, which is valid *)
      unfold IncrementalService.getRelationship in Hbefore.
      rewrite Hcms, getRelationshipMetadata_down in Hbefore by exact Hinstalled.
      destruct (w_files w !! IncrementalService.relationshipFile s t)
        as [content|]; [|discriminate].
      assert (Hcontent : content = RelationshipFile before).
      { destruct content as [data| |]; try discriminate. simpl in Hbefore.
        destruct (r_metadata data) as [metadata|]; [|discriminate].
        destruct (lastTranslatedVersion metadata) as [version|]; [|discriminate].
        destruct (version =? 0)%Z; [discriminate|]. now injection Hbefore as <-. }
      subst content. eexists. split.
      * apply getRelationship_from_file.
        -- right. now apply getRelationshipMetadata_down.
        -- simpl. apply lookup_insert_eq.
        -- simpl in *. destruct (r_metadata before) as [metadata|];
             [|discriminate].
           destruct (lastTranslatedVersion metadata) as [version|];
             [|discriminate].
           destruct (version =? 0)%Z; [discriminate | reflexivity].
      * repeat split.
  - unfold IncrementalService.getRelationship in Hbefore. rewrite Hcms in Hbefore.
    destruct (w_files w !! IncrementalService.relationshipFile s t)
      as [content|]; [|discriminate].
    assert (Hcontent : content = RelationshipFile before).
    { destruct content as [data| |]; try discriminate. simpl in Hbefore.
      destruct (r_metadata data) as [metadata|]; [|discriminate].
      destruct (lastTranslatedVersion metadata) as [version|]; [|discriminate].
      destruct (version =? 0)%Z; [discriminate|]. now injection Hbefore as <-. }
    subst content. eexists. split.
    + apply getRelationship_from_file.
      * now left.
      * simpl. apply lookup_insert_eq.
      * simpl in *. destruct (r_metadata before) as [metadata|];
          [|discriminate].
        destruct (lastTranslatedVersion metadata) as [version|];
          [|discriminate].
        destruct (version =? 0)%Z; [discriminate | reflexivity].
    + repeat split.
Qed.

(** ** The metadata of a new translation pair
    (incrementalTranslationService.js) *)

Lemma createTranslationMetadata_stores (sha256Json : Value -> string)
    (svc : IncrementalService.Service) (w : World)
    (now s t sourceLanguage targetLanguage : string)
    (mapping : list (string * string)) (sourceEntry targetEntry : Entry) :
  w_entries w !! s = Some sourceEntry ->
  w_entries w !! t = Some targetEntry ->
  sys_version sourceEntry <> 0%Z ->
  exists w' found snapshot before,
    IncrementalService.createTranslationMetadata sha256Json svc w now s t
      sourceLanguage targetLanguage mapping
    = (Ok (mkRelationship s t
             (Some (mkMetadata (Some (sys_version sourceEntry)) now (Some now)))
             (mkTranslationContext sourceLanguage targetLanguage)
             (IncrementalService.generateFieldHashes sha256Json sourceEntry)
             mapping None None),
       IncrementalService.initializeDeepTrackingAsync
         (IncrementalService.initialize svc) 3 true,
       w')
    /\ IncrementalService.getRelationship
         (IncrementalService.initializeDeepTrackingAsync
            (IncrementalService.initialize svc) 3 true) w' s t
       = Some found
    /\ r_metadata found
       = Some (mkMetadata (Some (sys_version sourceEntry)) now (Some now))
    /\ r_translationContext found
       = mkTranslationContext sourceLanguage targetLanguage
    /\ r_fieldHashes found
       = IncrementalService.generateFieldHashes sha256Json sourceEntry
    /\ r_cloneMapping found = mapping
    /\ DeepReferenceTracker.getStoredDeepReferenceMap true w' s t
       = Some snapshot
    /\ w_entries w' = w_entries w
    /\ w_entries before = w_entries w
    /\ DeepReferenceTracker.buildCurrentReferenceMapForComparison sha256Json
         (DeepReferenceTracker.mkTracker 3 true) before now s t
       = Ok snapshot.
Proof.
  intros Hsource Htarget Hversion.
  unfold IncrementalService.createTranslationMetadata, fetchEntry.
  rewrite Hsource, Htarget.
  set (data :=
    mkRelationship s t
      (Some (mkMetadata (Some (sys_version sourceEntry)) now (Some now)))
      (mkTranslationContext sourceLanguage targetLanguage)
      (IncrementalService.generateFieldHashes sha256Json sourceEntry)
      mapping None None).
  cbn [IncrementalService.initialize
         IncrementalService.contentfulMetadataService].
  set (w1 :=
    snd (ContentfulMetadataService.storeRelationshipMetadata w s t data)).
  set (w2 := writeFile w1 (IncrementalService.relationshipFile s t)
               (RelationshipFile data)).
  unfold IncrementalService.initializeDeepReferenceTracking.
  cbn [IncrementalService.initializeDeepTrackingAsync
         IncrementalService.cds_deepReferenceTracker
         IncrementalService.contentfulMetadataService].
  unfold DeepReferenceTracker.buildDeepReferenceMap.
  assert (Hentries : w_entries w2 = w_entries w).
  { unfold w2, w1, ContentfulMetadataService.storeRelationshipMetadata.
    destruct (ContentfulMetadataService.findRelationshipMetadata w s t);
      [reflexivity|].
    destruct (w_metadataTypeInstalled w); reflexivity. }
  assert (Hsource2 : w_entries w2 !! s = Some sourceEntry)
    by now rewrite Hentries.
  destruct (buildCurrentReferenceMapForComparison_returns sha256Json
              (DeepReferenceTracker.mkTracker
                 (DeepReferenceTracker.maxDepthOption
                    (DeepReferenceTracker.maxDepthOption 3)) true)
              w2 now s t sourceEntry Hsource2) as [tree Hbuild].
  rewrite Hbuild. cbn [snd].
  set (snapshot := mkDeepMap s t _ now tree _) in *.
  set (w3 := DeepReferenceTracker.storeDeepReferenceMap now true w2 s t snapshot).
  assert (Hsnapshot :
    DeepReferenceTracker.getStoredDeepReferenceMap true w3 s t = Some snapshot)
    by apply storeDeepReferenceMap_get.
  assert (Hfound : exists found,
    IncrementalService.getRelationship
      (IncrementalService.mkService (IncrementalService.deeplApiKey svc) true
         (IncrementalService.deepReferenceTracker svc)
         (Some (DeepReferenceTracker.mkTracker
                  (DeepReferenceTracker.maxDepthOption
                     (DeepReferenceTracker.maxDepthOption 3)) true)))
      w3 s t = Some found
    /\ r_metadata found = r_metadata data
    /\ r_translationContext found = r_translationContext data
    /\ r_fieldHashes found = r_fieldHashes data
    /\ r_cloneMapping found = r_cloneMapping data).
  { destruct (w_metadataTypeInstalled w) eqn:Hinstalled.
    - destruct (storeRelationshipMetadata_get w s t data Hinstalled)
        as (w' & Hstore & Hget & Hinstalled' & _).
      assert (Hw1 : w1 = w') by (unfold w1; now rewrite Hstore).
      assert (Hget2 :
        ContentfulMetadataService.getRelationshipMetadata w2 s t
        = Some (ContentfulMetadataService.storedFields s t data))
        by (unfold w2; rewrite Hw1; exact Hget).
      assert (Hinstalled2 : w_metadataTypeInstalled w2 = true)
        by (unfold w2; rewrite Hw1; exact Hinstalled').
      destruct (storeRelationshipMetadata_get w2 s t
                  (withDeepReferenceMap
                     (ContentfulMetadataService.storedFields s t data) snapshot)
                  Hinstalled2) as (w4 & Hstore4 & Hget4 & _).
      assert (Hw3 : w3 = w4).
      { unfold w3, DeepReferenceTracker.storeDeepReferenceMap,
          ContentfulMetadataService.storeDeepReferenceMap.
        rewrite Hget2. now rewrite Hstore4. }
      eexists. split.
      + apply getRelationship_from_cms; [reflexivity|]. rewrite Hw3. exact Hget4.
      + repeat split.
    - assert (Hw1 : w1 = w).
      { unfold w1. now rewrite storeRelationshipMetadata_down. }
      assert (Hdown2 : w_metadataTypeInstalled w2 = false)
        by (unfold w2; rewrite Hw1; exact Hinstalled).
      assert (Hw3 : w3 = writeFile w2 (DeepReferenceTracker.deepRefsFile s t)
                          (DeepRefsFile snapshot)).
      { unfold w3, DeepReferenceTracker.storeDeepReferenceMap,
          ContentfulMetadataService.storeDeepReferenceMap.
        rewrite getRelationshipMetadata_down by exact Hdown2.
        now rewrite storeRelationshipMetadata_down. }
      exists data. split; [|repeat split].
      apply getRelationship_from_file.
      + right. apply getRelationshipMetadata_down. rewrite Hw3. exact Hdown2.
      + rewrite Hw3. simpl.
        rewrite lookup_insert_ne
          by (apply not_eq_sym, relationshipFile_not_deepRefsFile).
        apply lookup_insert_eq.
      + simpl. apply Z.eqb_neq in Hversion. now rewrite Hversion. }
  destruct Hfound as (found & Hfound & Hm & Hc & Hh & Hmap).
  exists w3, found, snapshot, w2.
  split; [reflexivity|]. split; [exact Hfound|].
  split; [exact Hm|]. split; [exact Hc|]. split; [exact Hh|].
  split; [exact Hmap|]. split; [exact Hsnapshot|].
  split; [unfold w3; now rewrite storeDeepReferenceMap_entries|].
  split; [exact Hentries | exact Hbuild].
Qed.

(** X13. After [createTranslationMetadata] for a source and a target entry that
    can be fetched, the pair has a relationship that is found, with the
    version of the source entry, the languages, the hashes of its
    translatable fields and the clone mapping handed in; and a snapshot of
    the reference tree is stored for the pair. The version of the source
    entry must not be 0: when the CMS backend fails the record lies in a
    file, whose validation refuses such a version. *)
Theorem translation_metadata_is_found (sha256Json : Value -> string)
    (svc : IncrementalService.Service) (w : World)
    (now s t sourceLanguage targetLanguage : string)
    (mapping : list (string * string)) (sourceEntry targetEntry : Entry) :
  w_entries w !! s = Some sourceEntry ->
  w_entries w !! t = Some targetEntry ->
  sys_version sourceEntry <> 0%Z ->
  exists svc' w' found snapshot,
    IncrementalService.createTranslationMetadata sha256Json svc w now s t
      sourceLanguage targetLanguage mapping
    = (Ok (mkRelationship s t
             (Some (mkMetadata (Some (sys_version sourceEntry)) now (Some now)))
             (mkTranslationContext sourceLanguage targetLanguage)
             (IncrementalService.generateFieldHashes sha256Json sourceEntry)
             mapping None None),
       svc', w')
    /\ IncrementalService.getRelationship svc' w' s t = Some found
    /\ r_metadata found
       = Some (mkMetadata (Some (sys_version sourceEntry)) now (Some now))
    /\ r_translationContext found
       = mkTranslationContext sourceLanguage targetLanguage
    /\ r_fieldHashes found
       = IncrementalService.generateFieldHashes sha256Json sourceEntry
    /\ r_cloneMapping found = mapping
    /\ DeepReferenceTracker.getStoredDeepReferenceMap true w' s t
       = Some snapshot
    /\ dm_sourceEntryId snapshot = s /\ dm_lastScanned snapshot = now.
Proof.
  intros Hsource Htarget Hversion.
  destruct (createTranslationMetadata_stores sha256Json svc w now s t
              sourceLanguage targetLanguage mapping sourceEntry targetEntry
              Hsource Htarget Hversion)
    as (w' & found & snapshot & before & Hrun & Hfound & Hm & Hc & Hh & Hmap
        & Hsnapshot & _ & Hbefore & Hbuild).
  eexists. exists w', found, snapshot.
  split; [exact Hrun|]. split; [exact Hfound|].
  split; [exact Hm|]. split; [exact Hc|]. split; [exact Hh|].
  split; [exact Hmap|]. split; [exact Hsnapshot|].
  assert (Hsource' : w_entries before !! s = Some sourceEntry)
    by now rewrite Hbefore.
  destruct (buildCurrentReferenceMapForComparison_returns sha256Json
              (DeepReferenceTracker.mkTracker 3 true) before now s t
              sourceEntry Hsource') as [tree Hbuild'].
  rewrite Hbuild in Hbuild'. injection Hbuild' as ->. split; reflexivity.
Qed.

Lemma translation_metadata_is_found_witness :
  exists data svc' w' found,
    IncrementalService.createTranslationMetadata renderJson readyService
      freshPairWorld "2025-06-01T00:00:00.000Z" "S" "T" "DE" "IT"
      [("Entry:S", "T")]
    = (Ok data, svc', w')
    /\ IncrementalService.getRelationship svc' w' "S" "T" = Some found
    /\ r_fieldHashes found = r_fieldHashes data
    /\ r_cloneMapping found = [("Entry:S", "T")].
Proof.
  destruct (translation_metadata_is_found renderJson readyService
              freshPairWorld "2025-06-01T00:00:00.000Z" "S" "T" "DE" "IT"
              [("Entry:S", "T")] (pageEntry 3 ["E1"])
              (textEntry "T" 1 "Benvenuti") eq_refl eq_refl
              ltac:(discriminate))
    as (svc' & w' & found & snapshot & Hrun & Hfound & _ & _ & Hhashes
        & Hmapping & _).
  eexists. exists svc', w', found.
  split; [exact Hrun|]. split; [exact Hfound|].
  split; [exact Hhashes | exact Hmapping].
Defined.

(** ** Objects built in a loop *)

Lemma lookupProp_app {A} (k : string) (props more : list (string * A)) :
  lookupProp k (props ++ more)
  = match lookupProp k props with
    | Some v => Some v
    | None => lookupProp k more
    end.
Proof.
  induction props as [|[k' v'] rest IH]; simpl; [reflexivity|].
  destruct (String.eqb k k'); [reflexivity | exact IH].
Qed.

Lemma setProp_fresh {A} (k : string) (v : A) (props : list (string * A)) :
  lookupProp k props = None -> setProp k v props = (props ++ [(k, v)])%list.
Proof.
  induction props as [|[k' v'] rest IH]; simpl; [reflexivity|].
  destruct (String.eqb k k'); [discriminate|].
  intros Hnone. now rewrite IH.
Qed.

(** A loop that sets the property of every selected pair, over pairs with
    keys of their own that the object does not have yet, appends them in
    the order of the loop. *)
Lemma fold_setProp_filter {A B} (selected : string * A -> bool)
    (g : string * A -> B) (l : list (string * A)) :
  forall acc : list (string * B),
    NoDup (map fst l) ->
    (forall k, In k (map fst l) -> lookupProp k acc = None) ->
    fold_left
      (fun acc kv => if selected kv then setProp (fst kv) (g kv) acc else acc)
      l acc
    = (acc ++ map (fun kv => (fst kv, g kv)) (List.filter selected l))%list.
Proof.
  induction l as [|[k v] rest IH]; intros acc Hnodup Hfresh; simpl.
  - now rewrite app_nil_r.
  - simpl in Hnodup. apply NoDup_cons in Hnodup as [Hk Hnodup].
    destruct (selected (k, v)); simpl.
    + rewrite setProp_fresh by (apply Hfresh; now left).
      rewrite IH; [now rewrite <- app_assoc | exact Hnodup|].
      intros k' Hin. rewrite lookupProp_app.
      rewrite Hfresh by (now right). simpl.
      destruct (String.eqb_spec k' k) as [->|_]; [|reflexivity].
      exfalso. now apply Hk, list_elem_of_In.
    + apply IH; [exact Hnodup|]. intros k' Hin. apply Hfresh. now right.
Qed.

Lemma filter_all {A} (l : list A) : List.filter (fun _ => true) l = l.
Proof. induction l as [|x l IH]; simpl; congruence. Qed.

Lemma foldO_pure {A B} (f : A -> B -> Outcome A) (h : A -> B -> A)
    (l : list B) :
  (forall a b, f a b = Ok (h a b)) ->
  forall a, foldO f l a = Ok (fold_left h l a).
Proof.
  intros Hf. induction l as [|b l IH]; intros a; simpl; [reflexivity|].
  rewrite Hf. simpl. apply IH.
Qed.

Lemma lookupProp_map {A B} (g : string * A -> B) (l : list (string * A))
    (k : string) (v : A) :
  NoDup (map fst l) -> In (k, v) l ->
  lookupProp k (map (fun kv => (fst kv, g kv)) l) = Some (g (k, v)).
Proof.
  intros Hnodup Hin. apply lookupProp_NoDup.
  - now rewrite map_map.
  - apply in_map_iff. now exists (k, v).
Qed.

(** The loop over the pairs of an object with keys of their own builds an
    object with the same keys in the same order. *)
Lemma foldO_setProp {A B} (f : list (string * B) -> string * A
                                -> Outcome (list (string * B)))
    (g : string * A -> B) (l : list (string * A)) :
  (forall acc kv, f acc kv = Ok (setProp (fst kv) (g kv) acc)) ->
  NoDup (map fst l) ->
  foldO f l [] = Ok (map (fun kv => (fst kv, g kv)) l).
Proof.
  intros Hf Hnodup.
  rewrite (foldO_pure f (fun acc kv => setProp (fst kv) (g kv) acc) l Hf).
  rewrite (fold_setProp_filter (fun _ => true) g l [] Hnodup)
    by reflexivity.
  now rewrite filter_all.
Qed.

(** ** Translation of new content (incrementalTranslationService.js) *)

Section NewContent.

Import IncrementalService.

Variable svc : Service.
Variable deepl : Translator.
Variable ctx : TranslationContext.

Lemma translateFieldValue_step (translatedValue : LocaleMap)
    (kv : string * Value) :
  (let (locale, content) := kv in
   match content with
   | VStr text =>
       if (0 <? String.length (Js.trim text))%nat then
         bindO (translateText svc deepl text ctx)
           (fun translated =>
              Ok (setProp locale (VStr translated) translatedValue))
       else Ok (setProp locale content translatedValue)
   | _ => Ok (setProp locale content translatedValue)
   end)
  = Ok (setProp (fst kv)
          (match snd kv with
           | VStr text => VStr (resultOr text (translateText svc deepl text ctx))
           | other => other
           end)
          translatedValue).
Proof.
  destruct kv as [locale content]. destruct content; try reflexivity.
  cbn [fst snd].
  destruct (0 <? String.length (Js.trim s))%nat eqn:Hblank.
  - destruct (incremental_translateText_returns svc deepl s ctx) as [r ->].
    reflexivity.
  - unfold translateText.
    replace (Js.truthyStr (Js.trim s)) with false;
      [now rewrite orb_true_r|].
    apply Nat.ltb_ge in Hblank.
    destruct (Js.trim s); [reflexivity | simpl in Hblank; lia].
Qed.

Lemma translateFieldValue_map (fieldValue : LocaleMap) :
  NoDup (map fst fieldValue) ->
  translateFieldValue svc deepl fieldValue ctx
  = Ok (map
          (fun kv =>
             (fst kv,
              match snd kv with
              | VStr text =>
                  VStr (resultOr text (translateText svc deepl text ctx))
              | other => other
              end))
          fieldValue).
Proof.
  intros Hnodup. unfold translateFieldValue.
  apply (foldO_setProp _
           (fun kv : string * Value =>
              match snd kv with
              | VStr text =>
                  VStr (resultOr text (translateText svc deepl text ctx))
              | other => other
              end)); [|exact Hnodup].
  intros acc kv. apply translateFieldValue_step.
Qed.

Lemma translateFieldValue_returns (fieldValue : LocaleMap) :
  exists translated,
    translateFieldValue svc deepl fieldValue ctx = Ok translated.
Proof.
  unfold translateFieldValue. apply foldO_returns.
  intros acc kv. rewrite translateFieldValue_step. eauto.
Qed.

End NewContent.

(** X14. The translation of a localized value never fails. When the locales of
    the value are distinct (and none is a name that every object inherits),
    the result has the same locales in the same order; a string is replaced by what the text translation returns for it
    (the string itself when it is blank or the provider fails), and every
    other content is copied as it is. *)
Theorem field_translation_touches_strings_only
    (svc : IncrementalService.Service) (deepl : Translator)
    (ctx : TranslationContext) (fieldValue : LocaleMap) :
  NoDup (map fst fieldValue) ->
  forallb ownName (map fst fieldValue) = true ->
  exists translated,
    IncrementalService.translateFieldValue svc deepl fieldValue ctx
    = Ok translated
    /\ map fst translated = map fst fieldValue
    /\ forall locale content,
         In (locale, content) fieldValue ->
         lookupProp locale translated
         = Some match content with
                | VStr text =>
                    VStr (resultOr text
                            (IncrementalService.translateText svc deepl text
                               ctx))
                | other => other
                end.
Proof.
  intros Hnodup _. rewrite translateFieldValue_map by exact Hnodup.
  eexists. split; [reflexivity|].
  split; [now rewrite map_map|].
  intros locale content Hin.
  rewrite (lookupProp_map _ fieldValue locale content Hnodup Hin).
  now destruct content.
Qed.

Lemma field_translation_touches_strings_only_witness :
  IncrementalService.translateFieldValue readyService echoTranslator
    [("en-US-POSIX", VStr "Mehr lesen"); ("de-DE", VLink "Entry" "E1")]
    (mkTranslationContext "DE" "IT")
  = Ok [("en-US-POSIX", VStr "<Mehr lesen>"); ("de-DE", VLink "Entry" "E1")].
Proof.
  destruct (field_translation_touches_strings_only readyService echoTranslator
              (mkTranslationContext "DE" "IT")
              [("en-US-POSIX", VStr "Mehr lesen");
               ("de-DE", VLink "Entry" "E1")])
    as (translated & Hrun & _).
  - apply (bool_decide_unpack _). vm_compute. reflexivity.
  - reflexivity.
  - rewrite Hrun. vm_compute in Hrun. injection Hrun as <-. reflexivity.
Defined.

(** X15. The fields of a new copy: the loop never fails. When the fields of the
    source have names of their own (none of them, and not the target
    language, a name that every object inherits), the copy has the same
    fields in the same order; the field [culture] holds the culture of the target language
    under the first locale of the source value, a translatable field holds
    its translation, and every other field (a reference, a number, a field
    of the skip list) is copied as it is. *)
Theorem new_copy_has_the_fields_of_its_source
    (svc : IncrementalService.Service) (deepl : Translator)
    (ctx : TranslationContext) (sourceFields : list (string * LocaleMap)) :
  NoDup (map fst sourceFields) ->
  forallb ownName (tc_targetLanguage ctx :: map fst sourceFields) = true ->
  exists copied,
    IncrementalService.translateEntryFields svc deepl sourceFields ctx
    = Ok copied
    /\ map fst copied = map fst sourceFields
    /\ forall fieldName fieldValue,
         In (fieldName, fieldValue) sourceFields ->
         lookupProp fieldName copied
         = Some
             (if String.eqb fieldName "culture" then
                [(IncrementalService.firstLocale fieldValue,
                  VStr (IncrementalService.getCultureValueFromTargetLanguage
                          (tc_targetLanguage ctx)))]
              else if IncrementalService.isTranslatableField fieldName
                        (fieldObject fieldValue)
              then resultOr fieldValue
                     (IncrementalService.translateFieldValue svc deepl
                        fieldValue ctx)
              else fieldValue).
Proof.
  intros Hnodup _.
  set (g := fun kv : string * LocaleMap =>
    if String.eqb (fst kv) "culture" then
      [(IncrementalService.firstLocale (snd kv),
        VStr (IncrementalService.getCultureValueFromTargetLanguage
                (tc_targetLanguage ctx)))]
    else if IncrementalService.isTranslatableField (fst kv)
              (fieldObject (snd kv))
    then resultOr (snd kv)
           (IncrementalService.translateFieldValue svc deepl (snd kv) ctx)
    else snd kv).
  assert (Hrun :
    IncrementalService.translateEntryFields svc deepl sourceFields ctx
    = Ok (map (fun kv => (fst kv, g kv)) sourceFields)).
  { unfold IncrementalService.translateEntryFields.
    apply foldO_setProp; [|exact Hnodup].
    intros acc [fieldName fieldValue]. unfold g. cbn [fst snd].
    destruct (String.eqb fieldName "culture"); [reflexivity|].
    destruct (IncrementalService.isTranslatableField fieldName _);
      [|reflexivity].
    destruct (translateFieldValue_returns svc deepl ctx fieldValue)
      as [translated ->].
    reflexivity. }
  rewrite Hrun. exists (map (fun kv => (fst kv, g kv)) sourceFields).
  split; [reflexivity|].
  split; [now rewrite map_map|].
  intros fieldName fieldValue Hin.
  exact (lookupProp_map g sourceFields fieldName fieldValue Hnodup Hin).
Qed.

Lemma new_copy_has_the_fields_of_its_source_witness :
  IncrementalService.translateEntryFields readyService echoTranslator
    [("title", [("en-US-POSIX", VStr "Willkommen")]);
     ("culture", [("en-US-POSIX", VStr "de-DE")]);
     ("elements", [("en-US-POSIX", VArr [VLink "Entry" "E1"])])]
    (mkTranslationContext "DE" "IT")
  = Ok [("title", [("en-US-POSIX", VStr "<Willkommen>")]);
        ("culture", [("en-US-POSIX", VStr "it-IT")]);
        ("elements", [("en-US-POSIX", VArr [VLink "Entry" "E1"])])].
Proof.
  destruct (new_copy_has_the_fields_of_its_source readyService echoTranslator
              (mkTranslationContext "DE" "IT")
              [("title", [("en-US-POSIX", VStr "Willkommen")]);
               ("culture", [("en-US-POSIX", VStr "de-DE")]);
               ("elements", [("en-US-POSIX", VArr [VLink "Entry" "E1"])])])
    as (copied & Hrun & _).
  - apply (bool_decide_unpack _). vm_compute. reflexivity.
  - reflexivity.
  - rewrite Hrun. vm_compute in Hrun. injection Hrun as <-. reflexivity.
Defined.

(** ** A changed text field (incrementalTranslationService.js) *)

(** X16. The update of the target for a changed text field, whose name is not
    one that every object inherits, never fails and writes at most one
    value: every other field of the target, and every
    other locale of the field, is what it was. When the new value has a
    text that is not blank under [en-US-POSIX] (or, without anything there,
    under its first locale), the field holds under [en-US-POSIX] what the
    text translation returns for it; otherwise nothing is written. *)
Theorem text_change_writes_one_locale (svc : IncrementalService.Service)
    (deepl : Translator) (ctx : TranslationContext)
    (targetFields : list (string * LocaleMap)) (fieldName : string)
    (newValue : option LocaleMap) :
  ownName fieldName = true ->
  exists updated,
    IncrementalService.handleBasicFieldChange svc deepl targetFields fieldName
      newValue ctx
    = Ok updated
    /\ (forall other, other <> fieldName ->
          lookupProp other updated = lookupProp other targetFields)
    /\ (forall locale, locale <> "en-US-POSIX" ->
          localeValue updated fieldName locale
          = localeValue targetFields fieldName locale)
    /\ match IncrementalService.textToTranslateOf <$> newValue with
       | Some (VStr text) =>
           if (0 <? String.length (Js.trim text))%nat
           then localeValue updated fieldName "en-US-POSIX"
                = Some (VStr (resultOr text
                                (IncrementalService.translateText svc deepl
                                   text ctx)))
           else updated = targetFields
       | _ => updated = targetFields
       end.
Proof.
  intros _. unfold IncrementalService.handleBasicFieldChange.
  destruct newValue as [localized|]; cbn [fmap option_fmap option_map];
    [|now exists targetFields].
  destruct (IncrementalService.textToTranslateOf localized);
    try (now exists targetFields).
  destruct (0 <? String.length (Js.trim s))%nat eqn:Htext.
  - assert (Hgo : negb (Js.truthyStr s)
                  || (String.length (Js.trim s) =? 0)%nat = false).
    { apply Nat.ltb_lt in Htext. apply orb_false_intro.
      - destruct s; [simpl in Htext; lia | reflexivity].
      - apply Nat.eqb_neq. lia. }
    rewrite Hgo.
    destruct (incremental_translateText_returns svc deepl s ctx)
      as [translated ->].
    cbn [bindO resultOr]. eexists. split; [reflexivity|].
    split; [|split].
    + intros other Hother. now apply lookupProp_setProp_ne.
    + intros locale Hlocale. unfold localeValue.
      rewrite lookupProp_setProp_eq.
      rewrite lookupProp_setProp_ne by exact Hlocale.
      now destruct (lookupProp fieldName targetFields).
    + unfold localeValue. rewrite lookupProp_setProp_eq.
      apply lookupProp_setProp_eq.
  - assert (Hstop : negb (Js.truthyStr s)
                    || (String.length (Js.trim s) =? 0)%nat = true).
    { apply Nat.ltb_ge in Htext. apply orb_true_intro. right.
      apply Nat.eqb_eq. lia. }
    rewrite Hstop. now exists targetFields.
Qed.

Lemma text_change_writes_one_locale_witness :
  IncrementalService.handleBasicFieldChange readyService echoTranslator
    [("title", [("en-US-POSIX", VStr "Welcome"); ("de-DE", VStr "Willkommen")])]
    "title" (Some [("en-US-POSIX", VStr "Hallo")])
    (mkTranslationContext "DE" "IT")
  = Ok [("title", [("en-US-POSIX", VStr "<Hallo>");
                   ("de-DE", VStr "Willkommen")])].
Proof.
  destruct (text_change_writes_one_locale readyService echoTranslator
              (mkTranslationContext "DE" "IT")
              [("title", [("en-US-POSIX", VStr "Welcome");
                          ("de-DE", VStr "Willkommen")])]
              "title" (Some [("en-US-POSIX", VStr "Hallo")]) eq_refl)
    as (updated & Hrun & _).
  rewrite Hrun. vm_compute in Hrun. injection Hrun as <-. reflexivity.
Defined.

(** ** Changed fields (changeDetectionService.js) *)

Lemma lookupProp_In {A} (k : string) (v : A) (props : list (string * A)) :
  lookupProp k props = Some v -> In (k, v) props.
Proof.
  induction props as [|[k' v'] rest IH]; simpl; [discriminate|].
  destruct (String.eqb_spec k k') as [->|_].
  - intros [= ->]. now left.
  - intros Hrest. right. now apply IH.
Qed.

Lemma lookupProp_filter_map {A B} (selected : string * A -> bool)
    (g : string * A -> B) (l : list (string * A)) (k : string) :
  NoDup (map fst l) ->
  lookupProp k (map (fun kv => (fst kv, g kv)) (List.filter selected l))
  = match lookupProp k l with
    | Some v => if selected (k, v) then Some (g (k, v)) else None
    | None => None
    end.
Proof.
  induction l as [|[k' v'] rest IH]; simpl; intros Hnodup; [reflexivity|].
  apply NoDup_cons in Hnodup as [Hk Hnodup].
  destruct (String.eqb_spec k k') as [->|Hne].
  - destruct (selected (k', v')); simpl; [now rewrite String.eqb_refl|].
    rewrite IH by exact Hnodup.
    destruct (lookupProp k' rest) as [v|] eqn:Hrest; [|reflexivity].
    exfalso. apply Hk, list_elem_of_In, in_map_iff.
    exists (k', v). split; [reflexivity | now apply lookupProp_In].
  - destruct (selected (k', v')); simpl; [|now apply IH].
    destruct (String.eqb_spec k k') as [->|_]; [congruence | now apply IH].
Qed.

Lemma or_iff_both (A B C D : Prop) :
  (A <-> C) -> (B <-> D) -> (A \/ B <-> C \/ D).
Proof. tauto. Qed.

Section FieldChanges.

Variable sha256Json : Value -> string.
Variable sourceEntry : Entry.

Hypothesis named : NoDup (map fst (fields sourceEntry)).

Lemma cds_generateFieldHashes_map :
  ChangeDetectionService.generateFieldHashes sha256Json sourceEntry
  = map (fun kv => (fst kv, sha256Json (fieldObject (snd kv))))
      (List.filter
         (fun kv =>
            ChangeDetectionService.isTranslatableField (fst kv)
              (fieldObject (snd kv)))
         (fields sourceEntry)).
Proof.
  unfold ChangeDetectionService.generateFieldHashes,
    ChangeDetectionService.generateFieldHash.
  now rewrite (fold_setProp_filter
                 (fun kv : string * LocaleMap =>
                    ChangeDetectionService.isTranslatableField (fst kv)
                      (fieldObject (snd kv)))
                 (fun kv => sha256Json (fieldObject (snd kv)))
                 (fields sourceEntry) [] named).
Qed.

Lemma incremental_generateFieldHashes_map :
  IncrementalService.generateFieldHashes sha256Json sourceEntry
  = map (fun kv => (fst kv, sha256Json (fieldObject (snd kv))))
      (List.filter
         (fun kv =>
            IncrementalService.isTranslatableField (fst kv)
              (fieldObject (snd kv)))
         (fields sourceEntry)).
Proof.
  unfold IncrementalService.generateFieldHashes.
  now rewrite (fold_setProp_filter
                 (fun kv : string * LocaleMap =>
                    IncrementalService.isTranslatableField (fst kv)
                      (fieldObject (snd kv)))
                 (fun kv => sha256Json (fieldObject (snd kv)))
                 (fields sourceEntry) [] named).
Qed.

Lemma lookup_current_hash (fieldName : string) :
  lookupProp fieldName
    (ChangeDetectionService.generateFieldHashes sha256Json sourceEntry)
  = hashOfField sha256Json sourceEntry fieldName.
Proof.
  rewrite cds_generateFieldHashes_map.
  rewrite (lookupProp_filter_map _ _ _ _ named). reflexivity.
Qed.

Hypothesis hashed :
  forall name value,
    In (name, value) (fields sourceEntry) ->
    sha256Json (fieldObject value) <> "".

Lemma hashOfField_truthy (fieldName : string) :
  Js.truthyStr (default "" (hashOfField sha256Json sourceEntry fieldName))
  = bool_decide (is_Some (hashOfField sha256Json sourceEntry fieldName)).
Proof.
  unfold hashOfField.
  destruct (lookupProp fieldName (fields sourceEntry)) as [value|] eqn:Hfield;
    [|reflexivity].
  destruct (ChangeDetectionService.isTranslatableField _ _); [|reflexivity].
  apply lookupProp_In, hashed in Hfield.
  rewrite bool_decide_eq_true_2 by eauto.
  simpl. unfold Js.truthyStr. apply negb_true_iff.
  now apply String.eqb_neq.
Qed.

Lemma detectBasicFieldChanges_classify (relationship : option Relationship)
    (change : ChangeDetectionService.Change) :
  let stored :=
    match relationship with
    | Some r => r_fieldHashes r
    | None => []
    end in
  In change
    (ChangeDetectionService.detectBasicFieldChanges sha256Json relationship
       sourceEntry)
  <-> (exists name value,
         lookupProp name (fields sourceEntry) = Some value
         /\ ChangeDetectionService.isTranslatableField name (fieldObject value)
            = true
         /\ lookupProp name stored <> Some (sha256Json (fieldObject value))
         /\ change
            = ChangeDetectionService.mkChange name "field"
                (if Js.truthyStr (default "" (lookupProp name stored))
                 then "modified" else "added")
                (Some value) true true [] [])
      \/ (exists name,
            In name (map fst stored)
            /\ hashOfField sha256Json sourceEntry name = None
            /\ change
               = ChangeDetectionService.mkChange name "field" "deleted" None
                   false false [] []).
Proof.
  intros stored. unfold ChangeDetectionService.detectBasicFieldChanges.
  fold stored. rewrite in_app_iff. apply or_iff_both.
  - rewrite in_flat_map. split.
    + intros ([name hash] & Hcurrent & Hchange).
      rewrite cds_generateFieldHashes_map in Hcurrent.
      apply in_map_iff in Hcurrent as ([name' value] & [= -> <-] & Hkept).
      apply filter_In in Hkept as [Hfield Htranslatable].
      cbn [fst snd] in *.
      rewrite (lookupProp_NoDup _ _ _ named Hfield) in Hchange.
      rewrite Htranslatable in Hchange.
      destruct (bool_decide _) eqn:Hsame in Hchange; [contradiction|].
      apply bool_decide_eq_false in Hsame.
      destruct Hchange as [<-|[]].
      exists name, value.
      split; [now apply lookupProp_NoDup|]. split; [exact Htranslatable|].
      split; [exact Hsame | reflexivity].
    + intros (name & value & Hfield & Htranslatable & Hother & ->).
      exists (name, sha256Json (fieldObject value)). split.
      * rewrite cds_generateFieldHashes_map. apply in_map_iff.
        exists (name, value). split; [reflexivity|].
        apply filter_In. split; [now apply lookupProp_In | exact Htranslatable].
      * rewrite Hfield, Htranslatable.
        rewrite bool_decide_eq_false_2 by exact Hother. now left.
  - rewrite in_flat_map. split.
    + intros ([name hash] & Hstored & Hchange). cbn [fst] in Hchange.
      rewrite lookup_current_hash, hashOfField_truthy in Hchange.
      destruct (bool_decide _) eqn:Hcurrent in Hchange; [contradiction|].
      apply bool_decide_eq_false in Hcurrent.
      destruct Hchange as [<-|[]].
      exists name. split; [|split; [|reflexivity]].
      * apply in_map_iff. now exists (name, hash).
      * destruct (hashOfField sha256Json sourceEntry name); [|reflexivity].
        exfalso. apply Hcurrent. eauto.
    + intros (name & Hstored & Hnone & ->).
      apply in_map_iff in Hstored as ([name' hash] & Hname & Hstored).
      cbn [fst] in Hname. subst name'.
      exists (name, hash). split; [exact Hstored|]. cbn [fst].
      rewrite lookup_current_hash, Hnone. now left.
Qed.

Hypothesis plain :
  forallb (fun kv => plainField (snd kv)) (fields sourceEntry) = true.

Lemma translatable_agree (fieldName : string) (value : LocaleMap) :
  plainField value = true ->
  ChangeDetectionService.isTranslatableField fieldName (fieldObject value)
  = IncrementalService.isTranslatableField fieldName (fieldObject value).
Proof.
  unfold plainField, ChangeDetectionService.isTranslatableField,
    IncrementalService.isTranslatableField, fieldObject.
  destruct (existsb _ _); [reflexivity|].
  unfold hasLinkType, ChangeDetectionService.isLocalizedField, hasSys.
  destruct (lookupProp "sys" value); [discriminate|]. cbn [negb].
  unfold IncrementalService.hasText.
  induction value as [|[locale content] rest IH]; [reflexivity|].
  cbn [forallb existsb map fst snd]. intros Hplain.
  apply andb_true_iff in Hplain as [Hcontent Hrest].
  rewrite IH by exact Hrest.
  destruct content; try reflexivity.
  cbn [DeepReferenceTracker.isString]. now rewrite Hcontent.
Qed.

Lemma fresh_hashes_are_current :
  IncrementalService.generateFieldHashes sha256Json sourceEntry
  = ChangeDetectionService.generateFieldHashes sha256Json sourceEntry.
Proof.
  rewrite incremental_generateFieldHashes_map, cds_generateFieldHashes_map.
  f_equal. apply filter_ext_in. intros [name value] Hin. cbn [fst snd].
  symmetry. apply translatable_agree.
  rewrite forallb_forall in plain. exact (plain _ Hin).
Qed.

Lemma detectBasicFieldChanges_fresh (relationship : Relationship) :
  r_fieldHashes relationship
  = IncrementalService.generateFieldHashes sha256Json sourceEntry ->
  ChangeDetectionService.detectBasicFieldChanges sha256Json (Some relationship)
    sourceEntry
  = [].
Proof.
  intros Hstored.
  destruct (ChangeDetectionService.detectBasicFieldChanges sha256Json
              (Some relationship) sourceEntry) as [|change rest] eqn:Hchanges;
    [reflexivity|].
  exfalso.
  assert (Hin : In change
                  (ChangeDetectionService.detectBasicFieldChanges sha256Json
                     (Some relationship) sourceEntry))
    by (rewrite Hchanges; now left).
  apply detectBasicFieldChanges_classify in Hin. cbv zeta in Hin.
  rewrite Hstored, fresh_hashes_are_current in Hin.
  destruct Hin as [(name & value & Hfield & Htranslatable & Hother & _)
                  |(name & Hkey & Hnone & _)].
  - apply Hother. rewrite lookup_current_hash. unfold hashOfField.
    now rewrite Hfield, Htranslatable.
  - apply lookupProp_is_Some in Hkey as [hash Hhash].
    rewrite lookup_current_hash in Hhash. congruence.
Qed.

End FieldChanges.

(** X17. The field changes that the detection reports, for an entry whose fields
    have names of their own and hashes that are not empty (no field and no
    stored hash bears a name that every object inherits): a translatable
    field whose stored hash is not its current hash is reported, as
    modified when a hash is stored for it and as added otherwise; a stored
    hash without a translatable field of its name is reported as deleted;
    and nothing else is reported. *)
Theorem field_changes_classify_fields (sha256Json : Value -> string)
    (sourceEntry : Entry) (relationship : option Relationship)
    (change : ChangeDetectionService.Change) :
  NoDup (map fst (fields sourceEntry)) ->
  (forall name value,
     In (name, value) (fields sourceEntry) ->
     sha256Json (fieldObject value) <> "") ->
  let stored :=
    match relationship with
    | Some r => r_fieldHashes r
    | None => []
    end in
  forallb ownName (map fst (fields sourceEntry) ++ map fst stored) = true ->
  In change
    (ChangeDetectionService.detectBasicFieldChanges sha256Json relationship
       sourceEntry)
  <-> (exists name value,
         lookupProp name (fields sourceEntry) = Some value
         /\ ChangeDetectionService.isTranslatableField name (fieldObject value)
            = true
         /\ lookupProp name stored <> Some (sha256Json (fieldObject value))
         /\ change
            = ChangeDetectionService.mkChange name "field"
                (if Js.truthyStr (default "" (lookupProp name stored))
                 then "modified" else "added")
                (Some value) true true [] [])
      \/ (exists name,
            In name (map fst stored)
            /\ hashOfField sha256Json sourceEntry name = None
            /\ change
               = ChangeDetectionService.mkChange name "field" "deleted" None
                   false false [] []).
Proof.
  intros named hashed stored _.
  apply detectBasicFieldChanges_classify; assumption.
Qed.

Lemma field_changes_classify_fields_witness :
  In (ChangeDetectionService.mkChange "title" "field" "modified"
        (Some [("en-US-POSIX", VStr "Willkommen")]) true true [] [])
     (ChangeDetectionService.detectBasicFieldChanges renderJson
        (Some (mkRelationship "S" "T" None (mkTranslationContext "DE" "IT")
                 [("title", "h1"); ("teaser", "h2")] [] None None))
        (pageEntry 4 ["E1"]))
  /\ In (ChangeDetectionService.mkChange "teaser" "field" "deleted" None false
           false [] [])
        (ChangeDetectionService.detectBasicFieldChanges renderJson
           (Some (mkRelationship "S" "T" None (mkTranslationContext "DE" "IT")
                    [("title", "h1"); ("teaser", "h2")] [] None None))
           (pageEntry 4 ["E1"])).
Proof.
  assert (named : NoDup (map fst (fields (pageEntry 4 ["E1"]))))
    by (apply (bool_decide_unpack _); vm_compute; reflexivity).
  assert (hashed : forall name value,
            In (name, value) (fields (pageEntry 4 ["E1"])) ->
            renderJson (fieldObject value) <> "")
    by (intros name value _; discriminate).
  pose proof (fun change =>
    field_changes_classify_fields renderJson (pageEntry 4 ["E1"])
      (Some (mkRelationship "S" "T" None (mkTranslationContext "DE" "IT")
               [("title", "h1"); ("teaser", "h2")] [] None None))
      change named hashed eq_refl) as Hclassify.
  split; apply Hclassify.
  - left. exists "title", [("en-US-POSIX", VStr "Willkommen")].
    repeat split; try reflexivity. discriminate.
  - right. exists "teaser". repeat split; try reflexivity.
    right. now left.
Defined.

(** ** The status check after a clone (incrementalTranslationService.js) *)

(** X18. A status check after [createTranslationMetadata], with the content as
    it was, reports the pair as up to date: no changes, the version stored
    and the current version, whenever the check is made. The fields of the
    source entry have names of their own (none a name that every object
    inherits), no locale named [sys], no blank string and hashes that are
    not empty; its version is not 0. *)
Theorem check_after_clone_is_up_to_date (sha256Json : Value -> string)
    (svc : IncrementalService.Service) (w : World)
    (now later s t sourceLanguage targetLanguage : string)
    (mapping : list (string * string)) (sourceEntry targetEntry : Entry) :
  w_entries w !! s = Some sourceEntry ->
  w_entries w !! t = Some targetEntry ->
  sys_version sourceEntry <> 0%Z ->
  NoDup (map fst (fields sourceEntry)) ->
  forallb ownName (map fst (fields sourceEntry)) = true ->
  forallb (fun kv => plainField (snd kv)) (fields sourceEntry) = true ->
  (forall name value,
     In (name, value) (fields sourceEntry) ->
     sha256Json (fieldObject value) <> "") ->
  let '(_, svc', w') :=
    IncrementalService.createTranslationMetadata sha256Json svc w now s t
      sourceLanguage targetLanguage mapping in
  fst (fst (IncrementalService.checkUpdateStatus sha256Json svc' w' later s t))
  = IncrementalService.mkStatus true None false true []
      (Some (sys_version sourceEntry)) (Some (currentVersionOf sourceEntry)).
Proof.
  intros Hsource Htarget Hversion named _ plain hashed.
  destruct (createTranslationMetadata_stores sha256Json svc w now s t
              sourceLanguage targetLanguage mapping sourceEntry targetEntry
              Hsource Htarget Hversion)
    as (w' & found & snapshot & before & Hrun & Hfound & Hm & _ & Hh & _
        & Hsnapshot & Hentries & Hbefore & Hbuild).
  rewrite Hrun.
  unfold IncrementalService.checkUpdateStatus.
  rewrite Hfound. unfold fetchEntry. rewrite Hentries, Hsource, Hm.
  unfold ChangeDetectionService.detectParentFieldChanges.
  change (IncrementalService.getRelationship
            (IncrementalService.initializeDeepTrackingAsync
               (IncrementalService.initializeDeepTrackingAsync
                  (IncrementalService.initialize svc) 3 true) 3 true) w' s t)
    with (IncrementalService.getRelationship
            (IncrementalService.initializeDeepTrackingAsync
               (IncrementalService.initialize svc) 3 true) w' s t).
  rewrite Hfound.
  rewrite (detectBasicFieldChanges_fresh sha256Json sourceEntry named hashed
             plain found Hh).
  cbn [IncrementalService.initializeDeepTrackingAsync
         IncrementalService.cds_deepReferenceTracker
         IncrementalService.contentfulMetadataService
         IncrementalService.initialize].
  change (DeepReferenceTracker.maxDepthOption
            (DeepReferenceTracker.maxDepthOption 3)) with 3%nat.
  rewrite (detectDeepReferenceChanges_unchanged sha256Json
             (DeepReferenceTracker.mkTracker 3 true) true before w' now later
             s t snapshot ltac:(congruence) Hbuild Hsnapshot).
  reflexivity.
Qed.

Lemma check_after_clone_is_up_to_date_witness :
  fst (fst (let '(_, svc', w') :=
              IncrementalService.createTranslationMetadata renderJson
                readyService freshPairWorld "2024-01-01T00:00:00.000Z" "S" "T"
                "DE" "IT" [("Entry:S", "T")] in
            IncrementalService.checkUpdateStatus renderJson svc' w'
              "2025-06-01T00:00:00.000Z" "S" "T"))
  = IncrementalService.mkStatus true None false true [] (Some 3%Z) (Some 3%Z).
Proof.
  pose proof (check_after_clone_is_up_to_date renderJson readyService
                freshPairWorld "2024-01-01T00:00:00.000Z"
                "2025-06-01T00:00:00.000Z" "S" "T" "DE" "IT"
                [("Entry:S", "T")] (pageEntry 3 ["E1"])
                (textEntry "T" 1 "Benvenuti") eq_refl eq_refl
                ltac:(discriminate)) as Hcheck.
  destruct (IncrementalService.createTranslationMetadata renderJson
              readyService freshPairWorld "2024-01-01T00:00:00.000Z" "S" "T"
              "DE" "IT" [("Entry:S", "T")]) as [[data svc'] w'].
  apply Hcheck.
  - apply (bool_decide_unpack _). vm_compute. reflexivity.
  - reflexivity.
  - reflexivity.
  - intros name value _. discriminate.
Defined.

(** ** The filesystem fallback keeps the first date
    (incrementalTranslationService.js) *)

(** X19. When the service has no CMS backend, or the CMS backend fails, storing
    the relationship of a pair that already has one keeps the [createdAt]
    of the relationship found before, and replaces the version, the date of
    the last update, the languages, the hashes and the clone mapping by
    those of the call. *)
Theorem file_fallback_keeps_first_date (svc : IncrementalService.Service)
    (w : World) (now s t : string) (version : Z) (ctx : TranslationContext)
    (hashes mapping : list (string * string)) (existing : Relationship) :
  IncrementalService.contentfulMetadataService svc = false
  \/ w_metadataTypeInstalled w = false ->
  IncrementalService.getRelationship svc w s t = Some existing ->
  version <> 0%Z ->
  exists metadata,
    r_metadata existing = Some metadata
    /\ IncrementalService.getRelationship svc
         (IncrementalService.createOrUpdateRelationship svc w now s t version
            ctx hashes mapping) s t
       = Some (mkRelationship s t
                 (Some (mkMetadata (Some version) now (createdAt metadata)))
                 ctx hashes mapping None None).
Proof.
  intros Hprimary Hget Hversion.
  assert (Hfile : exists metadata,
            w_files w !! IncrementalService.relationshipFile s t
            = Some (RelationshipFile existing)
            /\ r_metadata existing = Some metadata).
  { unfold IncrementalService.getRelationship in Hget.
    assert (Hread :
      match w_files w !! IncrementalService.relationshipFile s t with
      | Some content => IncrementalService.validRelationshipFile content
      | None => None
      end = Some existing).
    { destruct Hprimary as [Hoff|Hdown].
      - now rewrite Hoff in Hget.
      - rewrite (getRelationshipMetadata_down w s t Hdown) in Hget.
        now destruct (IncrementalService.contentfulMetadataService svc). }
    destruct (w_files w !! IncrementalService.relationshipFile s t)
      as [[data|snapshot|]|]; try discriminate.
    unfold IncrementalService.validRelationshipFile in Hread.
    destruct (r_metadata data) as [metadata|] eqn:Hmeta; [|discriminate].
    destruct (lastTranslatedVersion metadata) as [stored|]; [|discriminate].
    destruct (stored =? 0)%Z; [discriminate|].
    injection Hread as ->. now exists metadata. }
  destruct Hfile as (metadata & Hfile & Hmeta).
  exists metadata. split; [exact Hmeta|].
  apply getRelationship_from_file.
  - destruct Hprimary as [Hoff|Hdown]; [now left | right].
    apply getRelationshipMetadata_down.
    unfold IncrementalService.createOrUpdateRelationship.
    rewrite storeRelationshipMetadata_down by exact Hdown.
    now destruct (IncrementalService.contentfulMetadataService svc).
  - now apply file_store_preserves_createdAt with (existing := existing).
  - simpl. apply Z.eqb_neq in Hversion. now rewrite Hversion.
Qed.

Lemma file_fallback_keeps_first_date_witness :
  IncrementalService.getRelationship readyService
    (IncrementalService.createOrUpdateRelationship readyService
       fileBackedWorld "2025-06-01T00:00:00.000Z" "S" "T" 4
       (mkTranslationContext "DE" "IT") [("title", "h1")] [("Entry:S", "T")])
    "S" "T"
  = Some (mkRelationship "S" "T"
            (Some (mkMetadata (Some 4%Z) "2025-06-01T00:00:00.000Z"
                     (Some "2024-01-01T00:00:00.000Z")))
            (mkTranslationContext "DE" "IT") [("title", "h1")]
            [("Entry:S", "T")] None None).
Proof.
  destruct (file_fallback_keeps_first_date readyService fileBackedWorld
              "2025-06-01T00:00:00.000Z" "S" "T" 4
              (mkTranslationContext "DE" "IT") [("title", "h1")]
              [("Entry:S", "T")] firstStored (or_intror eq_refl) eq_refl
              ltac:(discriminate))
    as (metadata & Hmeta & Hfound).
  injection Hmeta as <-. exact Hfound.
Defined.

(** ** A changed reference field (incrementalTranslationService.js) *)

Section ReferenceUpdate.

Import IncrementalService.

Lemma extractReferencedEntries_links (fieldValue : LocaleMap) (ref : Value) :
  In ref (extractReferencedEntries fieldValue) ->
  exists id, ref = VLink "Entry" id.
Proof.
  unfold extractReferencedEntries. rewrite in_flat_map.
  intros ([locale content] & _ & Hin). cbn [snd] in Hin.
  destruct content; try contradiction.
  - apply filter_In in Hin as [_ Hlink].
    destruct ref; try discriminate. simpl in Hlink.
    apply String.eqb_eq in Hlink as ->. eauto.
  - destruct (String.eqb_spec linkType "Entry") as [->|_]; [|contradiction].
    destruct Hin as [<-|[]]. eauto.
Qed.

Lemma mapReferences_In (cloneMapping : list (string * string))
    (sourceReferences : list Value) (link : Value) :
  In link (mapReferences cloneMapping sourceReferences)
  <-> exists linkType id target,
        In (VLink linkType id) sourceReferences
        /\ id <> "" /\ target <> ""
        /\ lookupProp ("Entry:" +:+ id) cloneMapping = Some target
        /\ link = VLink "Entry" target.
Proof.
  unfold mapReferences. rewrite in_flat_map. split.
  - intros (sourceRef & Hsource & Hin).
    destruct sourceRef; try contradiction.
    destruct (Js.truthyStr id) eqn:Hid; [|contradiction].
    destruct (lookupProp ("Entry:" +:+ id) cloneMapping) as [target|] eqn:Hmap;
      [|contradiction].
    destruct (Js.truthyStr target) eqn:Htarget; [|contradiction].
    destruct Hin as [<-|[]].
    exists linkType, id, target.
    unfold Js.truthyStr in Hid, Htarget.
    apply negb_true_iff, String.eqb_neq in Hid.
    apply negb_true_iff, String.eqb_neq in Htarget. auto.
  - intros (linkType & id & target & Hsource & Hid & Htarget & Hmap & ->).
    exists (VLink linkType id). split; [exact Hsource|].
    unfold Js.truthyStr.
    apply String.eqb_neq in Hid. apply String.eqb_neq in Htarget.
    rewrite Hid, Hmap, Htarget. now left.
Qed.

End ReferenceUpdate.

(** X20. The update of a reference field of the target, whose name is not one
    that every object inherits, writes at most one value:
    every other field, and every other locale of the field, is what it was.
    Without a relationship, without the source entry or without the field
    in the source entry nothing is written. Otherwise the first locale of
    the source field holds a list of links that are entry links to clones:
    each is the target that the clone mapping of the pair has for an entry
    link of the source field, and every entry link of the source field with
    a target in the mapping has its link in the list. *)
Theorem reference_update_links_to_clones (svc : IncrementalService.Service)
    (w : World) (s t : string) (targetFields : list (string * LocaleMap))
    (fieldName : string) :
  ownName fieldName = true ->
  let updated :=
    IncrementalService.updateTargetReferenceField svc w s t targetFields
      fieldName in
  (forall other, other <> fieldName ->
     lookupProp other updated = lookupProp other targetFields)
  /\ match IncrementalService.getRelationship svc w s t,
           w_entries w !! s ≫= (fun e => lookupProp fieldName (fields e)) with
     | Some relationship, Some sourceValue =>
         (forall locale,
            locale <> IncrementalService.firstLocale sourceValue ->
            localeValue updated fieldName locale
            = localeValue targetFields fieldName locale)
         /\ exists links,
              localeValue updated fieldName
                (IncrementalService.firstLocale sourceValue)
              = Some (VArr links)
              /\ forall link,
                   In link links
                   <-> exists id target,
                         In (VLink "Entry" id)
                           (IncrementalService.extractReferencedEntries
                              sourceValue)
                         /\ id <> "" /\ target <> ""
                         /\ lookupProp ("Entry:" +:+ id)
                              (r_cloneMapping relationship)
                            = Some target
                         /\ link = VLink "Entry" target
     | _, _ => updated = targetFields
     end.
Proof.
  intros _ updated. subst updated.
  unfold IncrementalService.updateTargetReferenceField, fetchEntry.
  destruct (IncrementalService.getRelationship svc w s t) as [relationship|];
    [|split; reflexivity].
  destruct (w_entries w !! s) as [sourceEntry|]; cbn [mbind option_bind];
    [|split; reflexivity].
  destruct (lookupProp fieldName (fields sourceEntry)) as [sourceValue|];
    [|split; reflexivity].
  split; [|split].
  - intros other Hother. now apply lookupProp_setProp_ne.
  - intros locale Hlocale. unfold localeValue.
    rewrite lookupProp_setProp_eq.
    rewrite lookupProp_setProp_ne by exact Hlocale.
    now destruct (lookupProp fieldName targetFields).
  - eexists. split.
    + unfold localeValue. rewrite lookupProp_setProp_eq.
      apply lookupProp_setProp_eq.
    + intros link. rewrite mapReferences_In. split.
      * intros (linkType & id & target & Hsource & Hrest).
        destruct (extractReferencedEntries_links _ _ Hsource)
          as [entryId [= -> ->]].
        now exists entryId, target.
      * intros (id & target & Hsource & Hrest).
        now exists "Entry", id, target.
Qed.

Lemma reference_update_links_to_clones_witness :
  lookupProp "title"
    (IncrementalService.updateTargetReferenceField readyService worldAtClone
       "S" "T" [("title", [("en-US-POSIX", VStr "Benvenuti")])] "elements")
  = Some [("en-US-POSIX", VStr "Benvenuti")].
Proof.
  rewrite (proj1 (reference_update_links_to_clones readyService worldAtClone
                    "S" "T" [("title", [("en-US-POSIX", VStr "Benvenuti")])]
                    "elements" eq_refl) "title" ltac:(discriminate)).
  reflexivity.
Defined.

(** ** Failures below the root (cloneService.js) *)

Section Failures.

Import CloneService.

Variable svc : Service.
Variable cms : Cms.
Variable now : string.
Variable cloneRec : Entry -> string -> M string.

Lemma NoThrow_ret {A} (a : A) : NoThrow (ret a).
Proof. intros st r st' [= <- <-] e. discriminate. Qed.

Lemma NoThrow_lift {A} (o : Outcome A) :
  (forall e, o <> Throw e) -> NoThrow (lift o).
Proof. intros Ho st r st' [= <- <-]. exact Ho. Qed.

Lemma NoThrow_modify (f : CloneState -> CloneState) : NoThrow (modify f).
Proof. intros st r st' [= <- <-] e. discriminate. Qed.

Lemma NoThrow_bind {A B} (m : M A) (k : A -> M B) :
  NoThrow m -> (forall a, NoThrow (k a)) -> NoThrow (bind m k).
Proof.
  intros Hm Hk st r st' Hrun. unfold bind in Hrun.
  destruct (m st) as [[a|e|] st1] eqn:Hfirst.
  - eapply Hk; eauto.
  - exfalso. eapply Hm; eauto.
  - injection Hrun as <- <-. discriminate.
Qed.

Lemma NoThrow_getState_bind {B} (k : CloneState -> M B) :
  (forall st, NoThrow (k st)) -> NoThrow (bind getState k).
Proof.
  intros Hk st r st' Hrun. unfold bind, getState in Hrun. eapply Hk; eauto.
Qed.

(** A [try] whose [catch] does not throw does not throw, whatever its body
    does. *)
Lemma NoThrow_tryCatchM {A} (body : M A) (handler : string -> M A) :
  (forall e, NoThrow (handler e)) -> NoThrow (tryCatchM body handler).
Proof.
  intros Hh st r st' Hrun. unfold tryCatchM in Hrun.
  destruct (body st) as [[a|e|] st1].
  - injection Hrun as <- <-. discriminate.
  - eapply Hh; eauto.
  - injection Hrun as <- <-. discriminate.
Qed.

(** Whatever the clone of the linked entry does, the link itself is
    processed without a failure. *)
Lemma NoThrow_processLinkField (linkValue : Value) (locale fieldId : string) :
  NoThrow (processLinkField svc cms cloneRec linkValue locale fieldId).
Proof.
  destruct linkValue as [ | | | | | | |linkType id]; try apply NoThrow_ret.
  unfold processLinkField. apply NoThrow_getState_bind. intros st.
  destruct (cloneMap st !! _); [apply NoThrow_ret|].
  destruct (bool_decide _); [apply NoThrow_ret|].
  apply NoThrow_bind; [apply NoThrow_modify|]. intros _.
  apply NoThrow_tryCatchM. intros e.
  apply NoThrow_bind; [apply NoThrow_modify | intros; apply NoThrow_ret].
Qed.

Lemma NoThrow_processFieldValue :
  forall (value : Value) (locale fieldId : string),
    NoThrow (processFieldValue svc cms cloneRec value locale fieldId).
Proof.
  fix IH 1. intros value locale fieldId.
  destruct value as [ | | | | |items| |linkType id]; try apply NoThrow_ret.
  - cbn [processFieldValue].
    apply NoThrow_bind; [|intros; apply NoThrow_ret].
    revert items. fix IHitems 1. intros [|item rest].
    + apply NoThrow_ret.
    + apply NoThrow_bind.
      * destruct (isLink item); [apply NoThrow_processLinkField | apply IH].
      * intros processed. apply NoThrow_bind; [apply IHitems|].
        intros others. apply NoThrow_ret.
  - apply NoThrow_processLinkField.
Qed.

Lemma NoThrow_processLocales (fieldId : string) (entries : LocaleMap) :
  forall processedField,
    NoThrow (processLocales svc cms cloneRec fieldId entries processedField).
Proof.
  induction entries as [|[fieldLocale value] rest IH]; intros processedField;
    cbn [processLocales].
  - apply NoThrow_ret.
  - apply NoThrow_bind; [apply NoThrow_processFieldValue|].
    intros processed. apply IH.
Qed.

Lemma NoThrow_processNormalLocales (contentTypeId : string)
    (fieldDef : FieldDef) (prefixFieldIds : list string)
    (detected : option string) (entries : LocaleMap) :
  forall processedField,
    NoThrow
      (processNormalLocales svc cms cloneRec contentTypeId fieldDef
         prefixFieldIds detected entries processedField).
Proof.
  induction entries as [|[fieldLocale value] rest IH]; intros processedField;
    cbn [processNormalLocales].
  - apply NoThrow_ret.
  - apply NoThrow_bind; [apply NoThrow_processFieldValue|].
    intros processed. apply NoThrow_bind; [|intros transformed; apply IH].
    apply NoThrow_lift.
    destruct (transformValue_returns svc contentTypeId fieldDef prefixFieldIds
                detected processed) as [v ->].
    discriminate.
Qed.

Lemma NoThrow_processFieldDef (sourceEntry : Entry) (locale : string)
    (prefixFieldIds : list string) (detected : option string)
    (entryFields : list (string * LocaleMap)) (fieldDef : FieldDef) :
  NoThrow
    (processFieldDef svc cms now cloneRec sourceEntry locale prefixFieldIds
       detected entryFields fieldDef).
Proof.
  unfold processFieldDef.
  destruct (lookupProp _ _) as [original|].
  - destruct (shouldEmptyField svc _).
    + destruct (getEmptyValueForField _ _); apply NoThrow_ret.
    + destruct (shouldCopyAsIs svc _);
        [|destruct (isAuthorField svc _)];
        (apply NoThrow_bind; [|intros; apply NoThrow_ret]);
        first [apply NoThrow_processLocales
              | apply NoThrow_processNormalLocales].
  - destruct (fd_required fieldDef); [|apply NoThrow_ret].
    destruct (shouldEmptyField svc _); [|apply NoThrow_ret].
    destruct (getEmptyValueForField _ _); apply NoThrow_ret.
Qed.

Lemma NoThrow_processFieldDefs (sourceEntry : Entry) (locale : string)
    (prefixFieldIds : list string) (detected : option string)
    (fieldDefs : list FieldDef) :
  forall entryFields,
    NoThrow
      (processFieldDefs svc cms now cloneRec sourceEntry locale prefixFieldIds
         detected fieldDefs entryFields).
Proof.
  induction fieldDefs as [|fieldDef rest IH]; intros entryFields;
    cbn [processFieldDefs].
  - apply NoThrow_ret.
  - apply NoThrow_bind; [apply NoThrow_processFieldDef | intros; apply IH].
Qed.

(** The run of [cloneEntryBody] for an entry without a target in the clone
    map: the content type is read, the fields are processed, the draft is
    created and recorded. *)
Lemma cloneEntryBody_inv (sourceEntry : Entry) (locale : string)
    (st st' : CloneState) (r : Outcome string) :
  cloneMap st !! ("Entry:" +:+ sys_id sourceEntry) = None ->
  cloneEntryBody svc cms now cloneRec sourceEntry locale st = (r, st') ->
  (exists e st1,
     getContentType cms (sys_contentType sourceEntry) st = (Throw e, st1)
     /\ r = Throw e)
  \/ exists contentType st1 looped st2,
       getContentType cms (sys_contentType sourceEntry) st
       = (Ok contentType, st1)
       /\ processFieldDefs svc cms now cloneRec sourceEntry locale
            (findPrefixFields svc (ct_fields contentType) (fields sourceEntry))
            (if String.eqb (sys_contentType sourceEntry) "cmsPage"
             then detectSourceLocaleFromEntry svc (fields sourceEntry)
             else mainCmsPageSourceLanguage svc)
            (ct_fields contentType) []
            (mkCloneState (cloneMap st1) (processingSet st1)
               (contentTypeCache st1) (Some (sys_contentType sourceEntry))
               (drafts st1))
          = (looped, st2)
       /\ match looped with
          | Ok entryFields =>
              match cms_createEntry cms (length (drafts st2))
                      (sys_contentType sourceEntry) entryFields with
              | Fulfilled newId =>
                  r = Ok newId
                  /\ st'
                     = mkCloneState
                         (<["Entry:" +:+ sys_id sourceEntry := newId]>
                            (cloneMap st2))
                         (processingSet st2) (contentTypeCache st2)
                         (currentEntryContentType st)
                         (drafts st2
                          ++ [mkDraft (sys_id sourceEntry) newId
                                (sys_contentType sourceEntry) entryFields])
              | Rejected e =>
                  r = Throw e
                  /\ cloneMap st' = cloneMap st2
                  /\ contentTypeCache st' = contentTypeCache st2
                  /\ drafts st' = drafts st2
              end
          | Throw e =>
              r = Throw e
              /\ cloneMap st' = cloneMap st2
              /\ contentTypeCache st' = contentTypeCache st2
              /\ drafts st' = drafts st2
          | OutOfFuel => r = OutOfFuel /\ st' = st2
          end.
Proof.
  intros Hmap Hrun.
  unfold cloneEntryBody in Hrun. unfold bind at 1, getState in Hrun.
  rewrite Hmap in Hrun.
  unfold tryCatchM in Hrun. unfold bind at 1 in Hrun.
  destruct (getContentType cms (sys_contentType sourceEntry) st)
    as [[contentType|e|] st1] eqn:Hct.
  2:{ cbn in Hrun. injection Hrun as <- <-. left. eauto. }
  2:{ exfalso. unfold getContentType, bind, getState in Hct.
      destruct (contentTypeCache st !! _); [discriminate|].
      destruct (cms_contentTypes cms !! _); discriminate. }
  right. exists contentType, st1.
  unfold bind at 1, setCurrentEntryContentType, modify in Hrun.
  unfold bind at 1 in Hrun.
  match type of Hrun with
  | context [processFieldDefs ?a ?b ?c ?d ?e ?f ?g ?h ?i ?j ?st] =>
      destruct (processFieldDefs a b c d e f g h i j st) as [looped st2] eqn:Hloop
  end.
  exists looped, st2. split; [reflexivity|]. split; [reflexivity|].
  destruct looped as [entryFields|e|].
  - unfold bind at 1, createEntry in Hrun.
    destruct (cms_createEntry cms _ _ _) as [newId|e].
    + cbn in Hrun. injection Hrun as <- <-. auto.
    + cbn in Hrun. injection Hrun as <- <-. auto.
  - cbn in Hrun. injection Hrun as <- <-. auto.
  - injection Hrun as <- <-. auto.
Qed.

(** The clone of an entry throws only when its own content type cannot be
    read or its own draft is refused. *)
Lemma cloneEntryBody_throws (sourceEntry : Entry) (locale : string)
    (st st' : CloneState) (e : string) :
  cloneMap st !! ("Entry:" +:+ sys_id sourceEntry) = None ->
  cloneEntryBody svc cms now cloneRec sourceEntry locale st = (Throw e, st') ->
  cms_contentTypes cms !! sys_contentType sourceEntry = None
  \/ exists n entryFields,
       cms_createEntry cms n (sys_contentType sourceEntry) entryFields
       = Rejected e.
Proof.
  intros Hmap Hrun.
  destruct (cloneEntryBody_inv _ _ _ _ _ Hmap Hrun)
    as [(e' & st1 & Hct & _)
       |(contentType & st1 & looped & st2 & Hct & Hloop & Hend)].
  - left. unfold getContentType, bind, getState in Hct.
    destruct (contentTypeCache st !! _); [discriminate|].
    destruct (cms_contentTypes cms !! _); [discriminate | reflexivity].
  - destruct looped as [entryFields|e'|].
    + destruct (cms_createEntry cms _ _ _) as [newId|e'] eqn:Hcreate.
      * destruct Hend as [[=] _].
      * destruct Hend as [[= ->] _]. right. eauto.
    + exfalso. eapply NoThrow_processFieldDefs; eauto.
    + destruct Hend as [[=] _].
Qed.

End Failures.

Lemma detected_language_is_not_empty (svc : CloneService.Service)
    (entryFields : list (string * LocaleMap)) :
  Js.truthyStr
    (default "" (CloneService.detectSourceLocaleFromEntry svc entryFields))
  = bool_decide
      (is_Some (CloneService.detectSourceLocaleFromEntry svc entryFields)).
Proof.
  unfold CloneService.detectSourceLocaleFromEntry.
  induction (CloneService.cultureFieldNames svc) as [|name rest IH];
    [reflexivity|].
  cbn [CloneService.detectSourceLocaleIn].
  destruct (lookupProp name entryFields) as [[|[locale content] others]|];
    try exact IH.
  destruct content; try exact IH.
  unfold CloneService.mapContentfulLocaleToDeepLLanguage.
  cbn [lookupProp].
  repeat (destruct (String.eqb s _); [reflexivity|]).
  reflexivity.
Qed.

(** X21. The clone of a page succeeds whatever fails below the page. When the
    root can be fetched, is a page whose culture names a source language,
    the content type of pages can be read and the CMS accepts the draft of
    a page, then, with more fuel than the CMS has entries, the run returns
    a result: a linked entry that is missing, whose content type cannot be
    read or whose draft is refused, a failing translation and a failing
    author search do not fail the run. *)
Theorem clone_succeeds_when_root_can_be_created
    (svc : CloneService.Service) (cms : CloneService.Cms) (now : string)
    (fuel : nat) (rootId targetLang : string) (st : CloneService.CloneState)
    (rootEntry : Entry) :
  CloneService.cms_entries cms !! rootId = Some rootEntry ->
  sys_contentType rootEntry = "cmsPage" ->
  is_Some (CloneService.detectSourceLocaleFromEntry svc (fields rootEntry)) ->
  is_Some (CloneService.cms_contentTypes cms !! "cmsPage") ->
  (forall n entryFields,
     exists newId,
       CloneService.cms_createEntry cms n "cmsPage" entryFields
       = Fulfilled newId) ->
  (size (CloneService.cms_entries cms) < fuel)%nat ->
  exists result st',
    CloneService.cloneEntry fuel svc cms now rootId targetLang st
    = (Ok result, st').
Proof.
  intros Hfetch Hpage Hdetected Htype Hcreate Hfuel.
  destruct (CloneService.cloneEntry fuel svc cms now rootId targetLang st)
    as [r st'] eqn:Hrun.
  pose proof (cloneEntry_completes _ _ _ _ _ _ _ _ _ Hrun Hfuel) as Hends.
  destruct r as [result|e|]; [eauto | exfalso | contradiction].
  unfold CloneService.cloneEntry in Hrun.
  unfold CloneService.bind at 1, CloneService.modify in Hrun.
  unfold CloneService.bind at 1, CloneService.lift, CloneService.getEntry
    in Hrun.
  rewrite Hfetch, Hpage in Hrun. cbn [String.eqb Ascii.eqb Bool.eqb negb] in Hrun.
  change (CloneService.detectSourceLocaleFromEntry
            (CloneService.withTargetLanguage svc (Js.toLowerCase targetLang))
            (fields rootEntry))
    with (CloneService.detectSourceLocaleFromEntry svc (fields rootEntry))
    in Hrun.
  rewrite detected_language_is_not_empty in Hrun.
  rewrite bool_decide_eq_true_2 in Hrun by exact Hdetected.
  cbn [negb] in Hrun.
  destruct fuel as [|fuel]; [lia|].
  cbn [CloneService.cloneEntryRecursive] in Hrun.
  unfold CloneService.bind at 1 in Hrun.
  match type of Hrun with
  | context [CloneService.cloneEntryBody ?a ?b ?c ?d ?e ?f ?g] =>
      destruct (CloneService.cloneEntryBody a b c d e f g)
        as [[cloned|e'|] st1] eqn:Hbody
  end; cbn in Hrun; try (injection Hrun as ? ?; discriminate).
  injection Hrun as -> <-.
  apply cloneEntryBody_throws in Hbody; [|apply lookup_empty].
  rewrite Hpage in Hbody.
  destruct Hbody as [Hnone|(n & entryFields & Hrejected)].
  - rewrite Hnone in Htype. now destruct Htype.
  - destruct (Hcreate n entryFields) as [newId Hok]. congruence.
Qed.

Lemma clone_succeeds_when_root_can_be_created_witness :
  exists result st', sampleRun loopCms "R" = (Ok result, st').
Proof.
  apply (clone_succeeds_when_root_can_be_created
           (CloneService.newService "key" identityTranslator) loopCms
           "2025-01-01T00:00:00.000Z" 4 "R" "IT" CloneService.emptyState
           loopRoot).
  - reflexivity.
  - reflexivity.
  - vm_compute. eauto.
  - vm_compute. eauto.
  - intros n entryFields. eexists. reflexivity.
  - vm_compute. lia.
Defined.

(** ** The result of a run (cloneService.js) *)

(** X22. A run that returns a result: the result names the root and carries the
    clone map of the run; the root is a page of the CMS; the draft of the
    root is the last draft that was created, after the drafts of the
    entries it links to; and the clone map leads from the root to that
    draft. A run creates no draft unless the root is a page. *)
Theorem clone_result_names_the_draft_of_the_root
    (svc : CloneService.Service) (cms : CloneService.Cms) (now : string)
    (fuel : nat) (rootId targetLang : string)
    (st st' : CloneService.CloneState) (r : Outcome CloneService.CloneResult) :
  CloneService.cloneEntry fuel svc cms now rootId targetLang st = (r, st') ->
  (CloneService.drafts st' <> CloneService.drafts st ->
   exists rootEntry,
     CloneService.cms_entries cms !! rootId = Some rootEntry
     /\ sys_contentType rootEntry = "cmsPage")
  /\ forall result,
       r = Ok result ->
       CloneService.originalEntryId result = rootId
       /\ CloneService.cloneMapping result = CloneService.cloneMap st'
       /\ exists rootEntry earlier draftFields,
            CloneService.cms_entries cms !! rootId = Some rootEntry
            /\ CloneService.drafts st'
               = (earlier
                  ++ [CloneService.mkDraft (sys_id rootEntry)
                        (CloneService.clonedEntryId result) "cmsPage"
                        draftFields])%list
            /\ CloneService.cloneMap st' !! ("Entry:" +:+ sys_id rootEntry)
               = Some (CloneService.clonedEntryId result).
Proof.
  intros Hrun.
  unfold CloneService.cloneEntry in Hrun.
  unfold CloneService.bind at 1, CloneService.modify in Hrun.
  unfold CloneService.bind at 1, CloneService.lift, CloneService.getEntry
    in Hrun.
  destruct (CloneService.cms_entries cms !! rootId) as [rootEntry|] eqn:Hfetch;
    [|injection Hrun as <- <-; split; [intros []; reflexivity | discriminate]].
  destruct (String.eqb_spec (sys_contentType rootEntry) "cmsPage")
    as [Hpage|_]; cbn [negb] in Hrun;
    [|injection Hrun as <- <-; split; [intros []; reflexivity | discriminate]].
  change (CloneService.detectSourceLocaleFromEntry
            (CloneService.withTargetLanguage svc (Js.toLowerCase targetLang))
            (fields rootEntry))
    with (CloneService.detectSourceLocaleFromEntry svc (fields rootEntry))
    in Hrun.
  rewrite detected_language_is_not_empty in Hrun.
  destruct (bool_decide _) eqn:Hdetected in Hrun; cbn [negb] in Hrun;
    [|injection Hrun as <- <-; split; [intros []; reflexivity | discriminate]].
  apply bool_decide_eq_true in Hdetected.
  split; [intros _; now exists rootEntry|].
  intros result ->.
  destruct fuel as [|fuel]; [discriminate|].
  cbn [CloneService.cloneEntryRecursive] in Hrun.
  unfold CloneService.bind at 1 in Hrun.
  match type of Hrun with
  | context [CloneService.cloneEntryBody ?a ?b ?c ?d ?e ?f ?g] =>
      destruct (CloneService.cloneEntryBody a b c d e f g)
        as [[cloned|e'|] st1] eqn:Hbody
  end; cbn in Hrun; try discriminate.
  injection Hrun as <- <-. cbn.
  split; [reflexivity|]. split; [reflexivity|].
  destruct (cloneEntryBody_inv _ _ _ _ _ _ _ _ _ (lookup_empty _) Hbody)
    as [(e' & st2 & _ & [=])
       |(contentType & st2 & looped & st3 & _ & _ & Hend)].
  destruct looped as [entryFields|e'|];
    [|destruct Hend as [[=] _] | destruct Hend as [[=] _]].
  destruct (CloneService.cms_createEntry cms _ _ _) as [newId|e'];
    [|destruct Hend as [[=] _]].
  destruct Hend as [[= ->] ->]. cbn.
  exists rootEntry, (CloneService.drafts st3), entryFields.
  split; [reflexivity|]. rewrite Hpage.
  split; [reflexivity | apply lookup_insert_eq].
Qed.

Lemma clone_result_names_the_draft_of_the_root_witness :
  match fst (sampleRun loopCms "R") with
  | Ok result =>
      CloneService.originalEntryId result = "R"
      /\ CloneService.cloneMapping result
         = CloneService.cloneMap (snd (sampleRun loopCms "R"))
  | _ => False
  end.
Proof.
  destruct (clone_result_names_the_draft_of_the_root
              (CloneService.newService "key" identityTranslator) loopCms
              "2025-01-01T00:00:00.000Z" 4 "R" "IT" CloneService.emptyState
              (snd (sampleRun loopCms "R")) (fst (sampleRun loopCms "R"))
              (surjective_pairing _)) as [_ Hnames].
  destruct (fst (sampleRun loopCms "R")) as [result|e|] eqn:Hresult.
  - destruct (Hnames result eq_refl) as (Hroot & Hmapping & _).
    split; assumption.
  - vm_compute in Hresult. discriminate.
  - vm_compute in Hresult. discriminate.
Defined.

(** ** The drafts of a run (cloneService.js) *)

Lemma is_Some_lookupProp_setProp {A} (k k' : string) (v : A)
    (props : list (string * A)) :
  is_Some (lookupProp k (setProp k' v props))
  <-> k = k' \/ is_Some (lookupProp k props).
Proof.
  destruct (String.eqb_spec k k') as [->|Hne].
  - rewrite lookupProp_setProp_eq. split; [now left | eauto].
  - rewrite lookupProp_setProp_ne by exact Hne.
    split; [now right | intros [Heq|Hsome]; [contradiction | exact Hsome]].
Qed.

Section Drafts.

Import CloneService.

Variable svc : Service.
Variable cms : Cms.
Variable now : string.

Lemma Keeps_ret {A} (a : A) (R : A -> Prop) : R a -> Keeps svc cms (ret a) R.
Proof. intros Ha st r st' Hst [= <- <-]. split; [exact Hst|]. now intros ? [= <-]. Qed.

Lemma Keeps_throw {A} (e : string) (R : A -> Prop) :
  Keeps svc cms (@throw A e) R.
Proof. intros st r st' Hst [= <- <-]. split; [exact Hst | discriminate]. Qed.

Lemma Keeps_lift {A} (o : Outcome A) (R : A -> Prop) :
  (forall a, o = Ok a -> R a) -> Keeps svc cms (lift o) R.
Proof. intros Ho st r st' Hst [= <- <-]. split; [exact Hst | exact Ho]. Qed.

Lemma Keeps_bind {A B} (m : M A) (k : A -> M B) (R1 : A -> Prop)
    (R2 : B -> Prop) :
  Keeps svc cms m R1 -> (forall a, R1 a -> Keeps svc cms (k a) R2) ->
  Keeps svc cms (bind m k) R2.
Proof.
  intros Hm Hk st r st' Hst Hrun. unfold bind in Hrun.
  destruct (m st) as [[a|e|] st1] eqn:Hfirst;
    destruct (Hm _ _ _ Hst Hfirst) as [Hst1 Ha].
  - eapply Hk; eauto.
  - injection Hrun as <- <-. split; [exact Hst1 | discriminate].
  - injection Hrun as <- <-. split; [exact Hst1 | discriminate].
Qed.

Lemma Keeps_getState_bind {B} (k : CloneState -> M B) (R : B -> Prop) :
  (forall st, Keeps svc cms (k st) R) -> Keeps svc cms (bind getState k) R.
Proof.
  intros Hk st r st' Hst Hrun. unfold bind, getState in Hrun. eapply Hk; eauto.
Qed.

Lemma Keeps_tryCatchM {A} (body : M A) (handler : string -> M A)
    (R : A -> Prop) :
  Keeps svc cms body R -> (forall e, Keeps svc cms (handler e) R) ->
  Keeps svc cms (tryCatchM body handler) R.
Proof.
  intros Hb Hh st r st' Hst Hrun. unfold tryCatchM in Hrun.
  destruct (body st) as [[a|e|] st1] eqn:Hbody;
    destruct (Hb _ _ _ Hst Hbody) as [Hst1 Ha].
  - injection Hrun as <- <-. auto.
  - eapply Hh; eauto.
  - injection Hrun as <- <-. auto.
Qed.

(** A state change that leaves the cache and the drafts alone. *)
Lemma Keeps_modify (f : CloneState -> CloneState) :
  (forall st, contentTypeCache (f st) = contentTypeCache st) ->
  (forall st, drafts (f st) = drafts st) ->
  Keeps svc cms (modify f) (fun _ => True).
Proof.
  intros Hcache Hdrafts st r st' [Hc Hd] [= <- <-].
  split; [|auto]. split; [now rewrite Hcache | now rewrite Hdrafts].
Qed.

Lemma Keeps_getContentType (id : string) :
  Keeps svc cms (getContentType cms id)
    (fun contentType => cms_contentTypes cms !! id = Some contentType).
Proof.
  intros st r st' [Hcache Hdrafts] Hrun.
  unfold getContentType, bind, getState in Hrun.
  destruct (contentTypeCache st !! id) as [cached|] eqn:Hcached.
  - injection Hrun as <- <-. split; [now split|].
    intros a [= <-]. eapply lookup_weaken; eauto.
  - destruct (cms_contentTypes cms !! id) as [contentType|] eqn:Hread;
      cbn in Hrun; injection Hrun as <- <-.
    + split; [|now intros a [= <-]].
      split; [|exact Hdrafts]. cbn. now apply insert_subseteq_l.
    + split; [now split | discriminate].
Qed.

Lemma Keeps_createEntry (sourceId contentTypeId : string)
    (entryFields : list (string * LocaleMap)) :
  (forall newId,
     fitsContentType svc cms (mkDraft sourceId newId contentTypeId entryFields)) ->
  Keeps svc cms (createEntry cms sourceId contentTypeId entryFields)
    (fun _ => True).
Proof.
  intros Hfits st r st' [Hcache Hdrafts] Hrun. unfold createEntry in Hrun.
  destruct (cms_createEntry cms _ _ _) as [newId|e]; injection Hrun as <- <-.
  - split; [|auto]. split; [exact Hcache|]. cbn.
    apply Forall_app. split; [exact Hdrafts|].
    apply Forall_cons. split; [apply Hfits | apply Forall_nil_2].
  - split; [now split | auto].
Qed.

Variable cloneRec : Entry -> string -> M string.

(** The recursive call for an entry of the CMS keeps the state sound. *)
Hypothesis Hrec :
  forall id e locale,
    cms_entries cms !! id = Some e ->
    Keeps svc cms (cloneRec e locale) (fun _ => True).

Ltac keeps_modify :=
  apply Keeps_modify; intros; reflexivity.

Lemma Keeps_relinkAuthor (key id fieldId : string) :
  Keeps svc cms (relinkAuthor svc cms key id fieldId) (fun _ => True).
Proof.
  unfold relinkAuthor.
  destruct (_ && _); [|now apply Keeps_ret].
  eapply Keeps_bind; [apply Keeps_lift with (R := fun _ => True); auto|].
  intros originalAuthor _.
  destruct (String.eqb _ _); [|now apply Keeps_ret].
  destruct (getCultureValue svc) as [culture|]; [|now apply Keeps_ret].
  eapply Keeps_bind; [apply Keeps_lift with (R := fun _ => True); auto|].
  intros [existing|] _; [|now apply Keeps_ret].
  destruct (Js.truthyStr existing); [|now apply Keeps_ret].
  unfold cloneMapSet, processingSetDelete.
  eapply Keeps_bind; [keeps_modify|]. intros _ _.
  eapply Keeps_bind; [keeps_modify|]. intros _ _.
  now apply Keeps_ret.
Qed.

Lemma Keeps_processLinkField (linkValue : Value) (locale fieldId : string) :
  Keeps svc cms (processLinkField svc cms cloneRec linkValue locale fieldId)
    (fun _ => True).
Proof.
  destruct linkValue as [ | | | | | | |linkType id]; try now apply Keeps_ret.
  unfold processLinkField. apply Keeps_getState_bind. intros st.
  destruct (cloneMap st !! _); [now apply Keeps_ret|].
  destruct (bool_decide _); [now apply Keeps_ret|].
  unfold processingSetAdd, processingSetDelete, cloneMapSet.
  eapply Keeps_bind; [keeps_modify|]. intros _ _.
  apply Keeps_tryCatchM.
  - destruct (String.eqb linkType "Entry").
    + eapply Keeps_bind; [apply Keeps_relinkAuthor|].
      intros [link|] _; [now apply Keeps_ret|].
      eapply Keeps_bind;
        [apply Keeps_lift
           with (R := fun e => cms_entries cms !! id = Some e)|].
      * intros e He. unfold getEntry in He.
        destruct (cms_entries cms !! id); [congruence | discriminate].
      * intros sourceEntry Hfetch.
        eapply Keeps_bind; [exact (Hrec id sourceEntry locale Hfetch)|].
        intros clonedEntryId _.
        eapply Keeps_bind; [keeps_modify|]. intros _ _. now apply Keeps_ret.
    + destruct (String.eqb linkType "Asset").
      * eapply Keeps_bind; [keeps_modify|]. intros _ _.
        eapply Keeps_bind; [keeps_modify|]. intros _ _. now apply Keeps_ret.
      * eapply Keeps_bind; [keeps_modify|]. intros _ _. now apply Keeps_ret.
  - intros e. eapply Keeps_bind; [keeps_modify|]. intros _ _.
    now apply Keeps_ret.
Qed.

Lemma Keeps_processFieldValue :
  forall (value : Value) (locale fieldId : string),
    Keeps svc cms (processFieldValue svc cms cloneRec value locale fieldId)
      (fun _ => True).
Proof.
  fix IH 1. intros value locale fieldId.
  destruct value as [ | | | | |items| |linkType id]; try now apply Keeps_ret.
  - cbn [processFieldValue].
    eapply Keeps_bind with (R1 := fun _ => True);
      [|intros; now apply Keeps_ret].
    revert items. fix IHitems 1. intros [|item rest].
    + now apply Keeps_ret.
    + eapply Keeps_bind with (R1 := fun _ => True).
      * destruct (isLink item); [apply Keeps_processLinkField | apply IH].
      * intros processed _.
        eapply Keeps_bind with (R1 := fun _ => True); [apply IHitems|].
        intros others _. now apply Keeps_ret.
  - apply Keeps_processLinkField.
Qed.

Lemma Keeps_processLocales (fieldId : string) (entries : LocaleMap) :
  forall processedField,
    Keeps svc cms
      (processLocales svc cms cloneRec fieldId entries processedField)
      (fun _ => True).
Proof.
  induction entries as [|[fieldLocale value] rest IH]; intros processedField;
    cbn [processLocales].
  - now apply Keeps_ret.
  - eapply Keeps_bind; [apply Keeps_processFieldValue|].
    intros processed _. apply IH.
Qed.

Lemma Keeps_processNormalLocales (contentTypeId : string)
    (fieldDef : FieldDef) (prefixFieldIds : list string)
    (detected : option string) (entries : LocaleMap) :
  forall processedField,
    Keeps svc cms
      (processNormalLocales svc cms cloneRec contentTypeId fieldDef
         prefixFieldIds detected entries processedField)
      (fun _ => True).
Proof.
  induction entries as [|[fieldLocale value] rest IH]; intros processedField;
    cbn [processNormalLocales].
  - now apply Keeps_ret.
  - eapply Keeps_bind; [apply Keeps_processFieldValue|].
    intros processed _.
    eapply Keeps_bind; [apply Keeps_lift with (R := fun _ => True); auto|].
    intros transformed _. apply IH.
Qed.

Lemma turnOf_set (fieldDef : FieldDef) (value : LocaleMap)
    (before : list (string * LocaleMap)) :
  turnOf svc fieldDef before (setProp (fd_id fieldDef) value before).
Proof.
  split; [|split].
  - intros k Hk. apply is_Some_lookupProp_setProp in Hk. tauto.
  - intros k Hk. apply is_Some_lookupProp_setProp. now right.
  - intros _ _. apply is_Some_lookupProp_setProp. now left.
Qed.

Lemma turnOf_skip (fieldDef : FieldDef) (before : list (string * LocaleMap)) :
  fd_required fieldDef = false
  \/ (shouldEmptyField svc (fd_id fieldDef) = true
      /\ forall locale, getEmptyValueForField fieldDef locale = None) ->
  turnOf svc fieldDef before before.
Proof.
  intros Hskip. split; [auto|]. split; [auto|].
  intros Hrequired Hset.
  destruct Hskip as [Hnot|[Hempty Hnone]]; [congruence|].
  destruct Hset as [Hkeep|[v Hv]]; [congruence|].
  now rewrite Hnone in Hv.
Qed.

Lemma getEmptyValueForField_None (fieldDef : FieldDef) (locale : string) :
  getEmptyValueForField fieldDef locale = None ->
  forall other, getEmptyValueForField fieldDef other = None.
Proof.
  unfold getEmptyValueForField. intros Hnone other.
  destruct (_ || _); [discriminate|].
  destruct (String.eqb _ "Array"); [discriminate|].
  destruct (String.eqb _ "Object"); [discriminate | reflexivity].
Qed.

Lemma Keeps_processFieldDef (sourceEntry : Entry) (locale : string)
    (prefixFieldIds : list string) (detected : option string)
    (entryFields : list (string * LocaleMap)) (fieldDef : FieldDef) :
  Keeps svc cms
    (processFieldDef svc cms now cloneRec sourceEntry locale prefixFieldIds
       detected entryFields fieldDef)
    (turnOf svc fieldDef entryFields).
Proof.
  unfold processFieldDef.
  destruct (lookupProp _ _) as [original|].
  - destruct (shouldEmptyField svc _) eqn:Hempty.
    + destruct (getEmptyValueForField _ _) eqn:Hvalue; apply Keeps_ret;
        [apply turnOf_set | apply turnOf_skip].
      right. split; [exact Hempty|]. now apply getEmptyValueForField_None with locale.
    + destruct (shouldCopyAsIs svc _);
        [|destruct (isAuthorField svc _)];
        (eapply Keeps_bind;
         [|intros processedField _; apply Keeps_ret, turnOf_set]);
        first [apply Keeps_processLocales
              | apply Keeps_processNormalLocales].
  - destruct (fd_required fieldDef) eqn:Hrequired;
      [|apply Keeps_ret, turnOf_skip; now left].
    destruct (shouldEmptyField svc _) eqn:Hempty;
      [|apply Keeps_ret, turnOf_set].
    destruct (getEmptyValueForField _ _) eqn:Hvalue; apply Keeps_ret;
      [apply turnOf_set | apply turnOf_skip].
    right. split; [exact Hempty|]. now apply getEmptyValueForField_None with locale.
Qed.

Lemma Keeps_processFieldDefs (sourceEntry : Entry) (locale : string)
    (prefixFieldIds : list string) (detected : option string)
    (fieldDefs : list FieldDef) :
  forall entryFields,
    Keeps svc cms
      (processFieldDefs svc cms now cloneRec sourceEntry locale prefixFieldIds
         detected fieldDefs entryFields)
      (loopOf svc fieldDefs entryFields).
Proof.
  induction fieldDefs as [|fieldDef rest IH]; intros entryFields;
    cbn [processFieldDefs].
  - apply Keeps_ret. split; [auto|]. split; [auto|]. intros ? [].
  - eapply Keeps_bind; [apply Keeps_processFieldDef|].
    intros middle (Hadds & Hkeeps & Hturn).
    intros st r st' Hst Hrun.
    destruct (IH middle st r st' Hst Hrun) as [Hst' Hloop].
    split; [exact Hst'|]. intros after Hafter.
    destruct (Hloop after Hafter) as (Hadds' & Hkeeps' & Hrest).
    split; [|split].
    + intros k Hk. cbn [map In].
      destruct (Hadds' k Hk) as [Hmiddle|Hin]; [|auto].
      destruct (Hadds k Hmiddle); auto.
    + auto.
    + intros fd [<-|Hin] Hrequired Hset; [|now apply Hrest].
      apply Hkeeps'. now apply Hturn.
Qed.

Lemma Keeps_cloneEntryBody (id : string) (sourceEntry : Entry)
    (locale : string) :
  cms_entries cms !! id = Some sourceEntry ->
  Keeps svc cms (cloneEntryBody svc cms now cloneRec sourceEntry locale)
    (fun _ => True).
Proof.
  intros Hfetch. unfold cloneEntryBody.
  apply Keeps_getState_bind. intros st.
  destruct (cloneMap st !! _); [now apply Keeps_ret|].
  unfold setCurrentEntryContentType, cloneMapSet.
  apply Keeps_tryCatchM.
  - eapply Keeps_bind; [apply Keeps_getContentType|].
    intros contentType Htype.
    eapply Keeps_bind; [keeps_modify|]. intros _ _.
    eapply Keeps_bind; [apply Keeps_processFieldDefs|].
    intros entryFields (Hadds & _ & Hrequired).
    eapply Keeps_bind.
    + apply Keeps_createEntry. intros newId.
      exists id, sourceEntry, contentType. cbn.
      split; [exact Hfetch|]. split; [reflexivity|]. split; [reflexivity|].
      split; [exact Htype|]. split; [|exact Hrequired].
      intros fieldId Hfield.
      destruct (Hadds fieldId Hfield) as [[v [=]]|Hin]. exact Hin.
    + intros newId _.
      eapply Keeps_bind; [keeps_modify|]. intros _ _.
      eapply Keeps_bind; [keeps_modify|]. intros _ _. now apply Keeps_ret.
  - intros e. eapply Keeps_bind; [keeps_modify|]. intros _ _.
    apply Keeps_throw.
Qed.

End Drafts.

Lemma Keeps_cloneEntryRecursive (svc : CloneService.Service)
    (cms : CloneService.Cms) (now : string) (fuel : nat) :
  forall id sourceEntry locale,
    CloneService.cms_entries cms !! id = Some sourceEntry ->
    Keeps svc cms
      (CloneService.cloneEntryRecursive fuel svc cms now sourceEntry locale)
      (fun _ => True).
Proof.
  induction fuel as [|fuel IH]; intros id sourceEntry locale Hfetch;
    cbn [CloneService.cloneEntryRecursive].
  - apply Keeps_lift. discriminate.
  - now apply Keeps_cloneEntryBody with (id := id).
Qed.

(** X23. Every draft of a run, whether the run returns a result or fails, is
    the clone of an entry of the CMS and has the content type of that
    entry; it has no field outside the content type; and it has every
    required field of the content type, but for a field that is emptied on
    clone and whose type has no empty value. The cache of the service holds
    content types of the CMS when the run starts, and no field of a content
    type bears a name that every object inherits. *)
Theorem every_draft_fits_its_content_type (svc : CloneService.Service)
    (cms : CloneService.Cms) (now : string) (fuel : nat)
    (rootId targetLang : string) (st st' : CloneService.CloneState)
    (r : Outcome CloneService.CloneResult) :
  CloneService.contentTypeCache st ⊆ CloneService.cms_contentTypes cms ->
  map_Forall
    (fun _ contentType =>
       forallb ownName (map fd_id (ct_fields contentType)) = true)
    (CloneService.cms_contentTypes cms) ->
  Forall (fitsContentType svc cms) (CloneService.drafts st) ->
  CloneService.cloneEntry fuel svc cms now rootId targetLang st = (r, st') ->
  Forall (fitsContentType svc cms) (CloneService.drafts st').
Proof.
  intros Hcache _ Hdrafts Hrun.
  assert (Hkeeps :
    Keeps svc cms
      (CloneService.cloneEntry fuel svc cms now rootId targetLang)
      (fun _ => True)).
  { unfold CloneService.cloneEntry.
    eapply Keeps_bind; [apply Keeps_modify; intros; reflexivity|].
    intros _ _.
    eapply Keeps_bind;
      [apply Keeps_lift
         with (R := fun e => CloneService.cms_entries cms !! rootId = Some e)|].
    - intros e He. unfold CloneService.getEntry in He.
      destruct (CloneService.cms_entries cms !! rootId);
        [congruence | discriminate].
    - intros rootEntry Hfetch.
      destruct (negb _); [apply Keeps_throw|].
      destruct (negb _); [apply Keeps_throw|].
      eapply Keeps_bind.
      + match goal with
        | |- Keeps _ _ (CloneService.cloneEntryRecursive _ ?svc2 _ _ _ _) _ =>
            exact (Keeps_cloneEntryRecursive svc2 cms now fuel rootId rootEntry
                     "en-US-POSIX" Hfetch)
        end.
      + intros clonedId _. apply Keeps_getState_bind. intros st0.
        now apply Keeps_ret. }
  destruct (Hkeeps st r st' (conj Hcache Hdrafts) Hrun) as [[_ Hfits] _].
  exact Hfits.
Qed.

Lemma every_draft_fits_its_content_type_witness :
  Forall
    (fitsContentType (CloneService.newService "key" identityTranslator) loopCms)
    (CloneService.drafts (snd (sampleRun loopCms "R"))).
Proof.
  apply (every_draft_fits_its_content_type
           (CloneService.newService "key" identityTranslator) loopCms
           "2025-01-01T00:00:00.000Z" 4 "R" "IT" CloneService.emptyState
           (snd (sampleRun loopCms "R")) (fst (sampleRun loopCms "R"))).
  - apply map_empty_subseteq.
  - apply (bool_decide_unpack _). vm_compute. reflexivity.
  - apply Forall_nil_2.
  - apply surjective_pairing.
Defined.

(** ** What the tree holds (deepReferenceTracker.js) *)

Section TreeContent.

Variable sha256Json : Value -> string.
Variable tracker : DeepReferenceTracker.Tracker.
Variable w : World.
Variable now : string.

Hypothesis keyed : storeKeyedById w.

Let cap : nat := DeepReferenceTracker.maxDepth tracker.

(** What the scan of the fields of [entry] keeps true of the children
    gathered so far. *)
Let ChildrenOf (entry : Entry) (depth : nat) (children : list ReferenceNode)
  : Prop :=
  Forall
    (fun child =>
       n_parentId child = Some (sys_id entry)
       /\ n_depth child = S depth
       /\ (exists fieldId,
             n_parentField child = Some fieldId
             /\ is_Some (lookupProp fieldId (fields entry))
             /\ DeepReferenceTracker.shouldTrackReferenceField fieldId = true)
       /\ exists referenced,
            w_entries w !! n_id child = Some referenced
            /\ Mirrors sha256Json w cap now referenced child)
    children.

(** What a recursive call for a child of [entry] delivers. *)
Let BuildOf (entry : Entry) (depth : nat)
    (build : string -> Entry -> Outcome ReferenceNode) : Prop :=
  forall fieldId referenced, exists child,
    build fieldId referenced = Ok child
    /\ n_id child = sys_id referenced
    /\ n_parentId child = Some (sys_id entry)
    /\ n_parentField child = Some fieldId
    /\ n_depth child = S depth
    /\ Mirrors sha256Json w cap now referenced child.

Lemma scanReference_content (entry : Entry) (fieldId : string) (depth : nat)
    (build : string -> Entry -> Outcome ReferenceNode)
    (children : list ReferenceNode) (ref : Value) :
  BuildOf entry depth build ->
  is_Some (lookupProp fieldId (fields entry)) ->
  DeepReferenceTracker.shouldTrackReferenceField fieldId = true ->
  ChildrenOf entry depth children ->
  exists children',
    DeepReferenceTracker.scanReference w (sys_id entry) fieldId (build fieldId)
      children ref = Ok children'
    /\ map n_id children' = (map n_id children ++ followedId w entry ref)%list
    /\ ChildrenOf entry depth children'.
Proof.
  intros Hbuild Hfield Htracked Hgood.
  unfold DeepReferenceTracker.scanReference, followedId.
  destruct ref;
    try (exists children; rewrite app_nil_r; now split; [reflexivity|]).
  destruct (Js.truthyStr id && negb (String.eqb id (sys_id entry)));
    cbn [andb];
    [|exists children; rewrite app_nil_r; now split; [reflexivity|]].
  unfold DeepReferenceTracker.isAssetReference.
  destruct (String.eqb linkType "Asset"); cbn [negb andb];
    [exists children; rewrite app_nil_r; now split; [reflexivity|]|].
  unfold fetchEntry.
  destruct (w_entries w !! id) as [referenced|] eqn:Hfetch; cbn [bindO tryCatch].
  - destruct (Hbuild fieldId referenced)
      as (child & -> & Hid & Hparent & Hparentfield & Hdepth & Hmirrors).
    cbn [bindO tryCatch]. eexists. split; [reflexivity|].
    rewrite bool_decide_eq_true_2 by eauto.
    split.
    + rewrite map_app. cbn [map]. now rewrite Hid, (keyed id referenced Hfetch).
    + apply Forall_app. split; [exact Hgood|].
      apply Forall_cons. split; [|apply Forall_nil_2].
      split; [exact Hparent|]. split; [exact Hdepth|].
      split; [now exists fieldId|].
      exists referenced. split; [|exact Hmirrors].
      now rewrite Hid, (keyed id referenced Hfetch).
  - exists children. rewrite bool_decide_eq_false_2 by (intros [x [=]]).
    rewrite app_nil_r. now split; [reflexivity|].
Qed.

Lemma scanReferences_content (entry : Entry) (fieldId : string) (depth : nat)
    (build : string -> Entry -> Outcome ReferenceNode) (refs : list Value) :
  BuildOf entry depth build ->
  is_Some (lookupProp fieldId (fields entry)) ->
  DeepReferenceTracker.shouldTrackReferenceField fieldId = true ->
  forall children,
    ChildrenOf entry depth children ->
    exists children',
      foldO
        (DeepReferenceTracker.scanReference w (sys_id entry) fieldId
           (build fieldId))
        refs children = Ok children'
      /\ map n_id children'
         = (map n_id children ++ flat_map (followedId w entry) refs)%list
      /\ ChildrenOf entry depth children'.
Proof.
  intros Hbuild Hfield Htracked.
  induction refs as [|ref refs IH]; intros children Hgood; cbn [foldO flat_map].
  - exists children. rewrite app_nil_r. now split; [reflexivity|].
  - destruct (scanReference_content entry fieldId depth build children ref
                Hbuild Hfield Htracked Hgood) as (children1 & -> & Hids & Hgood1).
    cbn [bindO].
    destruct (IH children1 Hgood1) as (children2 & Hscan & Hids2 & Hgood2).
    exists children2. split; [exact Hscan|]. split; [|exact Hgood2].
    now rewrite Hids2, Hids, app_assoc.
Qed.

Lemma scanFields_content (entry : Entry) (depth : nat)
    (build : string -> Entry -> Outcome ReferenceNode)
    (entryFields : list (string * LocaleMap)) :
  BuildOf entry depth build ->
  (forall fieldId fieldValue,
     In (fieldId, fieldValue) entryFields ->
     is_Some (lookupProp fieldId (fields entry))) ->
  forall children,
    ChildrenOf entry depth children ->
    exists children',
      foldO (DeepReferenceTracker.scanField w (sys_id entry) build) entryFields
        children = Ok children'
      /\ map n_id children'
         = (map n_id children
            ++ flat_map
                 (fun kv =>
                    if DeepReferenceTracker.isReferenceField
                         (fieldObject (snd kv))
                       && DeepReferenceTracker.shouldTrackReferenceField (fst kv)
                    then
                      flat_map (followedId w entry)
                        (DeepReferenceTracker.extractReferencedEntries
                           (fieldObject (snd kv)))
                    else [])
                 entryFields)%list
      /\ ChildrenOf entry depth children'.
Proof.
  intros Hbuild.
  induction entryFields as [|[fieldId fieldValue] rest IH];
    intros Hfields children Hgood; cbn [foldO flat_map].
  - exists children. rewrite app_nil_r. now split; [reflexivity|].
  - assert (Hfield : exists children1,
              DeepReferenceTracker.scanField w (sys_id entry) build children
                (fieldId, fieldValue) = Ok children1
              /\ map n_id children1
                 = (map n_id children
                    ++ (if DeepReferenceTracker.isReferenceField
                             (fieldObject fieldValue)
                           && DeepReferenceTracker.shouldTrackReferenceField
                                fieldId
                        then
                          flat_map (followedId w entry)
                            (DeepReferenceTracker.extractReferencedEntries
                               (fieldObject fieldValue))
                        else []))%list
              /\ ChildrenOf entry depth children1).
    { unfold DeepReferenceTracker.scanField.
      destruct (DeepReferenceTracker.isReferenceField _); cbn [andb];
        [|exists children; rewrite app_nil_r; now split; [reflexivity|]].
      destruct (DeepReferenceTracker.shouldTrackReferenceField fieldId)
        eqn:Htracked; cbn [negb];
        [|exists children; rewrite app_nil_r; now split; [reflexivity|]].
      apply scanReferences_content; try assumption.
      apply (Hfields fieldId fieldValue). now left. }
    destruct Hfield as (children1 & -> & Hids1 & Hgood1). cbn [bindO fst snd].
    destruct (IH (fun f v Hin => Hfields f v (or_intror Hin)) children1 Hgood1)
      as (children2 & Hscan & Hids2 & Hgood2).
    exists children2. split; [exact Hscan|]. split; [|exact Hgood2].
    now rewrite Hids2, Hids1, app_assoc.
Qed.

Lemma buildReferenceTree_content (fuel : nat) :
  forall (entry : Entry) (depth : nat) (parentId parentField : option string),
    (cap < fuel + depth)%nat -> (depth <= cap)%nat ->
    exists tree,
      DeepReferenceTracker.buildReferenceTree sha256Json fuel tracker w now
        entry depth parentId parentField = Ok tree
      /\ n_id tree = sys_id entry /\ n_parentId tree = parentId
      /\ n_parentField tree = parentField /\ n_depth tree = depth
      /\ Mirrors sha256Json w cap now entry tree.
Proof.
  induction fuel as [|fuel IH]; intros entry depth parentId parentField Hfuel Hcap.
  - simpl in Hfuel. lia.
  - cbn [DeepReferenceTracker.buildReferenceTree]. fold cap.
    destruct (depth <? cap)%nat eqn:Hlt.
    + apply Nat.ltb_lt in Hlt.
      assert (Hbuild :
        BuildOf entry depth
          (fun fieldId referencedEntry =>
             DeepReferenceTracker.buildReferenceTree sha256Json fuel tracker w
               now referencedEntry (S depth) (Some (sys_id entry))
               (Some fieldId))).
      { intros fieldId referenced.
        destruct (IH referenced (S depth) (Some (sys_id entry)) (Some fieldId))
          as (child & Hchild & Hid & Hp & Hf & Hd & Hm); [lia | lia |].
        exists child. auto 7. }
      destruct (scanFields_content entry depth _ (fields entry) Hbuild)
        with (children := @nil ReferenceNode)
        as (children & Hscan & Hids & Hgood).
      * intros fieldId fieldValue Hin. apply lookupProp_is_Some.
        apply in_map_iff. now exists (fieldId, fieldValue).
      * apply Forall_nil_2.
      * rewrite Hscan. cbn [bindO]. eexists. split; [reflexivity|].
        repeat (split; [reflexivity|]).
        constructor; [|exact Hgood].
        apply Nat.ltb_lt in Hlt. rewrite Hlt. exact Hids.
    + eexists. split; [reflexivity|].
      repeat (split; [reflexivity|]).
      constructor; [now rewrite Hlt | apply Forall_nil_2].
Qed.

End TreeContent.

(** A node that mirrors an entry carries the id, the version and the content
    hash of that entry. *)
Lemma Mirrors_entry (sha256Json : Value -> string) (w : World) (cap : nat)
    (now : string) (entry : Entry) (node : ReferenceNode) :
  Mirrors sha256Json w cap now entry node ->
  n_id node = sys_id entry
  /\ n_version node = currentVersionOf entry
  /\ n_contentHash node
     = DeepReferenceTracker.generateContentHash sha256Json entry.
Proof. intros Hmirrors. destruct Hmirrors. repeat split. Qed.

(** X24. The snapshot of a source entry that can be fetched, on a CMS that hands
    out every entry under its own id: the build returns a tree rooted at
    the source entry, at depth 0 and without parent, and the tree mirrors
    the content. The root carries the id, the version and the content hash
    of the source entry, and every other node those of the entry that the
    CMS holds under the id of the node; above the depth cap the children of
    a node are, in order, the entries that the tracked reference fields of
    its entry link to, without assets, links of the entry to itself and
    missing entries; a node at the cap has no children. *)
Theorem snapshot_tree_mirrors_content (sha256Json : Value -> string)
    (tracker : DeepReferenceTracker.Tracker) (w : World)
    (now s t : string) (sourceEntry : Entry) :
  storeKeyedById w ->
  w_entries w !! s = Some sourceEntry ->
  exists deepMap,
    DeepReferenceTracker.buildCurrentReferenceMapForComparison sha256Json
      tracker w now s t = Ok deepMap
    /\ n_id (dm_referenceTree deepMap) = s
    /\ n_depth (dm_referenceTree deepMap) = 0%nat
    /\ n_parentId (dm_referenceTree deepMap) = None
    /\ Mirrors sha256Json w (DeepReferenceTracker.maxDepth tracker) now
         sourceEntry (dm_referenceTree deepMap).
Proof.
  intros keyed Hfetch.
  unfold DeepReferenceTracker.buildCurrentReferenceMapForComparison, fetchEntry.
  rewrite Hfetch. cbn [bindO].
  destruct (buildReferenceTree_content sha256Json tracker w now keyed
              (S (DeepReferenceTracker.maxDepth tracker)) sourceEntry 0 None
              None ltac:(lia) ltac:(lia))
    as (tree & -> & Hid & Hparent & _ & Hdepth & Hmirrors).
  cbn [bindO]. eexists. split; [reflexivity|]. cbn [dm_referenceTree].
  split; [now rewrite Hid, (keyed s sourceEntry Hfetch)|].
  split; [exact Hdepth|]. split; [exact Hparent | exact Hmirrors].
Qed.

Lemma snapshot_tree_mirrors_content_witness :
  exists deepMap,
    DeepReferenceTracker.buildCurrentReferenceMapForComparison renderJson
      defaultTracker worldAtClone "2024-01-01T00:00:00.000Z" "S" "T"
    = Ok deepMap
    /\ map n_id (n_children (dm_referenceTree deepMap)) = ["E1"; "E3"]
    /\ n_version (dm_referenceTree deepMap) = 3.
Proof.
  destruct (snapshot_tree_mirrors_content renderJson defaultTracker
              worldAtClone "2024-01-01T00:00:00.000Z" "S" "T"
              (pageEntry 3 ["E1"; "E3"]))
    as (deepMap & Hbuild & _ & _ & _ & Hmirrors).
  - unfold storeKeyedById. apply (bool_decide_unpack _). vm_compute.
    reflexivity.
  - reflexivity.
  - exists deepMap. split; [exact Hbuild|].
    split; [|exact (proj1 (proj2 (Mirrors_entry _ _ _ _ _ _ Hmirrors)))].
    vm_compute in Hbuild. injection Hbuild as <-. reflexivity.
Defined.

(** ** Asset links (cloneService.js) *)

Section AssetLinks.

Import CloneService.

Variable svc : Service.
Variable cms : Cms.
Variable cloneRec : Entry -> string -> M string.

(** What the processing of a value without entry links leaves: the value
    itself, the drafts and the processing set as they were, and asset keys
    that still lead to the asset itself. *)
Let Shared (value : Value) (st : CloneState) (run : M Value) : Prop :=
  exists st',
    run st = (Ok value, st')
    /\ drafts st' = drafts st
    /\ processingSet st' = processingSet st
    /\ assetsShared st'.

Lemma processLinkField_asset (id locale fieldId : string) (st : CloneState) :
  assetsShared st ->
  Shared (VLink "Asset" id) st
    (processLinkField svc cms cloneRec (VLink "Asset" id) locale fieldId).
Proof.
  intros Hshared. unfold Shared, processLinkField.
  unfold bind at 1, getState.
  change ("Asset" +:+ ":" +:+ id) with ("Asset:" +:+ id).
  destruct (cloneMap st !! ("Asset:" +:+ id)) as [target|] eqn:Hmap.
  - rewrite (Hshared id target Hmap). exists st. auto.
  - destruct (bool_decide _) eqn:Hbusy; [exists st; auto|].
    apply bool_decide_eq_false in Hbusy.
    cbn. eexists. split; [reflexivity|].
    split; [reflexivity|]. split; [now apply restored|].
    intros id' target Hlookup. cbn [cloneMap] in Hlookup.
    destruct (decide (id' = id)) as [->|Hne].
    + rewrite lookup_insert_eq in Hlookup. congruence.
    + rewrite lookup_insert_ne in Hlookup; [now apply Hshared|].
      intros Heq. apply Hne. symmetry. now apply (append_inv_head "Asset:").
Qed.

Lemma processFieldValue_assets :
  forall (value : Value) (locale fieldId : string) (st : CloneState),
    assetsOnly value = true -> assetsShared st ->
    Shared value st (processFieldValue svc cms cloneRec value locale fieldId).
Proof.
  fix IH 1. intros value locale fieldId st Hvalue Hshared.
  destruct value as [ | | | | |items| |linkType id];
    try (exists st; cbn; now auto).
  - cbn [processFieldValue]. cbn [assetsOnly] in Hvalue.
    assert (Hitems : forall st0,
      assetsShared st0 ->
      exists st1,
        (fix each (items : list Value) : M (list Value) :=
           match items with
           | item :: rest =>
               bind
                 (if isLink item
                  then processLinkField svc cms cloneRec item locale fieldId
                  else processFieldValue svc cms cloneRec item locale fieldId)
                 (fun processed =>
                    bind (each rest)
                      (fun others => ret (processed :: others)))
           | [] => ret []
           end) items st0 = (Ok items, st1)
        /\ drafts st1 = drafts st0
        /\ processingSet st1 = processingSet st0
        /\ assetsShared st1).
    { revert items Hvalue. fix IHitems 1. intros [|item rest] Hitems st0 Hst0.
      - exists st0. auto.
      - cbn [forallb] in Hitems. apply andb_true_iff in Hitems as [Hitem Hrest].
        assert (Hfirst :
          Shared item st0
            (if isLink item
             then processLinkField svc cms cloneRec item locale fieldId
             else processFieldValue svc cms cloneRec item locale fieldId)).
        { destruct (isLink item) eqn:Hlink; [|now apply IH].
          destruct item as [ | | | | | | |itemType itemId]; try discriminate.
          cbn [assetsOnly] in Hitem. apply String.eqb_eq in Hitem as ->.
          now apply processLinkField_asset. }
        destruct Hfirst as (stf & Hok & Hd & Hp & Hs).
        unfold bind at 1. rewrite Hok.
        destruct (IHitems rest Hrest stf Hs) as (st1 & Hrun & Hd1 & Hp1 & Hs1).
        unfold bind at 1. rewrite Hrun. cbn.
        exists st1. repeat split; [congruence | congruence | exact Hs1]. }
    destruct (Hitems st Hshared) as (st1 & Hrun & Hd & Hp & Hs).
    exists st1. unfold bind at 1. rewrite Hrun. cbn. auto.
  - cbn [assetsOnly] in Hvalue. apply String.eqb_eq in Hvalue as ->.
    cbn [processFieldValue]. now apply processLinkField_asset.
Qed.

End AssetLinks.

(** X25. Assets are shared, not cloned. When every asset key of the clone map
    leads to the asset itself (as in the cleared map that a run starts
    with), the processing of a value without links other than asset links
    returns the value as it is, creates no draft, leaves the processing set
    as it was, and keeps the asset keys leading to the assets themselves. *)
Theorem asset_links_are_kept (svc : CloneService.Service)
    (cms : CloneService.Cms) (cloneRec : Entry -> string -> CloneService.M string)
    (value : Value) (locale fieldId : string) (st : CloneService.CloneState) :
  assetsShared st ->
  assetsOnly value = true ->
  exists st',
    CloneService.processFieldValue svc cms cloneRec value locale fieldId st
    = (Ok value, st')
    /\ CloneService.drafts st' = CloneService.drafts st
    /\ CloneService.processingSet st' = CloneService.processingSet st
    /\ assetsShared st'.
Proof.
  intros Hshared Hvalue.
  exact (processFieldValue_assets svc cms cloneRec value locale fieldId st
           Hvalue Hshared).
Qed.

Lemma asset_links_are_kept_witness :
  exists st',
    CloneService.processFieldValue
      (CloneService.newService "key" identityTranslator) loopCms
      (fun _ _ => CloneService.throw "unused")
      (VArr [VLink "Asset" "img1"; VStr "Bild"; VLink "Asset" "img1"])
      "en-US-POSIX" "gallery" CloneService.emptyState
    = (Ok (VArr [VLink "Asset" "img1"; VStr "Bild"; VLink "Asset" "img1"]), st')
    /\ CloneService.drafts st' = [].
Proof.
  destruct (asset_links_are_kept
              (CloneService.newService "key" identityTranslator) loopCms
              (fun _ _ => CloneService.throw "unused")
              (VArr [VLink "Asset" "img1"; VStr "Bild"; VLink "Asset" "img1"])
              "en-US-POSIX" "gallery" CloneService.emptyState)
    as (st' & Hrun & Hdrafts & _).
  - intros id target Hmap. cbn in Hmap. now rewrite lookup_empty in Hmap.
  - reflexivity.
  - exists st'. split; [exact Hrun | exact Hdrafts].
Defined.

(** ** A failed provider call (cloneService.js, incrementalTranslationService.js) *)

(** X27. A provider call that fails fails nothing else. When the provider
    rejects the request that the text translation of the clone makes for a
    text, the translation returns the text it was given; when it rejects the
    request for the body of a markdown text, the markdown translation returns
    the markdown text it was given; when it rejects the request of the
    incremental update, that translation returns its text too. None of the
    three, nor the translation of a bullet list, ever throws. *)
Theorem failed_provider_call_returns_the_text :
  (forall (svc : CloneService.Service) (deepl : Translator)
          (text fieldType : string) (sourceLang : option string) (e : string),
      CloneService.translator svc = Some deepl ->
      deepl (sentText svc text)
        (Js.orStr (default "" sourceLang) (CloneService.sourceLanguage svc))
        (CloneService.targetLanguage svc) noOptions
      = Rejected e ->
      CloneService.translateText svc text fieldType sourceLang = Ok text)
  /\ (forall (svc : CloneService.Service) (deepl : Translator)
             (content sourceLang e : string),
        CloneService.translator svc = Some deepl ->
        deepl (fst (CloneService.protectImages content)) sourceLang
          (CloneService.targetLanguage svc)
          (mkTranslateOptions true (Some "xml"))
        = Rejected e ->
        CloneService.translateMarkdownContent svc content sourceLang
        = Ok content)
  /\ (forall (svc : IncrementalService.Service) (deepl : Translator)
             (text : string) (ctx : TranslationContext) (e : string),
        deepl text (Js.orStr (tc_sourceLanguage ctx) "DE")
          (Js.orStr (tc_targetLanguage ctx) "IT") noOptions
        = Rejected e ->
        IncrementalService.translateText svc deepl text ctx = Ok text)
  /\ (forall svc text fieldType sourceLang,
        exists r, CloneService.translateText svc text fieldType sourceLang = Ok r)
  /\ (forall svc content sourceLang,
        exists r,
          CloneService.translateMarkdownContent svc content sourceLang = Ok r)
  /\ (forall svc bullets sourceLang,
        exists r, CloneService.translateBulletList svc bullets sourceLang = Ok r)
  /\ (forall svc deepl text ctx,
        exists r, IncrementalService.translateText svc deepl text ctx = Ok r).
Proof.
  split; [|split; [|split; [|split; [|split; [|split]]]]].
  - intros svc deepl text fieldType sourceLang e Htr Hfail.
    unfold CloneService.translateText. rewrite Htr.
    unfold sentText in Hfail.
    repeat (match goal with |- context [if ?b then _ else _] =>
              destruct b eqn:? end; cbn [negb orb andb]; try reflexivity).
    all: cbn [tryCatch bindO].
    all: try (rewrite Hfail; reflexivity).
  - intros svc deepl content sourceLang e Htr Hfail.
    unfold CloneService.translateMarkdownContent. rewrite Htr.
    destruct (CloneService.enabled svc); [|reflexivity]. cbn [negb].
    destruct (CloneService.protectImages content) as [processed images].
    cbn [fst] in Hfail. rewrite Hfail. reflexivity.
  - intros svc deepl text ctx e Hfail.
    unfold IncrementalService.translateText.
    destruct (_ || _); [reflexivity|]. rewrite Hfail. reflexivity.
  - apply clone_translateText_returns.
  - apply translateMarkdownContent_returns.
  - apply translateBulletList_returns.
  - apply incremental_translateText_returns.
Qed.
(** X28. A text that begins with the prefix as the clone writes it, the
    configured prefix and a space, keeps both through text translation.
    With the preservation of the prefix on and a provider at hand, the
    result is the prefix, the space and then: the provider's answer for the
    remainder alone, when translation is enabled for the type of the field, a
    source language is known, the remainder holds two characters or more
    apart from white space and the provider answers; the remainder as it
    was, otherwise. *)
Theorem prefixed_text_translates_the_remainder (svc : CloneService.Service)
    (deepl : Translator) (fieldType : string) (sourceLang : option string)
    (rest : string) :
  CloneService.preservePrefix svc = true ->
  CloneService.translator svc = Some deepl ->
  CloneService.translateText svc (clonePrefix svc +:+ rest) fieldType sourceLang
  = Ok (clonePrefix svc
        +:+ (let language :=
               Js.orStr (default "" sourceLang)
                 (CloneService.sourceLanguage svc) in
             if CloneService.enabled svc
                && Js.includesStr (CloneService.translateableTypes svc)
                     fieldType
                && Js.truthyStr language
                && (2 <=? String.length (Js.trim rest))%nat
             then
               match deepl rest language (CloneService.targetLanguage svc)
                       noOptions with
               | Fulfilled answer => answer
               | Rejected _ => rest
               end
             else rest)).
Proof.
  intros Hpre Htr. unfold CloneService.translateText.
  rewrite Htr, Hpre, clonePrefix_startsWith. cbn [andb].
  fold (clonePrefix svc). rewrite substringFrom_append.
  assert (Htext : Js.truthyStr (clonePrefix svc +:+ rest) = true).
  { unfold clonePrefix, Js.truthyStr.
    destruct (CloneService.prefix svc); reflexivity. }
  rewrite Htext.
  destruct (CloneService.enabled svc); cbn [negb orb andb]; [|reflexivity].
  destruct (Js.includesStr _ fieldType); cbn [negb andb]; [|reflexivity].
  destruct (Js.truthyStr (Js.orStr _ _)); cbn [negb andb]; [|reflexivity].
  destruct (Nat.leb_spec 2 (String.length (Js.trim rest))) as [Hlong|Hshort].
  - assert (Hcall : negb (Js.truthyStr (Js.trim rest))
                    || (String.length (Js.trim rest) <? 2)%nat = false).
    { apply orb_false_iff. split.
      - unfold Js.truthyStr. destruct (Js.trim rest); [simpl in Hlong; lia|].
        reflexivity.
      - apply Nat.ltb_ge. exact Hlong. }
    rewrite Hcall.
    destruct (deepl rest _ _ _) as [answer|e]; reflexivity.
  - assert (Hskip : negb (Js.truthyStr (Js.trim rest))
                    || (String.length (Js.trim rest) <? 2)%nat = true).
    { apply orb_true_iff. right. apply Nat.ltb_lt. exact Hshort. }
    rewrite Hskip. reflexivity.
Qed.

Lemma prefixed_text_translates_the_remainder_witness :
  CloneService.translateText (CloneService.newService "key" echoTranslator)
    "[Clone] Willkommen" "Symbol" (Some "DE")
  = Ok "[Clone] <Willkommen>".
Proof.
  exact (prefixed_text_translates_the_remainder
           (CloneService.newService "key" echoTranslator) echoTranslator
           "Symbol" (Some "DE") "Willkommen" eq_refl eq_refl).
Defined.

Lemma failed_provider_call_returns_the_text_witness :
  CloneService.translateText
    (CloneService.newService "key" captionFailingTranslator)
    "[Clone] Bild" "Symbol" (Some "DE")
  = Ok "[Clone] Bild"
  /\ CloneService.translateMarkdownContent
       (CloneService.newService "key" priceCaptionFailingTranslator)
       "Preisklasse $$$" "DE"
     = Ok "Preisklasse $$$"
  /\ IncrementalService.translateText readyService captionFailingTranslator
       "Bild" (mkTranslationContext "DE" "IT")
     = Ok "Bild".
Proof.
  destruct failed_provider_call_returns_the_text
    as (Hclone & Hmarkdown & Hupdate & _).
  split; [|split].
  - apply (Hclone _ captionFailingTranslator _ _ _ "quota exceeded");
      reflexivity.
  - apply (Hmarkdown _ priceCaptionFailingTranslator _ _ "quota exceeded");
      reflexivity.
  - apply (Hupdate _ captionFailingTranslator _ _ "quota exceeded").
    reflexivity.
Defined.

(** ** A provider that is down (cloneService.js) *)

Section FailingProvider.

Import CloneService.

Variable deepl : Translator.
Hypothesis failing : alwaysFails deepl.

Variable svc : Service.
Variable cms : Cms.
Variable now : string.

(** The service with the failing provider, and the service without any. *)
Let down : Service := withProvider svc (Some deepl).
Let off : Service := withProvider svc None.

Lemma translateText_down text fieldType sourceLang :
  translateText down text fieldType sourceLang = Ok text.
Proof.
  unfold translateText. cbn [translator down withProvider].
  repeat (match goal with |- context [if ?b then _ else _] =>
            destruct b end; cbn [negb orb andb]; try reflexivity).
  all: match goal with |- context [await (deepl ?a ?b ?c ?d)] =>
         destruct (failing a b c d) as [e ->] end; reflexivity.
Qed.

Lemma translateMarkdownContent_down content sourceLang :
  translateMarkdownContent down content sourceLang = Ok content.
Proof.
  unfold translateMarkdownContent. cbn [translator down withProvider].
  destruct (enabled _); [|reflexivity]. cbn [negb].
  destruct (protectImages content) as [processed images].
  match goal with |- context [await (deepl ?a ?b ?c ?d)] =>
    destruct (failing a b c d) as [e ->] end. reflexivity.
Qed.

Lemma translateBulletList_down bullets sourceLang :
  translateBulletList down bullets sourceLang = Ok bullets.
Proof.
  induction bullets as [|bullet rest IH]; cbn [translateBulletList];
    [reflexivity|].
  rewrite IH. unfold translateBullet.
  destruct bullet; try reflexivity.
  rewrite translateMarkdownContent_down. reflexivity.
Qed.

Lemma translateBulletList_off bullets sourceLang :
  translateBulletList off bullets sourceLang = Ok bullets.
Proof.
  induction bullets as [|bullet rest IH]; cbn [translateBulletList];
    [reflexivity|].
  rewrite IH. destruct bullet; reflexivity.
Qed.

Lemma transformValue_down contentTypeId fieldDef prefixFieldIds detected value :
  transformValue down contentTypeId fieldDef prefixFieldIds detected value
  = transformValue off contentTypeId fieldDef prefixFieldIds detected value.
Proof.
  unfold transformValue.
  change (isCultureField off) with (isCultureField down).
  change (isMarkdownField off) with (isMarkdownField down).
  change (getCultureValue off) with (getCultureValue down).
  change (prefix off) with (prefix down).
  destruct (isCultureField down _); [reflexivity|].
  destruct (isMarkdownField down _ _ && _).
  - destruct value; try reflexivity.
    + destruct (shouldPrefixField _ _);
        now rewrite translateMarkdownContent_down.
    + destruct (String.eqb _ "bulletList"); [|reflexivity].
      now rewrite translateBulletList_down, translateBulletList_off.
  - destruct value; try reflexivity.
    destruct (shouldPrefixField _ _); cbn [negb andb];
      (destruct (negb (isMarkdownField down _ _)); [|reflexivity]);
      now rewrite translateText_down.
Qed.


Lemma bind_same {X Y} (m1 m2 : M X) (k1 k2 : X -> M Y) (st : CloneState) :
  m1 st = m2 st ->
  (forall a st', k1 a st' = k2 a st') ->
  bind m1 k1 st = bind m2 k2 st.
Proof.
  intros Hm Hk. unfold bind. rewrite Hm.
  destruct (m2 st) as [[a|e|] st']; [apply Hk | reflexivity | reflexivity].
Qed.

Lemma tryCatchM_same {X} (body1 body2 : M X) (handler1 handler2 : string -> M X)
    (st : CloneState) :
  body1 st = body2 st ->
  (forall e st', handler1 e st' = handler2 e st') ->
  tryCatchM body1 handler1 st = tryCatchM body2 handler2 st.
Proof.
  intros Hbody Hhandler. unfold tryCatchM. rewrite Hbody.
  destruct (body2 st) as [[a|e|] st']; [reflexivity | apply Hhandler | reflexivity].
Qed.

Lemma findExistingAuthorIn_down authorFields targetCulture matchFields :
  findExistingAuthorIn down cms authorFields targetCulture matchFields
  = findExistingAuthorIn off cms authorFields targetCulture matchFields.
Proof.
  induction matchFields as [|matchField rest IH]; cbn [findExistingAuthorIn];
    [reflexivity|].
  rewrite IH.
  destruct (lookupProp matchField authorFields) as [[|[? []] ?]|];
    try reflexivity.
Qed.

Lemma relinkAuthor_down key id fieldId st :
  relinkAuthor down cms key id fieldId st
  = relinkAuthor off cms key id fieldId st.
Proof.
  unfold relinkAuthor.
  change (isAuthorField off) with (isAuthorField down).
  change (authorContentType off) with (authorContentType down).
  change (getCultureValue off) with (getCultureValue down).
  destruct (_ && _); [|reflexivity].
  apply bind_same; [reflexivity|]. intros originalAuthor st1.
  destruct (String.eqb _ _); [|reflexivity].
  destruct (getCultureValue down) as [targetCulture|]; [|reflexivity].
  apply bind_same; [|reflexivity].
  unfold lift, findExistingAuthor.
  now rewrite findExistingAuthorIn_down.
Qed.

(** The recursive calls of the two runs agree. *)
Variables recDown recOff : Entry -> string -> M string.
Hypothesis Hrec : forall entry locale st, recDown entry locale st = recOff entry locale st.

Lemma processLinkField_down linkValue locale fieldId st :
  processLinkField down cms recDown linkValue locale fieldId st
  = processLinkField off cms recOff linkValue locale fieldId st.
Proof.
  unfold processLinkField.
  destruct linkValue as [ | | | | | | |linkType id]; try reflexivity.
  apply bind_same; [reflexivity|]. intros st0 st1.
  destruct (cloneMap st0 !! _); [reflexivity|].
  destruct (bool_decide _); [reflexivity|].
  apply bind_same; [reflexivity|]. intros _ st2.
  apply tryCatchM_same; [|reflexivity].
  destruct (String.eqb linkType "Entry"); [|reflexivity].
  apply bind_same; [apply relinkAuthor_down|]. intros [link|] st3;
    [reflexivity|].
  apply bind_same; [reflexivity|]. intros sourceEntry st4.
  apply bind_same; [apply Hrec|]. reflexivity.
Qed.

Lemma processFieldValue_down :
  forall (value : Value) (locale fieldId : string) (st : CloneState),
    processFieldValue down cms recDown value locale fieldId st
    = processFieldValue off cms recOff value locale fieldId st.
Proof.
  fix IH 1. intros value locale fieldId st.
  destruct value as [ | | | | |items| |linkType id]; try reflexivity.
  - cbn [processFieldValue].
    apply bind_same; [|reflexivity].
    revert items st. fix IHitems 1. intros [|item rest] st.
    + reflexivity.
    + apply bind_same.
      * destruct (isLink item); [apply processLinkField_down | apply IH].
      * intros processed st1. apply bind_same; [apply IHitems|]. reflexivity.
  - apply processLinkField_down.
Qed.

Lemma processLocales_down fieldId entries :
  forall processedField st,
    processLocales down cms recDown fieldId entries processedField st
    = processLocales off cms recOff fieldId entries processedField st.
Proof.
  induction entries as [|[fieldLocale value] rest IH]; intros processedField st;
    cbn [processLocales]; [reflexivity|].
  apply bind_same; [apply processFieldValue_down|].
  intros processed st1. apply IH.
Qed.

Lemma processNormalLocales_down contentTypeId fieldDef prefixFieldIds detected
    entries :
  forall processedField st,
    processNormalLocales down cms recDown contentTypeId fieldDef prefixFieldIds
      detected entries processedField st
    = processNormalLocales off cms recOff contentTypeId fieldDef prefixFieldIds
        detected entries processedField st.
Proof.
  induction entries as [|[fieldLocale value] rest IH]; intros processedField st;
    cbn [processNormalLocales]; [reflexivity|].
  apply bind_same; [apply processFieldValue_down|].
  intros processed st1.
  apply bind_same; [now rewrite transformValue_down|].
  intros transformed st2. apply IH.
Qed.

Lemma processFieldDef_down sourceEntry locale prefixFieldIds detected
    entryFields fieldDef st :
  processFieldDef down cms now recDown sourceEntry locale prefixFieldIds
    detected entryFields fieldDef st
  = processFieldDef off cms now recOff sourceEntry locale prefixFieldIds
      detected entryFields fieldDef st.
Proof.
  unfold processFieldDef.
  change (shouldEmptyField off) with (shouldEmptyField down).
  change (shouldCopyAsIs off) with (shouldCopyAsIs down).
  change (isAuthorField off) with (isAuthorField down).
  destruct (lookupProp _ _) as [original|]; [|reflexivity].
  destruct (shouldEmptyField down _); [reflexivity|].
  destruct (shouldCopyAsIs down _);
    [apply bind_same; [apply processLocales_down | reflexivity]|].
  destruct (isAuthorField down _);
    [apply bind_same; [apply processLocales_down | reflexivity]|].
  apply bind_same; [apply processNormalLocales_down | reflexivity].
Qed.

Lemma processFieldDefs_down sourceEntry locale prefixFieldIds detected
    fieldDefs :
  forall entryFields st,
    processFieldDefs down cms now recDown sourceEntry locale prefixFieldIds
      detected fieldDefs entryFields st
    = processFieldDefs off cms now recOff sourceEntry locale prefixFieldIds
        detected fieldDefs entryFields st.
Proof.
  induction fieldDefs as [|fieldDef rest IH]; intros entryFields st;
    cbn [processFieldDefs]; [reflexivity|].
  apply bind_same; [apply processFieldDef_down|].
  intros entryFields' st1. apply IH.
Qed.

Lemma cloneEntryBody_down sourceEntry locale st :
  cloneEntryBody down cms now recDown sourceEntry locale st
  = cloneEntryBody off cms now recOff sourceEntry locale st.
Proof.
  unfold cloneEntryBody.
  apply bind_same; [reflexivity|]. intros st0 st1.
  destruct (cloneMap st0 !! _); [reflexivity|].
  apply tryCatchM_same; [|reflexivity].
  apply bind_same; [reflexivity|]. intros contentType st2.
  apply bind_same; [reflexivity|]. intros _ st3.
  apply bind_same; [apply processFieldDefs_down | reflexivity].
Qed.

End FailingProvider.

Lemma cloneEntryRecursive_down (deepl : Translator)
    (svc : CloneService.Service) (cms : CloneService.Cms) (now : string)
    (fuel : nat) :
  alwaysFails deepl ->
  forall sourceEntry locale st,
    CloneService.cloneEntryRecursive fuel (withProvider svc (Some deepl)) cms now
      sourceEntry locale st
    = CloneService.cloneEntryRecursive fuel (withProvider svc None) cms now
        sourceEntry locale st.
Proof.
  intros failing.
  induction fuel as [|fuel IH]; intros sourceEntry locale st; [reflexivity|].
  cbn [CloneService.cloneEntryRecursive].
  now apply cloneEntryBody_down.
Qed.

(** X29. A provider that rejects every request changes nothing in a first
    clone: the run with that provider and the run of the same service
    without any provider end with the same result, the same clone map and
    the same drafts, for every content. Every text of the drafts is as it
    is without translation, and prefix, culture and author links are applied
    as they are without translation. *)
Theorem failing_provider_clones_as_without_provider (deepl : Translator)
    (svc : CloneService.Service) (cms : CloneService.Cms) (now : string)
    (fuel : nat) (sourceEntryId targetLang : string)
    (st : CloneService.CloneState) :
  alwaysFails deepl ->
  CloneService.cloneEntry fuel (withProvider svc (Some deepl)) cms now
    sourceEntryId targetLang st
  = CloneService.cloneEntry fuel (withProvider svc None) cms now sourceEntryId
      targetLang st.
Proof.
  intros failing. unfold CloneService.cloneEntry.
  apply bind_same; [reflexivity|]. intros _ st1.
  apply bind_same; [reflexivity|]. intros sourceEntry st2.
  destruct (negb (String.eqb _ "cmsPage")); [reflexivity|].
  change (CloneService.detectSourceLocaleFromEntry
            (CloneService.withTargetLanguage (withProvider svc None)
               (Js.toLowerCase targetLang)))
    with (CloneService.detectSourceLocaleFromEntry
            (CloneService.withTargetLanguage (withProvider svc (Some deepl))
               (Js.toLowerCase targetLang))).
  set (detected := CloneService.detectSourceLocaleFromEntry _ _).
  destruct (negb (Js.truthyStr (default "" detected))); [reflexivity|].
  apply bind_same; [|reflexivity].
  exact (cloneEntryRecursive_down deepl
           (CloneService.withMainSourceLanguage
              (CloneService.withTargetLanguage svc (Js.toLowerCase targetLang))
              detected)
           cms now fuel failing sourceEntry "en-US-POSIX" st2).
Qed.

Lemma failing_provider_clones_as_without_provider_witness :
  let failing : Translator := fun _ _ _ _ => Rejected "quota exceeded" in
  let svc := CloneService.newService "key" echoTranslator in
  let run :=
    CloneService.cloneEntry 4 (withProvider svc (Some failing)) onePageCms
      "2025-01-01T00:00:00.000Z" "X" "IT" CloneService.emptyState in
  run
  = CloneService.cloneEntry 4 (withProvider svc None) onePageCms
      "2025-01-01T00:00:00.000Z" "X" "IT" CloneService.emptyState
  /\ map CloneService.d_fields (CloneService.drafts (snd run))
     = [[("title", [("en-US-POSIX", VStr "[Clone] Willkommen")]);
         ("culture", [("en-US-POSIX", VStr "it-IT")]);
         ("teaserText", [("en-US-POSIX", VStr "Default teaserText")])]].
Proof.
  intros failing svc run. split; [|reflexivity].
  apply (failing_provider_clones_as_without_provider failing svc onePageCms
           "2025-01-01T00:00:00.000Z" 4 "X" "IT" CloneService.emptyState).
  intros text src tgt opts. now exists "quota exceeded".
Defined.
